(* ===== verification/_CoqProject ===== *)
-Q . S2P
Prelude.v
Num.v
Common.v
Colour.v
Png.v
PngDec.v
Printf.v
Lcd.v
Screen.v
Hambands.v
Bus.v
Codec.v
Synth.v
Cplx.v
Exact.v
VnaMath.v
Fft.v
Dsp.v
Types.v
Props.v
Sweep.v
Calib.v
Layout.v
Storage.v
Backup.v
Measure.v
Calibrate.v
Process.v
Loop.v
Shell.v
Keypad.v
Values.v
Search.v
Match.v
SwrBw.v
Tune.v
Choke.v
Workref.v
Panels.v
