(* ===== verification/Prelude.v ===== *)
(** * NanoVNA-D firmware: a verification library

    The firmware of a hand-held vector network analyser (H4 build: STM32F303,
    480 x 320 display, 401 points, 192 kHz codec, no frequency table, no Z
    renormalisation). A sweep tunes the clock generator to every point, correlates
    the codec samples with the IF, forms the ratio of two channels, corrects it with
    the calibration and stores it; the stored sweep is smoothed, transformed,
    displayed, searched and evaluated. Settings and calibrations live in flash and
    in backup registers, screenshots in files.

    ** Parts and their files

    Shared: this file (integers, loops, list lemmas, tactics); Num.v (the [float]
    interface: [FloatOps], bit-exact binary32, and the field laws [ExactArith] of
    exact arithmetic); Cplx.v and Exact.v (complex numbers, constants and order in
    exact arithmetic); Colour.v (pixels).

    - Utilities: Common.v (common.c), Printf.v (chprintf.c), Hambands.v
      (vna_hambands.c).
    - Hardware drivers: Bus.v is the sequence of I2C transfers and sleeps that the
      drivers produce; Synth.v (si5351.c) and Codec.v (tlv320aic3204.c) produce it,
      and their theorems read the chips' registers back from it.
    - Signal path: Dsp.v (dsp.c and the interrupt of main.c), Measure.v (sweep and
      collection of a standard), Loop.v (the thread: sweep, commands, user
      interface, processing).
    - Instrument state: Types.v (the structures of nanovna.h and the variables of
      main.c, one record [vna]), Props.v (defaults, setters), Sweep.v (range,
      points, markers).
    - Calibration: Calib.v (error terms, correction, interpolation), Calibrate.v
      (the composition: collect the standards, finish, sweep again).
    - Processing: VnaMath.v (vna_math.c), Fft.v, Process.v (smoothing, time domain).
    - Storage: Layout.v (byte images of the saved structures), Storage.v
      (data_storage.c, flash.c), Backup.v (backup registers, start-up).
    - Readings: Values.v (trace formats, feed line), Search.v, Match.v, SwrBw.v,
      Tune.v, Choke.v, Workref.v, Panels.v (plot.c, measure.c and the
      vna_modules of these names).
    - Files: Png.v and PngDec.v (vna_png.c), Lcd.v (text on the display, lcd.c and
      the 7 x 11 font), Screen.v (screenshots, ui.c).
    - Control: Shell.v (the command line of main.c with its table, scripts and the
      commands on the instrument), Keypad.v (the on-screen keyboards of ui.c).

    A C function is a Gallina function of the same name; state is passed and
    returned. [vna F] holds the variables of main.c and the properties, [bench] adds
    the sampler; the driver state of the generator is a field of [vna]. Functions
    that act on one structure have one updater per field ([set_...]).

    ** Modelling decisions

    - Integers are [Z] with the wrap of the C type written where it can happen
      ([u8] ... [s64]). Floats are an abstract type with operations in the order of
      the source; theorems are stated for every instance, for binary32, or for
      exact arithmetic, as they say. Float to integer conversion saturates.
    - Memory that the code aliases is modelled as the code has it: the calibration
      rows that are standards first and error terms later, the in-place transform,
      the screenshot buffer seen as bytes and as words, flash pages. The panels of
      measure.c share one overlay and are separate records here.
    - What happens outside is an argument: the interrupts and the clock of every
      wait, the requests of the user, what the user interface and pending commands do
      to the state of the thread, the trace the user touches, the RTC stamp, the
      battery reading, the answers of the serial port, the addresses of two static
      blocks. FatFs, the flash and the two chips are interfaces with
      documented laws; each hypothesis has an instance.

    ** Groups of theorems

    - Measuring: the sweep ends and stores what it should ([sweep_measures]); a
      measurement uses the samples of its own window ([measurement_window]); the
      generator outputs the frequency asked for, whatever the history of its caches
      ([synth_sweep_accurate]); interrupted sweeps complete
      ([interrupted_sweep_completes]).
    - Calibrating: collect, finish, sweep reads the true reflection and transmission
      ([calibrated_measurement] on [full_calibration_corrects] and
      [cal_collect_effect]); interpolation ([interpolation_affine]).
    - Range and markers: [update_frequencies_consistent], [sweep_points_exact],
      [set_sweep_frequency_keeps_range].
    - Storage: flash refines an abstract store ([storage_refines]), images survive
      ([caldata_roundtrip]) and damage is seen ([one_word_corruption]); the session
      survives a power cycle ([backup_restores]).
    - Processing: [fft_is_radix2], [transform_is_inverse_dft],
      [transform_cache_sound], [smoothing_convolves].
    - Readings: impedances ([values_read_impedance]), crossings and peaks
      ([measure_search_value_brackets], [measure_get_value_exact],
      [parabolic_regression_exact], [marker_search_extremum]), panels
      ([lc_match_matches], [swr_bw_q_exact], [swr_bw_cross_correct],
      [choke_deembeds], [choke_worst_is_lowest], [tune_brackets_target],
      [reference_fits]), and that the searches end ([find_dip_terminates],
      [resonances_terminate]).
    - Files: what is saved is shown again, with its name over it ([bmp_roundtrip],
      [tiff_roundtrip], [png_roundtrip], [png_screenshot], [lcd_printf_draws]), malformed files end with a result and stay
      inside the image ([png_decode_safe]), a full card ([full_card_reports]).
    - Remote control: a typed line runs its command ([line_runs_command]) or is
      reported ([refused_line_reports]); scripts act like typing
      ([script_is_console]); [sweep_command_reports], [scan_bin_sends].
    - Keypad: the keys edit a text ([keypad_refines_text]) that becomes the value
      ([keypad_enters_frequency], [amplitude_moves_edge], [entered_date_valid]).

    ** Fuel

    Loops over a range are folds ([for_range]). Other loops have a fuel argument that
    is the C loop's own bound (turns of the fraction search, FFT passes, sweep
    points) or a measure that every round decreases (bytes left in the file, bytes
    left in the row, points up to the edge of the sweep); in each case a lemma shows
    that the fuel is not exhausted ([approximate_fraction_correct],
    [lz_feed_expands], [png_decode_safe], [sweep_measures], [find_dip_terminates],
    [resonances_terminate]). A function that could run out returns [option].

    ** Not modelled

    - ChibiOS, FatFs, CMSIS, the USB configuration, the linker scripts: third party
      code; the peripheral drivers (adc.c, dac.c, i2c.c, spi.h, rtc.c, gpio in
      hardware.c, board files), the boot code: register accesses only.
    - The rest of lcd.c (bus, fills, lines, small and scaled fonts), the icons, and
      the drawing of plot.c and of the panels: what they compute is pixels with no
      state that the rest reads.
    - The menus, touch calibration and the file browser of ui.c, vna_browser.c and
      vna_guide.c: calls into the operations modelled here; Loop.v takes their
      effect, and that of the shell commands, as an argument. Keypad.v takes the
      inputs of file names, of the cable and of the workflow panels so.
    - Of the shell: the commands that transfer the screen, talk to the touch panel,
      the SD card or the real-time clock (capture, touch, sd_..., time, dump), and
      those that print the build (info, version): an argument of Shell.v, none of
      them usable in scripts. The prompt text and the pixels of a message box.
    - The Python tools, the manual and the host tests. *)

From Stdlib Require Export ZArith Lia Bool.
From stdpp Require Export base list numbers strings.

#[global] Open Scope Z_scope.

(** [lia] eliminates [/], [mod], [quot] and [rem] by constants. *)
Ltac Zify.zify_post_hook ::= Z.to_euclidean_division_equations.

#[global] Arguments Z.eqb : simpl nomatch.
#[global] Arguments Z.ltb : simpl nomatch.
#[global] Arguments Z.leb : simpl nomatch.

(** ** Machine integers

    A w-bit C integer is a [Z]; the wrap-around of an assignment or of an
    arithmetic operation is written out with these functions. *)

Definition u8  (x : Z) : Z := x mod 256.
Definition u16 (x : Z) : Z := x mod 65536.
Definition u32 (x : Z) : Z := x mod 4294967296.
Definition u64 (x : Z) : Z := x mod 18446744073709551616.
Definition s8  (x : Z) : Z := (x + 128) mod 256 - 128.
Definition s16 (x : Z) : Z := (x + 32768) mod 65536 - 32768.
Definition s32 (x : Z) : Z := (x + 2147483648) mod 4294967296 - 2147483648.
Definition s64 (x : Z) : Z :=
  (x + 9223372036854775808) mod 18446744073709551616 - 9223372036854775808.

Create HintDb words.
Create Rewrite HintDb words.

Lemma u8_range x : 0 <= u8 x < 256.
Proof. unfold u8; lia. Qed.
Lemma u16_range x : 0 <= u16 x < 65536.
Proof. unfold u16; lia. Qed.
Lemma u32_range x : 0 <= u32 x < 4294967296.
Proof. unfold u32; lia. Qed.
Lemma u64_range x : 0 <= u64 x < 18446744073709551616.
Proof. unfold u64; lia. Qed.
Lemma s32_range x : -2147483648 <= s32 x < 2147483648.
Proof. unfold s32; lia. Qed.

Lemma u8_small x : 0 <= x < 256 -> u8 x = x.
Proof. unfold u8; lia. Qed.
Lemma u16_small x : 0 <= x < 65536 -> u16 x = x.
Proof. unfold u16; lia. Qed.
Lemma u32_small x : 0 <= x < 4294967296 -> u32 x = x.
Proof. unfold u32; lia. Qed.
Lemma u64_small x : 0 <= x < 18446744073709551616 -> u64 x = x.
Proof. unfold u64; lia. Qed.
Lemma s32_small x : -2147483648 <= x < 2147483648 -> s32 x = x.
Proof. unfold s32; lia. Qed.

#[export] Hint Resolve u8_range u16_range u32_range u64_range s32_range : words.
#[export] Hint Rewrite u8_small u16_small u32_small u64_small s32_small
  using lia : words.

Lemma u32_u32 x : u32 (u32 x) = u32 x.
Proof. apply u32_small, u32_range. Qed.
Lemma u32_s32 x : u32 (s32 x) = u32 x.
Proof. unfold u32, s32; lia. Qed.
Lemma s32_u32 x : s32 (u32 x) = s32 x.
Proof. unfold u32, s32; lia. Qed.
#[export] Hint Rewrite u32_u32 u32_s32 s32_u32 : words.

(** [words] unfolds every wrap-around and leaves the arithmetic to [lia]. *)
Ltac words := unfold u8, u16, u32, u64, s8, s16, s32, s64 in *; try lia.

(** Case analysis on the boolean comparisons of [Z] in the goal. *)
Ltac zcase :=
  match goal with
  | |- context [?a <? ?b] => destruct (Z.ltb_spec a b)
  | |- context [?a <=? ?b] => destruct (Z.leb_spec a b)
  | |- context [?a =? ?b] => destruct (Z.eqb_spec a b)
  end.

Ltac zcase_in H :=
  match type of H with
  | context [?a <? ?b] => destruct (Z.ltb_spec a b)
  | context [?a <=? ?b] => destruct (Z.leb_spec a b)
  | context [?a =? ?b] => destruct (Z.eqb_spec a b)
  end.

(** ** Flag words: single-bit tests and updates as the code writes them *)

Definition bit_set (flags m : Z) : Z := Z.lor flags m.
Definition bit_clr (flags m : Z) : Z := Z.land flags (Z.lnot m).
Definition bit_test (flags m : Z) : bool := negb (Z.land flags m =? 0).

Lemma bit_test_pow2 flags k :
  0 <= k -> bit_test flags (2 ^ k) = Z.testbit flags k.
Proof.
  intros Hk. unfold bit_test.
  destruct (Z.testbit flags k) eqn:E.
  - apply negb_true_iff, Z.eqb_neq. intros H0.
    assert (Z.testbit (Z.land flags (2 ^ k)) k = true) as H.
    { rewrite Z.land_spec, E, Z.pow2_bits_true; auto. }
    rewrite H0, Z.bits_0 in H. discriminate.
  - apply negb_false_iff, Z.eqb_eq. apply Z.bits_inj'. intros n Hn.
    rewrite Z.land_spec, Z.bits_0, Z.pow2_bits_eqb by lia.
    destruct (Z.eqb_spec k n) as [->|]; [by rewrite E|by rewrite andb_false_r].
Qed.

Lemma bit_test_set flags j k : 0 <= j -> 0 <= k ->
  bit_test (bit_set flags (2 ^ j)) (2 ^ k) = (j =? k) || bit_test flags (2 ^ k).
Proof.
  intros Hj Hk. rewrite !bit_test_pow2 by done. unfold bit_set.
  rewrite Z.lor_spec, Z.pow2_bits_eqb by done. apply orb_comm.
Qed.
Lemma bit_test_clr flags j k : 0 <= j -> 0 <= k ->
  bit_test (bit_clr flags (2 ^ j)) (2 ^ k) = negb (j =? k) && bit_test flags (2 ^ k).
Proof.
  intros Hj Hk. rewrite !bit_test_pow2 by done. unfold bit_clr.
  rewrite Z.land_spec, Z.lnot_spec, Z.pow2_bits_eqb by done. apply andb_comm.
Qed.

(** Clearing and setting whole masks. *)
Lemma bit_test_update st clr fl k : 0 <= k ->
  bit_test (bit_set (bit_clr st clr) fl) (2 ^ k) = Z.testbit fl k || (negb (Z.testbit clr k) && bit_test st (2 ^ k)).
Proof.
  intros Hk. rewrite !bit_test_pow2 by done. unfold bit_set, bit_clr.
  rewrite Z.lor_spec, Z.land_spec, Z.lnot_spec by done. destruct (Z.testbit st k), (Z.testbit clr k), (Z.testbit fl k); reflexivity.
Qed.

Lemma bit_set_id flags k : 0 <= k -> bit_test flags (2 ^ k) = true -> bit_set flags (2 ^ k) = flags.
Proof.
  intros Hk Ht. rewrite bit_test_pow2 in Ht by done. unfold bit_set. apply Z.bits_inj'. intros n Hn.
  rewrite Z.lor_spec, Z.pow2_bits_eqb by done. destruct (Z.eqb_spec k n) as [<-|]; [by rewrite Ht|apply orb_false_r].
Qed.

(** Disjoint fields of a packed word add up. *)
Lemma land_pow2_low a b k : 0 <= k -> 0 <= b < 2 ^ k -> Z.land (a * 2 ^ k) b = 0.
Proof.
  intros Hk Hb. apply Z.bits_inj'. intros n Hn.
  rewrite Z.land_spec, Z.bits_0, <- Z.shiftl_mul_pow2, Z.shiftl_spec by lia.
  destruct (Z.ltb_spec n k); [by rewrite Z.testbit_neg_r by lia|].
  assert (Z.testbit b n = false) as ->; [|by rewrite andb_false_r].
  apply Z.testbit_false; [lia|]. rewrite Z.div_small; [done|].
  split; [lia|]. eapply Z.lt_le_trans; [apply Hb|]. apply Z.pow_le_mono_r; lia.
Qed.

Lemma lor_add_pow2 a b k : 0 <= k -> 0 <= b < 2 ^ k -> Z.lor (a * 2 ^ k) b = a * 2 ^ k + b.
Proof.
  intros Hk Hb. pose proof (land_pow2_low a b k Hk Hb) as H.
  by rewrite <- Z.lxor_lor, Z.add_nocarry_lxor by done.
Qed.

(** ** C loops: [for (i = lo; i < hi; i++) body] *)

Definition for_range {S : Type} (lo hi : Z) (body : Z -> S -> S) (s : S) : S :=
  fold_left (fun s i => body i s) (seqZ lo (hi - lo)) s.

Lemma for_range_empty {S} lo hi (body : Z -> S -> S) s :
  hi <= lo -> for_range lo hi body s = s.
Proof. intros H. unfold for_range. by rewrite seqZ_nil by lia. Qed.

Lemma for_range_step {S} lo hi (body : Z -> S -> S) s :
  lo < hi -> for_range lo hi body s = for_range (lo + 1) hi body (body lo s).
Proof.
  intros H. unfold for_range. rewrite seqZ_cons by lia. cbn [fold_left].
  f_equal. f_equal; unfold Z.succ; lia.
Qed.

(** Loop invariant rule. *)
Lemma for_range_ind {S} (P : Z -> S -> Prop) lo hi body s :
  lo <= hi -> P lo s ->
  (forall i s, lo <= i < hi -> P i s -> P (i + 1) (body i s)) ->
  P hi (for_range lo hi body s).
Proof.
  intros Hle. remember (Z.to_nat (hi - lo)) as n eqn:Hn.
  revert lo s Hle Hn. induction n as [|n IH]; intros lo s Hle Hn H0 Hstep.
  - assert (lo = hi) as -> by lia. by rewrite for_range_empty by lia.
  - rewrite for_range_step by lia. apply IH; [lia|lia|apply Hstep; [lia|done]|].
    intros i s' Hi. apply Hstep. lia.
Qed.

(** What every round keeps. *)
Lemma for_range_keeps {S} (P : S -> Prop) lo hi body s : P s -> (forall i s, P s -> P (body i s)) -> P (for_range lo hi body s).
Proof. intros Hs Hb. unfold for_range. revert s Hs. induction (seqZ lo (hi - lo)) as [|i l IH]; intros s Hs; cbn [fold_left]; auto. Qed.

(** ** Tests over a range *)

Lemma forallb_seqZ (f : Z -> bool) lo n x : forallb f (seqZ lo n) = true -> lo <= x < lo + n -> f x = true.
Proof. intros A Hx. rewrite forallb_forall in A. apply A. rewrite <- list_elem_of_In, elem_of_seqZ. lia. Qed.

(** A test of all 16-bit values, as two nested ranges. *)
Lemma forallb_u16 (P : Z -> bool) v :
  forallb (fun hi => forallb (fun lo => P (hi * 256 + lo)) (seqZ 0 256)) (seqZ 0 256) = true -> 0 <= v < 65536 -> P v = true.
Proof.
  intros A Hv. replace v with (v / 256 * 256 + v mod 256) by lia.
  apply (forallb_seqZ (fun lo => P (v / 256 * 256 + lo)) 0 256); [|lia].
  apply (forallb_seqZ (fun hi => forallb (fun lo => P (hi * 256 + lo)) (seqZ 0 256)) 0 256); [exact A|lia].
Qed.

(** A loop that keeps the best value so far and its index: [better] a strict
    order, the result is a best one of the values; the first one, when in addition
    what is not better than [b] is beaten by whatever beats [b]. *)
Lemma for_range_best {A} (better : A -> A -> bool) (y : Z -> A) (n : Z) :
  1 <= n -> (forall a, better a a = false) ->
  (forall a b c, better a b = true -> better b c = true -> better a c = true) ->
  exists k, for_range 1 n (fun i '(v, k) => if better (y i) v then (y i, i) else (v, k)) (y 0, 0) = (y k, k) /\
    0 <= k < n /\ (forall j, 0 <= j < n -> better (y j) (y k) = false) /\
    ((forall a b c, better a b = false -> better c b = true -> better c a = true) ->
     forall j, 0 <= j < k -> better (y k) (y j) = true).
Proof.
  intros Hn Hirr Htr.
  apply (for_range_ind (fun i st => exists k, st = (y k, k) /\ 0 <= k < i /\
    (forall j, 0 <= j < i -> better (y j) (y k) = false) /\
    ((forall a b c, better a b = false -> better c b = true -> better c a = true) ->
     forall j, 0 <= j < k -> better (y k) (y j) = true))); [exact Hn| |].
  - exists 0. split; [done|]. split; [lia|]. split; [|lia]. intros j Hj. by replace j with 0 by lia.
  - intros i st Hi (k & -> & Hk & Hall & Hfst). destruct (better (y i) (y k)) eqn:E; [exists i|exists k];
      (split; [done|]; split; [lia|]); split.
    + intros j Hj. destruct (decide (j = i)) as [->|]; [apply Hirr|]. apply not_true_is_false. intros Hc.
      pose proof (Htr _ _ _ Hc E) as Hx. rewrite Hall in Hx by lia. discriminate.
    + intros Hneg j Hj. apply Hneg with (y k); [apply Hall; lia|exact E].
    + intros j Hj. destruct (decide (j = i)) as [->|]; [exact E|apply Hall; lia].
    + exact Hfst.
Qed.

(** The same loop on two states. *)
Lemma for_range_ind2 {S} (P : Z -> S -> S -> Prop) lo hi body s1 s2 :
  lo <= hi -> P lo s1 s2 ->
  (forall i s1 s2, lo <= i < hi -> P i s1 s2 -> P (i + 1) (body i s1) (body i s2)) ->
  P hi (for_range lo hi body s1) (for_range lo hi body s2).
Proof.
  intros Hle. remember (Z.to_nat (hi - lo)) as n eqn:Hn.
  revert lo s1 s2 Hle Hn. induction n as [|n IH]; intros lo s1 s2 Hle Hn H0 Hstep.
  - assert (lo = hi) as -> by lia. by rewrite !for_range_empty by lia.
  - rewrite !(for_range_step lo) by lia. apply IH; [lia|lia|apply Hstep; [lia|done]|].
    intros i s1' s2' Hi. apply Hstep. lia.
Qed.

(** ** Arrays and C strings

    A C array is a list indexed by a [Z]; a C string is the list of its
    characters (unsigned bytes, as [char] is on ARM) without the
    terminator, so the head of the empty list reads as the terminator. *)

Definition ch_at (s : list Z) (i : nat) : Z := nth i s 0.
Definition peek (s : list Z) : Z := hd 0 s.

Definition cstring (s : list Z) : Prop := Forall (fun c => 0 < c < 256) s.

(** Character codes of a Rocq string, for literals of the source. *)
Fixpoint cstr (s : string) : list Z :=
  match s with
  | EmptyString => []
  | String a s' => Z.of_N (Ascii.N_of_ascii a) :: cstr s'
  end.

(** The C string that starts at offset [i] of a buffer: up to the first NUL. *)
Fixpoint until_nul (s : list Z) : list Z :=
  match s with
  | [] => []
  | c :: s' => if c =? 0 then [] else c :: until_nul s'
  end.
Definition string_at (buf : list Z) (i : nat) : list Z := until_nul (drop i buf).

Lemma until_nul_cstring s : Forall (fun c => 0 < c) s -> until_nul s = s.
Proof.
  induction 1 as [|c s Hc _ IH]; cbn; [done|].
  destruct (Z.eqb_spec c 0); [lia|]. by rewrite IH.
Qed.

Lemma until_nul_app_nul s t :
  Forall (fun c => 0 < c) s -> until_nul (s ++ 0 :: t) = s.
Proof.
  induction 1 as [|c s Hc _ IH]; cbn; [done|].
  destruct (Z.eqb_spec c 0); [lia|]. by rewrite IH.
Qed.

Lemma lor_range a b k : 0 <= k -> 0 <= a < 2 ^ k -> 0 <= b < 2 ^ k -> 0 <= Z.lor a b < 2 ^ k.
Proof.
  intros Hk Ha Hb. assert (E : Z.lor a b = Z.lor a b mod 2 ^ k).
  { rewrite <- Z.land_ones, Z.land_lor_distr_l, !Z.land_ones, !Z.mod_small by lia. done. }
  rewrite E. apply Z.mod_pos_bound. lia.
Qed.

(** ** Bit fields as arithmetic *)

(** Extracting a field of [w] bits at offset [k]. *)
Lemma field_shiftr x w k : 0 <= w -> 0 <= k ->
  Z.shiftr (Z.land x (Z.shiftl (Z.ones w) k)) k = (x / 2 ^ k) mod 2 ^ w.
Proof.
  intros Hw Hk. rewrite <- Z.shiftr_div_pow2, <- Z.land_ones by lia.
  rewrite Z.shiftr_land. f_equal. rewrite Z.shiftr_shiftl_l by lia.
  by replace (k - k) with 0 by lia.
Qed.

Lemma field_in_place x w k : 0 <= w -> 0 <= k ->
  Z.land x (Z.shiftl (Z.ones w) k) = (x / 2 ^ k) mod 2 ^ w * 2 ^ k.
Proof.
  intros Hw Hk. rewrite <- field_shiftr, <- Z.shiftl_mul_pow2 by lia.
  apply Z.bits_inj'. intros n Hn.
  rewrite Z.shiftl_spec by lia. destruct (Z.lt_ge_cases n k).
  - rewrite (Z.testbit_neg_r _ (n - k)) by lia.
    rewrite Z.land_spec, Z.shiftl_spec, (Z.testbit_neg_r _ (n - k)) by lia.
    by rewrite andb_false_r.
  - rewrite Z.shiftr_spec by lia. by replace (n - k + k) with n by lia.
Qed.

Lemma land_mask x w : 0 <= w -> Z.land x (Z.ones w) = x mod 2 ^ w.
Proof. apply Z.land_ones. Qed.
Lemma u8_land x : u8 x = Z.land x 255.
Proof. symmetry. apply (land_mask x 8). lia. Qed.

Lemma testbit_above x k n : 0 <= k <= n -> 0 <= x < 2 ^ k -> Z.testbit x n = false.
Proof.
  intros Hk Hx. apply Z.testbit_false; [lia|]. rewrite Z.div_small; [done|].
  split; [lia|]. eapply Z.lt_le_trans; [apply Hx|]. apply Z.pow_le_mono_r; lia.
Qed.
