(* ===== verification/Num.v ===== *)
(** * Arithmetic interface of the firmware's [float] code

    The sources compute in C [float] under [-ffast-math
    -fsingle-precision-constant].  Every floating-point routine is written once
    against [FloatOps]; [binary32_ops] instantiates it with IEEE binary32
    (bit-exact, executable), and [ExactArith] states the field laws under which
    the algebraic theorems hold, discharged by the rationals [Qc]. *)

From S2P Require Import Prelude.
From Stdlib Require Import SpecFloat QArith Qcanon Field.

Local Open Scope Z_scope.

(** ** The interface *)

Class FloatOps (F : Type) := {
  fadd : F -> F -> F;
  fsub : F -> F -> F;
  fmul : F -> F -> F;
  fdiv : F -> F -> F;
  fneg : F -> F;
  flt  : F -> F -> bool;          (* a < b *)
  feqb : F -> F -> bool;          (* a == b *)
  f_of_Z : Z -> F;                (* integer to float conversion *)
  f_trunc : F -> Z;               (* float to integer conversion, toward zero *)
  f_lit : Z -> Z -> F;            (* the literal m * 10^e *)
  f_isinf : F -> bool;            (* vna_isinff *)
  ffma : F -> F -> F -> F         (* z + x * y, rounded once *)
}.

Declare Scope float_scope.
Delimit Scope float_scope with F.
Infix "+" := fadd : float_scope.
Infix "-" := fsub : float_scope.
Infix "*" := fmul : float_scope.
Infix "/" := fdiv : float_scope.
Notation "- x" := (fneg x) : float_scope.
Infix "<?" := flt : float_scope.

Definition f0 {F} `{FloatOps F} : F := f_of_Z 0.
Definition f1 {F} `{FloatOps F} : F := f_of_Z 1.
(** [a > b] and [a != b] as the code writes them. *)
Definition fgt {F} `{FloatOps F} (a b : F) : bool := flt b a.
Definition fge {F} `{FloatOps F} (a b : F) : bool := flt b a || feqb a b.
Definition fle {F} `{FloatOps F} (a b : F) : bool := flt a b || feqb a b.
Definition fneqb {F} `{FloatOps F} (a b : F) : bool := negb (feqb a b).

(** ** The instance the processor runs: IEEE binary32 *)

Definition b32_prec : Z := 24.
Definition b32_emax : Z := 128.

Definition b32_of_Z (z : Z) : spec_float := binary_normalize b32_prec b32_emax z 0 false.

(** Correctly rounded quotient of two integers (for decimal literals). *)
Definition b32_of_ratio (n : Z) (d : positive) : spec_float :=
  match n with
  | Z0 => S754_zero false
  | Zpos p =>
      let '(mz, ez, lz) := SFdiv_core_binary b32_prec b32_emax (Zpos p) 0 (Zpos d) 0 in
      binary_round_aux b32_prec b32_emax false mz ez lz
  | Zneg p =>
      let '(mz, ez, lz) := SFdiv_core_binary b32_prec b32_emax (Zpos p) 0 (Zpos d) 0 in
      binary_round_aux b32_prec b32_emax true mz ez lz
  end.

Definition b32_lit (m e : Z) : spec_float :=
  if 0 <=? e then b32_of_Z (m * 10 ^ e) else b32_of_ratio m (Z.to_pos (10 ^ (- e))).

Definition b32_trunc (x : spec_float) : Z :=
  match x with
  | S754_finite s m e =>
      let a := if 0 <=? e then Zpos m * 2 ^ e else Zpos m / 2 ^ (- e) in
      if s then - a else a
  | _ => 0
  end.

(** The fused multiply-add: the exact sum, rounded once.  With a zero or special
    operand one of the two operations is exact. *)
Definition b32_fma (x y z : spec_float) : spec_float :=
  match x, y, z with
  | S754_finite sx mx ex, S754_finite sy my ey, S754_finite sz mz ez =>
      let ep := ex + ey in
      let e := Z.min ep ez in
      binary_normalize b32_prec b32_emax
        (cond_Zopp (xorb sx sy) (Zpos (mx * my)) * 2 ^ (ep - e) + cond_Zopp sz (Zpos mz) * 2 ^ (ez - e))
        e false
  | _, _, _ => SFadd b32_prec b32_emax z (SFmul b32_prec b32_emax x y)
  end.

#[export] Instance binary32_ops : FloatOps spec_float := {
  fadd := SFadd b32_prec b32_emax;
  fsub := SFsub b32_prec b32_emax;
  fmul := SFmul b32_prec b32_emax;
  fdiv := SFdiv b32_prec b32_emax;
  fneg := SFopp;
  flt  := SFltb;
  feqb := SFeqb;
  f_of_Z := b32_of_Z;
  f_trunc := b32_trunc;
  f_lit := b32_lit;
  f_isinf := fun x => match x with S754_infinity _ => true | _ => false end;
  ffma := b32_fma
}.

(** *** Encodings, for the [union] of a float and its 32 bits *)

Definition b32_bits (x : spec_float) : Z :=
  match x with
  | S754_zero s => if s then 2147483648 else 0
  | S754_infinity s => (if s then 2147483648 else 0) + 2139095040
  | S754_nan => 2143289344
  | S754_finite s m e =>
      (if s then 2147483648 else 0) +
      (if Zpos m <? 8388608 then Zpos m else (e + 150) * 8388608 + (Zpos m - 8388608))
  end.

Definition b32_of_bits (b : Z) : spec_float :=
  let s := 2147483648 <=? b in
  let ex := (b / 8388608) mod 256 in
  let m := b mod 8388608 in
  if ex =? 255 then (if m =? 0 then S754_infinity s else S754_nan)
  else if ex =? 0 then (if m =? 0 then S754_zero s else S754_finite s (Z.to_pos m) (-149))
  else S754_finite s (Z.to_pos (m + 8388608)) (ex - 150).

(** ** Exact arithmetic *)

Class ExactArith (F : Type) `{FloatOps F} := {
  ea_field : field_theory f0 f1 fadd fmul fsub fneg fdiv (fdiv f1) (@eq F);
  ea_feqb : forall a b : F, feqb a b = true <-> a = b;
  ea_sumsq : forall a b : F, fadd (fmul a a) (fmul b b) = f0 -> a = f0 /\ b = f0;
  ea_fma : forall x y z : F, ffma x y z = fadd z (fmul x y);
  ea_of_Z_add : forall a b, f_of_Z (a + b) = fadd (f_of_Z a) (f_of_Z b);
  ea_of_Z_mul : forall a b, f_of_Z (a * b) = fmul (f_of_Z a) (f_of_Z b);
  ea_of_Z_inj : forall a b, f_of_Z a = f_of_Z b -> a = b;
  ea_lit : forall m e, 0 <= e -> fmul (f_lit m (- e)) (f_of_Z (10 ^ e)) = f_of_Z m
}.

(** Exact truncation, as the index computations use it. *)
Class ExactTrunc (F : Type) `{FloatOps F} := {
  et_trunc_ratio : forall a b c : Z, 0 <= a -> 0 < b -> 0 <= c ->
    f_trunc (fmul (fdiv (f_of_Z a) (f_of_Z b)) (f_of_Z c)) = a * c / b
}.

(** The rationals, an executable exact instance. *)

Definition Qc_of_Z (z : Z) : Qc := Q2Qc (inject_Z z).
Definition Qc_trunc (q : Qc) : Z := Z.quot (Qnum q) (Zpos (Qden q)).
Definition Qc_lit (m e : Z) : Qc :=
  if 0 <=? e then Qc_of_Z (m * 10 ^ e) else Qcdiv (Qc_of_Z m) (Qc_of_Z (10 ^ (- e))).
Definition Qc_ltb (a b : Qc) : bool := match (a ?= b)%Qc with Lt => true | _ => false end.

#[export] Instance Qc_ops : FloatOps Qc := {
  fadd := Qcplus;
  fsub := Qcminus;
  fmul := Qcmult;
  fdiv := Qcdiv;
  fneg := Qcopp;
  flt  := Qc_ltb;
  feqb := Qc_eq_bool;
  f_of_Z := Qc_of_Z;
  f_trunc := Qc_trunc;
  f_lit := Qc_lit;
  f_isinf := fun _ => false;
  ffma := fun x y z => Qcplus z (Qcmult x y)
}.

Lemma Qc_of_Z_add a b : Qc_of_Z (a + b) = Qcplus (Qc_of_Z a) (Qc_of_Z b).
Proof.
  apply Qc_is_canon. unfold Qc_of_Z, Qcplus. cbn -[Qred Qplus inject_Z].
  rewrite !Qred_correct. unfold Qeq. cbn. lia.
Qed.

Lemma Qc_of_Z_mul a b : Qc_of_Z (a * b) = Qcmult (Qc_of_Z a) (Qc_of_Z b).
Proof.
  apply Qc_is_canon. unfold Qc_of_Z, Qcmult. cbn -[Qred Qmult inject_Z].
  rewrite !Qred_correct. unfold Qeq. cbn. lia.
Qed.

Lemma Qc_of_Z_inj a b : Qc_of_Z a = Qc_of_Z b -> a = b.
Proof.
  intros H. apply (f_equal this) in H. cbn -[Qred] in H.
  assert (Qeq (inject_Z a) (inject_Z b)) as E.
  { rewrite <- (Qred_correct (inject_Z a)), <- (Qred_correct (inject_Z b)).
    by rewrite H. }
  unfold Qeq in E. cbn in E. lia.
Qed.

Lemma sumsq_weighted x y p q :
  0 < p -> 0 < q -> x * x * p + y * y * q = 0 -> x = 0 /\ y = 0.
Proof.
  intros Hp Hq H. pose proof (Z.square_nonneg x). pose proof (Z.square_nonneg y).
  pose proof (Z.mul_nonneg_nonneg (x * x) p ltac:(lia) ltac:(lia)).
  pose proof (Z.mul_nonneg_nonneg (y * y) q ltac:(lia) ltac:(lia)).
  assert (x * x * p = 0) as Hx by lia. assert (y * y * q = 0) as Hy by lia.
  apply Z.mul_eq_0_l in Hx; [|lia]. apply Z.mul_eq_0_l in Hy; [|lia].
  split; [destruct (Z.mul_eq_0 x x)|destruct (Z.mul_eq_0 y y)]; tauto.
Qed.

Lemma Qc_sumsq (a b : Qc) : (a * a + b * b = 0)%Qc -> a = 0%Qc /\ b = 0%Qc.
Proof.
  intros H. apply (f_equal this) in H. unfold Qcplus, Qcmult in H.
  cbn -[Qred Qmult Qplus] in H.
  assert ((a * a + b * b == 0)%Q) as E.
  { rewrite <- (Qred_correct (a * a)), <- (Qred_correct (b * b)).
    rewrite <- Qred_correct. by rewrite H. }
  destruct a as [[na da] ca], b as [[nb db] cb]. cbn in *.
  unfold Qeq in E. cbn in E.
  destruct (sumsq_weighted na nb (Zpos (db * db)) (Zpos (da * da))) as [-> ->];
    [lia|lia|lia|].
  split; apply Qc_is_canon; reflexivity.
Qed.

Lemma Qc_field_theory :
  field_theory (f0 : Qc) f1 fadd fmul fsub fneg fdiv (fdiv f1) eq.
Proof.
  assert (forall p : Qc, fdiv f1 p = Qcinv p) as Hinv.
  { intros p. change (fdiv f1 p) with (Qcmult 1 (Qcinv p)). apply Qcmult_1_l. }
  destruct Qcft as [R N D L]. split; [exact R|exact N| |].
  - intros p q. rewrite Hinv. exact (D p q).
  - intros p Hp. rewrite Hinv. exact (L p Hp).
Qed.

Lemma Qc_lit_exact m e : 0 <= e -> Qcmult (Qc_lit m (- e)) (Qc_of_Z (10 ^ e)) = Qc_of_Z m.
Proof.
  intros He. unfold Qc_lit. case_match eqn:E.
  - assert (e = 0) as -> by lia. rewrite <- Qc_of_Z_mul. f_equal. lia.
  - rewrite Z.opp_involutive. assert (Hp : 0 < 10 ^ e) by (apply Z.pow_pos_nonneg; lia).
    unfold Qcdiv. rewrite <- Qcmult_assoc, (Qcmult_comm (Qcinv _)), Qcmult_inv_r, Qcmult_1_r; [done|].
    intros E0. apply (Qc_of_Z_inj _ 0) in E0. lia.
Qed.

#[export] Instance Qc_exact : ExactArith Qc.
Proof.
  split.
  - exact Qc_field_theory.
  - intros a b. cbn. split; [apply Qc_eq_bool_correct|intros ->].
    unfold Qc_eq_bool. destruct (Qc_eq_dec b b); congruence.
  - exact Qc_sumsq.
  - reflexivity.
  - exact Qc_of_Z_add.
  - exact Qc_of_Z_mul.
  - exact Qc_of_Z_inj.
  - exact Qc_lit_exact.
Qed.

Lemma Qc_trunc_eq (q : Qc) (n d : Z) : 0 <= n -> 0 < d ->
  (this q == inject_Z n / inject_Z d)%Q -> Qc_trunc q = n / d.
Proof.
  intros Hn Hd E. unfold Qc_trunc. destruct q as [[p e] c]. cbn [Qnum Qden this] in *.
  assert (E' : p * d = n * Zpos e).
  { unfold Qeq, Qdiv, Qmult, Qinv, inject_Z in E. cbn in E. destruct d as [|d|d]; try lia.
    cbn in E. lia. }
  assert (0 <= p) by nia. rewrite Z.quot_div_nonneg by lia.
  apply (Z.div_unique_pos n d _ (n - d * (p / Zpos e))); [|lia].
  pose proof (Z.div_mod p (Zpos e) ltac:(lia)). pose proof (Z.mod_pos_bound p (Zpos e) ltac:(lia)). nia.
Qed.

#[export] Instance Qc_exact_trunc : ExactTrunc Qc.
Proof.
  split. intros a b c Ha Hb Hc. cbn [f_trunc fmul fdiv f_of_Z Qc_ops].
  apply Qc_trunc_eq; [nia|lia|]. unfold Qcdiv, Qcmult, Qcinv, Qc_of_Z. cbn [this Q2Qc].
  rewrite !Qred_correct. rewrite inject_Z_mult. unfold Qdiv. ring.
Qed.

(** ** The 32-bit encoding of a float, for the code that reads it as an integer *)

Class FloatBits (F : Type) := {
  f_bits : F -> Z;
  f_of_bits : Z -> F
}.

#[export] Instance binary32_bits : FloatBits spec_float := {
  f_bits := b32_bits;
  f_of_bits := b32_of_bits
}.

(** For the rationals: the encoding of the nearest float. *)
#[export] Instance Qc_bits : FloatBits Qc := {
  f_bits := fun q => b32_bits (b32_of_ratio (Qnum q) (Qden q));
  f_of_bits := fun b =>
    match b32_of_bits b with
    | S754_finite s m e =>
        let v := if 0 <=? e then Qc_of_Z (Zpos m * 2 ^ e)
                 else Qcdiv (Qc_of_Z (Zpos m)) (Qc_of_Z (2 ^ (- e))) in
        if s then Qcopp v else v
    | _ => Qc_of_Z 0
    end
}.

(** ** Order

    What the searches for extrema rely on: [<] is a strict order.  It holds of
    every pair of floats, infinities and not-a-numbers included. *)

Class FloatOrder (F : Type) `{FloatOps F} := {
  flt_irrefl : forall a : F, flt a a = false;
  flt_trans : forall a b c : F, flt a b = true -> flt b c = true -> flt a c = true
}.

(** The position of a float on the line, as a triple compared lexicographically;
    a not-a-number has none. *)
Definition b32_key (x : spec_float) : option (Z * Z * Z) :=
  match x with
  | S754_nan => None
  | S754_infinity s => Some (if s then -2 else 2, 0, 0)
  | S754_zero _ => Some (0, 0, 0)
  | S754_finite s m e => Some (if s then (-1, - e, - Zpos m) else (1, e, Zpos m))
  end.
Definition key_lt (a b : option (Z * Z * Z)) : Prop :=
  match a, b with
  | Some (a1, a2, a3), Some (b1, b2, b3) => a1 < b1 \/ (a1 = b1 /\ (a2 < b2 \/ (a2 = b2 /\ a3 < b3)))
  | _, _ => False
  end.

Lemma SFltb_key x y : SFltb x y = true <-> key_lt (b32_key x) (b32_key y).
Proof.
  unfold SFltb. destruct x as [s|s| |s m e], y as [s'|s'| |s' m' e']; try destruct s; try destruct s';
    cbn; try (split; [first [discriminate|lia]|first [discriminate|lia]]);
    try (change (PosDef.Pos.compare_cont Eq m m') with (Pos.compare m m'); destruct (Z.compare_spec e e'); cbn;
      [destruct (Pos.compare_spec m m'); cbn| |]; split; first [discriminate|lia]).
Qed.

#[export] Instance binary32_order : FloatOrder spec_float.
Proof.
  split.
  - intros a. apply not_true_is_false. cbn. rewrite SFltb_key. destruct (b32_key a) as [[[x y] z]|]; cbn; lia.
  - intros a b c. cbn. rewrite !SFltb_key.
    destruct (b32_key a) as [[[? ?] ?]|], (b32_key b) as [[[? ?] ?]|], (b32_key c) as [[[? ?] ?]|]; cbn; lia.
Qed.

#[export] Instance Qc_order : FloatOrder Qc.
Proof.
  split.
  - intros a. cbn. unfold Qc_ltb. destruct (Qccompare a a) eqn:E; try done. apply Qclt_alt in E. by apply Qclt_not_eq in E.
  - intros a b c. cbn. unfold Qc_ltb. destruct (Qccompare a b) eqn:E; try done. destruct (Qccompare b c) eqn:E'; try done.
    intros _ _. apply Qclt_alt in E, E'. by rewrite (proj1 (Qclt_alt _ _) (Qclt_trans _ _ _ E E')).
Qed.

(** In exact arithmetic the order is that of an ordered field. *)
Class ExactOrder (F : Type) `{ExactArith F} := {
  eo_order :: FloatOrder F;
  eo_total : forall a b : F, flt a b = false -> flt b a = false -> a = b;
  eo_add : forall a b c : F, flt a b = true -> flt (fadd a c) (fadd b c) = true;
  eo_mul : forall a b : F, flt f0 a = true -> flt f0 b = true -> flt f0 (fmul a b) = true;
  eo_of_Z : forall z, 0 < z -> flt f0 (f_of_Z z : F) = true
}.

Lemma Qc_ltb_lt (a b : Qc) : Qc_ltb a b = true <-> (a < b)%Qc.
Proof.
  unfold Qc_ltb. rewrite Qclt_alt. destruct (Qccompare a b); split; congruence.
Qed.

#[export] Instance Qc_exact_order : ExactOrder Qc.
Proof.
  split.
  - exact _.
  - intros a b. cbn. intros Hab Hba. apply not_true_iff_false in Hab, Hba. rewrite Qc_ltb_lt in Hab, Hba.
    apply Qcle_antisym; by apply Qcnot_lt_le.
  - intros a b c. cbn. rewrite !Qc_ltb_lt. intros E. unfold Qclt in *. cbn. rewrite !Qred_correct.
    by apply Qplus_lt_l.
  - intros a b. change (f0 : Qc) with (Qc_of_Z 0). cbn. rewrite !Qc_ltb_lt. intros Ha Hb.
    change (Qc_of_Z 0) with (Q2Qc 0) in *. replace (Q2Qc 0) with (Qcmult (Q2Qc 0) b) by apply Qcmult_0_l.
    by apply Qcmult_lt_compat_r.
  - intros z Hz. change (f0 : Qc) with (Qc_of_Z 0). cbn. rewrite Qc_ltb_lt. unfold Qclt, Qc_of_Z. cbn -[Qred].
    rewrite !Qred_correct. unfold Qlt. cbn. lia.
Qed.
