(* ===== verification/Common.v ===== *)
(** * common.c: string parsing, argument splitting and PackBits compression

    The compact replacements of the C string routines used by the shell, and
    the PackBits compressor of the screen capture. *)

From S2P Require Import Prelude Num.

(** ** Numbers: [my_atoi], [my_atoui], [my_atof] *)

Definition isdigit (c : Z) : bool := (48 <=? c) && (c <=? 57).

(** [while ((c = *p++ - '0') < 10) value = value * 10 + c;] *)
Fixpoint my_atoi_loop (p : list Z) (value : Z) : Z :=
  match p with
  | [] => value
  | ch :: p' =>
      let c := u32 (ch - 48) in
      if c <? 10 then my_atoi_loop p' (s32 (value * 10 + c)) else value
  end.

Definition my_atoi (p : list Z) : Z :=
  let neg := peek p =? 45 in
  let p := if neg then tl p else p in
  let p := if peek p =? 43 then tl p else p in
  let value := my_atoi_loop p 0 in
  if neg then s32 (- value) else value.

(** One character as a digit value, as the unsigned expressions of
    [my_atoui] compute it. *)
Definition digit_of (ch : Z) : Z :=
  let c := u32 (ch - 48) in
  if 65 - 48 <=? c then u32 (Z.land c (u32 (Z.lnot 32)) - (65 - 48) + 10) else c.

Fixpoint my_atoui_loop (radix : Z) (p : list Z) (value : Z) : Z :=
  match p with
  | [] => value
  | ch :: p' =>
      let c := digit_of ch in
      if radix <=? c then value else my_atoui_loop radix p' (u32 (value * radix + c))
  end.

Definition my_atoui (p : list Z) : Z :=
  let p := if peek p =? 43 then tl p else p in
  if peek p =? 48 then
    let c1 := ch_at p 1 in
    if c1 =? 120 then my_atoui_loop 16 (drop 2 p) 0
    else if c1 =? 111 then my_atoui_loop 8 (drop 2 p) 0
    else if c1 =? 98 then my_atoui_loop 2 (drop 2 p) 0
    else my_atoui_loop 10 p 0
  else my_atoui_loop 10 p 0.

Section Atof.
Context {F : Type} `{FloatOps F}.

Fixpoint skip_digits (p : list Z) : list Z :=
  match p with
  | c :: p' => if isdigit c then skip_digits p' else p
  | [] => []
  end.

(** The fraction loop: [d *= 1e-1f; x += d * digit;] *)
Fixpoint my_atof_frac (p : list Z) (d x : F) : list Z * F :=
  match p with
  | c :: p' =>
      if isdigit c then
        let d := fmul d (f_lit 1 (-1)) in
        my_atof_frac p' d (fadd x (fmul d (f_of_Z (c - 48))))
      else (p, x)
  | [] => ([], x)
  end.

Definition my_atof_exp (p : list Z) : Z :=
  let c := peek p in
  if (c =? 101) || (c =? 69) then my_atoi (tl p)
  else if c =? 71 then 9 else if c =? 77 then 6 else if c =? 107 then 3
  else if c =? 109 then -3 else if c =? 117 then -6 else if c =? 110 then -9
  else if c =? 112 then -12 else 0.

(** [do {x *= k;} while (--exp)], [n] > 0 iterations. *)
Definition my_atof_scale (k : F) (n : nat) (x : F) : F :=
  Nat.iter n (fun x => fmul x k) x.

Definition my_atof (p : list Z) : F :=
  let neg := peek p =? 45 in
  let p := if (peek p =? 45) || (peek p =? 43) then tl p else p in
  let x : F := f_of_Z (my_atoi p) in
  let p := skip_digits p in
  let '(p, x) :=
    if (peek p =? 46) || (peek p =? 44)
    then my_atof_frac (tl p) f1 x else (p, x) in
  let x :=
    if negb (peek p =? 0) then
      let exp := my_atof_exp p in
      if 0 <? exp then my_atof_scale (f_lit 1 1) (Z.to_nat exp) x
      else if exp <? 0 then my_atof_scale (f_lit 1 (-1)) (Z.to_nat (- exp)) x
      else x
    else x in
  if neg then fneg x else x.
End Atof.

(** ** Comparison and lookup: [strcmpi], [get_str_index] *)

Definition to_lower (c : Z) : Z :=
  if (65 <=? c) && (c <=? 90) then u8 (c - 65 + 97) else c.

Fixpoint strcmpi (t1 t2 : list Z) : bool :=
  let ch1 := to_lower (peek t1) in
  let ch2 := to_lower (peek t2) in
  if negb (ch1 =? ch2) then false
  else if ch1 =? 0 then true
  else match t1 with
       | _ :: t1' => strcmpi t1' (tl t2)
       | [] => true
       end.

(** The inner loop of [get_str_index]: compare [v] with the current entry.
    [inl] is the [return i] exit, [inr] the list pointer at the mismatch. *)
Fixpoint match_entry (v list : list Z) : unit + Datatypes.list Z :=
  let c := if peek list =? 124 then 0 else peek list in
  if c =? peek v then
    if c =? 0 then inl tt
    else match v with
         | _ :: v' => match_entry v' (tl list)
         | [] => inr list
         end
  else inr list.

(** [do { if ( *list == 0) return -1; } while ( *list++ != '|');] *)
Fixpoint next_entry (list : list Z) : option (Datatypes.list Z) :=
  match list with
  | [] => None
  | c :: list' => if c =? 124 then Some list' else next_entry list'
  end.

(** The outer loop; each round consumes at least one character of the list,
    so [length list] rounds are enough ([get_str_index_fuel]). *)
Fixpoint get_str_index_loop (fuel : nat) (v list : list Z) (i : Z) : Z :=
  match match_entry v list with
  | inl _ => i
  | inr list' =>
      match next_entry list' with
      | None => -1
      | Some list'' =>
          match fuel with
          | O => -1
          | S fuel => get_str_index_loop fuel v list'' (i + 1)
          end
      end
  end.

Definition get_str_index (v list : list Z) : Z :=
  get_str_index_loop (length list) v list 0.

(** ** Command line splitting: [_strpbrk], [parse_line] *)

(** Distance from the pointer to the first character of [s2], or to the end. *)
Fixpoint strpbrk (s1 s2 : list Z) : nat :=
  match s1 with
  | [] => O
  | c :: s1' =>
      if c =? 0 then O
      else if bool_decide (c ∈ s2) then O else S (strpbrk s1' s2)
  end.

(** [args[n] = lp], [n] below the capacity. *)
Definition put_arg (args : list nat) (n : Z) (lp : nat) : list nat :=
  if n <? Z.of_nat (length args) then <[Z.to_nat n := lp]> args else args ++ [lp].

(** The line buffer is updated in place: separators become NUL, and [args]
    holds offsets into it. *)
Fixpoint parse_line_loop (fuel : nat) (line : list Z) (lp : nat)
    (args : list nat) (nargs max_cnt : Z) : list Z * list nat * Z :=
  match fuel with
  | O => (line, args, nargs)
  | S fuel =>
      let c := ch_at line lp in
      if c =? 0 then (line, args, nargs)
      else if negb (c =? 32) && negb (c =? 9) then
        let '(lp, brk) := if c =? 34 then (S lp, [34]) else (lp, [32; 9]) in
        let args := if nargs <? max_cnt then put_arg args nargs lp else args in
        let nargs := u16 (nargs + 1) in
        let lp := (lp + strpbrk (drop lp line) brk)%nat in
        if ch_at line lp =? 0 then (line, args, nargs)
        else parse_line_loop fuel (<[lp := 0]> line) (S lp) args nargs max_cnt
      else parse_line_loop fuel line (S lp) args nargs max_cnt
  end.

Definition parse_line (line : list Z) (max_cnt : Z) : list Z * list nat * Z :=
  parse_line_loop (S (length line)) line 0 [] 0 max_cnt.

(** The strings the caller reads through [args]. *)
Definition arg_strings (r : list Z * list nat * Z) : list (list Z) :=
  let '(line, args, _) := r in map (string_at line) args.

(** ** Byte order: [swap_bytes] *)

(** [__REVSH] as stored back in a [uint16_t]. *)
Definition revsh (x : Z) : Z := Z.lor (Z.shiftl (Z.land x 255) 8) (Z.shiftr x 8).

Definition swap_bytes (buf : list Z) (size : Z) : list Z :=
  for_range 0 size
    (fun i buf => <[Z.to_nat i := revsh (nth (Z.to_nat i) buf 0)]> buf) buf.

(** ** PackBits: [packbits] *)

Record pb_state := PbState {
  pb_i : nat;            (* next source index *)
  pb_sz : option nat;    (* index of the open block's header, [None] for -1 *)
  pb_dest : list Z       (* bytes written so far; its length is pk *)
}.

(** [for (rle = 0; --l && c == source[i + rle];) rle++;] *)
Fixpoint rle_count (l : nat) (c : Z) (src : list Z) : nat :=
  match l with
  | O | S O => O
  | S l' =>
      match src with
      | x :: src' => if c =? x then S (rle_count l' c src') else O
      | [] => O
      end
  end.

(** One round of the [while (i < size)] loop. *)
Definition packbits_step (source : list Z) (size : nat) (st : pb_state) : pb_state :=
  let i := pb_i st in
  let l := Nat.min (size - i) 128 in
  let c := ch_at source i in
  let i := S i in
  let rle := rle_count l c (drop i source) in
  let '(rle, sz, dest) :=
    match pb_sz st with
    | Some sz =>
        if (rle <? 2)%nat then (O, sz, pb_dest st)
        else (rle, length (pb_dest st), pb_dest st ++ [0])
    | None => (rle, length (pb_dest st), pb_dest st ++ [0])
    end in
  let dest := dest ++ [c] in
  if (0 <? rle)%nat then
    PbState (i + rle) None (<[sz := u8 (- Z.of_nat rle)]> dest)
  else
    let n := (length dest - sz - 2)%nat in
    let dest := <[sz := u8 (Z.of_nat n)]> dest in
    if (n <? 127)%nat then PbState i (Some sz) dest else PbState i None dest.

Fixpoint packbits_loop (fuel : nat) (source : list Z) (size : nat) (st : pb_state) : pb_state :=
  match fuel with
  | O => st
  | S fuel =>
      if (pb_i st <? size)%nat
      then packbits_loop fuel source size (packbits_step source size st)
      else st
  end.

(** The written prefix of [dest]; its length is the return value [pk]. Every
    round advances [i], so [size] rounds are enough ([packbits_terminates]). *)
Definition packbits (source : list Z) (size : nat) : list Z :=
  pb_dest (packbits_loop size source size (PbState 0 None [])).

(** * Reference definitions *)

(** Decimal value of a digit string. *)
Definition dec_value (s : list Z) : Z := fold_left (fun v c => v * 10 + (c - 48)) s 0.

(** The entries of a '|'-separated list. *)
Fixpoint split_bar (l : list Z) : list (list Z) :=
  match l with
  | [] => [[]]
  | c :: l' =>
      if c =? 124 then [] :: split_bar l'
      else match split_bar l' with
           | e :: es => (c :: e) :: es
           | [] => [[c]]
           end
  end.

Definition index_of (v : list Z) (es : list (list Z)) : Z :=
  match list_find (fun e => e = v) es with
  | Some (i, _) => Z.of_nat i
  | None => -1
  end.

(** The arguments of a command line: blank-separated, quotes group. *)
Fixpoint tokenize (fuel : nat) (s : list Z) : list (list Z) :=
  match fuel with
  | O => []
  | S fuel =>
      match s with
      | [] => []
      | c :: s' =>
          if negb (c =? 32) && negb (c =? 9) then
            let '(body, brk) := if c =? 34 then (s', [34]) else (s, [32; 9]) in
            let k := strpbrk body brk in
            take k body :: tokenize fuel (drop (S k) body)
          else tokenize fuel s'
      end
  end.

Definition arguments (s : list Z) : list (list Z) := tokenize (S (length s)) s.

(** The PackBits format: a header n < 128 announces n + 1 literal bytes, a
    header 256 - n (the char -n, 1 <= n <= 127) repeats the next byte n + 1
    times. *)
Fixpoint unpackbits_loop (fuel : nat) (d : list Z) : list Z :=
  match fuel with
  | O => []
  | S fuel =>
      match d with
      | [] => []
      | h :: d' =>
          if h <? 128 then
            let n := S (Z.to_nat h) in
            take n d' ++ unpackbits_loop fuel (drop n d')
          else if h =? 128 then unpackbits_loop fuel d'
          else match d' with
               | c :: d'' => repeat c (Z.to_nat (257 - h)) ++ unpackbits_loop fuel d''
               | [] => []
               end
      end
  end.

Definition unpackbits (d : list Z) : list Z := unpackbits_loop (length d) d.

Inductive unpacks : list Z -> list Z -> Prop :=
  | unpacks_nil : unpacks [] []
  | unpacks_lit n lits d s :
      length lits = S n -> (n < 128)%nat -> unpacks d s ->
      unpacks (Z.of_nat n :: lits ++ d) (lits ++ s)
  | unpacks_run n c d s :
      (1 <= n <= 127)%nat -> unpacks d s ->
      unpacks (256 - Z.of_nat n :: c :: d) (repeat c (S n) ++ s).

(** * Lemmas *)

(** ** Numbers *)

Lemma digit_of_digit c : isdigit c = true -> digit_of c = c - 48.
Proof.
  unfold isdigit, digit_of. intros [H1 H2]%andb_true_iff.
  rewrite u32_small by lia. zcase; lia.
Qed.

Lemma dec_value_acc s v0 :
  fold_left (fun v c => v * 10 + (c - 48)) s v0 = v0 * 10 ^ Z.of_nat (length s) + dec_value s.
Proof.
  unfold dec_value. revert v0. induction s as [|c s IH]; intros v0; cbn [fold_left length].
  - lia.
  - rewrite IH. rewrite (IH (0 * 10 + (c - 48))).
    replace (10 ^ Z.of_nat (S (length s))) with (10 * 10 ^ Z.of_nat (length s)).
    + ring.
    + rewrite Nat2Z.inj_succ, Z.pow_succ_r by lia. done.
Qed.

Lemma dec_value_nonneg s : forallb isdigit s = true -> 0 <= dec_value s.
Proof.
  induction s as [|c s IH]; cbn [forallb]; [done|].
  intros [Hc Hs]%andb_true_iff. unfold dec_value. cbn [fold_left].
  rewrite dec_value_acc. apply andb_true_iff in Hc as [Hc _].
  pose proof (IH Hs). apply Z.leb_le in Hc.
  assert (0 <= 10 ^ Z.of_nat (length s)) by (apply Z.pow_nonneg; lia). nia.
Qed.

Lemma fold_dec_mono s v0 :
  forallb isdigit s = true -> 0 <= v0 ->
  v0 <= fold_left (fun v c => v * 10 + (c - 48)) s v0.
Proof.
  revert v0. induction s as [|c s IH]; intros v0 Hs Hv; cbn [fold_left]; [lia|].
  cbn in Hs. apply andb_true_iff in Hs as [Hc Hs].
  apply andb_true_iff in Hc as [Hc _]. apply Z.leb_le in Hc.
  etrans; [|apply IH; [done|lia]]. lia.
Qed.

Lemma my_atoui_loop_digits s rest v0 :
  forallb isdigit s = true -> 10 <= digit_of (peek rest) -> 0 <= v0 ->
  fold_left (fun v c => v * 10 + (c - 48)) s v0 < 4294967296 ->
  my_atoui_loop 10 (s ++ rest) v0 = fold_left (fun v c => v * 10 + (c - 48)) s v0.
Proof.
  intros Hs Hrest. revert v0. induction s as [|c s IH]; intros v0 Hv Hb; cbn [app fold_left].
  - destruct rest as [|ch rest]; cbn; [done|]. cbn in Hrest. zcase; [done|lia].
  - cbn in Hs. apply andb_true_iff in Hs as [Hc Hs].
    cbn [my_atoui_loop]. rewrite digit_of_digit by done.
    pose proof Hc as Hc'. apply andb_true_iff in Hc' as [H1 H2].
    apply Z.leb_le in H1, H2. zcase; [lia|].
    cbn [fold_left] in Hb.
    pose proof (fold_dec_mono s (v0 * 10 + (c - 48)) Hs ltac:(lia)).
    rewrite u32_small by lia. apply IH; [done|lia|done].
Qed.

(** ** get_str_index *)

Lemma split_bar_next l :
  match next_entry l with
  | Some l' => exists e, split_bar l = e :: split_bar l' /\ (length l' < length l)%nat
  | None => exists e, split_bar l = [e]
  end.
Proof.
  induction l as [|c l IH]; cbn; [by eexists|].
  destruct (c =? 124); [eexists; split; [done|lia]|].
  destruct (next_entry l) as [l'|].
  - destruct IH as (e & -> & Hl). eexists; split; [done|lia].
  - destruct IH as (e & ->). by eexists.
Qed.

Lemma split_bar_cons l : split_bar l <> [].
Proof. destruct l as [|c l]; cbn; [done|]. by repeat case_match. Qed.

Lemma match_entry_spec v l :
  Forall (fun c => c <> 0) v -> Forall (fun c => c <> 0) l ->
  match match_entry v l with
  | inl _ => head (split_bar l) = Some v
  | inr l' => head (split_bar l) <> Some v /\ next_entry l' = next_entry l
  end.
Proof.
  revert l. induction v as [|x v IH]; intros l Hv Hl; cbn.
  - destruct l as [|c l]; cbn; [done|].
    destruct (Z.eqb_spec c 124) as [->|Hc]; cbn; [done|].
    inversion Hl; subst. destruct (Z.eqb_spec c 0); [done|].
    split; [destruct (split_bar l); done|].
    cbn. by destruct (Z.eqb_spec c 124).
  - inversion Hv as [|? ? Hx Hv']; subst. destruct l as [|c l]; cbn.
    + destruct (Z.eqb_spec 0 x); [done|]. split; [cbn; congruence|done].
    + inversion Hl as [|? ? Hc Hl']; subst.
      destruct (Z.eqb_spec c 124) as [->|Hc4].
      * destruct (Z.eqb_spec 0 x); [done|]. split; [cbn; congruence|done].
      * destruct (Z.eqb_spec c x) as [->|Hcx].
        -- destruct (Z.eqb_spec x 0); [done|].
           specialize (IH l Hv' Hl'). destruct (match_entry v l) as [[]|l'].
           ++ destruct (split_bar l) as [|e es]; cbn in *; simplify_eq; done.
           ++ destruct IH as [Hne Hnx]. split; [|].
              ** pose proof (split_bar_cons l). destruct (split_bar l); cbn in *; congruence.
              ** exact Hnx.
        -- split; [destruct (split_bar l); cbn in *; congruence|].
           cbn. destruct (Z.eqb_spec c 124); [lia|done].
Qed.

Lemma next_entry_nonzero l l' :
  next_entry l = Some l' -> Forall (fun c => c <> 0) l -> Forall (fun c => c <> 0) l'.
Proof.
  induction l as [|c l IH]; cbn; [done|]. intros H Hl. inversion Hl; subst.
  destruct (c =? 124); [by simplify_eq|]. auto.
Qed.

Lemma get_str_index_fuel fuel v l i :
  (length l <= fuel)%nat ->
  Forall (fun c => c <> 0) v -> Forall (fun c => c <> 0) l -> 
  get_str_index_loop fuel v l i =
    match list_find (fun e => e = v) (split_bar l) with
    | Some (k, _) => i + Z.of_nat k
    | None => -1
    end.
Proof.
  revert l i. induction fuel as [|fuel IH]; intros l i Hlen Hv Hl;
    pose proof (match_entry_spec v l Hv Hl) as Hm;
    pose proof (split_bar_next l) as Hn; cbn [get_str_index_loop];
    destruct (match_entry v l) as [[]|l1].
  - destruct (split_bar l) as [|e es]; cbn in *; [done|].
    rewrite decide_True by congruence. cbn. lia.
  - destruct Hm as [Hne ->]. destruct (next_entry l) as [l2|].
    + destruct Hn as (e & _ & Hlt). lia.
    + destruct Hn as (e & He). rewrite He in *. cbn in *.
      rewrite decide_False by congruence. done.
  - destruct (split_bar l) as [|e es]; cbn in *; [done|].
    rewrite decide_True by congruence. cbn. lia.
  - destruct Hm as [Hne ->]. destruct (next_entry l) as [l2|] eqn:E2.
    + destruct Hn as (e & He & Hlt). rewrite He in *. cbn [list_find].
      rewrite decide_False by (cbn in *; congruence).
      rewrite IH; [|lia|done|by eapply next_entry_nonzero].
      destruct (list_find _ (split_bar l2)) as [[k x]|]; cbn; lia.
    + destruct Hn as (e & He). rewrite He in *. cbn in *.
      rewrite decide_False by congruence. done.
Qed.

(** ** parse_line *)

Definition nonzero (s : list Z) : Prop := Forall (fun c => c <> 0) s.

Lemma strpbrk_spec s brk :
  nonzero s ->
  let k := strpbrk s brk in
  (k <= length s)%nat /\
  (k = length s \/ exists d s2, s = take k s ++ d :: s2 /\ d ∈ brk).
Proof.
  induction 1 as [|c s Hc Hs [IHk IH]]; cbn; [auto|].
  destruct (Z.eqb_spec c 0); [done|]. case_bool_decide as Hin.
  - split; [lia|]. right. by exists c, s.
  - split; [lia|]. destruct IH as [->|(d & s2 & He & Hd)]; [auto|].
    right. exists d, s2. cbn. by rewrite <- He.
Qed.

Lemma nonzero_app s t : nonzero (s ++ t) <-> nonzero s /\ nonzero t.
Proof. apply Forall_app. Qed.

Lemma ch_at_app pre s : ch_at (pre ++ s) (length pre) = peek s.
Proof.
  unfold ch_at. rewrite app_nth2 by lia. rewrite Nat.sub_diag. by destruct s.
Qed.

Lemma until_nul_nonzero s : nonzero s -> until_nul s = s.
Proof.
  induction 1 as [|c s Hc _ IH]; cbn; [done|].
  destruct (Z.eqb_spec c 0); [done|]. by rewrite IH.
Qed.

Lemma until_nul_stop s t : nonzero s -> until_nul (s ++ 0 :: t) = s.
Proof.
  induction 1 as [|c s Hc _ IH]; cbn; [done|].
  destruct (Z.eqb_spec c 0); [done|]. by rewrite IH.
Qed.

Lemma string_at_app pre s : string_at (pre ++ s) (length pre) = until_nul s.
Proof. unfold string_at. by rewrite drop_app_length. Qed.

Lemma insert_at_app (pre : list Z) x y s :
  <[length pre := y]> (pre ++ x :: s) = pre ++ y :: s.
Proof. rewrite insert_app_r_alt by lia. by rewrite Nat.sub_diag. Qed.

Lemma put_arg_end args n lp :
  n = Z.of_nat (length args) -> put_arg args n lp = args ++ [lp].
Proof. intros ->. unfold put_arg. zcase; [lia|done]. Qed.

(** One argument: the prefix already scanned is [pre]; the argument text is
    stored at its end and terminated there. *)
Lemma parse_line_loop_spec fuel : forall pre s args nargs max_cnt,
  (length s < fuel)%nat -> nonzero s -> 0 <= nargs ->
  nargs + Z.of_nat (length (tokenize fuel s)) < 65536 ->
  Z.of_nat (length args) = Z.min nargs max_cnt ->
  exists s' args',
    parse_line_loop fuel (pre ++ s) (length pre) args nargs max_cnt =
      (pre ++ s', args ++ args', nargs + Z.of_nat (length (tokenize fuel s))) /\
    map (string_at (pre ++ s')) args' =
      take (Z.to_nat (max_cnt - nargs)) (tokenize fuel s) /\
    Forall (fun a => (length pre <= a <= length pre + length s)%nat) args'.
Proof.
  induction fuel as [|fuel IH]; intros pre s args nargs max_cnt Hf Hs Hn Hcnt Hargs; [lia|].
  cbn [parse_line_loop]. rewrite ch_at_app. destruct s as [|c s]; cbn [peek hd].
  { exists [], []. cbn. rewrite !app_nil_r, Z.add_0_r. by destruct (Z.to_nat _). }
  inversion Hs as [|? ? Hc0 Hs']; subst. destruct (Z.eqb_spec c 0); [done|].
  cbn [tokenize] in *.
  destruct (negb (c =? 32) && negb (c =? 9)) eqn:Eblank; cycle 1.
  { (* blank *)
    cbn in Hf.
    destruct (IH (pre ++ [c]) s args nargs max_cnt) as (s' & args' & E & Em & Ef);
      [lia|done|done|done|done|].
    rewrite <- app_assoc in E. cbn in E.
    rewrite length_app in E. cbn in E. rewrite Nat.add_1_r in E.
    exists (c :: s'), args'. rewrite E. rewrite <- !app_assoc. cbn. split; [done|].
    rewrite <- app_assoc in Em. cbn in Em. split; [done|].
    eapply Forall_impl; [exact Ef|]. intros a. rewrite length_app. cbn. lia. }
  (* argument *)
  set (q := if c =? 34 then [c] else []).
  set (body := if c =? 34 then s else c :: s).
  set (brk := if c =? 34 then [34] else [32; 9]).
  assert ((if c =? 34 then (S (length pre), [34]) else (length pre, [32; 9]))
          = (length (pre ++ q), brk)) as ->.
  { unfold q, brk. destruct (c =? 34); rewrite length_app; cbn; f_equal; lia. }
  assert ((if c =? 34 then (s, [34]) else (c :: s, [32; 9])) = (body, brk)) as E0.
  { unfold body, brk. by destruct (c =? 34). }
  rewrite E0 in *. clear E0.
  assert (pre ++ c :: s = (pre ++ q) ++ body) as ->.
  { unfold q, body. destruct (c =? 34); rewrite <- app_assoc; done. }
  assert (nonzero body) as Hbody.
  { unfold body. by destruct (c =? 34). }
  assert (length q + length body = S (length s))%nat as Hql.
  { unfold q, body. by destruct (c =? 34). }
  assert (length body <> 0 \/ length q <> 0)%nat as Hq0.
  { unfold q, body. destruct (c =? 34); cbn; lia. }
  clearbody q body brk. cbn in Hf.
  rewrite drop_app_length. destruct (strpbrk_spec body brk Hbody) as [Hk Hcase].
  set (k := strpbrk body brk) in *. cbn [length] in Hcnt.
  set (args1 := if nargs <? max_cnt then put_arg args nargs (length (pre ++ q)) else args).
  assert (args1 = args ++ (if nargs <? max_cnt then [length (pre ++ q)] else [])) as Ha1.
  { unfold args1. zcase; [by rewrite put_arg_end by lia|by rewrite app_nil_r]. }
  rewrite Ha1. clear args1 Ha1. rewrite u16_small by lia.
  assert (forall rest : list Z, nargs < max_cnt ->
    Z.to_nat (max_cnt - nargs) = S (Z.to_nat (max_cnt - (nargs + 1)))) as Hmax by lia.
  destruct Hcase as [Hend|(d & s2 & Hsplit & Hd)].
  - (* the argument runs to the end of the line *)
    assert (ch_at ((pre ++ q) ++ body) (length (pre ++ q) + k) = 0) as ->.
    { rewrite Hend. unfold ch_at. apply nth_overflow. rewrite length_app. lia. }
    cbn. rewrite (drop_ge body (S k)) by lia. rewrite (take_ge body) by lia.
    assert (tokenize fuel [] = []) as -> by by destruct fuel.
    exists (q ++ body), (if nargs <? max_cnt then [length (pre ++ q)] else []).
    rewrite <- app_assoc. split; [done|]. rewrite app_assoc.
    destruct (Z.ltb_spec nargs max_cnt).
    + cbn. rewrite string_at_app, until_nul_nonzero by done.
      rewrite (Hmax [] ltac:(done)). cbn. rewrite take_nil. split; [done|].
      constructor; [|done]. rewrite length_app. lia.
    + cbn. replace (Z.to_nat (max_cnt - nargs)) with O by lia. done.
  - (* a separator follows *)
    assert (length (take k body) = k) as Hlk by (rewrite length_take; lia).
    assert (nonzero (take k body) /\ nonzero s2 /\ d <> 0) as (Htk & Hs2 & Hd0).
    { rewrite Hsplit in Hbody. apply nonzero_app in Hbody as [H1 H2].
      inversion H2; subst. done. }
    set (tok := take k body) in *.
    assert (length (pre ++ q) + k = length ((pre ++ q) ++ tok))%nat as ->.
    { rewrite !length_app. lia. }
    assert ((pre ++ q) ++ body = ((pre ++ q) ++ tok) ++ d :: s2) as ->.
    { rewrite Hsplit at 1. by rewrite app_assoc. }
    rewrite ch_at_app. cbn [peek hd]. destruct (Z.eqb_spec d 0); [done|].
    rewrite insert_at_app.
    assert (drop (S k) body = s2) as Hdrop.
    { rewrite Hsplit. fold tok. rewrite drop_app. rewrite (drop_ge tok) by lia.
      replace (S k - length tok)%nat with 1%nat by lia. done. }
    rewrite Hdrop in *. cbn [length] in *.
    assert (length body = k + S (length s2))%nat as Hbl.
    { rewrite Hsplit, length_app, Hlk. done. }
    destruct (IH (((pre ++ q) ++ tok) ++ [0]) s2
               (args ++ if nargs <? max_cnt then [length (pre ++ q)] else [])
               (nargs + 1) max_cnt) as (s' & args' & E & Em & Ef);
      [lia|done|lia|lia|rewrite length_app; zcase; cbn; lia|].
    rewrite <- (app_assoc _ [0] s2) in E. cbn [app] in E.
    rewrite (length_app _ [0]) in E. cbn [length] in E. rewrite Nat.add_1_r in E.
    rewrite E. clear E. rewrite <- (app_assoc _ [0] s') in *. cbn [app] in *.
    exists (q ++ tok ++ 0 :: s'), ((if nargs <? max_cnt then [length (pre ++ q)] else []) ++ args').
    rewrite !app_assoc in *. split; [f_equal; lia|].
    rewrite map_app, Em. split.
    + destruct (Z.ltb_spec nargs max_cnt).
      * rewrite (Hmax [] ltac:(done)). cbn. f_equal.
        rewrite <- (app_assoc (pre ++ q)), string_at_app. by rewrite until_nul_stop.
      * replace (Z.to_nat (max_cnt - nargs)) with O by lia.
        by replace (Z.to_nat (max_cnt - (nargs + 1))) with O by lia.
    + apply Forall_app. split.
      * zcase; [|done]. constructor; [|done]. rewrite length_app. cbn. lia.
      * eapply Forall_impl; [exact Ef|]. intros a. rewrite !length_app. cbn. lia.
Qed.

(** ** PackBits *)

Lemma unpacks_app d s d' s' : unpacks d s -> unpacks d' s' -> unpacks (d ++ d') (s ++ s').
Proof.
  induction 1 as [|n lits d s Hl Hn _ IH|n c d s Hn _ IH]; intros H'; [done| |].
  - cbn. rewrite <- !app_assoc. constructor; auto.
  - cbn. rewrite <- app_assoc. apply (unpacks_run n c); auto.
Qed.

Lemma unpacks_unpackbits d s fuel :
  unpacks d s -> (length d <= fuel)%nat -> unpackbits_loop fuel d = s.
Proof.
  intros H. revert fuel. induction H as [|n lits d s Hl Hn _ IH|n c d s Hn _ IH];
    intros fuel Hf.
  - by destruct fuel.
  - destruct fuel as [|fuel]; [cbn in Hf; lia|]. cbn in Hf.
    rewrite length_app in Hf. cbn [unpackbits_loop]. zcase; [|lia].
    rewrite Nat2Z.id, <- Hl, take_app_length, drop_app_length, IH by lia. done.
  - destruct fuel as [|fuel]; [cbn in Hf; lia|]. cbn in Hf. cbn [unpackbits_loop].
    zcase; [lia|]. zcase; [lia|]. rewrite IH by lia.
    by replace (Z.to_nat (257 - (256 - Z.of_nat n))) with (S n) by lia.
Qed.

Lemma rle_count_spec l c src :
  let r := rle_count l c src in
  take r src = repeat c r /\ (r <= length src)%nat /\ (r <= l - 1)%nat.
Proof.
  revert src. induction l as [|l IH]; intros src; cbn; [split; [done|lia]|].
  destruct l as [|l]; [cbn; split; [done|lia]|].
  destruct src as [|x src]; [cbn; split; [done|lia]|].
  change (rle_count (S (S l)) c (x :: src))
    with (if c =? x then S (rle_count (S l) c src) else O).
  destruct (Z.eqb_spec c x) as [->|]; [|cbn; split; [done|lia]].
  destruct (IH src) as (E & H1 & H2). cbn [take repeat length].
  rewrite E. split; [done|lia].
Qed.

(** Invariant of the compressor: the closed blocks decode to what was read;
    an open literal block holds the rest, with an up-to-date header. The
    output is at most one byte per started 128 bytes longer than the input. *)
Record pb_inv (source : list Z) (size : nat) (st : pb_state) : Prop := {
  pb_inv_i : (pb_i st <= size)%nat;
  pb_inv_data :
    match pb_sz st with
    | None =>
        unpacks (pb_dest st) (take (pb_i st) source) /\
        (128 * length (pb_dest st) <= 129 * pb_i st)%nat
    | Some sz => exists n done out lits,
        pb_dest st = done ++ Z.of_nat n :: lits /\ length done = sz /\
        length lits = S n /\ (n < 127)%nat /\
        unpacks done out /\ out ++ lits = take (pb_i st) source /\
        (128 * length done <= 129 * length out)%nat
    end
}.

Lemma take_S_ch (s : list Z) i : (i < length s)%nat -> take (S i) s = take i s ++ [ch_at s i].
Proof.
  intros H. destruct (lookup_lt_is_Some_2 s i H) as [x Hx].
  rewrite (take_S_r s i x) by done. unfold ch_at. by erewrite nth_lookup_Some.
Qed.

Lemma take_add_run (s : list Z) i r c :
  take r (drop i s) = repeat c r -> (i <= length s)%nat ->
  take (i + r) s = take i s ++ repeat c r.
Proof. intros H Hi. by rewrite <- H, take_take_drop. Qed.

Lemma insert_hdr (d : list Z) h x s : <[length d := h]> ((d ++ [x]) ++ s) = d ++ h :: s.
Proof. rewrite <- app_assoc. apply insert_at_app. Qed.

Lemma u8_neg n : (1 <= n <= 127)%nat -> u8 (- Z.of_nat n) = 256 - Z.of_nat n.
Proof. unfold u8. lia. Qed.

Lemma unpacks_lit_end d s n lits :
  unpacks d s -> length lits = S n -> (n < 128)%nat ->
  unpacks (d ++ Z.of_nat n :: lits) (s ++ lits).
Proof.
  intros H Hl Hn. apply unpacks_app; [done|].
  pose proof (unpacks_lit n lits [] [] Hl Hn unpacks_nil) as Hx.
  by rewrite !app_nil_r in Hx.
Qed.

Lemma unpacks_run_end d s n c :
  unpacks d s -> (1 <= n <= 127)%nat ->
  unpacks (d ++ [256 - Z.of_nat n; c]) (s ++ repeat c (S n)).
Proof.
  intros H Hn. apply unpacks_app; [done|].
  pose proof (unpacks_run n c [] [] Hn unpacks_nil) as Hx. by rewrite app_nil_r in Hx.
Qed.

Lemma packbits_step_inv source size st :
  (size <= length source)%nat -> (pb_i st < size)%nat ->
  pb_inv source size st -> pb_inv source size (packbits_step source size st).
Proof.
  intros Hsz Hi [_ Hd]. unfold packbits_step.
  set (i := pb_i st) in *. set (c := ch_at source i).
  set (l := Nat.min (size - i) 128). set (r := rle_count l c (drop (S i) source)).
  destruct (rle_count_spec l c (drop (S i) source)) as (Hr & _ & Hr2). fold r in Hr, Hr2.
  assert (r <= 127 /\ S i + r <= size)%nat as [Hr3 Hr4] by lia.
  assert (take (S i) source = take i source ++ [c]) as Htake by (apply take_S_ch; lia).
  assert (take (S i + r) source = take i source ++ repeat c (S r)) as Htaker.
  { rewrite (take_add_run _ _ _ c) by (done || lia). rewrite Htake, <- app_assoc. done. }
  clearbody r c i. clear Hr Hr2 l.
  assert (forall d : list Z, length ((d ++ [0]) ++ [c]) = S (S (length d))) as Hlen2.
  { intros d. rewrite !length_app. cbn. lia. }
  destruct (pb_sz st) as [sz|].
  - destruct Hd as (n & dn & out & lits & -> & <- & Hl & Hn & Hu & Ho & Hb).
    assert (length out + length lits = i)%nat as Hil.
    { rewrite <- length_app, Ho, length_take. lia. }
    destruct (Nat.ltb_spec r 2).
    + (* extend the literal block *)
      change (0 <? 0)%nat with false. cbn iota.
      rewrite <- (app_assoc dn), length_app. cbn [length app].
      rewrite length_app. cbn [length].
      replace (length dn + S (length lits + 1) - length dn - 2)%nat with (S n) by lia.
      rewrite insert_at_app, u8_small by lia.
      destruct (Nat.ltb_spec (S n) 127); split; cbn [pb_i pb_sz pb_dest]; try lia.
      * exists (S n), dn, out, (lits ++ [c]).
        rewrite length_app, app_assoc, Ho. cbn. repeat split; try done; lia.
      * split; [|rewrite length_app; cbn; rewrite length_app; cbn; lia].
        rewrite Htake, <- Ho, <- app_assoc.
        apply unpacks_lit_end; [done|rewrite length_app; cbn; lia|lia].
    + (* close it and open a run *)
      destruct (Nat.ltb_spec 0 r); [|lia]. rewrite insert_hdr, u8_neg by lia.
      split; cbn [pb_i pb_sz pb_dest]; [lia|]. split.
      * rewrite Htaker, <- Ho. apply unpacks_run_end; [|lia].
        apply unpacks_lit_end; [done|done|lia].
      * rewrite !length_app. cbn. lia.
  - destruct Hd as [Hu Hb]. set (d := pb_dest st) in *. clearbody d.
    destruct (Nat.ltb_spec 0 r).
    + rewrite insert_hdr, u8_neg by lia.
      split; cbn [pb_i pb_sz pb_dest]; [lia|]. split.
      * rewrite Htaker. apply unpacks_run_end; [done|lia].
      * rewrite !length_app. cbn. lia.
    + rewrite Hlen2. replace (S (S (length d)) - length d - 2)%nat with O by lia.
      rewrite insert_hdr. change (0 <? 127)%nat with true. cbn iota.
      split; cbn [pb_i pb_sz pb_dest]; [lia|].
      exists O, d, (take i source), [c]. rewrite length_take. cbn.
      repeat split; try done; lia.
Qed.

Lemma packbits_step_progress source size st :
  (pb_i st < pb_i (packbits_step source size st))%nat.
Proof. unfold packbits_step. repeat case_match; cbn; lia. Qed.

Lemma packbits_loop_inv source size fuel st :
  (size <= length source)%nat -> pb_inv source size st ->
  pb_inv source size (packbits_loop fuel source size st).
Proof.
  intros Hsz. revert st. induction fuel as [|fuel IH]; intros st Hst; cbn [packbits_loop]; [done|].
  destruct (Nat.ltb_spec (pb_i st) size); [|done]. by apply IH, packbits_step_inv.
Qed.

Lemma packbits_loop_done source size fuel st :
  (size - pb_i st <= fuel)%nat -> (pb_i st <= size)%nat -> (size <= length source)%nat ->
  pb_inv source size st ->
  pb_i (packbits_loop fuel source size st) = size.
Proof.
  intros Hf Hi Hsz. revert st Hf Hi.
  induction fuel as [|fuel IH]; intros st Hf Hi Hst; cbn [packbits_loop]; [lia|].
  destruct (Nat.ltb_spec (pb_i st) size); [|lia].
  pose proof (packbits_step_progress source size st).
  pose proof (packbits_step_inv source size st Hsz ltac:(lia) Hst) as Hst'.
  apply IH; [lia|apply Hst'|done].
Qed.

Lemma pb_inv_init source size : pb_inv source size (PbState 0 None []).
Proof. split; cbn; [lia|]. split; [constructor|lia]. Qed.

(** What a finished run guarantees. *)
Lemma packbits_final source size :
  (size <= length source)%nat ->
  unpacks (packbits source size) (take size source) /\
  (128 * length (packbits source size) <= 129 * size + 127)%nat.
Proof.
  intros Hsz. unfold packbits.
  pose proof (packbits_loop_inv source size size _ Hsz (pb_inv_init source size)) as [_ Hd].
  pose proof (packbits_loop_done source size size (PbState 0 None [])
    ltac:(cbn; lia) ltac:(cbn; lia) Hsz (pb_inv_init source size)) as Hi.
  set (st := packbits_loop _ _ _ _) in *. clearbody st. rewrite Hi in Hd.
  destruct (pb_sz st) as [sz|].
  - destruct Hd as (n & dn & out & lits & -> & _ & Hl & Hn & Hu & Ho & Hb). split.
    + rewrite <- Ho. apply unpacks_lit_end; [done|done|lia].
    + assert (length out + length lits = size)%nat.
      { rewrite <- length_app, Ho, length_take. lia. }
      rewrite length_app. cbn. lia.
  - destruct Hd as [Hu Hb]. split; [done|lia].
Qed.

(** ** Byte order and case *)

Lemma revsh_swap x : 0 <= x < 65536 -> revsh x = (x mod 256) * 256 + x / 256.
Proof.
  intros Hx. unfold revsh. change 255 with (Z.ones 8).
  rewrite Z.land_ones, Z.shiftl_mul_pow2, Z.shiftr_div_pow2 by lia.
  change (2 ^ 8) with 256 at 1 3.
  apply lor_add_pow2 with (k := 8); [lia|]. change (2 ^ 8) with 256. lia.
Qed.

Lemma revsh_involutive x : 0 <= x < 65536 -> revsh (revsh x) = x.
Proof. intros Hx. rewrite (revsh_swap x) by lia. rewrite revsh_swap by lia. lia. Qed.

Lemma swap_bytes_lookup buf n i :
  0 <= n <= Z.of_nat (length buf) ->
  swap_bytes buf n !! i =
    (if Z.of_nat i <? n then revsh <$> buf !! i else buf !! i).
Proof.
  intros Hn. unfold swap_bytes.
  apply (for_range_ind (fun k b => length b = length buf /\
    forall i : nat, b !! i = if Z.of_nat i <? k then revsh <$> buf !! i else buf !! i)
    0 n _ buf); [lia|split; [done|intros j; zcase; [lia|done]]|].
  intros k b Hk [Hl Hb]. rewrite length_insert. split; [done|]. intros j.
  destruct (decide (j = Z.to_nat k)) as [->|Hj].
  - rewrite list_lookup_insert_eq by lia. zcase; [|lia].
    pose proof (Hb (Z.to_nat k)) as Hbk. zcase_in Hbk; [lia|].
    destruct (lookup_lt_is_Some_2 buf (Z.to_nat k)) as [x Hx]; [lia|].
    rewrite Hx in *. cbn. by erewrite nth_lookup_Some by done.
  - rewrite list_lookup_insert_ne by done. rewrite Hb. repeat zcase; done || lia.
Qed.

(** * Properties *)

(** PackBits round trip ([packbits], common.c): decoding the compressed
    block with the documented PackBits decoder gives back exactly the [size]
    source bytes, for every input; and the block is at most one byte per
    started 128 bytes longer than the input, the bound the screen capture
    relies on for its buffer offset. *)
Theorem packbits_roundtrip (source : list Z) (size : nat)
    (Hsize : (size <= length source)%nat) :
  unpackbits (packbits source size) = take size source /\
  (length (packbits source size) <= size + (size + 127) / 128)%nat.
Proof.
  destruct (packbits_final source size Hsize) as [Hu Hb]. split.
  - by apply unpacks_unpackbits.
  - pose proof (Nat.div_mod_eq (size + 127) 128).
    pose proof (Nat.mod_upper_bound (size + 127) 128). lia.
Qed.

Lemma packbits_roundtrip_witness :
  (7 <= length [5; 5; 5; 5; 1; 2; 2])%nat /\
  packbits [5; 5; 5; 5; 1; 2; 2] 7 = [253; 5; 2; 1; 2; 2] /\
  unpackbits (packbits [5; 5; 5; 5; 1; 2; 2] 7) = [5; 5; 5; 5; 1; 2; 2].
Proof.
  split; [cbn; lia|]. split; [vm_compute; reflexivity|].
  apply (packbits_roundtrip [5; 5; 5; 5; 1; 2; 2] 7). cbn. lia.
Defined.

(** Keyword lookup ([get_str_index], common.c): for NUL-free strings the
    pointer walk returns the position of the first entry of the
    '|'-separated list equal to [v], and -1 exactly when no entry is. *)
Theorem get_str_index_correct (v l : list Z)
    (Hv : nonzero v) (Hl : nonzero l) :
  get_str_index v l = index_of v (split_bar l).
Proof.
  unfold get_str_index, index_of. rewrite get_str_index_fuel by done.
  by destruct (list_find _ _) as [[k e]|].
Qed.

Lemma get_str_index_correct_witness :
  nonzero (cstr "center") /\ nonzero (cstr "start|stop|center|span|cw") /\
  get_str_index (cstr "center") (cstr "start|stop|center|span|cw") = 2.
Proof.
  assert (nonzero (cstr "center")) as H1 by (cbn; repeat constructor; lia).
  assert (nonzero (cstr "start|stop|center|span|cw")) as H2
    by (cbn; repeat constructor; lia).
  split; [exact H1|]. split; [exact H2|].
  rewrite (get_str_index_correct _ _ H1 H2). vm_compute. reflexivity.
Defined.

(** Argument splitting ([parse_line], common.c): after the in-place pass
    over the line buffer, the strings read through the stored pointers are
    the first [max_cnt] arguments of the line (blank separated, a leading
    quote groups up to the next quote), the returned count is the number of
    all arguments, and every stored pointer stays inside the buffer. *)
Theorem parse_line_correct (line : list Z) (max_cnt : Z)
    (Hline : nonzero line) (Hmax : 0 <= max_cnt)
    (Hlen : Z.of_nat (length (arguments line)) < 65536) :
  let r := parse_line line max_cnt in
  arg_strings r = take (Z.to_nat max_cnt) (arguments line) /\
  snd r = Z.of_nat (length (arguments line)) /\
  Forall (fun a => (a <= length line)%nat) (snd (fst r)).
Proof.
  unfold parse_line, arguments in *.
  destruct (parse_line_loop_spec (S (length line)) [] line [] 0 max_cnt)
    as (s' & args' & E & Em & Ef); try done || lia; [cbn; lia|].
  cbn [app length] in *. rewrite E. cbn. rewrite Z.sub_0_r in Em.
  split; [done|]. split; [done|].
  eapply Forall_impl; [exact Ef|]. cbn. lia.
Qed.

Lemma parse_line_correct_witness :
  let line := cstr "sweep 1000  2000" in
  nonzero line /\ Z.of_nat (length (arguments line)) < 65536 /\
  arg_strings (parse_line line 5) = [cstr "sweep"; cstr "1000"; cstr "2000"].
Proof.
  intros line.
  assert (nonzero line) as H1 by (cbn; repeat constructor; lia).
  assert (Z.of_nat (length (arguments line)) < 65536) as H2 by (vm_compute; done).
  split; [exact H1|]. split; [exact H2|].
  destruct (parse_line_correct line 5 H1 ltac:(lia) H2) as [E _].
  rewrite E. vm_compute. reflexivity.
Defined.

(** Unsigned parsing ([my_atoui], common.c): a digit string that fits 32
    bits and does not start with '0', followed by the terminator or a
    character that is no digit value, is parsed to its decimal value; no
    intermediate product wraps. *)
Theorem my_atoui_decimal (s rest : list Z)
    (Hs : forallb isdigit s = true) (Hnz : peek s <> 48) (Hne : s <> [])
    (Hrest : 10 <= digit_of (peek rest))
    (Hfit : dec_value s < 4294967296) :
  my_atoui (s ++ rest) = dec_value s.
Proof.
  destruct s as [|c s]; [done|]. unfold my_atoui.
  assert (peek ((c :: s) ++ rest) = c) as -> by done.
  cbn in Hnz. pose proof Hs as Hs'. cbn in Hs'.
  apply andb_true_iff in Hs' as [[Hc _]%andb_true_iff _]. apply Z.leb_le in Hc.
  destruct (Z.eqb_spec c 43); [lia|].
  assert (peek ((c :: s) ++ rest) = c) as -> by done.
  destruct (Z.eqb_spec c 48); [done|].
  by apply my_atoui_loop_digits.
Qed.

Lemma my_atoui_decimal_witness :
  10 <= digit_of (peek (cstr " Hz")) /\
  my_atoui (cstr "4294967295 Hz") = 4294967295.
Proof.
  split; [vm_compute; done|].
  exact (my_atoui_decimal (cstr "4294967295") (cstr " Hz") eq_refl
    ltac:(vm_compute; done) ltac:(vm_compute; done)
    ltac:(vm_compute; done) ltac:(vm_compute; reflexivity)).
Defined.

(** Which characters [my_atoui] takes as digits (common.c): besides
    '0'..'9' and the letters, the subtraction of 'A' - 10 after the case fold
    maps the ten characters 'W'..'`' (0x57..0x60) onto 0..9, so they continue
    a decimal number: the loop accepts exactly those two ranges. *)
Theorem my_atoui_digit_range (ch : Z) (Hch : 0 <= ch < 256) :
  digit_of ch < 10 <-> 48 <= ch <= 57 \/ 87 <= ch <= 96.
Proof.
  assert (Forall (fun ch => digit_of ch < 10 <-> 48 <= ch <= 57 \/ 87 <= ch <= 96)
            (seqZ 0 256)) as H.
  { apply Forall_forall. intros x Hx.
    assert (forallb (fun x => Bool.eqb (digit_of x <? 10)
      (((48 <=? x) && (x <=? 57)) || ((87 <=? x) && (x <=? 96)))) (seqZ 0 256) = true)
      as Hall by (vm_compute; reflexivity).
    rewrite forallb_forall in Hall. apply list_elem_of_In in Hx.
    specialize (Hall x Hx). apply eqb_prop in Hall.
    rewrite <- Z.ltb_lt, Hall, orb_true_iff, !andb_true_iff, !Z.leb_le. done. }
  rewrite Forall_forall in H. apply H, elem_of_seqZ. lia.
Qed.

Lemma my_atoui_digit_range_witness :
  (0 <= 87 < 256) /\ digit_of 87 < 10 /\ my_atoui (cstr "5W") = 50.
Proof.
  split; [lia|]. split; [|vm_compute; reflexivity].
  apply (my_atoui_digit_range 87); lia.
Defined.

(** Swapping twice restores the buffer. *)
Lemma swap_bytes_involutive (buf : list Z) n :
  0 <= n <= Z.of_nat (length buf) -> Forall (fun x => 0 <= x < 65536) buf ->
  swap_bytes (swap_bytes buf n) n = buf.
Proof.
  intros Hn Hb. apply list_eq. intros i.
  assert (length (swap_bytes buf n) = length buf) as Hl.
  { unfold swap_bytes.
    apply (for_range_ind (fun _ b => length b = length buf)); [lia|done|].
    intros ? ? _ <-. by rewrite length_insert. }
  rewrite swap_bytes_lookup by lia. rewrite swap_bytes_lookup by done.
  zcase; [|done]. destruct (buf !! i) eqn:E; [|done]. cbn.
  rewrite revsh_involutive; [done|]. by eapply Forall_lookup in Hb.
Qed.
