(* ===== verification/Colour.v ===== *)
(** * Colours of the display (nanovna.h)

    Pixels are 16-bit words in the byte order of the LCD: gggBBBbb RRRrrGGG. The two
    macros that convert from and to eight bits per component. *)

From S2P Require Import Prelude.

Definition RGB565 (r g b : Z) : Z :=
  Z.lor (Z.lor (Z.lor (Z.shiftl (Z.land g 0x1c) 11) (Z.shiftl (Z.land b 0xf8) 5)) (Z.land r 0xf8))
    (Z.shiftr (Z.land g 0xe0) 5).
Definition HEXRGB (hex : Z) : Z :=
  Z.lor (Z.lor (Z.lor (Z.land (Z.shiftr hex 3) 0x1c00) (Z.land (Z.shiftr hex 5) 0xf8))
    (Z.land (Z.shiftl hex 16) 0xf80000)) (Z.land (Z.shiftl hex 13) 0xe000).

(** A pixel survives the conversion to 24 bits. *)
Lemma RGB565_HEXRGB v : 0 <= v < 65536 ->
  RGB565 (u8 (Z.shiftr (HEXRGB v) 16)) (u8 (Z.shiftr (HEXRGB v) 8)) (u8 (HEXRGB v)) = v.
Proof.
  set (P := fun v => RGB565 (u8 (Z.shiftr (HEXRGB v) 16)) (u8 (Z.shiftr (HEXRGB v) 8)) (u8 (HEXRGB v)) =? v).
  intros Hv. apply Z.eqb_eq. apply (forallb_u16 P); [|exact Hv]. vm_compute. reflexivity.
Qed.
