(* ===== verification/Png.v ===== *)
(** * Screenshots as PNG files: container, bit stream and encoder

    [vna_modules/vna_png.c], first half: the checksums, the chunk writer, the
    deflate tables, the fixed-Huffman bit writer with its buffer of IDAT payload,
    the LZ77 search in a ring of 512 bytes and [png_encode]. The file and the
    source of the rows are the callbacks of [png_io_t]: an instance of [Sink] and
    a function that yields a row and may grow the palette.

    The writer emits a list of bits ([writes]), the search emits [token]s that
    expand to its input ([lz_feed_expands]), and an encoded file is a well-formed
    container around such a stream ([png_encode_stream]). *)

From S2P Require Import Prelude Colour.

(** ** Constants *)

Definition PNG_WINDOW : Z := 512.
Definition PNG_HASH : Z := 256.
Definition PNG_OUT : Z := 256.
Definition PNG_IN : Z := 256.

(** ** Checksums *)

Definition png_crc_step (crc : Z) : Z :=
  Z.lxor (Z.shiftr crc 1) (Z.land 0xEDB88320 (u32 (0 - Z.land crc 1))).
Definition png_crc_byte (crc b : Z) : Z := Nat.iter 8 png_crc_step (Z.lxor crc b).
Definition png_crc32 (crc : Z) (p : list Z) : Z :=
  Z.lxor (fold_left png_crc_byte p (Z.lxor crc 0xFFFFFFFF)) 0xFFFFFFFF.

Definition png_adler_byte (ab : Z * Z) (x : Z) : Z * Z :=
  let '(a, b) := ab in
  let a := a + x in let a := if 65521 <=? a then a - 65521 else a in
  let b := b + a in let b := if 65521 <=? b then b - 65521 else b in
  (a, b).
Definition png_adler32 (adler : Z) (p : list Z) : Z :=
  let '(a, b) := fold_left png_adler_byte p (Z.land adler 0xFFFF, Z.shiftr adler 16) in
  Z.lor (u32 (Z.shiftl b 16)) a.

Definition png_be32 (v : Z) : list Z :=
  [u8 (Z.shiftr v 24); u8 (Z.shiftr v 16); u8 (Z.shiftr v 8); u8 v].

(** ** Palette entries *)

Definition plte_entry (v : Z) : list Z :=
  let rgb := HEXRGB v in [u8 (Z.shiftr rgb 16); u8 (Z.shiftr rgb 8); u8 rgb].

(** ** The file written: [write] of [png_io_t] *)

(** [snk_write c d] returns the number of bytes written; [snk_data] is what the
    file holds. A complete write appends its bytes. *)
Class Sink (C : Type) := {
  snk_write : C -> list Z -> C * Z;
  snk_data : C -> list Z;
  snk_law : forall c d c', snk_write c d = (c', Z.of_nat (length d)) -> snk_data c' = snk_data c ++ d }.

(** ** Chunk writer *)

Record png_chunk_t (C : Type) := Chunk { c_io : C; c_crc : Z; c_ok : bool }.
Arguments Chunk {C}.
Arguments c_io {C}.
Arguments c_crc {C}.
Arguments c_ok {C}.

Definition IHDR := cstr "IHDR".
Definition PLTE := cstr "PLTE".
Definition IDAT := cstr "IDAT".
Definition IEND := cstr "IEND".

Section Writer.
Context {C : Type} `{Sink C}.

Definition io_write (io : C) (ok : bool) (d : list Z) : C * bool :=
  let '(io, n) := snk_write io d in (io, ok && (n =? Z.of_nat (length d))).

Definition png_chunk_begin (c : png_chunk_t C) (tag : list Z) (len : Z) : png_chunk_t C :=
  let '(io, ok) := io_write (c_io c) (c_ok c) (png_be32 len ++ tag) in
  Chunk io (png_crc32 0 tag) ok.
Definition png_chunk_write (c : png_chunk_t C) (p : list Z) : png_chunk_t C :=
  let crc := png_crc32 (c_crc c) p in
  let '(io, ok) := io_write (c_io c) (c_ok c) p in Chunk io crc ok.
Definition png_chunk_end (c : png_chunk_t C) : png_chunk_t C :=
  let '(io, ok) := io_write (c_io c) (c_ok c) (png_be32 (c_crc c)) in Chunk io (c_crc c) ok.

(** ** Bit writer

    The fields [io], [out] with [outn] its length, [bits], [nbits] and [ok] of
    [png_enc_t]. *)
Record png_bitw_t := Bitw { w_io : C; w_out : list Z; w_bits : Z; w_nbits : Z; w_ok : bool }.

Definition png_flush_idat (e : png_bitw_t) : png_bitw_t :=
  if (length (w_out e) =? 0)%nat then e else
  let c := Chunk (w_io e) 0 (w_ok e) in
  let c := png_chunk_begin c IDAT (Z.of_nat (length (w_out e))) in
  let c := png_chunk_write c (w_out e) in
  let c := png_chunk_end c in
  Bitw (c_io c) [] (w_bits e) (w_nbits e) (c_ok c).

Definition png_put_byte (e : png_bitw_t) (b : Z) : png_bitw_t :=
  let e := Bitw (w_io e) (w_out e ++ [u8 b]) (w_bits e) (w_nbits e) (w_ok e) in
  if Z.of_nat (length (w_out e)) =? PNG_OUT then png_flush_idat e else e.

(** [while (e->nbits >= 8)]; every round takes eight bits. *)
Fixpoint png_drain (fuel : nat) (e : png_bitw_t) : png_bitw_t :=
  match fuel with
  | O => e
  | S k =>
      if 8 <=? w_nbits e then
        let e' := png_put_byte e (Z.land (w_bits e) 0xFF) in
        png_drain k (Bitw (w_io e') (w_out e') (Z.shiftr (w_bits e') 8) (w_nbits e' - 8) (w_ok e'))
      else e
  end.

Definition png_put_bits (e : png_bitw_t) (v n : Z) : png_bitw_t :=
  let e := Bitw (w_io e) (w_out e) (Z.lor (w_bits e) (u32 (Z.shiftl v (w_nbits e)))) (w_nbits e + n) (w_ok e) in
  png_drain (Z.to_nat (w_nbits e)) e.

Definition png_align_byte (e : png_bitw_t) : png_bitw_t :=
  if w_nbits e =? 0 then e else
  let e := png_put_byte e (Z.land (w_bits e) 0xFF) in
  Bitw (w_io e) (w_out e) 0 0 (w_ok e).

(** [for (i = 0; i < n; i++) { r = (r << 1) | (code & 1); code >>= 1; }] *)
Fixpoint reverse_code (n : nat) (r code : Z) : Z :=
  match n with
  | O => r
  | S k => reverse_code k (Z.lor (u32 (Z.shiftl r 1)) (Z.land code 1)) (Z.shiftr code 1)
  end.
Definition png_put_rev (e : png_bitw_t) (code n : Z) : png_bitw_t :=
  png_put_bits e (reverse_code (Z.to_nat n) 0 code) n.

Definition png_put_literal (e : png_bitw_t) (v : Z) : png_bitw_t :=
  if v <? 144 then png_put_rev e (0x30 + v) 8 else png_put_rev e (0x190 + v - 144) 9.
Definition png_put_symbol (e : png_bitw_t) (sym : Z) : png_bitw_t :=
  if sym <? 280 then png_put_rev e (sym - 256) 7 else png_put_rev e (0xC0 + sym - 280) 8.
End Writer.

Arguments png_bitw_t C : clear implicits.
Arguments Bitw {C}.

(** ** Deflate tables *)

Definition png_len_base : list Z :=
  [3;4;5;6;7;8;9;10;11;13;15;17;19;23;27;31;35;43;51;59;67;83;99;115;131;163;195;227;258].
Definition png_len_extra : list Z :=
  [0;0;0;0;0;0;0;0;1;1;1;1;2;2;2;2;3;3;3;3;4;4;4;4;5;5;5;5;0].
Definition png_dist_base : list Z :=
  [1;2;3;4;5;7;9;13;17;25;33;49;65;97;129;193;257;385;513;769;1025;1537;2049;3073;4097;6145;8193;12289;16385;24577].
Definition png_dist_extra : list Z :=
  [0;0;0;0;1;1;2;2;3;3;4;4;5;5;6;6;7;7;8;8;9;9;10;10;11;11;12;12;13;13].

Definition tab (t : list Z) (i : Z) : Z := nth (Z.to_nat i) t 0.

(** [while (i < last && base[i + 1] <= x) i++;] *)
Fixpoint png_slot (fuel : nat) (base : list Z) (last x i : Z) : Z :=
  match fuel with
  | O => i
  | S k => if (i <? last) && (tab base (i + 1) <=? x) then png_slot k base last x (i + 1) else i
  end.
Definition len_slot (len : Z) : Z := png_slot 28 png_len_base 28 len 0.
Definition dist_slot (dist : Z) : Z := png_slot 29 png_dist_base 29 dist 0.

(** ** Encoder *)

Record png_enc_t (C : Type) := Enc {
  e_w : png_bitw_t C; e_adler : Z; e_ring : list Z; e_head : list Z; e_pos : Z }.
Arguments Enc {C}.
Arguments e_w {C}.
Arguments e_adler {C}.
Arguments e_ring {C}.
Arguments e_head {C}.
Arguments e_pos {C}.

Definition ring_index (p : Z) : nat := Z.to_nat (Z.land p (PNG_WINDOW - 1)).
Definition PNG_RING (ring : list Z) (p : Z) : Z := nth (ring_index p) ring 0.

Definition png_hash (s0 s1 s2 : Z) : Z :=
  Z.land (Z.lxor (Z.lxor (Z.lxor (Z.shiftl s0 6) (Z.shiftl s1 3)) s2) (s0 * 31)) (PNG_HASH - 1).

Definition png_byte_at (ring : list Z) (p base : Z) (src : list Z) : Z :=
  if base <=? p then tab src (p - base) else PNG_RING ring p.

(** [while (len < max && png_byte_at(e, cand + len, base, src) == s[len]) len++;] *)
Fixpoint png_match_len (fuel : nat) (ring : list Z) (cand pos base : Z) (src : list Z) (max len : Z) : Z :=
  match fuel with
  | O => len
  | S k =>
      if (len <? max) && (png_byte_at ring (u32 (cand + len)) base src =? tab src (pos - base + len))
      then png_match_len k ring cand pos base src max (len + 1) else len
  end.

(** The candidate of the hash head: [cand], the position before [pos] whose low
    sixteen bits the head holds. *)
Definition png_cand (hd pos : Z) : Z :=
  let cand := Z.lor hd (Z.land pos 0xFFFF0000) in
  if pos <=? cand then u32 (cand - 0x10000) else cand.

(** [best], [bestd] and the new heads. *)
Definition png_find (ring head : list Z) (pos base stop : Z) (src : list Z) : Z * Z * list Z :=
  let avail := u32 (stop - pos) in
  if 3 <=? avail then
    let s k := tab src (pos - base + k) in
    let h := png_hash (s 0) (s 1) (s 2) in
    let hd := tab head h in
    let cand := png_cand hd pos in
    let dist := u32 (pos - cand) in
    let '(best, bestd) :=
      if (cand <? pos) && (dist <=? PNG_WINDOW) && negb (hd =? 0xFFFF) then
        let max := if 258 <? avail then 258 else avail in
        let len := png_match_len (Z.to_nat max) ring cand pos base src max 0 in
        if 3 <=? len then (len, dist) else (0, 0)
      else (0, 0) in
    (best, bestd, <[Z.to_nat h := Z.land pos 0xFFFF]> head)
  else (0, 0, head).

Section Encoder.
Context {C : Type} `{Sink C}.

Definition png_put_match (e : png_bitw_t C) (len dist : Z) : png_bitw_t C :=
  let i := len_slot len in
  let e := png_put_symbol e (257 + i) in
  let e := if tab png_len_extra i =? 0 then e
           else png_put_bits e (len - tab png_len_base i) (tab png_len_extra i) in
  let d := dist_slot dist in
  let e := png_put_rev e d 5 in
  if tab png_dist_extra d =? 0 then e
  else png_put_bits e (dist - tab png_dist_base d) (tab png_dist_extra d).

(** One consumed byte enters the ring; the heads are kept fresh inside a match. *)
Definition png_consume (base stop : Z) (src : list Z) (k : Z) (e : png_enc_t C) : png_enc_t C :=
  let pos := e_pos e in
  let s j := tab src (pos - base + j) in
  let ring := <[ring_index pos := s 0]> (e_ring e) in
  let head := if negb (k =? 0) && (3 <=? u32 (stop - pos))
              then <[Z.to_nat (png_hash (s 0) (s 1) (s 2)) := Z.land pos 0xFFFF]> (e_head e) else e_head e in
  Enc (e_w e) (e_adler e) ring head (u32 (pos + 1)).

Definition png_lz_step (base stop : Z) (src : list Z) (e : png_enc_t C) : png_enc_t C :=
  let '(best, bestd, head) := png_find (e_ring e) (e_head e) (e_pos e) base stop src in
  let step := if best =? 0 then 1 else best in
  let w := if best =? 0 then png_put_literal (e_w e) (tab src (e_pos e - base))
           else png_put_match (e_w e) best bestd in
  for_range 0 step (png_consume base stop src) (Enc w (e_adler e) (e_ring e) head (e_pos e)).

Fixpoint png_lz_loop (fuel : nat) (base stop : Z) (src : list Z) (e : png_enc_t C) : png_enc_t C :=
  match fuel with
  | O => e
  | S k => if e_pos e <? stop then png_lz_loop k base stop src (png_lz_step base stop src e) else e
  end.

(** Every round consumes a byte, so the length of the buffer is fuel enough
    ([lz_feed_expands]). *)
Definition png_lz_feed (e : png_enc_t C) (src : list Z) : png_enc_t C :=
  let base := e_pos e in
  png_lz_loop (length src) base (u32 (base + Z.of_nat (length src))) src e.

(** ** [png_encode]

    [R] is what [get_row] works on, with the palette in use in it. *)
Context {R : Type} (get_row : R -> Z -> option (R * list Z)) (palette : R -> list Z).

(** Pass 1: the rows are read for the palette only. *)
Fixpoint png_palette_pass (ys : list Z) (r : R) : option R :=
  match ys with
  | [] => Some r
  | y :: ys => match get_row r y with Some (r, _) => png_palette_pass ys r | None => None end
  end.

Definition png_signature : list Z := [0x89; 80; 78; 71; 13; 10; 0x1A; 10].
Definition png_ihdr (width height : Z) : list Z := png_be32 width ++ png_be32 height ++ [8; 3; 0; 0; 0].

Definition upd_w (f : png_bitw_t C -> png_bitw_t C) (e : png_enc_t C) : png_enc_t C :=
  Enc (f (e_w e)) (e_adler e) (e_ring e) (e_head e) (e_pos e).

Definition png_encode_row (row : list Z) (e : png_enc_t C) : png_enc_t C :=
  let adler := png_adler32 (png_adler32 (e_adler e) [0]) row in
  let e := Enc (e_w e) adler (e_ring e) (e_head e) (e_pos e) in
  png_lz_feed (png_lz_feed e [0]) row.

(** Pass 2; [false] when [get_row] fails. *)
Fixpoint png_encode_rows (ys : list Z) (r : R) (e : png_enc_t C) : png_enc_t C * R * bool :=
  match ys with
  | [] => (e, r, true)
  | y :: ys =>
      match get_row r y with
      | Some (r, row) => png_encode_rows ys r (png_encode_row row e)
      | None => (e, r, false)
      end
  end.

Definition png_header (width height : Z) (io : C) (pal : list Z) : C * bool * bool :=
  let '(io, ok) := io_write io true png_signature in
  let c := Chunk io 0 true in
  let c := png_chunk_end (png_chunk_write (png_chunk_begin c IHDR 13) (png_ihdr width height)) in
  let c := png_chunk_begin c PLTE (Z.of_nat (length pal) * 3) in
  let c := png_chunk_end (fold_left (fun c v => png_chunk_write c (plte_entry v)) pal c) in
  (c_io c, c_ok c, ok && c_ok c).

(** The zlib header and the header of the only block: BFINAL = 1, BTYPE = 01. *)
Definition png_start (io : C) (ok : bool) : png_bitw_t C :=
  let w := Bitw io [] 0 0 ok in
  let w := png_put_byte (png_put_byte w 0x78) 0x01 in
  png_put_bits (png_put_bits w 1 1) 1 2.

Definition png_trailer (adler : Z) (w : png_bitw_t C) : png_bitw_t C :=
  let w := png_align_byte (png_put_symbol w 256) in
  png_flush_idat (fold_left png_put_byte (png_be32 adler) w).

Definition png_finish (c_ok0 : bool) (w : png_bitw_t C) : C * bool :=
  let c := png_chunk_end (png_chunk_begin (Chunk (w_io w) 0 c_ok0) IEND 0) in (c_io c, w_ok w && c_ok c).

(** [work] is the ring as the caller lends it. *)
Definition png_encode (width height : Z) (work : list Z) (io : C) (r : R) : C * R * bool :=
  let ys := seqZ 0 height in
  match png_palette_pass ys r with
  | None => (io, r, false)
  | Some r =>
      let '(io, c_ok0, ok) := png_header width height io (palette r) in
      let e := Enc (png_start io ok) 1 work (repeat 0xFFFF (Z.to_nat PNG_HASH)) 0 in
      let '(e, r, got) := png_encode_rows ys r e in
      if negb got then (w_io (e_w e), r, false) else
      let '(io, ok) := png_finish c_ok0 (png_trailer (e_adler e) (e_w e)) in (io, r, ok)
  end.
End Encoder.

(** ** Bit strings *)

(** The [n] low bits of [v], lowest first, and the number a bit string stands for. *)
Fixpoint to_bits (n : nat) (v : Z) : list bool :=
  match n with O => [] | S k => Z.odd v :: to_bits k (v / 2) end.
Fixpoint of_bits (l : list bool) : Z :=
  match l with [] => 0 | b :: l => Z.b2z b + 2 * of_bits l end.
Definition byte_bits (s : list Z) : list bool := flat_map (to_bits 8) s.
(** A Huffman code of [n] bits: highest bit first. *)
Definition code_bits (n : nat) (code : Z) : list bool := rev (to_bits n code).

(** The fixed code of RFC 1951, 3.2.6: literals, end of block and lengths. *)
Definition sym_bits (sym : Z) : list bool :=
  if sym <? 144 then code_bits 8 (0x30 + sym) else
  if sym <? 256 then code_bits 9 (0x190 + sym - 144) else
  if sym <? 280 then code_bits 7 (sym - 256) else code_bits 8 (0xC0 + sym - 280).

(** A literal byte, or a copy of [len] bytes from [dist] back. *)
Inductive token := Lit (v : Z) | Match (len dist : Z).

Definition token_bits (t : token) : list bool :=
  match t with
  | Lit v => sym_bits v
  | Match len dist =>
      let i := len_slot len in let d := dist_slot dist in
      sym_bits (257 + i) ++ to_bits (Z.to_nat (tab png_len_extra i)) (len - tab png_len_base i) ++
      code_bits 5 d ++ to_bits (Z.to_nat (tab png_dist_extra d)) (dist - tab png_dist_base d)
  end.

Fixpoint copy_back (n dist : nat) (h : list Z) : list Z :=
  match n with O => h | S k => copy_back k dist (h ++ [nth (length h - dist) h 0]) end.

(** [expands h ts h']: the tokens [ts] turn the history [h] into [h'], every copy
    within the window. *)
Inductive expands : list Z -> list token -> list Z -> Prop :=
| expands_nil h : expands h [] h
| expands_lit h v ts h' : 0 <= v < 256 -> expands (h ++ [v]) ts h' -> expands h (Lit v :: ts) h'
| expands_match h len dist ts h' :
    3 <= len <= 258 -> 1 <= dist <= PNG_WINDOW -> dist <= Z.of_nat (length h) ->
    expands (copy_back (Z.to_nat len) (Z.to_nat dist) h) ts h' -> expands h (Match len dist :: ts) h'.

(** A chunk of the container. *)
Definition chunk (tag data : list Z) : list Z :=
  png_be32 (Z.of_nat (length data)) ++ tag ++ data ++ png_be32 (png_crc32 0 (tag ++ data)).

(** ** Lemmas on bit strings *)

Lemma to_bits_length n : forall v, length (to_bits n v) = n.
Proof. induction n; intros v; cbn; [done|by f_equal]. Qed.

Lemma to_bits_app n m : forall v, to_bits (n + m) v = to_bits n v ++ to_bits m (v / 2 ^ Z.of_nat n).
Proof.
  induction n as [|n IH]; intros v; cbn [to_bits Nat.add app]; [by rewrite Z.div_1_r|].
  rewrite IH. do 2 f_equal. f_equal. rewrite Z.div_div by lia. f_equal. rewrite Nat2Z.inj_succ, Z.pow_succ_r; lia.
Qed.

Lemma to_bits_mod n m : forall v, (n <= m)%nat -> to_bits n (v mod 2 ^ Z.of_nat m) = to_bits n v.
Proof.
  revert m. induction n as [|n IH]; intros [|m] v Hn; try lia; cbn [to_bits]; [done|done|].
  assert (E : v mod 2 ^ Z.of_nat (S m) = v mod 2 + 2 * ((v / 2) mod 2 ^ Z.of_nat m)).
  { rewrite Nat2Z.inj_succ, Z.pow_succ_r by lia. apply Z.rem_mul_r; lia. }
  f_equal.
  - rewrite E, Z.odd_add_mul_2, Zmod_odd. by destruct (Z.odd v).
  - rewrite <- (IH m (v / 2)) by lia. f_equal. rewrite E. lia.
Qed.

Lemma of_to_bits n : forall v, of_bits (to_bits n v) = v mod 2 ^ Z.of_nat n.
Proof.
  induction n as [|n IH]; intros v; cbn [to_bits of_bits]; [by rewrite Z.mod_1_r|].
  rewrite IH, Nat2Z.inj_succ, Z.pow_succ_r, Z.rem_mul_r, Zmod_odd by lia. by destruct (Z.odd v).
Qed.

Lemma of_to_bits_small n v : 0 <= v < 2 ^ Z.of_nat n -> of_bits (to_bits n v) = v.
Proof. intros Hv. by rewrite of_to_bits, Z.mod_small. Qed.

Lemma to_bits_join n m a v : 0 <= a < 2 ^ Z.of_nat n ->
  to_bits (n + m) (a + v * 2 ^ Z.of_nat n) = to_bits n a ++ to_bits m v.
Proof.
  intros Ha. rewrite to_bits_app. f_equal.
  - rewrite <- (to_bits_mod n n) by lia. by rewrite Z.mod_add, to_bits_mod by lia.
  - f_equal. rewrite Z.div_add by lia. by rewrite Z.div_small.
Qed.

Lemma reverse_code_bits n : forall k r code, 0 <= r < 2 ^ Z.of_nat k -> (k + n <= 31)%nat ->
  to_bits (k + n) (reverse_code n r code) = rev (to_bits n code) ++ to_bits k r /\
  0 <= reverse_code n r code < 2 ^ Z.of_nat (k + n).
Proof.
  induction n as [|n IH]; intros k r code Hr Hk; cbn [reverse_code to_bits rev app].
  { by rewrite Nat.add_0_r. }
  assert (Hpow : 2 ^ Z.of_nat (S k) = 2 * 2 ^ Z.of_nat k) by (rewrite Nat2Z.inj_succ, Z.pow_succ_r; lia).
  assert (Hle : 2 * 2 ^ Z.of_nat k <= 2 ^ 31) by (rewrite <- Hpow; apply Z.pow_le_mono_r; lia).
  set (r' := Z.lor (u32 (Z.shiftl r 1)) (Z.land code 1)).
  assert (E : r' = Z.b2z (Z.odd code) + 2 * r).
  { unfold r'. rewrite Z.shiftl_mul_pow2, u32_small by lia. change 1 with (Z.ones 1) at 2.
    rewrite land_mask, lor_add_pow2 by lia. change (2 ^ 1) with 2. rewrite Zmod_odd. destruct (Z.odd code); cbn [Z.b2z]; lia. }
  destruct (IH (S k) r' (Z.shiftr code 1)) as [A B]; [rewrite E; destruct (Z.odd code); cbn; lia|lia|].
  rewrite Z.shiftr_div_pow2 in * by lia. change (2 ^ 1) with 2 in *.
  replace (k + S n)%nat with (S k + n)%nat by lia. split; [|exact B]. rewrite A, <- app_assoc. f_equal.
  cbn [to_bits app]. rewrite E. f_equal; [rewrite Z.add_comm, Z.odd_add, Z.odd_mul; by destruct (Z.odd code)|].
  f_equal. destruct (Z.odd code); cbn [Z.b2z]; lia.
Qed.

Lemma byte_bits_app a b : byte_bits (a ++ b) = byte_bits a ++ byte_bits b.
Proof. apply flat_map_app. Qed.
Lemma byte_bits_length s : length (byte_bits s) = (8 * length s)%nat.
Proof. induction s as [|x s IH]; cbn [byte_bits flat_map]; [done|]. rewrite length_app, to_bits_length. fold (byte_bits s). cbn [length]. lia. Qed.

(** ** What the bit writer writes *)

Lemma crc32_app crc a b : png_crc32 (png_crc32 crc a) b = png_crc32 crc (a ++ b).
Proof.
  unfold png_crc32. rewrite fold_left_app. f_equal. f_equal. by rewrite Z.lxor_assoc, Z.lxor_nilpotent, Z.lxor_0_r.
Qed.


Section Written.
Context {C : Type} `{Sink C}.
Implicit Types (w : png_bitw_t C) (hdr s : list Z).

Lemma io_write_ok io ok d io' : io_write io ok d = (io', true) -> ok = true /\ snk_data io' = snk_data io ++ d.
Proof.
  unfold io_write. destruct (snk_write io d) as [io1 n] eqn:E. intros [= <- [Hok Hn]%andb_prop].
  apply Z.eqb_eq in Hn. subst n. split; [exact Hok|exact (snk_law _ _ _ E)].
Qed.

(** A chunk written in one go. *)
Lemma chunk_written (c : png_chunk_t C) tag data :
  let c' := png_chunk_end (png_chunk_write (png_chunk_begin c tag (Z.of_nat (length data))) data) in
  c_ok c' = true -> c_ok c = true /\ snk_data (c_io c') = snk_data (c_io c) ++ chunk tag data.
Proof.
  unfold png_chunk_end, png_chunk_write, png_chunk_begin.
  destruct (io_write (c_io c) _ _) as [io1 ok1] eqn:E1. cbn [c_io c_ok c_crc].
  destruct (io_write io1 _ _) as [io2 ok2] eqn:E2. cbn [c_io c_ok c_crc].
  destruct (io_write io2 _ _) as [io3 ok3] eqn:E3. cbn [c_io c_ok c_crc]. intros ->.
  apply io_write_ok in E3 as [-> D3]. apply io_write_ok in E2 as [-> D2]. apply io_write_ok in E1 as [Hok D1].
  split; [exact Hok|]. rewrite D3, D2, D1, crc32_app. unfold chunk. by rewrite <- !app_assoc.
Qed.

Lemma empty_chunk_written (c c' : png_chunk_t C) tag : png_chunk_end (png_chunk_begin c tag 0) = c' ->
  c_ok c' = true -> snk_data (c_io c') = snk_data (c_io c) ++ chunk tag [].
Proof.
  intros <-. unfold png_chunk_end, png_chunk_begin. destruct (io_write (c_io c) _ _) as [io1 ok1] eqn:E1. cbn [c_io c_ok c_crc].
  destruct (io_write io1 _ _) as [io2 ok2] eqn:E2. cbn [c_io c_ok c_crc]. intros ->.
  apply io_write_ok in E2 as [-> D2]. apply io_write_ok in E1 as [_ D1].
  rewrite D2, D1. unfold chunk. cbn [length app]. by rewrite app_nil_r, <- !app_assoc.
Qed.

(** The bytes put so far are those of the finished IDAT chunks and of the buffer. *)
Definition streams hdr w s : Prop :=
  w_ok w = true -> exists chunks,
    snk_data (w_io w) = hdr ++ flat_map (chunk IDAT) chunks /\ concat chunks ++ w_out w = s /\
    Forall (fun c => 0 < Z.of_nat (length c) <= PNG_OUT) chunks.

Lemma flush_streams hdr w s : Z.of_nat (length (w_out w)) <= PNG_OUT -> streams hdr w s ->
  streams hdr (png_flush_idat w) s /\ w_out (png_flush_idat w) = [] /\
  w_bits (png_flush_idat w) = w_bits w /\ w_nbits (png_flush_idat w) = w_nbits w.
Proof.
  intros Hlen Hs. unfold png_flush_idat. destruct (Nat.eqb_spec (length (w_out w)) 0) as [E|Hne].
  { split; [exact Hs|]. by rewrite (nil_length_inv _ E). }
  cbn [w_out w_bits w_nbits]. split; [|done]. intros Hok. cbn [w_ok w_io w_out] in *.
  apply chunk_written in Hok as [Hok D]. destruct (Hs Hok) as (chunks & Hd & Hcat & Hall). cbn [c_io] in D.
  exists (chunks ++ [w_out w]). rewrite D, Hd, flat_map_app, concat_app. cbn [flat_map concat]. rewrite !app_nil_r, <- app_assoc.
  split; [done|]. split; [done|]. apply Forall_app. split; [exact Hall|]. apply Forall_singleton. lia.
Qed.

Lemma put_byte_streams hdr w s b : Z.of_nat (length (w_out w)) < PNG_OUT -> streams hdr w s ->
  streams hdr (png_put_byte w b) (s ++ [u8 b]) /\ Z.of_nat (length (w_out (png_put_byte w b))) < PNG_OUT /\
  w_bits (png_put_byte w b) = w_bits w /\ w_nbits (png_put_byte w b) = w_nbits w.
Proof.
  intros Hlen Hs. unfold png_put_byte. set (w1 := Bitw _ _ _ _ _).
  assert (H1 : streams hdr w1 (s ++ [u8 b])).
  { intros Hok. destruct (Hs Hok) as (chunks & Hd & Hcat & Hall). exists chunks. cbn [w1 w_io w_out].
    rewrite app_assoc, Hcat. auto. }
  assert (Hl1 : Z.of_nat (length (w_out w1)) <= PNG_OUT) by (cbn [w1 w_out]; rewrite length_app; cbn [length]; lia).
  destruct (Z.eqb_spec (Z.of_nat (length (w_out w1))) PNG_OUT) as [E|Hne]; [|split; [exact H1|split; [lia|done]]].
  destruct (flush_streams hdr w1 _ Hl1 H1) as (A & -> & -> & ->). split; [exact A|done].
Qed.

(** The bits written so far, in [s] and in the accumulator. *)
Definition writes hdr w (B : list bool) : Prop :=
  exists s, streams hdr w s /\ Z.of_nat (length (w_out w)) < PNG_OUT /\ 0 <= w_nbits w < 8 /\
    0 <= w_bits w < 2 ^ w_nbits w /\ B = byte_bits s ++ to_bits (Z.to_nat (w_nbits w)) (w_bits w).

Lemma drain_writes hdr fuel : forall w s, Z.of_nat (length (w_out w)) < PNG_OUT -> streams hdr w s ->
  0 <= w_nbits w < 8 + 8 * Z.of_nat fuel -> 0 <= w_bits w < 2 ^ w_nbits w ->
  writes hdr (png_drain fuel w) (byte_bits s ++ to_bits (Z.to_nat (w_nbits w)) (w_bits w)).
Proof.
  induction fuel as [|k IH]; intros w s Hlen Hs Hn Hb; cbn [png_drain].
  { exists s. cbn in Hn. split; [exact Hs|]. split; [exact Hlen|]. split; [lia|done]. }
  destruct (Z.leb_spec 8 (w_nbits w)) as [Hge|Hlt]; [|exists s; split; [exact Hs|]; split; [exact Hlen|]; split; [lia|done]].
  change 0xFF with (Z.ones 8). rewrite land_mask by lia. change (2 ^ 8) with 256.
  destruct (put_byte_streams hdr w s (w_bits w mod 256) Hlen Hs) as (A & Hl & Eb & En).
  set (w' := png_put_byte w (w_bits w mod 256)) in *. set (w2 := Bitw _ _ _ _ _).
  assert (Hq : w_bits w2 = w_bits w / 256) by (cbn [w2 w_bits]; rewrite Eb, Z.shiftr_div_pow2 by lia; done).
  assert (Hm : w_nbits w2 = w_nbits w - 8) by (cbn [w2 w_nbits]; by rewrite En).
  assert (Hp : 2 ^ w_nbits w = 256 * 2 ^ (w_nbits w - 8)) by (change 256 with (2 ^ 8); rewrite <- Z.pow_add_r by lia; f_equal; lia).
  assert (E : byte_bits s ++ to_bits (Z.to_nat (w_nbits w)) (w_bits w) =
              byte_bits (s ++ [u8 (w_bits w mod 256)]) ++ to_bits (Z.to_nat (w_nbits w2)) (w_bits w2)).
  { rewrite byte_bits_app, <- app_assoc. f_equal. replace (Z.to_nat (w_nbits w)) with (8 + Z.to_nat (w_nbits w2))%nat by lia.
    rewrite to_bits_app. change (2 ^ Z.of_nat 8) with 256. rewrite <- Hq. f_equal. cbn [byte_bits flat_map].
    rewrite app_nil_r. unfold u8. rewrite Z.mod_mod by lia. change 256 with (2 ^ Z.of_nat 8). by rewrite to_bits_mod. }
  rewrite E. apply IH; [exact Hl|exact A|lia|]. rewrite Hq, Hm. split; [apply Z.div_pos; lia|].
  apply Z.div_lt_upper_bound; lia.
Qed.

Lemma put_bits_writes hdr w B v n : writes hdr w B -> 0 <= n <= 16 -> 0 <= v < 2 ^ n ->
  writes hdr (png_put_bits w v n) (B ++ to_bits (Z.to_nat n) v).
Proof.
  intros (s & Hs & Hlen & Hn & Hb & ->) Hn16 Hv. unfold png_put_bits. set (w1 := Bitw _ _ _ _ _).
  assert (Hp : 2 ^ (w_nbits w + n) = 2 ^ w_nbits w * 2 ^ n) by (apply Z.pow_add_r; lia).
  assert (Hle : 2 ^ (w_nbits w + n) <= 2 ^ 23) by (apply Z.pow_le_mono_r; lia).
  assert (Hnn : 0 < 2 ^ w_nbits w) by (apply Z.pow_pos_nonneg; lia).
  assert (E : w_bits w1 = w_bits w + v * 2 ^ w_nbits w).
  { cbn [w1 w_bits]. rewrite Z.shiftl_mul_pow2, u32_small by (try lia; nia).
    rewrite Z.lor_comm, lor_add_pow2 by lia. lia. }
  assert (Hw : writes hdr (png_drain (Z.to_nat (w_nbits w1)) w1) (byte_bits s ++ to_bits (Z.to_nat (w_nbits w1)) (w_bits w1))).
  { apply drain_writes; [exact Hlen|exact Hs|cbn [w1 w_nbits]; lia|]. rewrite E. cbn [w1 w_nbits]. rewrite Hp. nia. }
  rewrite E in Hw. cbn [w1 w_nbits] in Hw |- *. rewrite Z2Nat.inj_add in Hw by lia. rewrite <- app_assoc.
  rewrite <- to_bits_join by (rewrite Z2Nat.id; lia). rewrite Z2Nat.id by lia. rewrite Z2Nat.inj_add by lia. exact Hw.
Qed.

Lemma put_rev_writes hdr w B code (k : nat) : writes hdr w B -> (k <= 16)%nat ->
  writes hdr (png_put_rev w code (Z.of_nat k)) (B ++ code_bits k code).
Proof.
  intros Hw Hn. unfold png_put_rev. rewrite Nat2Z.id.
  destruct (reverse_code_bits k 0 0 code) as [A R]; [cbn; lia|lia|]. cbn [Nat.add to_bits] in A, R.
  rewrite app_nil_r in A. unfold code_bits. rewrite <- A.
  pose proof (put_bits_writes hdr w B _ (Z.of_nat k) Hw ltac:(lia) R) as P. by rewrite Nat2Z.id in P.
Qed.

Lemma put_literal_writes hdr w B v : 0 <= v < 256 -> writes hdr w B -> writes hdr (png_put_literal w v) (B ++ sym_bits v).
Proof.
  intros Hv Hw. unfold png_put_literal, sym_bits. destruct (Z.ltb_spec v 144), (Z.ltb_spec v 256); try lia.
  - exact (put_rev_writes hdr w B _ 8 Hw ltac:(lia)).
  - exact (put_rev_writes hdr w B _ 9 Hw ltac:(lia)).
Qed.
Lemma put_symbol_writes hdr w B sym : 256 <= sym -> writes hdr w B -> writes hdr (png_put_symbol w sym) (B ++ sym_bits sym).
Proof.
  intros Hv Hw. unfold png_put_symbol, sym_bits.
  destruct (Z.ltb_spec sym 144), (Z.ltb_spec sym 256), (Z.ltb_spec sym 280); try lia.
  - exact (put_rev_writes hdr w B _ 7 Hw ltac:(lia)).
  - exact (put_rev_writes hdr w B _ 8 Hw ltac:(lia)).
Qed.

(** ** Match slots *)

(** [x] is the base of slot [i] and an offset that fits its extra bits. *)
Definition slot_ok (base extra : list Z) (last x i : Z) : bool :=
  (0 <=? i) && (i <=? last) && (0 <=? tab extra i) && (tab extra i <=? 13) &&
  (0 <=? x - tab base i) && (x - tab base i <? 2 ^ tab extra i).
Lemma slot_okE base extra last x i : slot_ok base extra last x i = true ->
  0 <= i <= last /\ 0 <= tab extra i <= 13 /\ 0 <= x - tab base i < 2 ^ tab extra i.
Proof. unfold slot_ok. rewrite !andb_true_iff, !Z.leb_le, Z.ltb_lt. lia. Qed.

Lemma len_slot_ok len : 3 <= len <= 258 -> let i := len_slot len in
  0 <= i <= 28 /\ 0 <= tab png_len_extra i <= 13 /\ 0 <= len - tab png_len_base i < 2 ^ tab png_len_extra i.
Proof.
  intros Hl. apply slot_okE. apply (forallb_seqZ (fun len => slot_ok png_len_base png_len_extra 28 len (len_slot len)) 3 256); [|lia].
  vm_compute. reflexivity.
Qed.
Lemma dist_slot_ok dist : 1 <= dist <= PNG_WINDOW -> let d := dist_slot dist in
  0 <= d <= 29 /\ 0 <= tab png_dist_extra d <= 13 /\ 0 <= dist - tab png_dist_base d < 2 ^ tab png_dist_extra d.
Proof.
  unfold PNG_WINDOW. intros Hl. apply slot_okE.
  apply (forallb_seqZ (fun dist => slot_ok png_dist_base png_dist_extra 29 dist (dist_slot dist)) 1 512); [|lia].
  vm_compute. reflexivity.
Qed.

Lemma put_extra_writes hdr w B x n : writes hdr w B -> 0 <= n <= 16 -> 0 <= x < 2 ^ n ->
  writes hdr (if n =? 0 then w else png_put_bits w x n) (B ++ to_bits (Z.to_nat n) x).
Proof.
  intros Hw Hn Hx. destruct (Z.eqb_spec n 0) as [->|]; [cbn; by rewrite app_nil_r|by apply put_bits_writes].
Qed.

Lemma put_match_writes hdr w B len dist : 3 <= len <= 258 -> 1 <= dist <= PNG_WINDOW -> writes hdr w B ->
  writes hdr (png_put_match w len dist) (B ++ token_bits (Match len dist)).
Proof.
  intros Hl Hd Hw. destruct (len_slot_ok len Hl) as (Hi & Hx & Hv). destruct (dist_slot_ok dist Hd) as (Hj & Hy & Hu).
  unfold png_put_match, token_bits. rewrite !app_assoc. apply put_extra_writes; [|lia|exact Hu].
  apply (put_rev_writes _ _ _ _ 5); [|lia]. apply put_extra_writes; [|lia|exact Hv]. apply put_symbol_writes; [lia|exact Hw].
Qed.
End Written.

(** ** The ring

    The ring holds the last [PNG_WINDOW] bytes of the history; the encoder and
    the decoder keep one each. *)

Definition ringed (h ring : list Z) : Prop :=
  length ring = Z.to_nat PNG_WINDOW /\
  forall p, 0 <= p < Z.of_nat (length h) -> Z.of_nat (length h) - PNG_WINDOW <= p -> PNG_RING ring p = tab h p.

Lemma ring_index_mod p : ring_index p = Z.to_nat (p mod PNG_WINDOW).
Proof. unfold ring_index, PNG_WINDOW. change (512 - 1) with (Z.ones 9). by rewrite land_mask. Qed.

Lemma tab_app_l h h' p : 0 <= p < Z.of_nat (length h) -> tab (h ++ h') p = tab h p.
Proof. intros Hp. unfold tab. apply app_nth1. lia. Qed.
Lemma tab_app_r h h' p : Z.of_nat (length h) <= p -> tab (h ++ h') p = tab h' (p - Z.of_nat (length h)).
Proof. intros Hp. unfold tab. rewrite app_nth2 by lia. f_equal. lia. Qed.
Lemma tab_take (l : list Z) n p : 0 <= p < n -> tab (take (Z.to_nat n) l) p = tab l p.
Proof. intros Hp. unfold tab. rewrite !nth_lookup, lookup_take_lt by lia. done. Qed.

Lemma ringed_push h ring b : ringed h ring -> ringed (h ++ [b]) (<[ring_index (Z.of_nat (length h)) := b]> ring).
Proof.
  intros [Hl Hr]. split; [by rewrite length_insert|]. intros p Hp Hw. rewrite length_app in Hp, Hw. cbn [length] in Hp, Hw.
  unfold PNG_RING. rewrite !ring_index_mod, nth_lookup.
  destruct (decide (p = Z.of_nat (length h))) as [->|Hne].
  - rewrite list_lookup_insert_eq by (rewrite Hl; unfold PNG_WINDOW; lia). rewrite tab_app_r by lia.
    by rewrite Z.sub_diag.
  - rewrite list_lookup_insert_ne by (unfold PNG_WINDOW in *; lia). rewrite tab_app_l by lia. rewrite <- Hr by lia.
    unfold PNG_RING. by rewrite ring_index_mod, nth_lookup.
Qed.

Lemma ringed_nil ring : length ring = Z.to_nat PNG_WINDOW -> ringed [] ring.
Proof. intros Hl. split; [exact Hl|]. cbn. lia. Qed.

(** ** Tokens *)

Lemma expands_app h ts h' : expands h ts h' -> forall ts' h'', expands h' ts' h'' -> expands h (ts ++ ts') h''.
Proof. induction 1; intros ts2 h2 Hts; cbn [app]; [done|constructor; auto|econstructor; eauto]. Qed.

Lemma take_S_tab (F : list Z) (p : Z) : 0 <= p < Z.of_nat (length F) ->
  take (Z.to_nat (p + 1)) F = take (Z.to_nat p) F ++ [tab F p].
Proof.
  intros Hp. replace (Z.to_nat (p + 1)) with (S (Z.to_nat p)) by lia. unfold tab. rewrite nth_lookup.
  destruct (lookup_lt_is_Some_2 F (Z.to_nat p) ltac:(lia)) as [x Hx]. rewrite Hx. by apply take_S_r.
Qed.

(** A copy reproduces a text that repeats itself at the distance. *)
Lemma copy_back_take (F : list Z) dist n : forall pos, 1 <= dist <= pos -> pos + Z.of_nat n <= Z.of_nat (length F) ->
  (forall k, 0 <= k < Z.of_nat n -> tab F (pos - dist + k) = tab F (pos + k)) ->
  copy_back n (Z.to_nat dist) (take (Z.to_nat pos) F) = take (Z.to_nat (pos + Z.of_nat n)) F.
Proof.
  induction n as [|n IH]; intros pos Hd Hl Hk; cbn [copy_back]; [by rewrite Z.add_0_r|].
  assert (E : nth (length (take (Z.to_nat pos) F) - Z.to_nat dist) (take (Z.to_nat pos) F) 0 = tab F pos).
  { rewrite length_take_le by lia. rewrite <- (Z.add_0_r pos) at 3. rewrite <- (Hk 0), <- (tab_take F pos) by lia.
    unfold tab. f_equal. lia. }
  rewrite E, <- take_S_tab by lia. rewrite IH; [f_equal; lia|lia|lia|].
  intros k Hk'. rewrite <- Z.add_assoc, <- (Hk (1 + k)) by lia. f_equal. lia.
Qed.

(** ** The LZ77 search *)

Section Search.
Context {C : Type} `{Sink C}.
Variables (h0 src : list Z).
Let base := Z.of_nat (length h0).
Let F := h0 ++ src.
Let stop := Z.of_nat (length F).
Hypothesis Hstop : stop < 2 ^ 32.

Lemma src_tab p : base <= p -> tab src (p - base) = tab F p.
Proof. intros Hp. unfold F. rewrite tab_app_r by (unfold base in Hp; lia). done. Qed.

Lemma byte_at_tab ring pos p : base <= pos <= stop -> ringed (take (Z.to_nat pos) F) ring ->
  0 <= p -> pos - PNG_WINDOW <= p -> png_byte_at ring p base src = tab F p.
Proof.
  intros Hpos [_ Hr] H0 Hw. unfold png_byte_at. destruct (Z.leb_spec base p); [by apply src_tab|].
  rewrite Hr, tab_take by (rewrite ?length_take_le by (unfold stop in Hpos; lia); lia). done.
Qed.

Lemma match_len_spec ring cand pos max : base <= pos -> pos + max <= stop -> ringed (take (Z.to_nat pos) F) ring ->
  0 <= cand < pos -> pos - cand <= PNG_WINDOW -> forall fuel len, 0 <= len <= max ->
  (forall k, 0 <= k < len -> tab F (cand + k) = tab F (pos + k)) ->
  let r := png_match_len fuel ring cand pos base src max len in
  len <= r <= max /\ forall k, 0 <= k < r -> tab F (cand + k) = tab F (pos + k).
Proof.
  intros Hb Hm Hr Hc Hd. induction fuel as [|n IH]; intros len Hlen Hk; cbn [png_match_len]; [split; [lia|exact Hk]|].
  destruct (Z.ltb_spec len max) as [Hlt|]; cbn [andb]; [|split; [lia|exact Hk]].
  rewrite u32_small by lia. rewrite (byte_at_tab ring pos) by (try exact Hr; lia).
  replace (pos - base + len) with (pos + len - base) by lia. rewrite src_tab by lia.
  destruct (Z.eqb_spec (tab F (cand + len)) (tab F (pos + len))) as [E|]; [|split; [lia|exact Hk]].
  destruct (IH (len + 1)) as [A B]; [lia| |split; [lia|exact B]].
  intros k Hk1. destruct (decide (k = len)) as [->|]; [exact E|apply Hk; lia].
Qed.

Definition heads_ok (head : list Z) : Prop := Forall (fun x => 0 <= x < 65536) head.

Lemma heads_ok_insert head i p : heads_ok head -> heads_ok (<[i := Z.land p 0xFFFF]> head).
Proof.
  intros Hh. apply Forall_insert; [exact Hh|]. change 0xFFFF with (Z.ones 16). rewrite land_mask by lia. change (2 ^ 16) with 65536. lia.
Qed.
Lemma heads_ok_tab head i : heads_ok head -> 0 <= tab head i < 65536.
Proof.
  intros Hh. unfold tab. rewrite nth_lookup. destruct (head !! Z.to_nat i) as [x|] eqn:E; [|cbn; lia].
  exact (Forall_lookup_1 _ _ _ _ Hh E).
Qed.

(** The candidate is a position of the past. *)
Lemma cand_past hd pos : 0 <= hd < 65536 -> 0 <= pos < 2 ^ 32 -> png_cand hd pos < pos -> 0 <= png_cand hd pos.
Proof.
  intros Hh Hp. unfold png_cand. cbv zeta.
  assert (0 <= Z.lor hd (Z.land pos 4294901760)) by (apply Z.lor_nonneg; split; [lia|apply Z.land_nonneg; lia]).
  destruct (_ <=? _); [|lia]. intros _. apply u32_range.
Qed.

Lemma find_spec ring head pos : base <= pos < stop -> ringed (take (Z.to_nat pos) F) ring -> heads_ok head ->
  let '(best, bestd, head') := png_find ring head pos base stop src in
  heads_ok head' /\
  (best = 0 \/ (3 <= best <= 258 /\ 1 <= bestd <= PNG_WINDOW /\ bestd <= pos /\ pos + best <= stop /\
    forall k, 0 <= k < best -> tab F (pos - bestd + k) = tab F (pos + k))).
Proof.
  intros Hpos Hr Hh. unfold png_find. rewrite u32_small by lia. destruct (Z.leb_spec 3 (stop - pos)) as [Ha|]; [|auto].
  set (h := png_hash _ _ _). set (cand := png_cand _ _).
  destruct (Z.ltb_spec cand pos) as [Hc|]; cbn [andb]; [|split; [by apply heads_ok_insert|auto]].
  assert (H0 : 0 <= cand) by (apply cand_past; [by apply heads_ok_tab|lia|exact Hc]).
  rewrite u32_small by lia. destruct (Z.leb_spec (pos - cand) PNG_WINDOW) as [Hd|]; cbn [andb];
    [|split; [by apply heads_ok_insert|auto]].
  destruct (negb _); [|split; [by apply heads_ok_insert|auto]].
  set (max := if 258 <? stop - pos then 258 else stop - pos).
  assert (Hmax : max <= 258 /\ pos + max <= stop /\ 0 <= max) by (unfold max; destruct (Z.ltb_spec 258 (stop - pos)); lia).
  destruct (match_len_spec ring cand pos max ltac:(lia) ltac:(lia) Hr ltac:(lia) Hd (Z.to_nat max) 0 ltac:(lia) ltac:(lia)) as [A B].
  destruct (Z.leb_spec 3 (png_match_len (Z.to_nat max) ring cand pos base src max 0)); (split; [by apply heads_ok_insert|]); [right|auto].
  split; [lia|]. split; [lia|]. split; [lia|]. split; [lia|]. intros k Hk. rewrite <- B by lia. f_equal. lia.
Qed.

(** What the loop of [png_lz_feed] keeps: [pos] bytes of [F] are in the ring. *)
Definition lz_at (adler pos : Z) (e : png_enc_t C) : Prop :=
  e_pos e = pos /\ e_adler e = adler /\ ringed (take (Z.to_nat pos) F) (e_ring e) /\ heads_ok (e_head e).

Lemma consume_at adler k pos e : base <= pos < stop -> lz_at adler pos e ->
  lz_at adler (pos + 1) (png_consume base stop src k e) /\ e_w (png_consume base stop src k e) = e_w e.
Proof.
  intros Hpos (Hp & Ha & Hr & Hh). unfold png_consume. split; [|done]. rewrite Hp, Z.add_0_r, !u32_small by lia.
  split; [done|]. split; [done|]. cbn [e_ring e_head]. split.
  - rewrite src_tab, take_S_tab by (unfold stop in *; lia). pose proof (ringed_push _ _ (tab F pos) Hr) as Hp'.
    rewrite length_take_le, Z2Nat.id in Hp' by (unfold stop in *; lia). exact Hp'.
  - destruct (negb _ && _); [by apply heads_ok_insert|exact Hh].
Qed.

Lemma consume_loop adler n pos e : base <= pos -> 0 <= n -> pos + n <= stop -> lz_at adler pos e ->
  lz_at adler (pos + n) (for_range 0 n (png_consume base stop src) e) /\ e_w (for_range 0 n (png_consume base stop src) e) = e_w e.
Proof.
  intros Hb Hn Hs He.
  apply (for_range_ind (fun k e' => lz_at adler (pos + k) e' /\ e_w e' = e_w e)); [lia|by rewrite Z.add_0_r|].
  intros k e' Hk [He' <-]. rewrite Z.add_assoc. apply consume_at; [lia|exact He'].
Qed.

Hypothesis Hsrc : Forall (fun b => 0 <= b < 256) src.

Lemma src_byte p : base <= p < stop -> 0 <= tab F p < 256.
Proof.
  intros Hp. rewrite <- src_tab by lia. unfold tab. rewrite nth_lookup.
  assert (E : stop = base + Z.of_nat (length src)) by (unfold stop, F, base; rewrite length_app; lia).
  destruct (lookup_lt_is_Some_2 src (Z.to_nat (p - base)) ltac:(lia)) as [b Hb]. rewrite Hb.
  exact (Forall_lookup_1 _ _ _ _ Hsrc Hb).
Qed.

(** One round writes one token, and the token expands to what it consumed. *)
Lemma lz_step_spec hdr adler pos e B : base <= pos < stop -> lz_at adler pos e -> writes hdr (e_w e) B ->
  let e' := png_lz_step base stop src e in
  exists t pos', pos < pos' <= stop /\ lz_at adler pos' e' /\ writes hdr (e_w e') (B ++ token_bits t) /\
    expands (take (Z.to_nat pos) F) [t] (take (Z.to_nat pos') F).
Proof.
  intros Hpos He Hw. unfold png_lz_step. destruct He as (Hp & Ha & Hr & Hh). rewrite Hp.
  pose proof (find_spec (e_ring e) (e_head e) pos Hpos Hr Hh) as Hf.
  destruct (png_find _ _ pos base stop src) as [[best bestd] head]. destruct Hf as [Hh' Hbest].
  assert (Hat : forall w, lz_at adler pos (Enc w (e_adler e) (e_ring e) head pos)) by (intros w; repeat split; done || apply Hr || lia).
  destruct Hbest as [->|(Hl & Hd & Hdp & Hs & Hk)].
  - cbn [Z.eqb]. destruct (consume_loop adler 1 pos _ ltac:(lia) ltac:(lia) ltac:(lia) (Hat (png_put_literal (e_w e) (tab src (pos - base))))) as [A ->].
    exists (Lit (tab F pos)), (pos + 1). split; [lia|]. split; [exact A|]. cbn [e_w token_bits].
    pose proof (src_byte pos Hpos). rewrite src_tab by lia. split; [by apply put_literal_writes|].
    rewrite take_S_tab by (unfold stop in *; lia). constructor; [lia|constructor].
  - destruct (Z.eqb_spec best 0); [lia|].
    destruct (consume_loop adler best pos _ ltac:(lia) ltac:(lia) ltac:(lia) (Hat (png_put_match (e_w e) best bestd))) as [A ->].
    exists (Match best bestd), (pos + best). split; [lia|]. split; [exact A|]. cbn [e_w].
    split; [by apply put_match_writes|]. constructor; [exact Hl|exact Hd|rewrite length_take_le by (unfold stop in *; lia); lia|].
    rewrite (copy_back_take F) by (unfold stop in *; rewrite ?Z2Nat.id by lia; try lia; exact Hk). rewrite Z2Nat.id by lia. constructor.
Qed.

Lemma lz_loop_spec hdr adler fuel : forall pos e B, base <= pos <= stop -> stop - pos <= Z.of_nat fuel ->
  lz_at adler pos e -> writes hdr (e_w e) B ->
  let e' := png_lz_loop fuel base stop src e in
  exists ts, lz_at adler stop e' /\ writes hdr (e_w e') (B ++ flat_map token_bits ts) /\ expands (take (Z.to_nat pos) F) ts F.
Proof.
  induction fuel as [|n IH]; intros pos e B Hpos Hf He Hw; cbn [png_lz_loop].
  - assert (pos = stop) as -> by lia. exists []. split; [exact He|]. cbn [flat_map]. rewrite app_nil_r. split; [exact Hw|].
    unfold stop. rewrite Nat2Z.id, firstn_all. constructor.
  - destruct He as (Hp & He'). rewrite Hp. destruct (Z.ltb_spec pos stop) as [Hlt|].
    + destruct (lz_step_spec hdr adler pos e B ltac:(lia) (conj Hp He') Hw) as (t & pos' & Hp' & A & W & X).
      destruct (IH pos' _ _ ltac:(lia) ltac:(lia) A W) as (ts & A' & W' & X'). exists (t :: ts). split; [exact A'|].
      rewrite <- app_assoc in W'. split; [exact W'|]. exact (expands_app _ [t] _ X _ _ X').
    + assert (pos = stop) as -> by lia. exists []. split; [exact (conj Hp He')|]. cbn [flat_map]. rewrite app_nil_r.
      split; [exact Hw|]. unfold stop. rewrite Nat2Z.id, firstn_all. constructor.
Qed.
End Search.

(** The encoder after the bytes [h]. *)
Definition encoded {C} `{Sink C} (adler : Z) (h : list Z) (e : png_enc_t C) : Prop :=
  e_pos e = Z.of_nat (length h) /\ e_adler e = adler /\ ringed h (e_ring e) /\ heads_ok (e_head e).

Lemma lz_feed_expands {C} `{Sink C} hdr adler h src (e : png_enc_t C) B :
  Z.of_nat (length (h ++ src)) < 2 ^ 32 -> Forall (fun b => 0 <= b < 256) src ->
  encoded adler h e -> writes hdr (e_w e) B ->
  exists ts, encoded adler (h ++ src) (png_lz_feed e src) /\
    writes hdr (e_w (png_lz_feed e src)) (B ++ flat_map token_bits ts) /\ expands h ts (h ++ src).
Proof.
  intros Hlen Hsrc (Hp & Ha & Hr & Hh) Hw. unfold png_lz_feed. rewrite Hp, length_app in *.
  rewrite u32_small by lia.
  destruct (lz_loop_spec h src ltac:(rewrite length_app; exact Hlen) Hsrc hdr adler (length src) (Z.of_nat (length h)) e B) as (ts & A & W & X).
  - rewrite length_app. lia.
  - rewrite length_app. lia.
  - split; [exact Hp|]. split; [exact Ha|]. rewrite Nat2Z.id, take_app_length. done.
  - exact Hw.
  - rewrite Nat2Z.id, take_app_length in X. exists ts. rewrite length_app, Nat2Z.inj_add in A, W.
    destruct A as (A1 & A2 & A3 & A4). split; [|split; [exact W|exact X]].
    rewrite <- Nat2Z.inj_add, <- length_app in A1, A2, A3, A4 |- *. rewrite Nat2Z.id, firstn_all in A3. done.
Qed.

(** ** Adler-32 *)

(** The definition of RFC 1950: two sums modulo 65521, packed in 32 bits. *)
Definition adler_mod (ab : Z * Z) (x : Z) : Z * Z :=
  ((fst ab + x) mod 65521, (snd ab + (fst ab + x) mod 65521) mod 65521).
Definition adler_sums (s : list Z) : Z * Z := fold_left adler_mod s (1, 0).
Definition adler_pack (ab : Z * Z) : Z := snd ab * 65536 + fst ab.

Definition adler_ok (ab : Z * Z) : Prop := 0 <= fst ab < 65521 /\ 0 <= snd ab < 65521.

Lemma adler_byte_mod ab x : adler_ok ab -> 0 <= x < 256 ->
  png_adler_byte ab x = adler_mod ab x.
Proof.
  destruct ab as [a b]. intros [Ha Hb] Hx. unfold png_adler_byte, adler_mod. cbn [fst snd] in *.
  assert (E : (if 65521 <=? a + x then a + x - 65521 else a + x) = (a + x) mod 65521) by (destruct (Z.leb_spec 65521 (a + x)); lia).
  rewrite E. f_equal. destruct (Z.leb_spec 65521 (b + (a + x) mod 65521)); lia.
Qed.

Lemma adler_feed (h s : list Z) : Forall (fun b => 0 <= b < 256) s -> adler_ok (adler_sums h) ->
  adler_ok (adler_sums (h ++ s)) /\ png_adler32 (adler_pack (adler_sums h)) s = adler_pack (adler_sums (h ++ s)).
Proof.
  intros Hs Hok. unfold adler_sums at 1 3. rewrite fold_left_app. fold (adler_sums h).
  set (ab := adler_sums h) in *. clearbody ab. unfold png_adler32, adler_pack at 1 2.
  change 0xFFFF with (Z.ones 16). rewrite land_mask, Z.shiftr_div_pow2 by lia. change (2 ^ 16) with 65536.
  assert (E : ((snd ab * 65536 + fst ab) mod 65536, (snd ab * 65536 + fst ab) / 65536) = ab)
    by (destruct ab as [a b], Hok; cbn [fst snd] in *; f_equal; lia).
  rewrite E. clear E. revert ab Hok. induction Hs as [|x s Hx Hs IH]; intros ab Hok; cbn [fold_left].
  - split; [exact Hok|]. destruct ab as [a b], Hok as [Ha Hb]. cbn [fst snd] in *. unfold adler_pack. cbn [fst snd].
    rewrite Z.shiftl_mul_pow2, u32_small by lia. apply (lor_add_pow2 b a 16); lia.
  - rewrite adler_byte_mod by done. apply IH. unfold adler_ok, adler_mod. cbn [fst snd]. lia.
Qed.

(** ** The file *)

(** The scanlines as deflate sees them, each behind its filter byte. *)
Definition raw_rows (rows : list (list Z)) : list Z := flat_map (cons 0) rows.

(** [S] is a zlib stream of one fixed-Huffman block that expands to [raw]. *)
Definition zlib_stream (S raw : list Z) : Prop := exists ts k,
  expands [] ts raw /\ (k < 8)%nat /\
  byte_bits S = byte_bits [0x78; 0x01] ++ [true; true; false] ++ flat_map token_bits ts ++ sym_bits 256 ++
                repeat false k ++ byte_bits (png_be32 (adler_pack (adler_sums raw))).

(** From a state of the source that satisfies [Inv], rows are [width] bytes. *)
Definition byte_rows {R} (Inv : R -> Prop) (get_row : R -> Z -> option (R * list Z)) (width : Z) : Prop :=
  forall r y r' row, Inv r -> get_row r y = Some (r', row) ->
    Inv r' /\ Z.of_nat (length row) = width /\ Forall (fun b => 0 <= b < 256) row.

Fixpoint row_pass {R} (get_row : R -> Z -> option (R * list Z)) (ys : list Z) (r : R) : option (R * list (list Z)) :=
  match ys with
  | [] => Some (r, [])
  | y :: ys =>
      match get_row r y with
      | Some (r, row) => match row_pass get_row ys r with Some (r, rows) => Some (r, row :: rows) | None => None end
      | None => None
      end
  end.

Lemma raw_rows_length width rows : Forall (fun row => Z.of_nat (length row) = width /\ Forall (fun b => 0 <= b < 256) row) rows ->
  Z.of_nat (length (raw_rows rows)) = Z.of_nat (length rows) * (width + 1).
Proof.
  unfold raw_rows. induction 1 as [|row rows [Hl _] _ IH]; cbn [flat_map length]; [done|]. rewrite length_app. cbn [length]. lia.
Qed.

Section File.
Context {C : Type} `{Sink C} {R : Type} (get_row : R -> Z -> option (R * list Z)) (palette : R -> list Z).
Implicit Types (w : png_bitw_t C) (hdr : list Z).

Lemma io_write_true io ok d : snd (io_write io ok d) = true -> ok = true /\ snk_data (fst (io_write io ok d)) = snk_data io ++ d.
Proof. destruct (io_write io ok d) as [io' b] eqn:E. cbn [snd fst]. intros ->. by apply io_write_ok. Qed.

Lemma chunk_write_spec (c : png_chunk_t C) p : let c' := png_chunk_write c p in
  c_crc c' = png_crc32 (c_crc c) p /\ (c_ok c' = true -> c_ok c = true /\ snk_data (c_io c') = snk_data (c_io c) ++ p).
Proof. unfold png_chunk_write. destruct (io_write (c_io c) (c_ok c) p) as [io ok] eqn:E. cbn. split; [done|]. intros ->. by apply io_write_ok. Qed.

Lemma palette_written (pal : list Z) : forall c : png_chunk_t C,
  let c' := fold_left (fun c v => png_chunk_write c (plte_entry v)) pal c in
  c_crc c' = png_crc32 (c_crc c) (flat_map plte_entry pal) /\
  (c_ok c' = true -> c_ok c = true /\ snk_data (c_io c') = snk_data (c_io c) ++ flat_map plte_entry pal).
Proof.
  induction pal as [|v pal IH]; intros c; cbn [fold_left flat_map].
  { rewrite app_nil_r. split; [|done]. unfold png_crc32. cbn [fold_left]. by rewrite Z.lxor_assoc, Z.lxor_nilpotent, Z.lxor_0_r. }
  destruct (chunk_write_spec c (plte_entry v)) as [Ac A]. destruct (IH (png_chunk_write c (plte_entry v))) as [Bc B]. cbv zeta in *.
  split; [by rewrite Bc, Ac, crc32_app|]. intros Hok. destruct (B Hok) as [Hok1 D1]. destruct (A Hok1) as [Hok2 D2].
  split; [exact Hok2|]. by rewrite D1, D2, <- app_assoc.
Qed.

Lemma header_written width height (io : C) pal :
  let '(io', c_ok0, ok) := png_header width height io pal in
  ok = true -> c_ok0 = true /\
  snk_data io' = snk_data io ++ png_signature ++ chunk IHDR (png_ihdr width height) ++ chunk PLTE (flat_map plte_entry pal).
Proof.
  unfold png_header. destruct (io_write io true png_signature) as [io1 ok1] eqn:E1.
  pose proof (chunk_written (Chunk io1 0 true) IHDR (png_ihdr width height)) as A. cbv zeta in A.
  change (Z.of_nat (length (png_ihdr width height))) with 13 in A. set (c1 := png_chunk_end _) in *. clearbody c1.
  unfold png_chunk_begin at 1 2 3. destruct (io_write (c_io c1) (c_ok c1) _) as [io2 ok2] eqn:E2.
  pose proof (palette_written pal (Chunk io2 (png_crc32 0 PLTE) ok2)) as [Bc B]. cbv zeta in Bc, B.
  set (c2 := fold_left _ pal _) in *. clearbody c2. unfold png_chunk_end.
  destruct (io_write (c_io c2) (c_ok c2) _) as [io3 ok3] eqn:E3. cbn [c_io c_ok c_crc] in *.
  intros [-> ->]%andb_prop. split; [done|]. apply io_write_ok in E3 as [Hok D3]. destruct (B Hok) as [-> D2].
  apply io_write_ok in E2 as [Hok1 D1]. destruct (A Hok1) as [_ D0]. apply io_write_ok in E1 as [_ D].
  rewrite D3, D2, D1, D0, D, Bc, crc32_app. unfold chunk.
  assert (L : Z.of_nat (length (flat_map plte_entry pal)) = Z.of_nat (length pal) * 3)
    by (clear; induction pal as [|v p IH]; cbn [flat_map]; [done|rewrite length_app; cbn [length plte_entry]; lia]).
  rewrite L, <- !app_assoc. done.
Qed.

Lemma align_writes hdr w B : writes hdr w B ->
  exists s k, streams hdr (png_align_byte w) s /\ Z.of_nat (length (w_out (png_align_byte w))) < PNG_OUT /\ (k < 8)%nat /\
    byte_bits s = B ++ repeat false k.
Proof.
  intros (s & Hs & Hl & Hn & Hb & ->). unfold png_align_byte. destruct (Z.eqb_spec (w_nbits w) 0) as [E|Hne].
  - exists s, 0%nat. rewrite E. cbn. rewrite !app_nil_r. auto with lia.
  - set (n := Z.to_nat (w_nbits w)) in *. change 0xFF with (Z.ones 8). rewrite land_mask by lia. change (2 ^ 8) with 256.
    assert (Hp : 2 ^ w_nbits w <= 2 ^ 8) by (apply Z.pow_le_mono_r; lia). rewrite Z.mod_small by lia.
    destruct (put_byte_streams hdr w s (w_bits w) Hl Hs) as (A & Hl' & _). exists (s ++ [u8 (w_bits w)]), (8 - n)%nat.
    split; [exact A|]. split; [exact Hl'|]. split; [unfold n; lia|]. rewrite byte_bits_app, <- app_assoc. f_equal.
    cbn [byte_bits flat_map]. rewrite app_nil_r, u8_small by lia. replace 8%nat with (n + (8 - n))%nat at 1 by (unfold n; lia).
    rewrite to_bits_app. f_equal. unfold n at 2. rewrite Z2Nat.id, Z.div_small by lia. generalize (8 - n)%nat. clear.
    induction n as [|n IH]; cbn [to_bits repeat]; [done|]. by rewrite Z.div_0_l, IH by lia.
Qed.

Lemma put_bytes_streams hdr bs : forall w s, Z.of_nat (length (w_out w)) < PNG_OUT -> streams hdr w s -> Forall (fun b => 0 <= b < 256) bs ->
  streams hdr (fold_left png_put_byte bs w) (s ++ bs) /\ Z.of_nat (length (w_out (fold_left png_put_byte bs w))) < PNG_OUT.
Proof.
  induction bs as [|b bs IH]; intros w s Hl Hs Hb; cbn [fold_left]; [by rewrite app_nil_r|].
  apply Forall_cons in Hb as [Hb Hbs]. destruct (put_byte_streams hdr w s b Hl Hs) as (A & L & _).
  rewrite u8_small in A by lia. destruct (IH _ _ L A Hbs) as [A' L']. by rewrite <- app_assoc in A'.
Qed.

Lemma be32_bytes v : Forall (fun b => 0 <= b < 256) (png_be32 v).
Proof. repeat (apply Forall_cons; split; [apply u8_range|]). constructor. Qed.

Lemma flush_written hdr w s bs : Z.of_nat (length (w_out w)) < PNG_OUT -> streams hdr w s -> Forall (fun b => 0 <= b < 256) bs ->
  let w' := png_flush_idat (fold_left png_put_byte bs w) in
  w_ok w' = true -> exists chunks, snk_data (w_io w') = hdr ++ flat_map (chunk IDAT) chunks /\
    Forall (fun c => 0 < Z.of_nat (length c) <= PNG_OUT) chunks /\ concat chunks = s ++ bs.
Proof.
  intros L A Hb w' Hok. destruct (put_bytes_streams hdr bs w s L A Hb) as [A' L'].
  destruct (flush_streams hdr _ _ (Z.lt_le_incl _ _ L') A') as (A2 & Eo & _). fold w' in A2, Eo.
  destruct (A2 Hok) as (chunks & D & Hcat & Hall). rewrite Eo, app_nil_r in Hcat. exists chunks. auto.
Qed.

Lemma trailer_written hdr w B adler : writes hdr w B ->
  w_ok (png_trailer adler w) = true -> exists chunks k, snk_data (w_io (png_trailer adler w)) = hdr ++ flat_map (chunk IDAT) chunks /\
    Forall (fun c => 0 < Z.of_nat (length c) <= PNG_OUT) chunks /\ (k < 8)%nat /\
    byte_bits (concat chunks) = B ++ sym_bits 256 ++ repeat false k ++ byte_bits (png_be32 adler).
Proof.
  intros Hw. destruct (align_writes hdr _ _ (put_symbol_writes hdr w B 256 ltac:(lia) Hw)) as (s & k & A & L & Hk & E).
  pose proof (flush_written hdr _ s (png_be32 adler) L A (be32_bytes adler)) as F. cbv zeta in F.
  unfold png_trailer. intros Hok. destruct (F Hok) as (chunks & D & Hall & Hcat). exists chunks, k.
  split; [exact D|]. split; [exact Hall|]. split; [exact Hk|]. rewrite Hcat, byte_bits_app, E, <- !app_assoc. done.
Qed.

Lemma start_writes hdr io ok : (ok = true -> snk_data io = hdr) ->
  writes hdr (png_start io ok) (byte_bits [0x78; 0x01] ++ [true; true; false]).
Proof.
  intros Hhdr. unfold png_start. set (w0 := Bitw io [] 0 0 ok).
  assert (S0 : streams hdr w0 []).
  { intros Hok. exists []. cbn in Hok |- *. rewrite app_nil_r. split; [apply Hhdr, Hok|]. split; [done|constructor]. }
  assert (L0 : Z.of_nat (length (w_out w0)) < PNG_OUT) by (cbn; unfold PNG_OUT; lia).
  assert (BN : w_bits w0 = 0 /\ w_nbits w0 = 0) by done. clearbody w0. destruct BN as [B0 N0].
  destruct (put_byte_streams hdr w0 _ 0x78 L0 S0) as (S1 & L1 & B1 & N1). set (w1 := png_put_byte w0 _) in *. clearbody w1.
  destruct (put_byte_streams hdr w1 _ 0x01 L1 S1) as (S2 & L2 & B2 & N2). set (w2 := png_put_byte w1 _) in *. clearbody w2.
  assert (W2 : writes hdr w2 (byte_bits [0x78; 0x01])).
  { exists [0x78; 0x01]. rewrite N2, N1, N0, B2, B1, B0. split; [exact S2|]. split; [exact L2|]. split; [lia|]. split; [cbn; lia|].
    cbn [Z.to_nat to_bits]. by rewrite app_nil_r. }
  pose proof (put_bits_writes hdr _ _ 1 1 W2 ltac:(lia) ltac:(lia)) as W3.
  pose proof (put_bits_writes hdr _ _ 1 2 W3 ltac:(lia) ltac:(lia)) as W4. by rewrite <- app_assoc in W4.
Qed.

Lemma finish_written c_ok0 w io : png_finish c_ok0 w = (io, true) ->
  w_ok w = true /\ snk_data io = snk_data (w_io w) ++ chunk IEND [].
Proof.
  unfold png_finish. pose proof (empty_chunk_written (Chunk (w_io w) 0 c_ok0) _ IEND eq_refl) as I. cbn [c_io] in I.
  intros [= <- [Hw Hc]%andb_prop]. auto.
Qed.

Lemma encode_row_spec hdr h row (e : png_enc_t C) B :
  Z.of_nat (length (h ++ 0 :: row)) < 2 ^ 32 -> Forall (fun b => 0 <= b < 256) row -> adler_ok (adler_sums h) ->
  encoded (adler_pack (adler_sums h)) h e -> writes hdr (e_w e) B ->
  exists ts, let e' := png_encode_row row e in let h' := h ++ 0 :: row in
    adler_ok (adler_sums h') /\ encoded (adler_pack (adler_sums h')) h' e' /\
    writes hdr (e_w e') (B ++ flat_map token_bits ts) /\ expands h ts h'.
Proof.
  intros Hlen Hrow Hok (Hp & Ha & Hr & Hh) Hw. unfold png_encode_row. rewrite Ha.
  assert (H0 : Forall (fun b => 0 <= b < 256) [0]) by (apply Forall_singleton; lia).
  destruct (adler_feed h [0] H0 Hok) as [Hok0 ->]. destruct (adler_feed (h ++ [0]) row Hrow Hok0) as [Hok1 ->].
  rewrite <- app_assoc in *. cbn [app] in *. rewrite length_app in Hlen. cbn [length] in Hlen.
  set (adler := adler_pack (adler_sums (h ++ 0 :: row))).
  destruct (lz_feed_expands hdr adler h [0] (Enc (e_w e) adler (e_ring e) (e_head e) (e_pos e)) B) as (t0 & A0 & W0 & X0);
    [rewrite length_app; cbn; lia|exact H0|done|exact Hw|].
  destruct (lz_feed_expands hdr adler (h ++ [0]) row _ _ ltac:(rewrite !length_app; cbn; lia) Hrow A0 W0) as (t1 & A1 & W1 & X1).
  exists (t0 ++ t1). cbv zeta. rewrite <- !app_assoc in A1, W1, X1. cbn [app] in A1, X1. rewrite flat_map_app.
  split; [exact Hok1|]. split; [exact A1|]. split; [exact W1|]. exact (expands_app _ _ _ X0 _ _ X1).
Qed.

Lemma row_pass_rows Inv width ys : byte_rows Inv get_row width -> forall r r' rows, Inv r -> row_pass get_row ys r = Some (r', rows) ->
  length rows = length ys /\ Forall (fun row => Z.of_nat (length row) = width /\ Forall (fun b => 0 <= b < 256) row) rows.
Proof.
  intros Hb. induction ys as [|y ys IH]; cbn [row_pass]; intros r r' rows Hr; [intros [= <- <-]; split; [done|constructor]|].
  destruct (get_row r y) as [[r1 row]|] eqn:E; [|done]. destruct (row_pass get_row ys r1) as [[r2 rows2]|] eqn:E2; [|done].
  destruct (Hb _ _ _ _ Hr E) as [Hr1 Hrow]. intros [= <- <-]. destruct (IH _ _ _ Hr1 E2) as [L A].
  split; [cbn; by rewrite L|]. constructor; [exact Hrow|exact A].
Qed.

Lemma palette_pass_inv Inv width ys : byte_rows Inv get_row width -> forall r r', Inv r -> png_palette_pass get_row ys r = Some r' -> Inv r'.
Proof.
  intros Hb. induction ys as [|y ys IH]; cbn [png_palette_pass]; intros r r' Hr; [by intros [= <-]|].
  destruct (get_row r y) as [[r1 row]|] eqn:E; [|done]. apply IH, (Hb _ _ _ _ Hr E).
Qed.

Lemma encode_rows_spec hdr Inv width ys : byte_rows Inv get_row width -> forall r e e' r', Inv r -> png_encode_rows get_row ys r e = (e', r', true) ->
  exists rows, row_pass get_row ys r = Some (r', rows) /\ forall h B,
    Z.of_nat (length h) + Z.of_nat (length ys) * (width + 1) < 2 ^ 32 -> adler_ok (adler_sums h) ->
    encoded (adler_pack (adler_sums h)) h e -> writes hdr (e_w e) B ->
    exists ts, let h' := h ++ raw_rows rows in
      encoded (adler_pack (adler_sums h')) h' e' /\ writes hdr (e_w e') (B ++ flat_map token_bits ts) /\ expands h ts h'.
Proof.
  intros Hb. induction ys as [|y ys IH]; cbn [png_encode_rows row_pass]; intros r e e' r' HIr.
  { intros [= <- <-]. exists []. split; [done|]. intros h B _ _ He Hw. exists []. cbn. rewrite !app_nil_r.
    split; [exact He|]. split; [exact Hw|constructor]. }
  destruct (get_row r y) as [[r1 row]|] eqn:E; [|done]. intros Hr. destruct (Hb _ _ _ _ HIr E) as (HI1 & Hw1 & Hby). destruct (IH _ _ _ _ HI1 Hr) as (rows & Hp & Hspec).
  exists (row :: rows). rewrite Hp. split; [done|]. intros h B Hl Hok He Hw.
  cbn [length] in Hl. rewrite Nat2Z.inj_succ in Hl.
  rewrite Z.mul_succ_l in Hl. assert (H0 : 0 <= Z.of_nat (length ys) * (width + 1)) by nia.
  set (m := Z.of_nat (length ys) * (width + 1)) in *. clearbody m.
  destruct (encode_row_spec hdr h row e B ltac:(rewrite length_app; cbn [length]; lia) Hby Hok He Hw) as (t0 & Hok0 & A0 & W0 & X0).
  destruct (Hspec (h ++ 0 :: row) _ ltac:(rewrite length_app; cbn [length]; lia) Hok0 A0 W0) as (t1 & A1 & W1 & X1).
  exists (t0 ++ t1). cbv zeta. cbn [raw_rows flat_map]. rewrite <- !app_assoc in A1, X1, W1. cbn [app] in A1, X1. rewrite flat_map_app.
  split; [exact A1|]. split; [exact W1|]. exact (expands_app _ _ _ X0 _ _ X1).
Qed.

Lemma triple_eq {A B D : Type} (a a' : A) (b b' : B) (d d' : D) : (a, b, d) = (a', b', d') -> a = a' /\ b = b' /\ d = d'.
Proof. by intros [= -> -> ->]. Qed.
Lemma repeat_forall {A} (P : A -> Prop) x n : P x -> Forall P (repeat x n).
Proof. intros Hx. induction n; cbn; by constructor. Qed.

(** A successful [png_encode] appends a well-formed file to the sink: signature,
    IHDR, PLTE with the palette the first pass ends with, IDAT chunks of at most
    [PNG_OUT] bytes whose concatenation is a zlib stream of the rows of the second
    pass, and IEND. *)
Lemma png_encode_spec Inv width height work io r io' r' : byte_rows Inv get_row width -> Inv r ->
  length work = Z.to_nat PNG_WINDOW -> 0 <= height -> height * (width + 1) < 2 ^ 32 ->
  png_encode get_row palette width height work io r = (io', r', true) ->
  exists r1 rows chunks, png_palette_pass get_row (seqZ 0 height) r = Some r1 /\
    row_pass get_row (seqZ 0 height) r1 = Some (r', rows) /\
    snk_data io' = snk_data io ++ png_signature ++ chunk IHDR (png_ihdr width height) ++
      chunk PLTE (flat_map plte_entry (palette r1)) ++ flat_map (chunk IDAT) chunks ++ chunk IEND [] /\
    Forall (fun c => 0 < Z.of_nat (length c) <= PNG_OUT) chunks /\ zlib_stream (concat chunks) (raw_rows rows).
Proof.
  intros Hb Hr Hwork Hh Hsize. unfold png_encode. destruct (png_palette_pass get_row _ r) as [r1|] eqn:E1; [|done].
  pose proof (palette_pass_inv Inv width _ Hb _ _ Hr E1) as Hr1. clear E1.
  pose proof (header_written width height io (palette r1)) as Hhdr. destruct (png_header width height io (palette r1)) as [[io1 ok0] ok].
  remember (snk_data io ++ png_signature ++ chunk IHDR (png_ihdr width height) ++ chunk PLTE (flat_map plte_entry (palette r1))) as hdr eqn:Ehdr.
  assert (W4 : writes hdr (png_start io1 ok) (byte_bits [0x78; 0x01] ++ [true; true; false])) by (apply start_writes; intros Hok; apply Hhdr, Hok).
  set (w4 := png_start io1 ok) in *. clearbody w4. destruct (png_encode_rows get_row _ r1 _) as [[e r2] got] eqn:Er.
  destruct got; [|done]. cbn [negb]. destruct (encode_rows_spec hdr Inv width (seqZ 0 height) Hb _ _ _ _ Hr1 Er) as (rows & Hp & Hspec).
  destruct (Hspec [] (byte_bits [0x78; 0x01] ++ [true; true; false])) as (ts & A & W & X); [rewrite length_seqZ, Z2Nat.id by lia; exact Hsize|unfold adler_ok; cbn; lia| |exact W4|].
  { split; [reflexivity|]. split; [reflexivity|]. split; [apply ringed_nil; exact Hwork|]. apply repeat_forall. lia. }
  cbv zeta in A, X. cbn [app] in A, X. destruct A as (_ & Ha & _). rewrite Ha.
  pose proof (trailer_written hdr _ _ (adler_pack (adler_sums (raw_rows rows))) W) as T.
  destruct (png_finish ok0 _) as [io7 ok7] eqn:E7. intros (-> & -> & ->)%triple_eq.
  apply finish_written in E7 as [Hok5 I]. destruct (T Hok5) as (chunks & k & D & Hall & Hk & Hbits).
  exists r1, rows, chunks. split; [done|]. split; [exact Hp|]. split; [|split; [exact Hall|]].
  - rewrite I, D, Ehdr. by rewrite <- !app_assoc.
  - exists ts, k. split; [exact X|]. split; [exact Hk|]. rewrite Hbits. by rewrite <- !app_assoc.
Qed.
End File.

(** ** A file with room

    When every write is complete and every row can be read, the encoder reports
    success. *)
Class Complete (C : Type) `{Sink C} : Prop := complete : forall c d, snd (snk_write c d) = Z.of_nat (length d).

Section Room.
Context {C : Type} `{Complete C}.
Implicit Types (e : png_bitw_t C).

Lemma io_write_room io ok d : snd (io_write io ok d) = ok.
Proof. unfold io_write. pose proof (complete io d) as E. destruct (snk_write io d) as [io' n]. cbn in *. rewrite E, Z.eqb_refl. apply andb_true_r. Qed.
Lemma chunk_begin_room (c : png_chunk_t C) tag len : c_ok (png_chunk_begin c tag len) = c_ok c.
Proof. unfold png_chunk_begin. pose proof (io_write_room (c_io c) (c_ok c) (png_be32 len ++ tag)) as E. by destruct (io_write _ _ _). Qed.
Lemma chunk_write_room (c : png_chunk_t C) p : c_ok (png_chunk_write c p) = c_ok c.
Proof. unfold png_chunk_write. pose proof (io_write_room (c_io c) (c_ok c) p) as E. by destruct (io_write _ _ _). Qed.
Lemma chunk_end_room (c : png_chunk_t C) : c_ok (png_chunk_end c) = c_ok c.
Proof. unfold png_chunk_end. pose proof (io_write_room (c_io c) (c_ok c) (png_be32 (c_crc c))) as E. by destruct (io_write _ _ _). Qed.

Lemma flush_room e : w_ok (png_flush_idat e) = w_ok e.
Proof. unfold png_flush_idat. destruct (_ =? _)%nat; [done|]. cbn [w_ok]. by rewrite chunk_end_room, chunk_write_room, chunk_begin_room. Qed.
Lemma put_byte_room e b : w_ok (png_put_byte e b) = w_ok e.
Proof. unfold png_put_byte. destruct (_ =? _); [by rewrite flush_room|done]. Qed.
Lemma drain_room fuel : forall e, w_ok (png_drain fuel e) = w_ok e.
Proof. induction fuel as [|k IH]; intros e; cbn [png_drain]; [done|]. destruct (8 <=? _); [|done]. rewrite IH. apply put_byte_room. Qed.
Lemma put_bits_room e v n : w_ok (png_put_bits e v n) = w_ok e.
Proof. unfold png_put_bits. by rewrite drain_room. Qed.
Lemma align_room e : w_ok (png_align_byte e) = w_ok e.
Proof. unfold png_align_byte. destruct (_ =? _); [done|]. apply put_byte_room. Qed.
Lemma put_literal_room e v : w_ok (png_put_literal e v) = w_ok e.
Proof. unfold png_put_literal, png_put_rev. destruct (_ <? _); apply put_bits_room. Qed.
Lemma put_symbol_room e v : w_ok (png_put_symbol e v) = w_ok e.
Proof. unfold png_put_symbol, png_put_rev. destruct (_ <? _); apply put_bits_room. Qed.
Lemma put_match_room e len dist : w_ok (png_put_match e len dist) = w_ok e.
Proof.
  unfold png_put_match, png_put_rev. destruct (tab png_dist_extra _ =? 0), (tab png_len_extra _ =? 0);
    by rewrite ?put_bits_room, put_symbol_room.
Qed.

Lemma lz_step_room base stop src (e : png_enc_t C) : w_ok (e_w (png_lz_step base stop src e)) = w_ok (e_w e).
Proof.
  unfold png_lz_step. destruct (png_find _ _ _ _ _ _) as [[best bestd] head].
  apply (for_range_keeps (fun e' : png_enc_t C => w_ok (e_w e') = w_ok (e_w e))); [|done].
  cbn [e_w]. destruct (best =? 0); [apply put_literal_room|apply put_match_room].
Qed.
Lemma lz_feed_room (e : png_enc_t C) src : w_ok (e_w (png_lz_feed e src)) = w_ok (e_w e).
Proof.
  unfold png_lz_feed. generalize (u32 (e_pos e + Z.of_nat (length src))). generalize (e_pos e). generalize (length src). intros fuel base stop. revert e.
  induction fuel as [|k IH]; intros e; cbn [png_lz_loop]; [done|]. destruct (_ <? _); [|done]. by rewrite IH, lz_step_room.
Qed.

Context {R : Type} (get_row : R -> Z -> option (R * list Z)) (palette : R -> list Z).
Hypothesis rows : forall r y, exists r' row, get_row r y = Some (r', row).

Lemma palette_pass_room ys : forall r, exists r', png_palette_pass get_row ys r = Some r'.
Proof. induction ys as [|y ys IH]; intros r; cbn [png_palette_pass]; [by exists r|]. destruct (rows r y) as (r1 & row & ->). apply IH. Qed.
Lemma encode_rows_room ys : forall r (e : png_enc_t C), exists (e' : png_enc_t C) r', png_encode_rows get_row ys r e = (e', r', true) /\ w_ok (e_w e') = w_ok (e_w e).
Proof.
  induction ys as [|y ys IH]; intros r e; cbn [png_encode_rows]; [by exists e, r|]. destruct (rows r y) as (r1 & row & ->).
  destruct (IH r1 (png_encode_row row e)) as (e' & r' & -> & E). exists e', r'. split; [done|].
  rewrite E. unfold png_encode_row. by rewrite !lz_feed_room.
Qed.

Lemma png_encode_room width height work io r : exists io' r', png_encode get_row palette width height work io r = (io', r', true).
Proof.
  unfold png_encode. destruct (palette_pass_room (seqZ 0 height) r) as [r1 ->]. unfold png_header.
  pose proof (io_write_room io true png_signature) as E. destruct (io_write io true png_signature) as [io1 ok1]. cbn [snd] in E. subst ok1.
  set (c := png_chunk_end (fold_left _ _ _)). assert (Hc : c_ok c = true).
  { unfold c. rewrite chunk_end_room. generalize (palette r1). intros pal. set (c0 := png_chunk_begin _ _ _).
    assert (Hok0 : c_ok c0 = true) by (unfold c0; by rewrite chunk_begin_room, chunk_end_room, chunk_write_room, chunk_begin_room).
    clearbody c0. revert c0 Hok0. induction pal as [|v pal IH]; intros c0 Hok0; cbn [fold_left]; [done|]. apply IH. by rewrite chunk_write_room. }
  clearbody c. rewrite Hc. cbn [andb].
  match goal with |- context [png_encode_rows get_row _ r1 ?e0] => destruct (encode_rows_room (seqZ 0 height) r1 e0) as (e & r2 & -> & He) end.
  cbn [negb]. unfold png_finish. rewrite chunk_end_room, chunk_begin_room. cbn [c_ok]. eexists _, _. f_equal. rewrite andb_true_r.
  unfold png_trailer. rewrite flush_room. cbn [fold_left png_be32]. rewrite !put_byte_room, align_room, put_symbol_room, He. cbn [e_w].
  unfold png_start. by rewrite !put_bits_room, !put_byte_room.
Qed.
End Room.
