(* ===== verification/PngDec.v ===== *)
(** * Screenshots as PNG files: the bounded inflater

    [vna_modules/vna_png.c], second half: the reader of the IDAT payload, the bit
    reader, the fixed-Huffman and stored blocks and [png_decode]. The file is an
    instance of [Source], the consumer of the rows a function.

    Every loop of the decoder is bounded by the bytes the file still holds, a row is
    handed over only inside the image ([png_decode_safe]), and decoding what
    [png_encode] wrote gives back the rows ([png_roundtrip]). *)

From S2P Require Import Prelude Colour Png.

(** ** The file read: [read] of [png_io_t] *)

(** [src_read c n] returns the bytes read, fewer than [n] at the end and none on
    an error, which leaves the position; [src_left] is what the file still holds. *)
Class Source (C : Type) := {
  src_read : C -> Z -> C * list Z;
  src_left : C -> list Z;
  src_bytes : forall c, Forall (fun b => 0 <= b < 256) (src_left c);
  src_law : forall c n, 0 <= n ->
    (snd (src_read c n) = take (Z.to_nat n) (src_left c) /\ src_left (fst (src_read c n)) = drop (Z.to_nat n) (src_left c)) \/
    (snd (src_read c n) = [] /\ src_left (fst (src_read c n)) = src_left c) }.

(** A file that is read without errors. *)
Class Reliable (C : Type) `{Source C} : Prop :=
  reliable : forall c n, 0 <= n ->
    snd (src_read c n) = take (Z.to_nat n) (src_left c) /\ src_left (fst (src_read c n)) = drop (Z.to_nat n) (src_left c).

(** ** Reader

    The fields [io], [in] with [inn] its length, [inp], [chunk_left],
    [have_chunk], [bits], [nbits] and [err] of [png_dec_t]. *)
Record png_reader_t (C : Type) := Reader {
  r_io : C; r_in : list Z; r_inp : Z; r_chunk_left : Z; r_have_chunk : bool; r_bits : Z; r_nbits : Z; r_err : Z }.
Arguments Reader {C}.
Arguments r_io {C}.
Arguments r_in {C}.
Arguments r_inp {C}.
Arguments r_chunk_left {C}.
Arguments r_have_chunk {C}.
Arguments r_bits {C}.
Arguments r_nbits {C}.
Arguments r_err {C}.

Definition be32_at (h : list Z) (i : Z) : Z :=
  Z.lor (Z.lor (Z.lor (Z.shiftl (tab h i) 24) (Z.shiftl (tab h (i + 1)) 16)) (Z.shiftl (tab h (i + 2)) 8)) (tab h (i + 3)).
(** [!memcmp(h + i, tag, n)] *)
Definition tag_at (h : list Z) (i : Z) (tag : list Z) : bool :=
  bool_decide (take (length tag) (drop (Z.to_nat i) h) = tag).

Section Reader.
Context {C : Type} `{Source C}.
Implicit Types (r : png_reader_t C) (io : C).

Definition set_io io r : png_reader_t C :=
  Reader io (r_in r) (r_inp r) (r_chunk_left r) (r_have_chunk r) (r_bits r) (r_nbits r) (r_err r).
Definition set_have (b : bool) r : png_reader_t C :=
  Reader (r_io r) (r_in r) (r_inp r) (r_chunk_left r) b (r_bits r) (r_nbits r) (r_err r).
Definition set_chunk_left (n : Z) r : png_reader_t C :=
  Reader (r_io r) (r_in r) (r_inp r) n (r_have_chunk r) (r_bits r) (r_nbits r) (r_err r).
Definition set_in (l : list Z) (p : Z) r : png_reader_t C :=
  Reader (r_io r) l p (r_chunk_left r) (r_have_chunk r) (r_bits r) (r_nbits r) (r_err r).
Definition set_bits (v n : Z) r : png_reader_t C :=
  Reader (r_io r) (r_in r) (r_inp r) (r_chunk_left r) (r_have_chunk r) v n (r_err r).
Definition set_err (e : Z) r : png_reader_t C :=
  Reader (r_io r) (r_in r) (r_inp r) (r_chunk_left r) (r_have_chunk r) (r_bits r) (r_nbits r) e.

(** Bytes the file still holds: the fuel of the loops that read. *)
Definition left io : nat := length (src_left io).

Fixpoint skip_loop (fuel : nat) io (n : Z) : C * bool :=
  match fuel with
  | O => (io, false)
  | S k =>
      if n =? 0 then (io, true) else
      let m := if 16 <? n then 16 else n in
      let '(io, d) := src_read io m in
      if Z.of_nat (length d) =? m then skip_loop k io (n - m) else (io, false)
  end.
Definition png_skip io (n : Z) : C * bool := skip_loop (S (left io)) io n.

Fixpoint next_idat_loop (fuel : nat) r : png_reader_t C * bool :=
  match fuel with
  | O => (r, false)
  | S k =>
      let '(io, ok) := if r_have_chunk r then png_skip (r_io r) 4 else (r_io r, true) in
      let r := set_have false (set_io io r) in
      if negb ok then (r, false) else
      let '(io, h) := src_read io 8 in
      let r := set_io io r in
      if negb (Z.of_nat (length h) =? 8) then (r, false) else
      let len := be32_at h 0 in
      if tag_at h 4 IDAT then (set_have true (set_chunk_left len r), true) else
      if tag_at h 4 IEND then (r, false) else
      let '(io, ok) := png_skip io (u32 (len + 4)) in
      let r := set_io io r in
      if negb ok then (r, false) else next_idat_loop k r
  end.
Definition png_next_idat r : png_reader_t C * bool := next_idat_loop (S (left (r_io r))) r.

(** [while (d->chunk_left == 0) if (!png_next_idat(d)) ...]; [false] on the early
    return. *)
Fixpoint refill_loop (fuel : nat) r : png_reader_t C * bool :=
  match fuel with
  | O => (r, false)
  | S k =>
      if r_chunk_left r =? 0 then
        let '(r, ok) := png_next_idat r in if ok then refill_loop k r else (r, false)
      else (r, true)
  end.

Definition png_in_byte r : Z * png_reader_t C :=
  let take_byte r := (tab (r_in r) (r_inp r), set_in (r_in r) (r_inp r + 1) r) in
  if Z.of_nat (length (r_in r)) <=? r_inp r then
    let '(r, ok) := refill_loop (S (left (r_io r))) r in
    if negb ok then (0, set_err 1 r) else
    let n := if PNG_IN <? r_chunk_left r then PNG_IN else r_chunk_left r in
    let '(io, d) := src_read (r_io r) n in
    let r := set_io io r in
    if negb (Z.of_nat (length d) =? n) then (0, set_err 1 r) else
    take_byte (set_chunk_left (r_chunk_left r - n) (set_in d 0 r))
  else take_byte r.

(** [while (d->nbits < n)]; every round adds eight bits. *)
Fixpoint fill_bits (fuel : nat) r (n : Z) : png_reader_t C :=
  match fuel with
  | O => r
  | S k =>
      if r_nbits r <? n then
        let '(b, r) := png_in_byte r in
        fill_bits k (set_bits (Z.lor (r_bits r) (u32 (Z.shiftl b (r_nbits r)))) (r_nbits r + 8) r) n
      else r
  end.
Definition png_get_bits r (n : Z) : Z * png_reader_t C :=
  let r := fill_bits (Z.to_nat n) r n in
  (Z.land (r_bits r) (Z.shiftl 1 n - 1), set_bits (Z.shiftr (r_bits r) n) (r_nbits r - n) r).

(** [v = (v << 1) | png_get_bits(d, 1)] *)
Definition shift_in (v : Z) r : Z * png_reader_t C :=
  let '(b, r) := png_get_bits r 1 in (Z.lor (u32 (Z.shiftl v 1)) b, r).
Fixpoint get_rev_loop (n : nat) (v : Z) r : Z * png_reader_t C :=
  match n with O => (v, r) | S k => let '(v, r) := shift_in v r in get_rev_loop k v r end.
Definition png_get_rev r (n : Z) : Z * png_reader_t C := get_rev_loop (Z.to_nat n) 0 r.

Definition png_fixed_litlen r : Z * png_reader_t C :=
  let '(c, r) := png_get_rev r 7 in
  if c <=? 23 then (256 + c, r) else
  let '(c, r) := shift_in c r in
  if (48 <=? c) && (c <=? 191) then (c - 48, r) else
  if (192 <=? c) && (c <=? 199) then (280 + c - 192, r) else
  let '(c, r) := shift_in c r in
  (144 + c - 400, r).
End Reader.

(** ** Output

    The fields [ring], [pos], [rowp] and [y] of [png_dec_t], the row buffer of the
    caller and what [put_row] works on. *)
Record png_out_t (P : Type) := Out {
  o_ring : list Z; o_pos : Z; o_rowp : Z; o_y : Z; o_row : list Z; o_put : P }.
Arguments Out {P}.
Arguments o_ring {P}.
Arguments o_pos {P}.
Arguments o_rowp {P}.
Arguments o_y {P}.
Arguments o_row {P}.
Arguments o_put {P}.

Record png_dec_t (C P : Type) := Dec { d_r : png_reader_t C; d_o : png_out_t P }.
Arguments Dec {C P}.
Arguments d_r {C P}.
Arguments d_o {C P}.

Inductive png_result := PngOk | FormatErr | UnsupportedPng.

Section Decoder.
Context {C : Type} `{Source C} {P : Type} (put_row : P -> Z -> list Z -> P * bool).
Variables (width height : Z).
Implicit Types (d : png_dec_t C P) (r : png_reader_t C).

Definition with_err (e : Z) d : png_dec_t C P := Dec (set_err e (d_r d)) (d_o d).

Definition png_out_byte d (b : Z) : png_dec_t C P :=
  let o := d_o d in
  let ring := <[ring_index (o_pos o) := b]> (o_ring o) in
  let pos := u32 (o_pos o + 1) in
  if o_rowp o =? 0 then
    let d' := Dec (d_r d) (Out ring pos 1 (o_y o) (o_row o) (o_put o)) in
    if negb (b =? 0) then with_err 2 d' else d'
  else
    let row := <[Z.to_nat (o_rowp o - 1) := b]> (o_row o) in
    let rowp := o_rowp o + 1 in
    if rowp =? width + 1 then
      let '(put, ok) := if height <=? o_y o then (o_put o, false) else put_row (o_put o) (o_y o) row in
      let d' := Dec (d_r d) (Out ring pos 0 (o_y o + 1) row put) in
      if ok then d' else with_err 1 d'
    else Dec (d_r d) (Out ring pos rowp (o_y o) row (o_put o)).

(** [while (len--) png_out_byte(&d, d.ring[(d.pos - dist) & (PNG_WINDOW - 1)]);] *)
Fixpoint copy_loop (len : nat) (dist : Z) d : png_dec_t C P :=
  match len with
  | O => d
  | S k => copy_loop k dist (png_out_byte d (PNG_RING (o_ring (d_o d)) (u32 (o_pos (d_o d) - dist))))
  end.

(** [while (len-- && !d.err) png_out_byte(&d, png_in_byte(&d));] *)
Fixpoint stored_loop (len : nat) d : png_dec_t C P :=
  match len with
  | O => d
  | S k =>
      if negb (r_err (d_r d) =? 0) then d else
      let '(b, r) := png_in_byte (d_r d) in stored_loop k (png_out_byte (Dec r (d_o d)) b)
  end.
Definition stored_block d : png_dec_t C P :=
  let r := set_bits 0 0 (d_r d) in
  let '(b0, r) := png_in_byte r in let '(b1, r) := png_in_byte r in
  let len := Z.lor b0 (Z.shiftl b1 8) in
  let '(_, r) := png_in_byte r in let '(_, r) := png_in_byte r in
  stored_loop (Z.to_nat len) (Dec r (d_o d)).

(** The symbols of a fixed-Huffman block; [None] when the fuel runs out. *)
Fixpoint fixed_block (fuel : nat) d : option (png_dec_t C P) :=
  match fuel with
  | O => None
  | S k =>
      let '(sym, r) := png_fixed_litlen (d_r d) in
      let d := Dec r (d_o d) in
      if negb (r_err r =? 0) then Some d else
      if sym <? 256 then fixed_block k (png_out_byte d sym) else
      if sym =? 256 then Some d else
      let li := sym - 257 in
      if 28 <? li then Some (with_err 3 d) else
      let '(x, r) := png_get_bits r (tab png_len_extra li) in
      let len := tab png_len_base li + x in
      let '(di, r) := png_get_rev r 5 in
      if 29 <? di then Some (with_err 3 (Dec r (d_o d))) else
      let '(x, r) := png_get_bits r (tab png_dist_extra di) in
      let dist := tab png_dist_base di + x in
      let d := Dec r (d_o d) in
      if (PNG_WINDOW <? dist) || (o_pos (d_o d) <? dist) then Some (with_err 3 d) else
      fixed_block k (copy_loop (Z.to_nat len) dist d)
  end.

(** The bits the reader can still get: the fuel of the loops over symbols and
    blocks, which take at least one bit a round until one fails. *)
Definition avail r : Z :=
  r_nbits r + 8 * (Z.of_nat (length (r_in r)) - r_inp r) + 8 * Z.of_nat (left (r_io r)).
Definition bit_fuel r : nat := S (S (Z.to_nat (avail r))).

(** [while (!final && !d.err)] *)
Fixpoint png_inflate (fuel : nat) (final : bool) d : option (png_dec_t C P) :=
  match fuel with
  | O => None
  | S k =>
      if final || negb (r_err (d_r d) =? 0) then Some d else
      let '(f, r) := png_get_bits (d_r d) 1 in
      let '(type, r) := png_get_bits r 2 in
      let d := Dec r (d_o d) in
      let final := negb (f =? 0) in
      if type =? 0 then png_inflate k final (stored_block d) else
      if type =? 1 then
        match fixed_block (bit_fuel (d_r d)) d with Some d => png_inflate k final d | None => None end
      else png_inflate k final (with_err 3 d)
  end.

(** The colours of PLTE; [None] on a short read. *)
Fixpoint read_palette (n : nat) (io : C) : C * option (list Z) :=
  match n with
  | O => (io, Some [])
  | S k =>
      let '(io, p) := src_read io 3 in
      if negb (Z.of_nat (length p) =? 3) then (io, None) else
      let '(io, pal) := read_palette k io in
      (io, match pal with Some pal => Some (RGB565 (tab p 0) (tab p 1) (tab p 2) :: pal) | None => None end)
  end.

(** The loop that looks for PLTE; [None] for the format error. *)
Fixpoint plte_loop (fuel : nat) (io : C) : C * option (list Z) :=
  match fuel with
  | O => (io, None)
  | S k =>
      let '(io, h) := src_read io 8 in
      if negb (Z.of_nat (length h) =? 8) then (io, None) else
      let len := be32_at h 0 in
      if tag_at h 4 PLTE then
        if negb (len mod 3 =? 0) || (768 <? len) || (len =? 0) then (io, None) else
        let '(io, pal) := read_palette (Z.to_nat (len / 3)) io in
        match pal with
        | None => (io, None)
        | Some pal => let '(io, ok) := png_skip io 4 in (io, if ok then Some pal else None)
        end
      else if tag_at h 4 IDAT || tag_at h 4 IEND then (io, None) else
      let '(io, ok) := png_skip io (u32 (len + 4)) in
      if ok then plte_loop k io else (io, None)
  end.

End Decoder.

(** The state of the rows, the palette and the message; [None] when the fuel runs
    out. [work] and [row] are the buffers of the caller, whose [put_row] sees the
    palette read. *)
Definition png_decode {C} `{Source C} {P} (put_row : list Z -> P -> Z -> list Z -> P * bool) (width height : Z)
    (work row : list Z) (io : C) (put : P) : option (P * list Z * png_result) :=
  let '(io, h) := src_read io 33 in
  if negb (Z.of_nat (length h) =? 33) || negb (tag_at h 0 png_signature) || negb (tag_at h 12 IHDR)
  then Some (put, [], FormatErr) else
  if negb (be32_at h 16 =? width) || negb (be32_at h 20 =? height) || negb (tab h 24 =? 8) ||
     negb (tab h 25 =? 3) || negb (tab h 28 =? 0)
  then Some (put, [], UnsupportedPng) else
  let '(io, pal) := plte_loop (S (left io)) io in
  match pal with
  | None => Some (put, [], FormatErr)
  | Some pal =>
      let '(r, ok) := png_next_idat (Reader io [] 0 0 false 0 0 0) in
      if negb ok then Some (put, pal, FormatErr) else
      let '(b, r) := png_in_byte r in
      if negb (b =? 0x78) then Some (put, pal, UnsupportedPng) else
      let '(_, r) := png_in_byte r in
      match png_inflate (put_row pal) width height (bit_fuel r) false (Dec r (Out work 0 0 0 row put)) with
      | None => None
      | Some d =>
          Some (o_put (d_o d), pal,
            if r_err (d_r d) =? 3 then UnsupportedPng else
            if negb (r_err (d_r d) =? 0) || negb (o_y (d_o d) =? height) then FormatErr else PngOk)
      end
  end.


(** ** The loops that read end *)

Section Ends.
Context {C : Type} `{Source C}.
Implicit Types (r : png_reader_t C) (io : C).

(** A complete read of [n] bytes takes [n] bytes. *)
Lemma src_read_left io n io' d : 0 <= n -> src_read io n = (io', d) ->
  (left io' <= left io)%nat /\ (Z.of_nat (length d) = n -> Z.of_nat (left io') = Z.of_nat (left io) - n) /\
  Forall (fun b => 0 <= b < 256) d.
Proof.
  intros Hn E. pose proof (src_law io n Hn) as L. rewrite E in L. cbn [fst snd] in L. unfold left.
  destruct L as [[-> ->]|[-> ->]]; [|cbn; split; [lia|split; [lia|constructor]]].
  rewrite length_drop, length_take. split; [lia|]. split; [lia|]. apply Forall_take, src_bytes.
Qed.

Lemma skip_loop_fuel f1 : forall f2 io n, 0 <= n -> (left io < f1)%nat -> (left io < f2)%nat ->
  skip_loop f1 io n = skip_loop f2 io n.
Proof.
  induction f1 as [|f1 IH]; intros [|f2] io n Hn H1 H2; try lia. cbn [skip_loop].
  destruct (Z.eqb_spec n 0); [done|]. set (m := if 16 <? n then 16 else n).
  assert (Hm : 1 <= m <= n) by (unfold m; destruct (Z.ltb_spec 16 n); lia).
  destruct (src_read io m) as [io' d] eqn:E. destruct (src_read_left io m io' d ltac:(lia) E) as (_ & Hl & _).
  destruct (Z.eqb_spec (Z.of_nat (length d)) m) as [Ed|]; [|done]. apply IH; lia.
Qed.

(** [png_skip] is the loop of the code: its fuel never runs out. *)
Lemma png_skip_eq io n : 0 <= n -> png_skip io n =
  if n =? 0 then (io, true) else
  let m := if 16 <? n then 16 else n in
  let '(io, d) := src_read io m in
  if Z.of_nat (length d) =? m then png_skip io (n - m) else (io, false).
Proof.
  intros Hn. unfold png_skip at 1. cbn [skip_loop]. destruct (Z.eqb_spec n 0); [done|]. cbv zeta.
  set (m := if 16 <? n then 16 else n). assert (Hm : 1 <= m <= n) by (unfold m; destruct (Z.ltb_spec 16 n); lia).
  destruct (src_read io m) as [io' d] eqn:E. destruct (src_read_left io m io' d ltac:(lia) E) as (_ & Hl & _).
  destruct (Z.eqb_spec (Z.of_nat (length d)) m) as [Ed|]; [|done]. apply skip_loop_fuel; lia.
Qed.

Lemma skip_loop_left f : forall io n, 0 <= n -> (left (fst (skip_loop f io n)) <= left io)%nat.
Proof.
  induction f as [|f IH]; intros io n Hn; cbn [skip_loop]; [done|]. destruct (Z.eqb_spec n 0); [done|].
  set (m := if 16 <? n then 16 else n). assert (Hm : 1 <= m <= n) by (unfold m; destruct (Z.ltb_spec 16 n); lia).
  destruct (src_read io m) as [io' d] eqn:E. destruct (src_read_left io m io' d ltac:(lia) E) as (Hle & _).
  destruct (_ =? _); [|done]. specialize (IH io' (n - m) ltac:(lia)). lia.
Qed.
Lemma png_skip_left io n : 0 <= n -> (left (fst (png_skip io n)) <= left io)%nat.
Proof. apply skip_loop_left. Qed.

(** One round of [png_next_idat]: it ends, or it has consumed a chunk header. *)
Definition next_idat_step r : png_reader_t C * option bool :=
  let '(io, ok) := if r_have_chunk r then png_skip (r_io r) 4 else (r_io r, true) in
  let r := set_have false (set_io io r) in
  if negb ok then (r, Some false) else
  let '(io, h) := src_read io 8 in
  let r := set_io io r in
  if negb (Z.of_nat (length h) =? 8) then (r, Some false) else
  let len := be32_at h 0 in
  if tag_at h 4 IDAT then (set_have true (set_chunk_left len r), Some true) else
  if tag_at h 4 IEND then (r, Some false) else
  let '(io, ok) := png_skip io (u32 (len + 4)) in
  (set_io io r, if negb ok then Some false else None).

Lemma next_idat_loop_step k r : next_idat_loop (S k) r =
  match next_idat_step r with (r, Some b) => (r, b) | (r, None) => next_idat_loop k r end.
Proof.
  cbn [next_idat_loop]. unfold next_idat_step. destruct (if r_have_chunk r then _ else _) as [io ok].
  destruct (negb ok); [done|]. destruct (src_read io 8) as [io1 h]. destruct (negb _); [done|]. cbv zeta.
  destruct (tag_at h 4 IDAT); [done|]. destruct (tag_at h 4 IEND); [done|]. destruct (png_skip io1 _) as [io2 ok2]. by destruct ok2.
Qed.

(** What reading keeps: everything but the position in the file and in the chunk. *)
Definition same_buf r r' : Prop :=
  r_in r' = r_in r /\ r_inp r' = r_inp r /\ r_bits r' = r_bits r /\ r_nbits r' = r_nbits r /\ r_err r' = r_err r.

Lemma be32_at_nonneg h i : Forall (fun b => 0 <= b < 256) h -> 0 <= be32_at h i.
Proof.
  intros Hh. assert (Hb : forall j, 0 <= tab h j).
  { intros j. unfold tab. rewrite nth_lookup. destruct (h !! Z.to_nat j) as [x|] eqn:E; [|cbn; lia].
    exact (proj1 (Forall_lookup_1 _ _ _ _ Hh E)). }
  unfold be32_at. repeat (apply Z.lor_nonneg; split); try apply Z.shiftl_nonneg; apply Hb.
Qed.

Lemma next_idat_step_spec r : let '(r', res) := next_idat_step r in
  same_buf r r' /\ (left (r_io r') <= left (r_io r))%nat /\ (0 <= r_chunk_left r -> 0 <= r_chunk_left r') /\
  (res <> Some false -> Z.of_nat (left (r_io r')) <= Z.of_nat (left (r_io r)) - 8).
Proof.
  unfold next_idat_step.
  assert (Hs : (left (fst (if r_have_chunk r then png_skip (r_io r) 4 else (r_io r, true))) <= left (r_io r))%nat)
    by (destruct (r_have_chunk r); [by apply png_skip_left|done]).
  destruct (if r_have_chunk r then _ else _) as [io ok]. cbn [fst] in Hs.
  destruct ok; cbn [negb]; [|repeat split; try done; exact Hs].
  destruct (src_read io 8) as [io1 h] eqn:E. destruct (src_read_left io 8 io1 h ltac:(lia) E) as (Hle & Hl & Hb).
  destruct (Z.eqb_spec (Z.of_nat (length h)) 8) as [E8|]; cbn [negb]; [|repeat split; try done; cbn; lia].
  specialize (Hl E8). cbv zeta. destruct (tag_at h 4 IDAT).
  { repeat split; try done; cbn; try lia. intros _. by apply be32_at_nonneg. }
  destruct (tag_at h 4 IEND); [repeat split; try done; cbn; lia|].
  pose proof (png_skip_left io1 (u32 (be32_at h 0 + 4)) (proj1 (u32_range _))) as Hk.
  destruct (png_skip io1 _) as [io2 ok2]. cbn [fst] in Hk. destruct ok2; repeat split; try done; cbn; lia.
Qed.

Lemma next_idat_loop_fuel f1 : forall f2 r, (left (r_io r) < f1)%nat -> (left (r_io r) < f2)%nat ->
  next_idat_loop f1 r = next_idat_loop f2 r.
Proof.
  induction f1 as [|f1 IH]; intros [|f2] r H1 H2; try lia. rewrite !next_idat_loop_step.
  pose proof (next_idat_step_spec r) as S. destruct (next_idat_step r) as [r' [b|]]; [done|].
  destruct S as (_ & _ & _ & S). specialize (S ltac:(done)). apply IH; lia.
Qed.

(** [png_next_idat] is the [for (;;)] of the code. *)
Lemma png_next_idat_eq r :
  png_next_idat r = match next_idat_step r with (r, Some b) => (r, b) | (r, None) => png_next_idat r end.
Proof.
  unfold png_next_idat at 1. rewrite next_idat_loop_step. pose proof (next_idat_step_spec r) as S.
  destruct (next_idat_step r) as [r' [b|]]; [done|]. destruct S as (_ & _ & _ & S). specialize (S ltac:(done)).
  apply next_idat_loop_fuel; lia.
Qed.

Lemma same_buf_trans r1 r2 r3 : same_buf r1 r2 -> same_buf r2 r3 -> same_buf r1 r3.
Proof. unfold same_buf. intuition congruence. Qed.

(** What a loop over chunks does to the reader: [ok] is its success, [n] the bytes
    it then has taken from the file at least. *)
Definition reads (n : Z) r (res : png_reader_t C * bool) : Prop :=
  same_buf r (fst res) /\ (left (r_io (fst res)) <= left (r_io r))%nat /\ (0 <= r_chunk_left r -> 0 <= r_chunk_left (fst res)) /\
  (snd res = true -> Z.of_nat (left (r_io (fst res))) <= Z.of_nat (left (r_io r)) - n).

Lemma reads_trans n r r' res : same_buf r r' -> (left (r_io r') <= left (r_io r))%nat ->
  (0 <= r_chunk_left r -> 0 <= r_chunk_left r') -> reads n r' res -> reads n r res.
Proof. intros A B D (E & F & G & I). split; [by eapply same_buf_trans|]. split; [lia|]. split; [auto|]. intros Hok. specialize (I Hok). lia. Qed.

Lemma next_idat_loop_spec f : forall r, reads 8 r (next_idat_loop f r).
Proof.
  induction f as [|f IH]; intros r; [repeat split; try done; cbn; lia|]. rewrite next_idat_loop_step.
  pose proof (next_idat_step_spec r) as S. destruct (next_idat_step r) as [r1 [b|]]; destruct S as (Hs & Hl & Hc & Hd).
  - split; [exact Hs|]. split; [exact Hl|]. split; [exact Hc|]. cbn. intros ->. by apply Hd.
  - by apply (reads_trans 8 r r1).
Qed.

Lemma refill_loop_fuel f1 : forall f2 r, (left (r_io r) < f1)%nat -> (left (r_io r) < f2)%nat ->
  refill_loop f1 r = refill_loop f2 r.
Proof.
  induction f1 as [|f1 IH]; intros [|f2] r H1 H2; try lia. cbn [refill_loop]. destruct (r_chunk_left r =? 0); [|done].
  pose proof (next_idat_loop_spec (S (left (r_io r))) r) as S. unfold png_next_idat.
  destruct (next_idat_loop _ r) as [r' []]; [|done]. destruct S as (_ & _ & _ & S). specialize (S eq_refl). cbn in S. apply IH; lia.
Qed.

Definition refill r : png_reader_t C * bool := refill_loop (S (left (r_io r))) r.

(** The loop of [png_in_byte] over empty chunks, as the code has it. *)
Lemma refill_eq r : refill r =
  if r_chunk_left r =? 0 then let '(r, ok) := png_next_idat r in if ok then refill r else (r, false) else (r, true).
Proof.
  unfold refill at 1. cbn [refill_loop]. destruct (r_chunk_left r =? 0); [|done].
  pose proof (next_idat_loop_spec (S (left (r_io r))) r) as S. unfold png_next_idat.
  destruct (next_idat_loop _ r) as [r' []]; [|done]. destruct S as (_ & _ & _ & S). specialize (S eq_refl). cbn in S.
  apply refill_loop_fuel; lia.
Qed.

Lemma refill_loop_spec f : forall r, reads 0 r (refill_loop f r) /\
  (snd (refill_loop f r) = true -> 0 <= r_chunk_left r -> 0 < r_chunk_left (fst (refill_loop f r))).
Proof.
  induction f as [|f IH]; intros r; cbn [refill_loop]; [repeat split; try done; cbn; lia|].
  destruct (Z.eqb_spec (r_chunk_left r) 0); [|repeat split; try done; cbn; lia].
  pose proof (next_idat_loop_spec (S (left (r_io r))) r) as (A & B & D & E). unfold png_next_idat.
  destruct (next_idat_loop _ r) as [r' ok]. cbn [fst snd] in *. destruct ok; [|repeat split; try done; apply A].
  destruct (IH r') as [I1 I2]. split; [by apply (reads_trans 0 r r')|]. auto.
Qed.

(** ** The measure of the loops over symbols *)

Definition reader_ok r : Prop := 0 <= r_inp r <= Z.of_nat (length (r_in r)) /\ 0 <= r_nbits r /\ 0 <= r_chunk_left r.

(** After taking [n] bits: the measure has dropped by them, or the reader failed. *)
Definition took (n : Z) r r' : Prop := reader_ok r' /\ (r_err r' <> 0 \/ r_err r' = r_err r /\ avail r' + n <= avail r).

Lemma took_trans m n r r1 r2 : took m r r1 -> took n r1 r2 -> (r_err r1 <> 0 -> r_err r2 <> 0) -> took (m + n) r r2.
Proof. intros [_ A] [B D] E. split; [exact B|]. destruct D as [D|[D1 D2]]; [auto|]. destruct A as [A|[A1 A2]]; [auto|right]. split; [congruence|lia]. Qed.

Lemma in_byte_took r : reader_ok r -> let r' := snd (png_in_byte r) in
  took 8 r r' /\ r_bits r' = r_bits r /\ r_nbits r' = r_nbits r /\ (r_err r <> 0 -> r_err r' <> 0).
Proof.
  intros (Hi & Hn & Hc). unfold png_in_byte. destruct (Z.leb_spec (Z.of_nat (length (r_in r))) (r_inp r)) as [Hge|Hlt].
  - fold (refill r). destruct (refill_loop_spec (S (left (r_io r))) r) as ((Hs & Hl & Hcl & Hle) & Hpos).
    fold (refill r) in Hs, Hl, Hcl, Hle, Hpos. destruct (refill r) as [r1 ok]. cbn [fst snd] in *.
    destruct Hs as (E1 & E2 & E3 & E4 & E5).
    assert (Hok1 : reader_ok (set_err 1 r1)) by (unfold reader_ok; cbn; rewrite E1, E2, E4; auto).
    destruct ok; cbn [negb]; [|split; [split; [exact Hok1|by left]|cbn; done]].
    specialize (Hle eq_refl). specialize (Hpos eq_refl Hc). set (n := if PNG_IN <? r_chunk_left r1 then PNG_IN else r_chunk_left r1).
    assert (Hn1 : 1 <= n <= r_chunk_left r1) by (unfold n, PNG_IN; destruct (Z.ltb_spec 256 (r_chunk_left r1)); lia).
    destruct (src_read (r_io r1) n) as [io d] eqn:E. destruct (src_read_left _ n io d ltac:(lia) E) as (Hle1 & Hl1 & _).
    destruct (Z.eqb_spec (Z.of_nat (length d)) n) as [Ed|]; cbn [negb].
    2: { split; [split; [unfold reader_ok; cbn; rewrite E1, E2, E4; auto|by left]|cbn; done]. }
    specialize (Hl1 Ed). cbn. split; [|rewrite E5; auto].
    split; [unfold reader_ok; cbn; rewrite E4; lia|]. right. split; [exact E5|]. unfold avail. cbn. rewrite E4. lia.
  - cbn. split; [|auto]. split; [unfold reader_ok; cbn; lia|]. right. split; [done|]. unfold avail. cbn. lia.
Qed.

Lemma avail_nonneg r : reader_ok r -> 0 <= avail r.
Proof. intros (A & B & D). unfold avail. lia. Qed.

Lemma fill_bits_took f : forall r n, reader_ok r -> n <= r_nbits r + 8 * Z.of_nat f ->
  took 0 r (fill_bits f r n) /\ n <= r_nbits (fill_bits f r n) /\ (r_err r <> 0 -> r_err (fill_bits f r n) <> 0).
Proof.
  induction f as [|f IH]; intros r n Hr Hf; cbn [fill_bits].
  { split; [split; [exact Hr|right; split; [done|lia]]|]. split; [lia|done]. }
  destruct (Z.ltb_spec (r_nbits r) n); [|split; [split; [exact Hr|right; split; [done|lia]]|split; [lia|done]]].
  pose proof (in_byte_took r Hr) as (T & Eb & En & Ee). destruct (png_in_byte r) as [b r1]. cbn [snd] in *.
  set (r2 := set_bits _ (r_nbits r1 + 8) r1).
  assert (T2 : took 0 r r2).
  { destruct T as [(A & B & D) [T|[T1 T2]]]; (split; [unfold reader_ok; cbn; lia|]); [by left|right].
    split; [exact T1|]. revert T2. unfold avail. cbn. lia. }
  destruct (IH r2 n (proj1 T2) ltac:(cbn; lia)) as (A & B & D).
  split; [exact (took_trans 0 0 _ _ _ T2 A D)|]. split; [exact B|]. intros Hne. apply D, Ee, Hne.
Qed.

(** Reading [n] bits, or a code of [n] bits. *)
Definition reads_bits (n : Z) r (res : Z * png_reader_t C) : Prop :=
  took n r (snd res) /\ (r_err r <> 0 -> r_err (snd res) <> 0).

Lemma reads_bits_trans m n r res1 res2 : reads_bits m r res1 -> reads_bits n (snd res1) res2 -> reads_bits (m + n) r res2.
Proof. intros [T1 E1] [T2 E2]. split; [exact (took_trans _ _ _ _ _ T1 T2 E2)|auto]. Qed.

Lemma get_bits_reads r n : reader_ok r -> 0 <= n -> reads_bits n r (png_get_bits r n).
Proof.
  intros Hr Hn. unfold png_get_bits. destruct (fill_bits_took (Z.to_nat n) r n Hr) as (T & Hge & He); [destruct Hr; lia|].
  set (r1 := fill_bits _ r n) in *. split; [|exact He]. cbn [snd]. destruct T as [(A & B & D) T].
  split; [unfold reader_ok; cbn; lia|]. destruct T as [T|[T1 T2]]; [by left|right]. split; [exact T1|].
  revert T2. unfold avail. cbn. lia.
Qed.

Lemma shift_in_reads v r : reader_ok r -> reads_bits 1 r (shift_in v r).
Proof. intros Hr. pose proof (get_bits_reads r 1 Hr ltac:(lia)) as B. unfold shift_in. by destruct (png_get_bits r 1). Qed.

Lemma get_rev_reads r n : reader_ok r -> 0 <= n -> reads_bits n r (png_get_rev r n).
Proof.
  intros Hr Hn. unfold png_get_rev. rewrite <- (Z2Nat.id n Hn) at 1. generalize 0 at 1. revert r Hr.
  induction (Z.to_nat n) as [|k IH]; intros r Hr v; cbn [get_rev_loop].
  { split; [split; [exact Hr|right; cbn; split; [done|lia]]|done]. }
  pose proof (shift_in_reads v r Hr) as B. destruct (shift_in v r) as [v1 r1].
  replace (Z.of_nat (S k)) with (1 + Z.of_nat k) by lia. apply (reads_bits_trans 1 _ r (v1, r1)); [exact B|].
  apply IH. exact (proj1 (proj1 B)).
Qed.

Lemma reads_bits_le m n r res : reads_bits m r res -> n <= m -> reads_bits n r res.
Proof. intros [[A B] D] Hle. split; [|exact D]. split; [exact A|]. destruct B as [B|[B1 B2]]; [by left|right; split; [exact B1|lia]]. Qed.

Lemma litlen_reads r : reader_ok r -> reads_bits 7 r (png_fixed_litlen r).
Proof.
  intros Hr. pose proof (get_rev_reads r 7 Hr ltac:(lia)) as B0. unfold png_fixed_litlen.
  destruct (png_get_rev r 7) as [c0 r0]. destruct (c0 <=? 23); [exact B0|].
  pose proof (reads_bits_trans _ _ _ _ _ B0 (shift_in_reads c0 r0 (proj1 (proj1 B0)))) as B1. destruct (shift_in c0 r0) as [c1 r1].
  destruct (_ && _); [exact (reads_bits_le _ 7 _ _ B1 ltac:(lia))|]. destruct (_ && _); [exact (reads_bits_le _ 7 _ _ B1 ltac:(lia))|].
  pose proof (reads_bits_trans _ _ _ _ _ B1 (shift_in_reads c1 r1 (proj1 (proj1 B1)))) as B2. destruct (shift_in c1 r1) as [c2 r2].
  exact (reads_bits_le _ 7 _ _ B2 ltac:(lia)).
Qed.
End Ends.

Section Total.
Context {C : Type} `{Source C} {P : Type} (put_row : P -> Z -> list Z -> P * bool) (width height : Z).
Implicit Types (d : png_dec_t C P) (r : png_reader_t C).

(** Output changes nothing of the reader but [err], which it never clears. *)
Definition same_reader d d' : Prop :=
  (reader_ok (d_r d) -> reader_ok (d_r d')) /\ avail (d_r d') = avail (d_r d) /\ (r_err (d_r d) <> 0 -> r_err (d_r d') <> 0).

Lemma same_reader_refl d : same_reader d d.
Proof. done. Qed.
Lemma same_reader_trans d1 d2 d3 : same_reader d1 d2 -> same_reader d2 d3 -> same_reader d1 d3.
Proof. unfold same_reader. intuition congruence. Qed.
Lemma with_err_reader e d : e <> 0 -> same_reader d (with_err e d).
Proof. done. Qed.

Lemma out_byte_reader d b : same_reader d (png_out_byte put_row width height d b).
Proof.
  unfold png_out_byte. destruct (o_rowp (d_o d) =? 0); [by destruct (negb (b =? 0))|]. destruct (_ =? width + 1); [|done].
  destruct (if height <=? _ then _ else _) as [put []]; done.
Qed.
Lemma copy_loop_reader n dist : forall d, same_reader d (copy_loop put_row width height n dist d).
Proof.
  induction n as [|n IH]; intros d; cbn [copy_loop]; [apply same_reader_refl|].
  eapply same_reader_trans; [apply out_byte_reader|apply IH].
Qed.

(** Progress of the decoder by at least [n] bits. *)
Definition went (n : Z) d d' : Prop :=
  took n (d_r d) (d_r d') /\ (r_err (d_r d) <> 0 -> r_err (d_r d') <> 0).

Lemma went_trans m n d d1 d2 : went m d d1 -> went n d1 d2 -> went (m + n) d d2.
Proof. intros [A B] [D E]. split; [exact (took_trans _ _ _ _ _ A D E)|auto]. Qed.
Lemma went_le m n d d' : went m d d' -> n <= m -> went n d d'.
Proof. intros W Hle. exact (reads_bits_le m n (d_r d) (0, d_r d') W Hle). Qed.
Lemma went_bits n d res : reads_bits n (d_r d) res -> went n d (Dec (snd res) (d_o d)).
Proof. done. Qed.
Lemma went_same d d' : reader_ok (d_r d) -> same_reader d d' -> went 0 d d'.
Proof.
  intros Hr (A & B & D). split; [|exact D]. split; [auto|]. destruct (decide (r_err (d_r d') = 0)) as [E|E]; [|by left].
  right. split; [|lia]. destruct (decide (r_err (d_r d) = 0)); [congruence|]. by destruct (D ltac:(done)).
Qed.
Lemma went_ok n d d' : went n d d' -> reader_ok (d_r d').
Proof. intros [[A _] _]. exact A. Qed.

Lemma stored_loop_went n : forall d, reader_ok (d_r d) -> went 0 d (stored_loop put_row width height n d).
Proof.
  induction n as [|n IH]; intros d Hr; cbn [stored_loop]; [by apply went_same|].
  destruct (negb _); [by apply went_same|]. pose proof (in_byte_took (d_r d) Hr) as (T & _ & _ & E).
  destruct (png_in_byte (d_r d)) as [b r]. cbn [snd] in T, E.
  assert (W1 : went 0 d (Dec r (d_o d))) by (apply (went_le 8); [by split|lia]).
  pose proof (went_trans _ _ _ _ _ W1 (went_same _ _ (went_ok _ _ _ W1) (out_byte_reader (Dec r (d_o d)) b))) as W2.
  exact (went_trans _ _ _ _ _ W2 (IH _ (went_ok _ _ _ W2))).
Qed.

Lemma in_byte_went d : reader_ok (d_r d) -> went 0 d (Dec (snd (png_in_byte (d_r d))) (d_o d)).
Proof. intros Hr. pose proof (in_byte_took (d_r d) Hr) as (T & _ & _ & E). apply (went_le 8); [by split|lia]. Qed.

Lemma stored_block_went d : reader_ok (d_r d) -> went 0 d (stored_block put_row width height d).
Proof.
  intros Hr. unfold stored_block. set (d0 := Dec (set_bits 0 0 (d_r d)) (d_o d)).
  assert (W0 : went 0 d d0).
  { split; [|done]. destruct Hr as (A & B & D). split; [unfold reader_ok; cbn; lia|]. right. split; [done|]. unfold avail. cbn. lia. }
  change (set_bits 0 0 (d_r d)) with (d_r d0). change (d_o d) with (d_o d0).
  assert (Step : forall d1, went 0 d d1 -> went 0 d (Dec (snd (png_in_byte (d_r d1))) (d_o d1)))
    by (intros d1 W; exact (went_trans _ _ _ _ _ W (in_byte_went d1 (went_ok _ _ _ W)))).
  pose proof (Step d0 W0) as W1. destruct (png_in_byte (d_r d0)) as [b0 r1]. cbn [snd] in W1.
  pose proof (Step _ W1) as W2. cbn [d_r d_o] in W2. destruct (png_in_byte r1) as [b1 r2]. cbn [snd] in W2.
  pose proof (Step _ W2) as W3. cbn [d_r d_o] in W3. destruct (png_in_byte r2) as [b2 r3]. cbn [snd] in W3.
  pose proof (Step _ W3) as W4. cbn [d_r d_o] in W4. destruct (png_in_byte r3) as [b3 r4]. cbn [snd] in W4.
  exact (went_trans _ _ _ _ _ W4 (stored_loop_went _ _ (went_ok _ _ _ W4))).
Qed.

(** Fuel enough for [d]: one round after a failure, else more than the bits left. *)
Definition enough (fuel : nat) d : Prop :=
  (0 < fuel)%nat /\ (r_err (d_r d) <> 0 \/ avail (d_r d) < Z.of_nat fuel).

Lemma enough_went k n d d' : enough (S k) d -> went n d d' -> 1 <= n -> (1 <= k)%nat -> enough k d'.
Proof. intros [_ E] [[_ T] He] Hn Hk. split; [lia|]. destruct T as [T|[T1 T2]]; [by left|]. destruct E as [E|E]; [left; auto|right; lia]. Qed.

Lemma fixed_block_total fuel : forall d, reader_ok (d_r d) -> enough fuel d ->
  exists d', fixed_block put_row width height fuel d = Some d' /\ went 0 d d'.
Proof.
  induction fuel as [|k IH]; intros d Hr Hf; [destruct Hf; lia|]. cbn [fixed_block].
  pose proof (litlen_reads (d_r d) Hr) as B. destruct (png_fixed_litlen (d_r d)) as [sym r].
  pose proof (went_bits _ _ _ B) as W. cbn [snd] in W. set (d1 := Dec r (d_o d)) in *. change r with (d_r d1).
  assert (Stop : forall n d', 0 <= n -> went n d d' -> exists d2, Some d' = Some d2 /\ went 0 d d2)
    by (intros n d' Hn Wd; exists d'; split; [done|exact (went_le n 0 _ _ Wd Hn)]).
  destruct (Z.eqb_spec (r_err (d_r d1)) 0) as [E0|]; cbn [negb]; [|by apply (Stop 7); [lia|]].
  assert (Hk : (1 <= k)%nat).
  { destruct W as [[Hr1 [W|[W1 W2]]] We]; [done|]. pose proof (avail_nonneg _ Hr1). destruct Hf as [_ [Hf|Hf]]; [by destruct (We Hf)|lia]. }
  assert (Next : forall d', went 7 d d' -> exists d2, fixed_block put_row width height k d' = Some d2 /\ went 0 d d2).
  { intros d' W'. destruct (IH d' (went_ok _ _ _ W') (enough_went k 7 d d' Hf W' ltac:(lia) Hk)) as (d2 & E2 & W2).
    exists d2. split; [exact E2|]. exact (went_le _ 0 _ _ (went_trans _ _ _ _ _ W' W2) ltac:(lia)). }
  destruct (sym <? 256).
  { apply Next. exact (went_trans 7 0 _ _ _ W (went_same _ _ (went_ok _ _ _ W) (out_byte_reader d1 _))). }
  destruct (sym =? 256); [by apply (Stop 7); [lia|]|]. cbv zeta.
  destruct (Z.ltb_spec 28 (sym - 257)).
  { apply (Stop 7); [lia|]. exact (went_trans 7 0 _ _ _ W (went_same _ _ (went_ok _ _ _ W) (with_err_reader 3 d1 ltac:(lia)))). }
  assert (Hx : forall t i, Forall (fun x => 0 <= x) t -> 0 <= tab t i).
  { intros t i Ht. unfold tab. rewrite nth_lookup. destruct (t !! Z.to_nat i) as [x|] eqn:E; [|cbn; lia]. exact (Forall_lookup_1 _ _ _ _ Ht E). }
  assert (Hle : Forall (fun x => 0 <= x) png_len_extra /\ Forall (fun x => 0 <= x) png_dist_extra)
    by (split; repeat (constructor; [lia|]); constructor).
  change (d_r d1) with r.
  pose proof (get_bits_reads r (tab png_len_extra (sym - 257)) (went_ok _ _ _ W) (Hx _ _ (proj1 Hle))) as B1.
  destruct (png_get_bits r _) as [x1 r1]. pose proof (went_trans _ _ _ _ _ W (went_bits _ d1 _ B1)) as W1. cbn [snd d_o] in W1.
  pose proof (get_rev_reads r1 5 (went_ok _ _ _ W1) ltac:(lia)) as B2. destruct (png_get_rev r1 5) as [di r2].
  pose proof (went_trans _ _ _ _ _ W1 (went_bits _ (Dec r1 (d_o d)) _ B2)) as W2. cbn [snd d_o] in W2.
  pose proof (Hx _ (sym - 257) (proj1 Hle)) as H1.
  destruct (29 <? di).
  { apply (Stop 7); [lia|]. apply (went_le (7 + tab png_len_extra (sym - 257) + 5 + 0)); [|lia].
    exact (went_trans _ 0 _ _ _ W2 (went_same _ _ (went_ok _ _ _ W2) (with_err_reader 3 _ ltac:(lia)))). }
  pose proof (get_bits_reads r2 (tab png_dist_extra di) (went_ok _ _ _ W2) (Hx _ _ (proj2 Hle))) as B3.
  destruct (png_get_bits r2 _) as [x3 r3]. pose proof (went_trans _ _ _ _ _ W2 (went_bits _ (Dec r2 (d_o d)) _ B3)) as W3. cbn [snd d_o] in W3.
  pose proof (Hx _ di (proj2 Hle)) as H3. change (d_o d1) with (d_o d).
  assert (W7 : went 7 d (Dec r3 (d_o d))) by (exact (went_le _ 7 _ _ W3 ltac:(lia))).
  destruct (_ || _).
  - apply (Stop 7); [lia|]. exact (went_trans 7 0 _ _ _ W7 (went_same _ _ (went_ok _ _ _ W7) (with_err_reader 3 _ ltac:(lia)))).
  - apply Next. exact (went_trans 7 0 _ _ _ W7 (went_same _ _ (went_ok _ _ _ W7) (copy_loop_reader _ _ _))).
Qed.

Lemma bit_fuel_enough d : enough (bit_fuel (d_r d)) d.
Proof. split; [unfold bit_fuel; lia|]. right. unfold bit_fuel. lia. Qed.

Lemma inflate_total fuel : forall final d, reader_ok (d_r d) ->
  (0 < fuel)%nat -> (final = true \/ r_err (d_r d) <> 0 \/ avail (d_r d) + 2 <= Z.of_nat fuel) ->
  exists d', png_inflate put_row width height fuel final d = Some d'.
Proof.
  induction fuel as [|k IH]; intros final d Hr Hpos Hf; [lia|]. cbn [png_inflate].
  destruct final; cbn [orb]; [by eexists|]. destruct (Z.eqb_spec (r_err (d_r d)) 0) as [E0|]; cbn [negb]; [|by eexists].
  assert (Hk : avail (d_r d) + 1 <= Z.of_nat k) by (destruct Hf as [|[|]]; [done|done|lia]).
  pose proof (avail_nonneg _ Hr).
  pose proof (get_bits_reads (d_r d) 1 Hr ltac:(lia)) as B1. destruct (png_get_bits (d_r d) 1) as [f r1].
  pose proof (went_bits _ _ _ B1) as W1. cbn [snd] in W1.
  pose proof (get_bits_reads r1 2 (went_ok _ _ _ W1) ltac:(lia)) as B2. destruct (png_get_bits r1 2) as [ty r2].
  pose proof (went_trans _ _ _ _ _ W1 (went_bits _ (Dec r1 (d_o d)) _ B2)) as W2. cbn [snd d_o] in W2.
  assert (Next : forall final' d', went 3 d d' -> exists d2, png_inflate put_row width height k final' d' = Some d2).
  { intros final' d' W. apply IH; [exact (went_ok _ _ _ W)|lia|]. right. destruct W as [[_ [W|[Wa Wb]]] _]; [by left|right; lia]. }
  destruct (ty =? 0).
  { apply Next. exact (went_trans 3 0 _ _ _ W2 (stored_block_went _ (went_ok _ _ _ W2))). }
  destruct (ty =? 1).
  - destruct (fixed_block_total (bit_fuel r2) (Dec r2 (d_o d)) (went_ok _ _ _ W2) (bit_fuel_enough (Dec r2 (d_o d)))) as (d' & E & W').
    cbn [d_r] in E |- *. rewrite E. apply Next. exact (went_trans 3 0 _ _ _ W2 W').
  - apply Next. exact (went_trans 3 0 _ _ _ W2 (went_same _ _ (went_ok _ _ _ W2) (with_err_reader 3 _ ltac:(lia)))).
Qed.
End Total.

(** [png_decode] always has a result: its loops never run out of the bound given by
    the bytes left. *)
Lemma png_decode_total {C} `{Source C} {P} (put_row : list Z -> P -> Z -> list Z -> P * bool) (width height : Z)
    (work row : list Z) (io : C) (put : P) :
  exists res, png_decode put_row width height work row io put = Some res.
Proof.
  unfold png_decode. destruct (src_read io 33) as [io1 h]. destruct (_ || _); [by eexists|]. destruct (_ || _); [by eexists|].
  destruct (plte_loop _ io1) as [io2 [pal|]]; [|by eexists].
  pose proof (next_idat_loop_spec (S (left io2)) (Reader io2 [] 0 0 false 0 0 0)) as (A & _ & D & _). unfold png_next_idat. cbn [r_io].
  destruct (next_idat_loop _ _) as [r ok]. cbn [fst] in A, D. destruct A as (A1 & A2 & A3 & A4 & A5).
  destruct ok; cbn [negb]; [|by eexists].
  assert (Hr : reader_ok r) by (unfold reader_ok; rewrite A1, A2, A4; cbn in D |- *; split; [lia|split; [lia|apply D; lia]]).
  pose proof (in_byte_took r Hr) as (T1 & _). destruct (png_in_byte r) as [b r1]. cbn [snd] in T1.
  destruct (negb _); [by eexists|].
  pose proof (in_byte_took r1 (proj1 T1)) as (T2 & _). destruct (png_in_byte r1) as [b2 r2]. cbn [snd] in T2.
  destruct (inflate_total (put_row pal) width height (bit_fuel r2) false (Dec r2 (Out work 0 0 0 row put)) (proj1 T2)) as [d E].
  - unfold bit_fuel. lia.
  - right; right. cbn [d_r]. pose proof (avail_nonneg _ (proj1 T2)). unfold bit_fuel. lia.
  - rewrite E. by eexists.
Qed.

(** ** What the decoder hands over *)

Section Safe.
Context {C : Type} `{Source C} {P : Type} (put_row : P -> Z -> list Z -> P * bool) (width height : Z).
Implicit Types (d : png_dec_t C P).
(** An invariant of the receiver that whole rows inside the image keep. *)
Variable (I : P -> Prop).
Hypothesis HI : forall p y row, I p -> 0 <= y < height -> Z.of_nat (length row) = width -> I (fst (put_row p y row)).
Hypothesis Hw : 1 <= width.

Definition out_safe (o : png_out_t P) : Prop :=
  I (o_put o) /\ Z.of_nat (length (o_row o)) = width /\ 0 <= o_rowp o <= width /\ 0 <= o_y o.

Lemma out_byte_safe d b : out_safe (d_o d) -> out_safe (d_o (png_out_byte put_row width height d b)).
Proof.
  intros (Hp & Hl & Hr & Hy). unfold png_out_byte. destruct (Z.eqb_spec (o_rowp (d_o d)) 0).
  { assert (S : out_safe (Out (<[ring_index (o_pos (d_o d)):=b]> (o_ring (d_o d))) (u32 (o_pos (d_o d) + 1)) 1 (o_y (d_o d))
      (o_row (d_o d)) (o_put (d_o d)))) by (split; [exact Hp|split; [exact Hl|cbn; lia]]).
    destruct (negb (b =? 0)); exact S. }
  destruct (Z.eqb_spec (o_rowp (d_o d) + 1) (width + 1)).
  - set (row := <[_:=b]> (o_row (d_o d))).
    assert (Hlr : Z.of_nat (length row) = width) by (unfold row; by rewrite length_insert).
    destruct (if height <=? o_y (d_o d) then _ else _) as [put ok] eqn:E.
    assert (Hput : I put).
    { destruct (Z.leb_spec height (o_y (d_o d))); [by injection E as <- <-|].
      pose proof (HI (o_put (d_o d)) (o_y (d_o d)) row Hp ltac:(lia) Hlr) as Q. by rewrite E in Q. }
    assert (S : out_safe (Out (<[ring_index (o_pos (d_o d)):=b]> (o_ring (d_o d))) (u32 (o_pos (d_o d) + 1)) 0 (o_y (d_o d) + 1) row put))
      by (split; [exact Hput|split; [exact Hlr|cbn; lia]]).
    destruct ok; exact S.
  - split; [exact Hp|]. split; [cbn; by rewrite length_insert|]. cbn. lia.
Qed.

Lemma copy_loop_safe n dist : forall d, out_safe (d_o d) -> out_safe (d_o (copy_loop put_row width height n dist d)).
Proof. induction n as [|n IH]; intros d Hd; cbn [copy_loop]; [done|]. by apply IH, out_byte_safe. Qed.

Lemma stored_loop_safe n : forall d, out_safe (d_o d) -> out_safe (d_o (stored_loop put_row width height n d)).
Proof.
  induction n as [|n IH]; intros d Hd; cbn [stored_loop]; [done|]. destruct (negb _); [done|].
  destruct (png_in_byte (d_r d)) as [b r]. by apply IH, out_byte_safe.
Qed.

Lemma stored_block_safe d : out_safe (d_o d) -> out_safe (d_o (stored_block put_row width height d)).
Proof.
  intros Hd. unfold stored_block. do 4 match goal with |- context [png_in_byte ?r] => destruct (png_in_byte r) as [? ?] end.
  by apply stored_loop_safe.
Qed.

Lemma fixed_block_safe fuel : forall d d', out_safe (d_o d) -> fixed_block put_row width height fuel d = Some d' -> out_safe (d_o d').
Proof.
  induction fuel as [|k IH]; intros d d' Hd; cbn [fixed_block]; [done|]. destruct (png_fixed_litlen (d_r d)) as [sym r].
  destruct (negb _); [by intros [= <-]|]. destruct (sym <? 256); [by apply IH, out_byte_safe|]. destruct (sym =? 256); [by intros [= <-]|].
  cbv zeta. destruct (28 <? sym - 257); [by intros [= <-]|]. destruct (png_get_bits r _) as [x1 r1]. destruct (png_get_rev r1 5) as [di r2].
  destruct (29 <? di); [by intros [= <-]|]. destruct (png_get_bits r2 _) as [x3 r3]. destruct (_ || _); [by intros [= <-]|].
  by apply IH, copy_loop_safe.
Qed.

Lemma inflate_safe fuel : forall final d d', out_safe (d_o d) -> png_inflate put_row width height fuel final d = Some d' -> out_safe (d_o d').
Proof.
  induction fuel as [|k IH]; intros final d d' Hd; cbn [png_inflate]; [done|]. destruct (_ || _); [by intros [= <-]|].
  destruct (png_get_bits (d_r d) 1) as [f r1]. destruct (png_get_bits r1 2) as [ty r2].
  destruct (ty =? 0); [by apply IH, stored_block_safe|]. destruct (ty =? 1).
  - destruct (fixed_block _ _ _ _ _) as [d1|] eqn:E; [|done]. apply IH. by apply (fixed_block_safe _ _ _) in E.
  - by apply IH.
Qed.

Lemma read_palette_length n : forall (io : C) io' pal, read_palette n io = (io', Some pal) -> length pal = n.
Proof.
  induction n as [|n IH]; intros io io' pal; cbn [read_palette]; [by intros [= _ <-]|].
  destruct (src_read io 3) as [io1 p]. destruct (negb _); [done|]. destruct (read_palette n io1) as [io2 [pal2|]] eqn:E; [|done].
  intros [= _ <-]. cbn. f_equal. exact (IH _ _ _ E).
Qed.

Lemma plte_loop_length fuel : forall (io : C) io' pal, plte_loop fuel io = (io', Some pal) -> (1 <= length pal <= 256)%nat.
Proof.
  induction fuel as [|k IH]; intros io io' pal; cbn [plte_loop]; [done|]. destruct (src_read io 8) as [io1 h] eqn:Er.
  destruct (src_read_left io 8 io1 h ltac:(lia) Er) as (_ & _ & Hb).
  destruct (negb _); [done|]. cbv zeta. pose proof (be32_at_nonneg h 0 Hb). destruct (tag_at h 4 PLTE).
  - destruct (Z.eqb_spec (be32_at h 0 mod 3) 0); cbn [negb orb]; [|done]. destruct (Z.ltb_spec 768 (be32_at h 0)); cbn [orb]; [done|].
    destruct (Z.eqb_spec (be32_at h 0) 0); [done|]. destruct (read_palette _ io1) as [io2 [pal2|]] eqn:E; [|done].
    apply read_palette_length in E. destruct (png_skip io2 4) as [io3 []]; [|done]. intros [= _ <-]. lia.
  - destruct (_ || _); [done|]. destruct (png_skip io1 _) as [io2 []]; [|done]. apply IH.
Qed.
End Safe.

(** What whole rows of the image keep holds at the end. *)
Lemma png_decode_rows {C} `{Source C} {P} (put_row : list Z -> P -> Z -> list Z -> P * bool) (width height : Z)
    (I : P -> Prop) (work row : list Z) (io : C) (put put' : P) (pal : list Z) (res : png_result) :
  (forall c p y line, I p -> 0 <= y < height -> Z.of_nat (length line) = width -> I (fst (put_row c p y line))) ->
  1 <= width -> Z.of_nat (length row) = width -> I put ->
  png_decode put_row width height work row io put = Some (put', pal, res) ->
  I put' /\ (length pal <= 256)%nat /\ (res = PngOk -> (1 <= length pal)%nat).
Proof.
  intros HI Hw Hrow Hput. unfold png_decode.
  assert (Stop : forall r, r <> PngOk -> Some (put, [], r) = Some (put', pal, res) ->
    I put' /\ (length pal <= 256)%nat /\ (res = PngOk -> (1 <= length pal)%nat))
    by (intros r Hr [= <- <- <-]; split; [exact Hput|split; [cbn; lia|done]]).
  destruct (src_read io 33) as [io1 h]. destruct (_ || _); [by apply Stop|]. destruct (_ || _); [by apply Stop|].
  destruct (plte_loop _ io1) as [io2 [pal1|]] eqn:E; [|by apply Stop]. apply plte_loop_length in E.
  destruct (png_next_idat _) as [r ok]. destruct ok; cbn [negb]; [|intros [= <- <- <-]; split; [exact Hput|split; [lia|done]]].
  destruct (png_in_byte r) as [b r1]. destruct (negb _); [intros [= <- <- <-]; split; [exact Hput|split; [lia|done]]|].
  destruct (png_in_byte r1) as [b2 r2]. destruct (png_inflate _ _ _ _ _ _) as [d|] eqn:Ei; [|done].
  apply (inflate_safe (put_row pal1) width height I (HI pal1) Hw) in Ei; [|split; [exact Hput|split; [exact Hrow|cbn; lia]]].
  intros [= <- <- _]. split; [apply Ei|lia].
Qed.

(** C24: Malformed files are handled: on every file, truncated and corrupt ones and reads
    that fail included, [png_decode] ends with a result, and it hands over whole rows
    of the image only, each at a line of the screen: what such rows keep holds of the
    receiver at the end. The palette never has more than 256 colours, and an accepted
    image has at least one. *)
Theorem png_decode_safe {C} `{Source C} {P} (put_row : list Z -> P -> Z -> list Z -> P * bool) (width height : Z)
    (I : P -> Prop) (work row : list Z) (io : C) (put : P) :
  (forall c p y line, I p -> 0 <= y < height -> Z.of_nat (length line) = width -> I (fst (put_row c p y line))) ->
  1 <= width -> Z.of_nat (length row) = width -> I put ->
  exists put' pal res, png_decode put_row width height work row io put = Some (put', pal, res) /\
    I put' /\ (length pal <= 256)%nat /\ (res = PngOk -> (1 <= length pal)%nat).
Proof.
  intros HI Hw Hrow Hput. destruct (png_decode_total put_row width height work row io put) as [[[put' pal] res] E].
  exists put', pal, res. split; [exact E|]. by eapply png_decode_rows.
Qed.

(** ** Reading what the encoder wrote *)

Lemma be32_at_be32 v l : 0 <= v < 2 ^ 32 -> be32_at (png_be32 v ++ l) 0 = v.
Proof.
  intros Hv. unfold be32_at, tab. change (Z.to_nat 0) with 0%nat. change (Z.to_nat (0 + 1)) with 1%nat.
  change (Z.to_nat (0 + 2)) with 2%nat. change (Z.to_nat (0 + 3)) with 3%nat. cbn [app png_be32 nth].
  rewrite !Z.shiftr_div_pow2, !Z.shiftl_mul_pow2 by lia. unfold u8.
  set (a := v / 2 ^ 24 mod 256). set (b := v / 2 ^ 16 mod 256). set (c := v / 2 ^ 8 mod 256).
  assert (Ha : 0 <= a < 256 /\ 0 <= b < 256 /\ 0 <= c < 256) by (unfold a, b, c; lia).
  rewrite (lor_add_pow2 a (b * 2 ^ 16) 24) by lia.
  replace (a * 2 ^ 24 + b * 2 ^ 16) with ((a * 256 + b) * 2 ^ 16) by lia. rewrite (lor_add_pow2 _ (c * 2 ^ 8) 16) by lia.
  replace ((a * 256 + b) * 2 ^ 16 + c * 2 ^ 8) with ((a * 65536 + b * 256 + c) * 2 ^ 8) by lia.
  rewrite (lor_add_pow2 _ (v mod 256) 8) by lia. unfold a, b, c. lia.
Qed.

Lemma fold_code_bits n : forall c v, fold_left (fun v b => 2 * v + Z.b2z b) (code_bits n c) v = v * 2 ^ Z.of_nat n + c mod 2 ^ Z.of_nat n.
Proof.
  unfold code_bits. induction n as [|n IH]; intros c v; cbn [to_bits rev fold_left]; [rewrite Z.mod_1_r; cbn; lia|].
  rewrite fold_left_app, IH. cbn [fold_left]. rewrite Nat2Z.inj_succ, Z.pow_succ_r, Z.rem_mul_r, Zmod_odd by lia.
  destruct (Z.odd c); cbn [Z.b2z]; lia.
Qed.
Lemma code_bits_S n c : code_bits (S n) c = code_bits n (c / 2) ++ [Z.odd c].
Proof. done. Qed.
Lemma code_bits_length n c : length (code_bits n c) = n.
Proof. unfold code_bits. by rewrite length_rev, to_bits_length. Qed.

Section Reads.
Context {C : Type} `{Reliable C}.
Implicit Types (r : png_reader_t C) (io : C).

Lemma src_read_spec io n io' d : 0 <= n -> src_read io n = (io', d) ->
  d = take (Z.to_nat n) (src_left io) /\ src_left io' = drop (Z.to_nat n) (src_left io).
Proof. intros Hn E. pose proof (reliable io n Hn) as L. by rewrite E in L. Qed.

Lemma png_skip_exact io n l l' : src_left io = l ++ l' -> Z.of_nat (length l) = n -> n <= 16 ->
  exists io', png_skip io n = (io', true) /\ src_left io' = l'.
Proof.
  intros El Hn H16. rewrite png_skip_eq by lia. destruct (Z.eqb_spec n 0) as [E|E].
  { exists io. split; [done|]. destruct l; [done|cbn in Hn; lia]. }
  cbv zeta. destruct (Z.ltb_spec 16 n); [lia|]. destruct (src_read io n) as [io' d] eqn:Er.
  destruct (src_read_spec io n io' d ltac:(lia) Er) as [-> Hl]. rewrite El in *.
  rewrite <- Hn, Nat2Z.id, take_app_length, Z.eqb_refl, Z.sub_diag in *. rewrite drop_app_length in Hl.
  exists io'. split; [by rewrite png_skip_eq by lia|exact Hl].
Qed.

Lemma src_read_exact io n l l' : src_left io = l ++ l' -> Z.of_nat (length l) = n ->
  exists io', src_read io n = (io', l) /\ src_left io' = l'.
Proof.
  intros El <-. destruct (src_read io (Z.of_nat (length l))) as [io' d] eqn:Er.
  destruct (src_read_spec io (Z.of_nat (length l)) io' d ltac:(lia) Er) as [-> Hl]. rewrite El, Nat2Z.id, take_app_length in *.
  rewrite drop_app_length in Hl. eauto.
Qed.

(** The bytes [s] of IDAT payload are still to come: in the buffer, in the current
    chunk and in the chunks that follow. *)
Definition feeds r (s : list Z) : Prop :=
  r_err r = 0 /\ 0 <= r_inp r <= Z.of_nat (length (r_in r)) /\ Forall (fun b => 0 <= b < 256) s /\
  exists cur crc chunks tail, Z.of_nat (length cur) = r_chunk_left r /\
    src_left (r_io r) = cur ++ crc ++ flat_map (chunk IDAT) chunks ++ tail /\
    length crc = (if r_have_chunk r then 4%nat else 0%nat) /\
    Forall (fun c => 0 < Z.of_nat (length c) <= PNG_OUT) chunks /\
    s = drop (Z.to_nat (r_inp r)) (r_in r) ++ cur ++ concat chunks.

(** [png_next_idat] finds the next chunk. *)
Lemma next_idat_finds r crc c rest : r_err r = 0 -> src_left (r_io r) = crc ++ chunk IDAT c ++ rest ->
  length crc = (if r_have_chunk r then 4%nat else 0%nat) -> Z.of_nat (length c) <= PNG_OUT ->
  exists r' crc', png_next_idat r = (r', true) /\ same_buf r r' /\ r_have_chunk r' = true /\
    r_chunk_left r' = Z.of_nat (length c) /\ src_left (r_io r') = c ++ crc' ++ rest /\ length crc' = 4%nat.
Proof.
  intros He Hl Hcrc Hc. rewrite png_next_idat_eq. unfold next_idat_step.
  assert (Hs : exists io, (if r_have_chunk r then png_skip (r_io r) 4 else (r_io r, true)) = (io, true) /\ src_left io = chunk IDAT c ++ rest).
  { destruct (r_have_chunk r); [eapply png_skip_exact; [exact Hl|by rewrite Hcrc|lia]|].
    exists (r_io r). split; [done|]. rewrite Hl. by destruct crc. }
  destruct Hs as (io & -> & Hio). cbn [negb]. unfold chunk in Hio. rewrite <- !app_assoc in Hio. rewrite (app_assoc (png_be32 _)) in Hio.
  destruct (src_read_exact io 8 _ _ Hio eq_refl) as (io1 & -> & Hio1). cbn [negb].
  change (Z.of_nat (length (png_be32 (Z.of_nat (length c)) ++ IDAT)) =? 8) with true. cbn [negb].
  rewrite be32_at_be32 by (unfold PNG_OUT in Hc; lia). cbv zeta.
  assert (Ht : tag_at (png_be32 (Z.of_nat (length c)) ++ IDAT) 4 IDAT = true) by (apply bool_decide_eq_true; reflexivity).
  rewrite Ht. eexists _, (png_be32 _). split; [reflexivity|]. split; [done|]. split; [done|]. split; [done|]. split; [exact Hio1|done].
Qed.

Lemma feeds_in_byte r b s : feeds r (b :: s) ->
  exists r', png_in_byte r = (b, r') /\ feeds r' s /\ r_bits r' = r_bits r /\ r_nbits r' = r_nbits r.
Proof.
  intros (He & Hi & Hb & cur & crc & chunks & tail & Hcl & Hl & Hcrc & Hall & Es). unfold png_in_byte.
  apply Forall_cons in Hb as [_ Hb]. destruct (Z.leb_spec (Z.of_nat (length (r_in r))) (r_inp r)) as [Hge|Hlt].
  - rewrite drop_ge in Es by lia. cbn [app] in Es. fold (refill r).
    assert (Hr : exists r1 cur1 crc1 chunks1, refill r = (r1, true) /\ same_buf r r1 /\ r_have_chunk r1 = r_have_chunk r1 /\
      Z.of_nat (length cur1) = r_chunk_left r1 /\ src_left (r_io r1) = cur1 ++ crc1 ++ flat_map (chunk IDAT) chunks1 ++ tail /\
      length crc1 = (if r_have_chunk r1 then 4%nat else 0%nat) /\ Forall (fun c => 0 < Z.of_nat (length c) <= PNG_OUT) chunks1 /\
      b :: s = cur1 ++ concat chunks1 /\ cur1 <> []).
    { rewrite refill_eq. destruct (Z.eqb_spec (r_chunk_left r) 0) as [E0|E0].
      - destruct cur; [|cbn in Hcl; lia]. destruct chunks as [|c chunks]; [done|]. apply Forall_cons in Hall as [Hc Hall].
        cbn [app flat_map] in Hl. rewrite <- app_assoc in Hl.
        destruct (next_idat_finds r crc c _ He Hl Hcrc ltac:(lia)) as (r1 & crc1 & -> & Hs & Hh & Hcl1 & Hl1 & Hcrc1).
        exists r1, c, crc1, chunks. rewrite refill_eq. destruct (Z.eqb_spec (r_chunk_left r1) 0); [lia|].
        rewrite Hh, Hcl1. repeat split; try done; [apply Hs..|]. intros ->. cbn in Hc. lia.
      - exists r, cur, crc, chunks. repeat split; try done. intros ->. cbn in Hcl. lia. }
    destruct Hr as (r1 & cur1 & crc1 & chunks1 & -> & (E1 & E2 & E3 & E4 & E5) & _ & Hcl1 & Hl1 & Hcrc1 & Hall1 & Es1 & Hne). cbn [negb].
    set (n := if PNG_IN <? r_chunk_left r1 then PNG_IN else r_chunk_left r1).
    assert (Hn1 : 1 <= n <= Z.of_nat (length cur1)).
    { assert (1 <= Z.of_nat (length cur1)) by (destruct cur1; [done|cbn; lia]).
      unfold n, PNG_IN. destruct (Z.ltb_spec 256 (r_chunk_left r1)); lia. }
    rewrite <- (firstn_skipn (Z.to_nat n) cur1), <- app_assoc in Hl1.
    destruct (src_read_exact _ n _ _ Hl1) as (io & -> & Hio); [rewrite length_take; lia|].
    rewrite length_take. replace (Z.of_nat (Z.to_nat n `min` length cur1) =? n) with true by (symmetry; apply Z.eqb_eq; lia). cbn [negb].
    rewrite <- (firstn_skipn (Z.to_nat n) cur1), <- app_assoc in Es1.
    destruct (take (Z.to_nat n) cur1) as [|b0 d] eqn:Ed; [apply (f_equal length) in Ed; rewrite length_take in Ed; cbn in Ed; lia|].
    injection Es1 as <- Es1. eexists. split; [reflexivity|]. cbn. split; [|by rewrite E3, E4].
    split; [cbn; congruence|]. split; [cbn; lia|]. split; [exact Hb|]. exists (drop (Z.to_nat n) cur1), crc1, chunks1, tail. cbn.
    rewrite length_drop. split; [lia|]. split; [exact Hio|]. split; [exact Hcrc1|]. split; [exact Hall1|]. exact Es1.
  - assert (Ed : drop (Z.to_nat (r_inp r)) (r_in r) = tab (r_in r) (r_inp r) :: drop (Z.to_nat (r_inp r + 1)) (r_in r)).
    { replace (Z.to_nat (r_inp r + 1)) with (S (Z.to_nat (r_inp r))) by lia. apply drop_S. unfold tab. rewrite nth_lookup.
      destruct (lookup_lt_is_Some_2 (r_in r) (Z.to_nat (r_inp r)) ltac:(lia)) as [x Hx]. by rewrite Hx. }
    rewrite Ed in Es. cbn [app] in Es. injection Es as -> Es. eexists. split; [reflexivity|]. cbn. split; [|done].
    split; [exact He|]. split; [cbn; lia|]. split; [exact Hb|]. exists cur, crc, chunks, tail. cbn. auto 10.
Qed.

(** The bits [L] are still to come. *)
Definition dbits r (L : list bool) : Prop := exists s, feeds r s /\ 0 <= r_nbits r /\ 0 <= r_bits r < 2 ^ r_nbits r /\
  L = to_bits (Z.to_nat (r_nbits r)) (r_bits r) ++ byte_bits s.

Lemma fill_bits_dbits f n L : n <= 16 -> n <= Z.of_nat (length L) -> forall r, dbits r L -> n <= r_nbits r + 8 * Z.of_nat f ->
  dbits (fill_bits f r n) L /\ n <= r_nbits (fill_bits f r n).
Proof.
  intros Hn HL. induction f as [|f IH]; intros r Hd Hf; cbn [fill_bits]; [split; [exact Hd|lia]|].
  destruct (Z.ltb_spec (r_nbits r) n) as [Hlt|]; [|split; [exact Hd|lia]].
  destruct Hd as (s & Hs & Hnb & Hbits & ->). destruct s as [|b s].
  { rewrite length_app, to_bits_length in HL. cbn in HL. lia. }
  pose proof (proj1 (proj2 (proj2 Hs))) as Hb. apply Forall_cons in Hb as [Hb _].
  destruct (feeds_in_byte r b s Hs) as (r1 & -> & Hs1 & Eb & En).
  assert (Hp : 2 ^ (r_nbits r + 8) = 2 ^ r_nbits r * 256) by (rewrite Z.pow_add_r by lia; done).
  assert (Hle : 2 ^ r_nbits r <= 2 ^ 16) by (apply Z.pow_le_mono_r; lia).
  assert (Ev : Z.lor (r_bits r1) (u32 (Z.shiftl b (r_nbits r1))) = r_bits r + b * 2 ^ r_nbits r).
  { rewrite Eb, En, Z.shiftl_mul_pow2, u32_small by nia. rewrite Z.lor_comm, lor_add_pow2 by lia. lia. }
  rewrite Ev, En. apply IH; [|cbn; lia]. exists s. split; [exact Hs1|]. cbn [set_bits r_nbits r_bits].
  split; [lia|]. split; [rewrite Hp; nia|]. rewrite Z2Nat.inj_add by lia. change (Z.to_nat 8) with 8%nat.
  pose proof (to_bits_join (Z.to_nat (r_nbits r)) 8 (r_bits r) b) as J. rewrite Z2Nat.id in J by lia. rewrite J by lia.
  by rewrite <- app_assoc.
Qed.

Lemma get_bits_dbits r n v L : dbits r (to_bits n v ++ L) -> 0 <= v < 2 ^ Z.of_nat n -> (n <= 16)%nat ->
  exists r', png_get_bits r (Z.of_nat n) = (v, r') /\ dbits r' L.
Proof.
  intros Hd Hv Hn. unfold png_get_bits.
  assert (Hnb : 0 <= r_nbits r) by (destruct Hd as (s & _ & Hnb & _); exact Hnb).
  destruct (fill_bits_dbits (Z.to_nat (Z.of_nat n)) (Z.of_nat n) (to_bits n v ++ L) ltac:(lia) ltac:(rewrite length_app, to_bits_length; lia) r Hd ltac:(lia)) as [Hd1 Hge].
  set (r1 := fill_bits _ r _) in *. clearbody r1. destruct Hd1 as (s & Hs & _ & Hb & E).
  replace (Z.to_nat (r_nbits r1)) with (n + Z.to_nat (r_nbits r1 - Z.of_nat n))%nat in E by lia.
  rewrite to_bits_app, <- app_assoc in E. apply app_inj_1 in E as [E1 E2]; [|by rewrite !to_bits_length].
  assert (Ev : r_bits r1 mod 2 ^ Z.of_nat n = v) by (rewrite <- of_to_bits, <- E1; by apply of_to_bits_small).
  eexists. split.
  - f_equal. rewrite Z.shiftl_mul_pow2, Z.mul_1_l by lia. rewrite <- Ev, <- land_mask by lia. f_equal. rewrite Z.ones_equiv. lia.
  - exists s. split; [exact Hs|]. cbn [set_bits r_nbits r_bits]. rewrite Z.shiftr_div_pow2 by lia. split; [lia|]. split; [|exact E2].
    assert (0 < 2 ^ Z.of_nat n) by (apply Z.pow_pos_nonneg; lia). split; [apply Z.div_pos; lia|].
    apply Z.div_lt_upper_bound; [lia|]. rewrite <- Z.pow_add_r by lia. replace (Z.of_nat n + (r_nbits r1 - Z.of_nat n)) with (r_nbits r1) by lia. lia.
Qed.

Lemma get_extra_dbits r n v L : dbits r (to_bits (Z.to_nat n) v ++ L) -> 0 <= v < 2 ^ n -> 0 <= n <= 16 ->
  exists r', png_get_bits r n = (v, r') /\ dbits r' L.
Proof. intros Hd Hv Hn. destruct (get_bits_dbits r (Z.to_nat n) v L Hd) as (r' & E & D); [rewrite Z2Nat.id; lia|lia|]. rewrite Z2Nat.id in E by lia. eauto. Qed.

Lemma shift_in_dbits v r b L : 0 <= v < 2 ^ 30 -> dbits r (b :: L) ->
  exists r', shift_in v r = (2 * v + Z.b2z b, r') /\ dbits r' L.
Proof.
  intros Hv Hd. destruct (get_bits_dbits r 1 (Z.b2z b) L) as (r' & E & D); [|by destruct b; cbn|lia|].
  - cbn [to_bits app]. by replace (Z.odd (Z.b2z b)) with b by (by destruct b).
  - unfold shift_in. change 1 with (Z.of_nat 1) at 1. rewrite E. exists r'. split; [|exact D]. f_equal.
    rewrite Z.shiftl_mul_pow2, u32_small by lia. rewrite lor_add_pow2 by (destruct b; cbn; lia). lia.
Qed.

Lemma get_rev_loop_dbits bs : forall v r L, 0 <= v -> (v + 1) * 2 ^ Z.of_nat (length bs) <= 2 ^ 30 -> dbits r (bs ++ L) ->
  exists r', get_rev_loop (length bs) v r = (fold_left (fun v b => 2 * v + Z.b2z b) bs v, r') /\ dbits r' L.
Proof.
  induction bs as [|b bs IH]; intros v r L Hv Hlim Hd; cbn [length get_rev_loop fold_left]; [eauto|].
  cbn [length] in Hlim. rewrite Nat2Z.inj_succ, Z.pow_succ_r in Hlim by lia.
  assert (0 < 2 ^ Z.of_nat (length bs)) by (apply Z.pow_pos_nonneg; lia).
  destruct (shift_in_dbits v r b (bs ++ L) ltac:(nia) Hd) as (r1 & -> & D1).
  apply IH; [destruct b; cbn; lia|destruct b; cbn; nia|exact D1].
Qed.

Lemma get_rev_dbits r n c L : (n <= 16)%nat -> 0 <= c < 2 ^ Z.of_nat n -> dbits r (code_bits n c ++ L) ->
  exists r', png_get_rev r (Z.of_nat n) = (c, r') /\ dbits r' L.
Proof.
  intros Hn Hc Hd. unfold png_get_rev. rewrite Nat2Z.id.
  assert (2 ^ Z.of_nat n <= 2 ^ 16) by (apply Z.pow_le_mono_r; lia).
  destruct (get_rev_loop_dbits (code_bits n c) 0 r L) as (r' & E & D); [lia|rewrite code_bits_length; lia|exact Hd|].
  rewrite code_bits_length in E. rewrite E.
  exists r'. split; [|exact D]. by rewrite fold_code_bits, Z.mul_0_l, Z.mod_small.
Qed.

(** The decoder of symbols inverts the fixed code. *)
Lemma litlen_dbits r sym L : 0 <= sym < 288 -> dbits r (sym_bits sym ++ L) ->
  exists r', png_fixed_litlen r = (sym, r') /\ dbits r' L.
Proof.
  intros Hs Hd. unfold sym_bits in Hd. unfold png_fixed_litlen. change 7 with (Z.of_nat 7).
  assert (H8 : forall c, 24 <= c / 2 < 128 -> dbits r (code_bits 8 c ++ L) ->
    exists r1 r2, png_get_rev r (Z.of_nat 7) = (c / 2, r1) /\ shift_in (c / 2) r1 = (c, r2) /\ dbits r2 L).
  { intros c Hc D. rewrite code_bits_S, <- app_assoc in D. destruct (get_rev_dbits r 7 (c / 2) _ ltac:(lia) ltac:(lia) D) as (r1 & E1 & D1).
    destruct (shift_in_dbits (c / 2) r1 _ _ ltac:(lia) D1) as (r2 & E2 & D2). exists r1, r2. split; [exact E1|]. split; [|exact D2].
    rewrite E2. f_equal. pose proof (Zmod_odd c). destruct (Z.odd c); cbn [Z.b2z]; lia. }
  destruct (Z.ltb_spec sym 144); [|destruct (Z.ltb_spec sym 256); [|destruct (Z.ltb_spec sym 280)]].
  - destruct (H8 (0x30 + sym) ltac:(lia) Hd) as (r1 & r2 & -> & E & D). destruct (Z.leb_spec ((0x30 + sym) / 2) 23); [lia|].
    rewrite E. destruct (Z.leb_spec 48 (0x30 + sym)), (Z.leb_spec (0x30 + sym) 191); try lia. cbn [andb]. exists r2. split; [f_equal; lia|exact D].
  - set (c := 0x190 + sym - 144) in *. rewrite code_bits_S, <- app_assoc in Hd.
    rewrite code_bits_S, <- app_assoc in Hd. destruct (get_rev_dbits r 7 (c / 2 / 2) _ ltac:(lia) ltac:(lia) Hd) as (r1 & -> & D1).
    destruct (Z.leb_spec (c / 2 / 2) 23); [lia|]. destruct (shift_in_dbits (c / 2 / 2) r1 _ _ ltac:(lia) D1) as (r2 & -> & D2).
    replace (2 * (c / 2 / 2) + Z.b2z (Z.odd (c / 2))) with (c / 2) by (pose proof (Zmod_odd (c / 2)); destruct (Z.odd (c / 2)); cbn [Z.b2z]; lia).
    destruct (Z.leb_spec 48 (c / 2)), (Z.leb_spec (c / 2) 191), (Z.leb_spec 192 (c / 2)), (Z.leb_spec (c / 2) 199); try lia. cbn [andb].
    destruct (shift_in_dbits (c / 2) r2 _ _ ltac:(lia) D2) as (r3 & -> & D3). exists r3. split; [|exact D3]. f_equal.
    pose proof (Zmod_odd c). destruct (Z.odd c); cbn [Z.b2z]; lia.
  - destruct (get_rev_dbits r 7 (sym - 256) L ltac:(lia) ltac:(lia) Hd) as (r1 & -> & D). destruct (Z.leb_spec (sym - 256) 23); [|lia].
    exists r1. split; [f_equal; lia|exact D].
  - destruct (H8 (0xC0 + sym - 280) ltac:(lia) Hd) as (r1 & r2 & -> & E & D). destruct (Z.leb_spec ((0xC0 + sym - 280) / 2) 23); [lia|].
    rewrite E. destruct (Z.leb_spec 48 (0xC0 + sym - 280)), (Z.leb_spec (0xC0 + sym - 280) 191), (Z.leb_spec 192 (0xC0 + sym - 280)),
      (Z.leb_spec (0xC0 + sym - 280) 199); try lia. cbn [andb]. exists r2. split; [f_equal; lia|exact D].
Qed.

Lemma dbits_ok r L : dbits r L -> reader_ok r.
Proof. intros (s & (_ & Hi & _ & cur & crc & chunks & tail & Hc & _) & Hn & _). split; [exact Hi|]. split; [exact Hn|lia]. Qed.
Lemma dbits_err r L : dbits r L -> r_err r = 0.
Proof. intros (s & (E & _) & _). exact E. Qed.
End Reads.

(** The receiver after the rows [rows] from line [y] on; [None] when it refuses one. *)
Fixpoint put_all {P} (put_row : P -> Z -> list Z -> P * bool) (y : Z) (rows : list (list Z)) (p : P) : option P :=
  match rows with
  | [] => Some p
  | row :: rows => let '(p, ok) := put_row p y row in if ok then put_all put_row (y + 1) rows p else None
  end.

Lemma put_all_app {P} (put_row : P -> Z -> list Z -> P * bool) a : forall b y p,
  put_all put_row y (a ++ b) p =
  match put_all put_row y a p with Some p => put_all put_row (y + Z.of_nat (length a)) b p | None => None end.
Proof.
  induction a as [|row a IH]; intros b y p; cbn [app put_all length]; [by rewrite Z.add_0_r|].
  destruct (put_row p y row) as [p1 []]; [|done]. rewrite IH. by replace (y + 1 + Z.of_nat (length a)) with (y + Z.of_nat (S (length a))) by lia.
Qed.

Lemma copy_back_prefix n dist : forall h, exists s, copy_back n dist h = h ++ s.
Proof.
  induction n as [|n IH]; intros h; cbn [copy_back]; [exists []; by rewrite app_nil_r|].
  destruct (IH (h ++ [nth (length h - dist) h 0])) as [s ->]. rewrite <- app_assoc. by eexists.
Qed.
Lemma expands_prefix h ts h' : expands h ts h' -> exists s, h' = h ++ s.
Proof.
  induction 1 as [h|h v ts h' Hv _ [s ->]|h len dist ts h' Hl Hd Hh _ [s ->]]; [exists []; by rewrite app_nil_r|rewrite <- app_assoc; by eexists|].
  destruct (copy_back_prefix (Z.to_nat len) (Z.to_nat dist) h) as [s1 ->]. rewrite <- app_assoc. by eexists.
Qed.

Section Rows.
Context {C : Type} `{Reliable C} {P : Type} (put_row : P -> Z -> list Z -> P * bool) (width height : Z).
Implicit Types (d : png_dec_t C P) (o : png_out_t P).
Variables (rows : list (list Z)) (p0 pf : P).
Hypothesis Hw : 1 <= width.
Hypothesis Hrows : Forall (fun row => Z.of_nat (length row) = width /\ Forall (fun b => 0 <= b < 256) row) rows.
Hypothesis Hheight : height = Z.of_nat (length rows).
Hypothesis Hsize : height * (width + 1) < 2 ^ 32.
Hypothesis Hput : put_all put_row 0 rows p0 = Some pf.

(** The output after the bytes [h] of the image: [part] is the row begun. *)
Definition out_at o (h : list Z) : Prop :=
  ringed h (o_ring o) /\ o_pos o = Z.of_nat (length h) /\ exists done todo part,
    rows = done ++ todo /\ h = raw_rows done ++ part /\ o_y o = Z.of_nat (length done) /\ o_rowp o = Z.of_nat (length part) /\
    Z.of_nat (length (o_row o)) = width /\ put_all put_row 0 done p0 = Some (o_put o) /\
    (part = [] \/ exists q, part = 0 :: q /\ q = take (length q) (o_row o) /\ Z.of_nat (length q) < width).

(** [h] is the beginning of the image. *)
Definition prefix_of (h : list Z) : Prop := exists t, raw_rows rows = h ++ t.

Lemma prefix_of_length h : prefix_of h -> Z.of_nat (length h) < 2 ^ 32.
Proof.
  intros [t E]. pose proof (raw_rows_length width rows Hrows) as L. rewrite E, length_app in L. lia.
Qed.
Lemma prefix_of_app h s : prefix_of (h ++ s) -> prefix_of h.
Proof. intros [t E]. rewrite <- app_assoc in E. by eexists. Qed.
Lemma raw_rows_app a b : raw_rows (a ++ b) = raw_rows a ++ raw_rows b.
Proof. apply flat_map_app. Qed.

Lemma out_byte_at d h b : out_at (d_o d) h -> prefix_of (h ++ [b]) ->
  let d' := png_out_byte put_row width height d b in d_r d' = d_r d /\ out_at (d_o d') (h ++ [b]).
Proof.
  intros (Hr & Hp & done & todo & part & Erows & -> & Ey & Erowp & Hrow & Hpd & Hpart) Hpre. cbv zeta.
  pose proof (prefix_of_length _ Hpre) as Hlen. rewrite length_app in Hlen. cbn [length] in Hlen.
  pose proof (ringed_push _ _ b Hr) as Hr'. rewrite <- Hp in Hr'.
  assert (Epos : u32 (o_pos (d_o d) + 1) = Z.of_nat (length ((raw_rows done ++ part) ++ [b])))
    by (rewrite u32_small by lia; rewrite (length_app _ [b]); cbn [length]; lia).
  destruct Hpre as [t Et]. rewrite Erows, raw_rows_app, <- !app_assoc in Et. apply app_inv_head in Et.
  destruct todo as [|row0 todo]; [by destruct part|]. cbn [raw_rows flat_map app] in Et. fold (raw_rows todo) in Et.
  assert (Hrow0 : Z.of_nat (length row0) = width) by (rewrite Erows in Hrows; apply Forall_app in Hrows as [_ Hr0]; apply Forall_cons in Hr0 as [[L _] _]; exact L).
  unfold png_out_byte. destruct Hpart as [->|(q & -> & Eq & Hq)].
  - cbn [length app] in Erowp, Et. injection Et as <- _. rewrite Erowp. cbn [Z.of_nat Z.eqb negb]. split; [done|].
    split; [exact Hr'|]. split; [exact Epos|]. exists done, (row0 :: todo), [0]. rewrite app_nil_r. split; [exact Erows|].
    split; [done|]. split; [exact Ey|]. split; [done|]. split; [exact Hrow|]. split; [exact Hpd|].
    right. exists []. cbn. split; [done|]. split; [done|lia].
  - cbn [length app] in Erowp, Et. injection Et as Et. destruct (Z.eqb_spec (o_rowp (d_o d)) 0); [lia|].
    replace (Z.to_nat (o_rowp (d_o d) - 1)) with (length q) by lia. set (row' := <[length q:=b]> (o_row (d_o d))).
    assert (Hrow' : Z.of_nat (length row') = width) by (unfold row'; by rewrite length_insert).
    assert (Etake : take (S (length q)) row' = q ++ [b]).
    { assert (Hb : row' !! length q = Some b) by (apply list_lookup_insert_eq; lia).
      rewrite (take_S_r _ _ b Hb). f_equal. unfold row'. transitivity (take (length q) (o_row (d_o d))); [apply take_insert_ge; lia|by symmetry]. }
    assert (Eqb : q ++ [b] = take (S (length q)) row0).
    { apply (f_equal (take (S (length q)))) in Et. rewrite take_app_le in Et by lia. rewrite Et.
      replace (q ++ b :: t) with ((q ++ [b]) ++ t) by (by rewrite <- app_assoc). rewrite take_app_length'; [done|]. rewrite length_app. cbn. lia. }
    destruct (Z.eqb_spec (o_rowp (d_o d) + 1) (width + 1)) as [Efull|Hne].
    + assert (Er0 : row' = row0).
      { rewrite <- Etake in Eqb. rewrite (take_ge row') in Eqb by lia. by rewrite (take_ge row0) in Eqb by lia. }
      rewrite Er0. pose proof Hput as Hpa. rewrite Erows, put_all_app, Hpd, Z.add_0_l, <- Ey in Hpa. cbn [put_all] in Hpa.
      assert (Hy : o_y (d_o d) < height) by (rewrite Hheight, Erows, length_app, Ey; cbn [length]; lia).
      destruct (Z.leb_spec height (o_y (d_o d))); [lia|]. destruct (put_row (o_put (d_o d)) (o_y (d_o d)) row0) as [put' []] eqn:Ep; [|done].
      split; [done|]. split; [exact Hr'|]. split; [exact Epos|]. exists (done ++ [row0]), todo, []. cbn [d_o o_y o_rowp o_row o_put].
      rewrite <- app_assoc, raw_rows_app, app_nil_r, <- app_assoc. split; [exact Erows|]. split.
      { f_equal. cbn [raw_rows flat_map app]. rewrite app_nil_r. f_equal. rewrite Eqb. apply take_ge. lia. }
      split; [rewrite length_app, Ey; cbn [length]; lia|]. split; [done|]. split; [exact Hrow0|]. split; [|by left].
      rewrite put_all_app, Hpd, Z.add_0_l, <- Ey. cbn [put_all]. by rewrite Ep.
    + split; [done|]. split; [exact Hr'|]. split; [exact Epos|]. exists done, (row0 :: todo), (0 :: q ++ [b]). cbn [d_o o_y o_rowp o_row o_put].
      split; [exact Erows|]. rewrite <- app_assoc. split; [done|]. split; [exact Ey|]. split; [cbn [length]; rewrite length_app; cbn [length]; lia|].
      split; [exact Hrow'|]. split; [exact Hpd|]. right. exists (q ++ [b]). split; [done|]. rewrite length_app. cbn [length].
      split; [|lia]. by replace (length q + 1)%nat with (S (length q)) by lia.
Qed.

Lemma copy_loop_at n dist : 1 <= dist <= PNG_WINDOW -> forall d h, dist <= Z.of_nat (length h) -> out_at (d_o d) h ->
  prefix_of (copy_back n (Z.to_nat dist) h) ->
  let d' := copy_loop put_row width height n dist d in d_r d' = d_r d /\ out_at (d_o d') (copy_back n (Z.to_nat dist) h).
Proof.
  intros Hd. induction n as [|n IH]; intros d h Hh Ho Hpre; cbn [copy_loop copy_back]; [done|]. cbn [copy_back] in Hpre.
  set (b := nth (length h - Z.to_nat dist) h 0) in *.
  assert (Eb : PNG_RING (o_ring (d_o d)) (u32 (o_pos (d_o d) - dist)) = b).
  { destruct (copy_back_prefix n (Z.to_nat dist) (h ++ [b])) as [s Es]. rewrite Es in Hpre.
    pose proof (prefix_of_length _ (prefix_of_app _ _ Hpre)) as Hlen. rewrite length_app in Hlen. cbn [length] in Hlen.
    destruct Ho as ([_ Hr] & Hp & _). rewrite Hp, u32_small by lia. rewrite Hr by lia. unfold b, tab. f_equal. lia. }
  rewrite Eb. destruct (copy_back_prefix n (Z.to_nat dist) (h ++ [b])) as [s Es].
  destruct (out_byte_at d h b Ho) as [E1 O1]; [apply (prefix_of_app _ s); by rewrite <- Es|]. rewrite <- E1.
  apply IH; [rewrite length_app; cbn; lia|exact O1|exact Hpre].
Qed.

Lemma fixed_block_at ts h h' : expands h ts h' -> prefix_of h' -> forall fuel d d' L,
  dbits (d_r d) (flat_map token_bits ts ++ sym_bits 256 ++ L) -> out_at (d_o d) h ->
  fixed_block put_row width height fuel d = Some d' -> dbits (d_r d') L /\ out_at (d_o d') h'.
Proof.
  induction 1 as [h|h v ts h' Hv Hx IH|h len dist ts h' Hl Hd Hh Hx IH]; intros Hpre [|k] d d' L Hb Ho; try done; cbn [fixed_block].
  - cbn [flat_map app] in Hb. destruct (litlen_dbits _ 256 L ltac:(lia) Hb) as (r1 & -> & D). rewrite (dbits_err _ _ D).
    cbn [Z.eqb negb Z.ltb Z.compare Pos.compare Pos.compare_cont]. by intros [= <-].
  - cbn [flat_map token_bits] in Hb. rewrite <- app_assoc in Hb. destruct (litlen_dbits _ v _ ltac:(lia) Hb) as (r1 & -> & D).
    rewrite (dbits_err _ _ D). cbn [Z.eqb negb]. destruct (Z.ltb_spec v 256); [|lia]. intros Hf.
    destruct (expands_prefix _ _ _ Hx) as [s Es]. destruct (out_byte_at (Dec r1 (d_o d)) h v Ho) as [E1 O1]; [apply (prefix_of_app _ s); by rewrite <- Es|].
    apply (IH Hpre k _ d' L) in Hf; [exact Hf|by rewrite E1|exact O1].
  - cbn [flat_map token_bits] in Hb. rewrite <- !app_assoc in Hb.
    destruct (len_slot_ok len Hl) as (Hi & Hxi & Hvi). destruct (dist_slot_ok dist Hd) as (Hj & Hxj & Hvj).
    set (i := len_slot len) in *. set (j := dist_slot dist) in *.
    destruct (litlen_dbits _ (257 + i) _ ltac:(lia) Hb) as (r1 & -> & D1). rewrite (dbits_err _ _ D1). cbn [Z.eqb negb].
    destruct (Z.ltb_spec (257 + i) 256); [lia|]. destruct (Z.eqb_spec (257 + i) 256); [lia|]. cbv zeta.
    replace (257 + i - 257) with i by lia. destruct (Z.ltb_spec 28 i); [lia|].
    destruct (get_extra_dbits _ _ _ _ D1 Hvi ltac:(lia)) as (r2 & -> & D2).
    destruct (get_rev_dbits r2 5 j _ ltac:(lia) ltac:(change (2 ^ Z.of_nat 5) with 32; lia) D2) as (r3 & E3 & D3). change (Z.of_nat 5) with 5 in E3. rewrite E3.
    destruct (Z.ltb_spec 29 j); [lia|]. destruct (get_extra_dbits _ _ _ _ D3 Hvj ltac:(lia)) as (r4 & -> & D4).
    replace (tab png_len_base i + (len - tab png_len_base i)) with len by lia.
    replace (tab png_dist_base j + (dist - tab png_dist_base j)) with dist by lia. cbn [d_o].
    assert (Hpos : o_pos (d_o d) = Z.of_nat (length h)) by apply Ho.
    destruct (Z.ltb_spec PNG_WINDOW dist); [lia|]. rewrite Hpos. destruct (Z.ltb_spec (Z.of_nat (length h)) dist); [lia|]. cbn [orb]. intros Hf.
    destruct (expands_prefix _ _ _ Hx) as [s Es].
    destruct (copy_loop_at (Z.to_nat len) dist Hd (Dec r4 (d_o d)) h Hh Ho) as [E1 O1]; [apply (prefix_of_app _ s); by rewrite <- Es|].
    apply (IH Hpre k _ d' L) in Hf; [exact Hf|by rewrite E1|exact O1].
Qed.

(** All bytes are out: all rows are. *)
Lemma out_at_end o : out_at o (raw_rows rows) -> o_y o = height /\ o_put o = pf.
Proof.
  intros (_ & _ & done & todo & part & Erows & Eh & Ey & _ & _ & Hpd & Hpart).
  destruct todo as [|row0 todo].
  - rewrite app_nil_r in Erows. subst done. rewrite Hheight. split; [exact Ey|]. congruence.
  - exfalso. rewrite Erows, raw_rows_app in Eh. apply app_inv_head in Eh. rewrite Erows in Hrows.
    apply Forall_app in Hrows as [_ Hr0]. apply Forall_cons in Hr0 as [[L _] _].
    apply (f_equal length) in Eh. cbn [raw_rows flat_map app length] in Eh. rewrite length_app in Eh.
    destruct Hpart as [->|(q & -> & _ & Hq)]; cbn [length] in Eh; lia.
Qed.
End Rows.

(** ** The header and the palette *)

Section Header.
Context {C : Type} `{Reliable C}.
Implicit Types (io : C).

Lemma read_palette_exact pal rest : Forall (fun v => 0 <= v < 65536) pal -> forall io, src_left io = flat_map plte_entry pal ++ rest ->
  exists io', read_palette (length pal) io = (io', Some pal) /\ src_left io' = rest.
Proof.
  induction 1 as [|v pal Hv _ IH]; intros io Hl; cbn [length read_palette]; [eauto|]. cbn [flat_map] in Hl. rewrite <- app_assoc in Hl.
  destruct (src_read_exact io 3 _ _ Hl eq_refl) as (io1 & -> & Hl1). change (Z.of_nat (length (plte_entry v)) =? 3) with true. cbn [negb].
  destruct (IH io1 Hl1) as (io2 & -> & Hl2). exists io2. split; [|exact Hl2]. do 3 f_equal. exact (RGB565_HEXRGB v Hv).
Qed.

Lemma plte_found io pal rest fuel : Forall (fun v => 0 <= v < 65536) pal -> (1 <= length pal <= 256)%nat ->
  src_left io = chunk PLTE (flat_map plte_entry pal) ++ rest ->
  exists io', plte_loop (S fuel) io = (io', Some pal) /\ src_left io' = rest.
Proof.
  intros Hpal Hlen Hl. unfold chunk in Hl. rewrite <- !app_assoc, (app_assoc (png_be32 _)) in Hl.
  assert (L : Z.of_nat (length (flat_map plte_entry pal)) = 3 * Z.of_nat (length pal))
    by (clear; induction pal as [|v p IH]; cbn [flat_map]; [done|rewrite length_app; cbn [length plte_entry]; lia]).
  cbn [plte_loop]. destruct (src_read_exact io 8 _ _ Hl eq_refl) as (io1 & -> & Hl1). rewrite L.
  change (Z.of_nat (length (png_be32 (3 * Z.of_nat (length pal)) ++ PLTE)) =? 8) with true. cbn [negb]. rewrite be32_at_be32 by lia. cbv zeta.
  assert (Ht : tag_at (png_be32 (3 * Z.of_nat (length pal)) ++ PLTE) 4 PLTE = true) by (apply bool_decide_eq_true; reflexivity). rewrite Ht.
  destruct (Z.eqb_spec ((3 * Z.of_nat (length pal)) mod 3) 0); [|lia]. destruct (Z.ltb_spec 768 (3 * Z.of_nat (length pal))); [lia|].
  destruct (Z.eqb_spec (3 * Z.of_nat (length pal)) 0); [lia|]. cbn [negb orb].
  replace (Z.to_nat (3 * Z.of_nat (length pal) / 3)) with (length pal) by lia.
  destruct (read_palette_exact pal _ Hpal io1 Hl1) as (io2 & -> & Hl2).
  destruct (png_skip_exact io2 4 _ _ Hl2 eq_refl ltac:(lia)) as (io3 & -> & Hl3). eauto.
Qed.

(** The signature and IHDR are what the decoder checks for. *)
Lemma ihdr_read io width height rest : 0 <= width < 2 ^ 32 -> 0 <= height < 2 ^ 32 ->
  src_left io = png_signature ++ chunk IHDR (png_ihdr width height) ++ rest ->
  exists io' h, src_read io 33 = (io', h) /\ src_left io' = rest /\ length h = 33%nat /\ tag_at h 0 png_signature = true /\
    tag_at h 12 IHDR = true /\ be32_at h 16 = width /\ be32_at h 20 = height /\ tab h 24 = 8 /\ tab h 25 = 3 /\ tab h 28 = 0.
Proof.
  intros Hw Hh Hl. rewrite app_assoc in Hl. destruct (src_read_exact io 33 _ _ Hl eq_refl) as (io' & E & Hl').
  exists io', (png_signature ++ chunk IHDR (png_ihdr width height)). split; [exact E|]. split; [exact Hl'|]. split; [done|].
  unfold chunk. generalize (png_crc32 0 (IHDR ++ png_ihdr width height)). intros crc.
  split; [by apply bool_decide_eq_true|]. split; [by apply bool_decide_eq_true|].
  split; [exact (be32_at_be32 width [] Hw)|]. split; [exact (be32_at_be32 height [] Hh)|]. done.
Qed.

(** Two bytes of zlib header, then the bits of the stream. *)
Lemma zlib_opens io crc c chunks tail : src_left io = crc ++ flat_map (chunk IDAT) (c :: chunks) ++ tail -> crc = [] ->
  Forall (fun c => 0 < Z.of_nat (length c) <= PNG_OUT) (c :: chunks) ->
  exists r, png_next_idat (Reader io [] 0 0 false 0 0 0) = (r, true) /\ feeds r (concat (c :: chunks)) /\ r_bits r = 0 /\ r_nbits r = 0.
Proof.
  intros Hl -> Hall. apply Forall_cons in Hall as [Hc Hall]. cbn [app flat_map] in Hl. rewrite <- app_assoc in Hl.
  destruct (next_idat_finds (Reader io [] 0 0 false 0 0 0) [] c _ eq_refl Hl eq_refl ltac:(lia)) as (r & crc & E & Hs & Hh & Hcl & Hl' & Hcrc).
  exists r. split; [exact E|]. destruct Hs as (E1 & E2 & E3 & E4 & E5). cbn in E1, E2, E3, E4, E5. split; [|by split].
  split; [exact E5|]. rewrite E1, E2. split; [cbn; lia|]. split.
  - pose proof (src_bytes io) as Hb. rewrite Hl in Hb. cbn [concat]. clear -Hb. revert Hb. unfold chunk at 1. rewrite !Forall_app.
    intros ((_ & _ & Hc & _) & Hr & _). split; [exact Hc|]. induction chunks as [|x xs IH]; [constructor|]. cbn [flat_map concat] in *.
    unfold chunk at 1 in Hr. rewrite !Forall_app in Hr. destruct Hr as ((_ & _ & Hx & _) & Hxs). apply Forall_app. auto.
  - exists c, crc, chunks, tail. rewrite Hh. auto.
Qed.
End Header.

(** The bytes CMF and FLG, then the bits of the block. *)
Lemma zlib_header {C} `{Reliable C} (r : png_reader_t C) S B : feeds r S -> r_bits r = 0 -> r_nbits r = 0 ->
  byte_bits S = byte_bits [0x78; 0x01] ++ B ->
  exists r1 r2, png_in_byte r = (0x78, r1) /\ png_in_byte r1 = (1, r2) /\ dbits r2 B.
Proof.
  intros F B0 N0 E.
  assert (Hb : Forall (fun b => 0 <= b < 256) S) by apply F.
  assert (Byte : forall x y s L, 0 <= x < 256 -> 0 <= y < 256 -> to_bits 8 x ++ s = to_bits 8 y ++ L -> x = y /\ s = L).
  { intros x y s L Hx Hy Exy. apply app_inj_1 in Exy as [E1 E2]; [|done]. split; [|exact E2].
    rewrite <- (of_to_bits_small 8 x), <- (of_to_bits_small 8 y), E1 by (cbn; lia). done. }
  destruct S as [|b0 [|b1 s]]; [done|apply (f_equal length) in E; rewrite !length_app, !byte_bits_length in E; cbn in E; lia|].
  apply Forall_cons in Hb as [Hb0 Hb]. apply Forall_cons in Hb as [Hb1 _]. cbn [byte_bits flat_map] in E.
  rewrite <- !app_assoc in E. apply Byte in E as [-> E]; [|lia|lia]. cbn [app] in E. apply Byte in E as [-> E]; [|lia|lia].
  destruct (feeds_in_byte r 0x78 _ F) as (r1 & E1 & F1 & B1 & N1). destruct (feeds_in_byte r1 1 _ F1) as (r2 & E2 & F2 & B2 & N2).
  exists r1, r2. split; [exact E1|]. split; [exact E2|]. exists s. rewrite N2, N1, N0, B2, B1, B0. split; [exact F2|].
  split; [lia|]. split; [cbn; lia|]. cbn [Z.to_nat to_bits app]. by symmetry.
Qed.

Lemma inflate_once {C} `{Source C} {P} (put_row : P -> Z -> list Z -> P * bool) width height fuel (d d' : png_dec_t C P) r1 r2 :
  r_err (d_r d) = 0 -> png_get_bits (d_r d) 1 = (1, r1) -> png_get_bits r1 2 = (1, r2) ->
  fixed_block put_row width height (bit_fuel r2) (Dec r2 (d_o d)) = Some d' ->
  png_inflate put_row width height (S (S fuel)) false d = Some d'.
Proof.
  intros E0 E1 E2 E3. cbn [png_inflate]. rewrite E0, E1, E2. cbn [orb negb Z.eqb Pos.eqb d_r]. rewrite E3. done.
Qed.

Lemma decode_encode {K} `{Sink K} {C} `{Reliable C} {R P} (get_row : R -> Z -> option (R * list Z)) (palette : R -> list Z)
    (put_row : list Z -> P -> Z -> list Z -> P * bool) (width height : Z) (work work' row : list Z) (Inv : R -> Prop)
    (io io' : K) (f : C) (r r' : R) (p : P) :
  byte_rows Inv get_row width -> Inv r -> 1 <= width < 2 ^ 32 -> 0 <= height < 2 ^ 32 -> height * (width + 1) < 2 ^ 32 ->
  length work = Z.to_nat PNG_WINDOW -> length work' = Z.to_nat PNG_WINDOW -> Z.of_nat (length row) = width ->
  (forall r1, png_palette_pass get_row (seqZ 0 height) r = Some r1 ->
    (1 <= length (palette r1) <= 256)%nat /\ Forall (fun v => 0 <= v < 65536) (palette r1)) ->
  snk_data io = [] -> png_encode get_row palette width height work io r = (io', r', true) -> src_left f = snk_data io' ->
  exists r1 rows, png_palette_pass get_row (seqZ 0 height) r = Some r1 /\ row_pass get_row (seqZ 0 height) r1 = Some (r', rows) /\
    forall pf, put_all (put_row (palette r1)) 0 rows p = Some pf ->
      png_decode put_row width height work' row f p = Some (pf, palette r1, PngOk).
Proof.
  intros Hb HIr Hw Hh Hsize Hwork Hwork' Hrow Hpal Hio Henc Hf.
  destruct (png_encode_spec get_row palette Inv width height work io r io' r' Hb HIr Hwork ltac:(lia) Hsize Henc)
    as (r1 & rows & chunks & Hp1 & Hp2 & D & Hall & ts & k & Hx & Hk & Hbits).
  exists r1, rows. split; [exact Hp1|]. split; [exact Hp2|]. intros pf Hput. destruct (Hpal r1 Hp1) as [Hpl Hpv].
  destruct (row_pass_rows get_row Inv width _ Hb _ _ _ (palette_pass_inv get_row Inv width _ Hb _ _ HIr Hp1) Hp2) as [Hlen Hrows]. rewrite length_seqZ in Hlen.
  assert (Hheight : height = Z.of_nat (length rows)) by lia.
  rewrite <- Hf, Hio in D. cbn [app] in D. clear Henc Hf. unfold png_decode.
  destruct (ihdr_read f width height _ ltac:(lia) ltac:(lia) D) as (f1 & h & -> & D1 & Eh & -> & -> & -> & -> & -> & -> & ->).
  rewrite Eh, !Z.eqb_refl. cbn [negb orb Z.of_nat Z.eqb Pos.of_succ_nat Pos.succ Pos.eqb].
  destruct (plte_found f1 (palette r1) _ (left f1) Hpv Hpl D1) as (f2 & -> & D2).
  destruct chunks as [|c chunks]; [by apply (f_equal length) in Hbits; rewrite !length_app in Hbits|].
  destruct (zlib_opens f2 [] c chunks _ D2 eq_refl Hall) as (d0 & -> & F0 & B0 & N0). cbn [negb].
  destruct (zlib_header _ _ _ F0 B0 N0 Hbits) as (d1 & d2 & -> & -> & Hd2). cbn [Z.eqb Pos.eqb negb].
  set (L0 := repeat false k ++ _) in Hd2. set (L1 := flat_map token_bits ts ++ sym_bits 256 ++ L0) in Hd2.
  destruct (get_bits_dbits d2 1 1 ([true; false] ++ L1) Hd2 ltac:(cbn; lia) ltac:(lia)) as (d3 & E3 & Hd3).
  destruct (get_bits_dbits d3 2 1 L1 Hd3 ltac:(cbn; lia) ltac:(lia)) as (d4 & E4 & Hd4). subst L1.
  set (o0 := Out work' 0 0 0 row p).
  destruct (fixed_block_total (put_row (palette r1)) width height (bit_fuel d4) (Dec d4 o0) (dbits_ok _ _ Hd4) (bit_fuel_enough (put_row (palette r1)) (Dec d4 o0))) as (d' & Ef & _).
  unfold bit_fuel at 1. rewrite (inflate_once (put_row (palette r1)) width height _ (Dec d2 o0) d' d3 d4 (dbits_err _ _ Hd2) E3 E4 Ef).
  destruct (fixed_block_at (put_row (palette r1)) width height rows p pf ltac:(lia) Hrows Hheight Hsize Hput ts [] _ Hx (ex_intro _ [] (eq_sym (app_nil_r _)))
    (bit_fuel d4) (Dec d4 o0) d' L0 Hd4) as [Hd' Ho']; [|exact Ef|].
  { split; [by apply ringed_nil|]. split; [done|]. exists [], rows, []. repeat split; try done. by left. }
  destruct (out_at_end (put_row (palette r1)) width height rows p pf ltac:(lia) Hrows Hheight Hput _ Ho') as [Ey Ep].
  rewrite (dbits_err _ _ Hd'), Ey, Ep. cbn [Z.eqb negb orb]. by rewrite Z.eqb_refl.
Qed.

(** C22: Decoding what the encoder wrote gives back the image: when [png_encode]
    reports success on an empty file, [png_decode] of that file accepts it, returns
    the palette the encoder ended with, and hands over exactly the rows its second
    pass compressed, each at its line. *)
Theorem png_roundtrip {K} `{Sink K} {C} `{Reliable C} {R P} (get_row : R -> Z -> option (R * list Z)) (palette : R -> list Z)
    (put_row : list Z -> P -> Z -> list Z -> P * bool) (width height : Z) (work work' row : list Z) (Inv : R -> Prop)
    (io io' : K) (f : C) (r r' : R) (p : P) :
  byte_rows Inv get_row width -> Inv r -> 1 <= width < 2 ^ 32 -> 0 <= height < 2 ^ 32 -> height * (width + 1) < 2 ^ 32 ->
  length work = Z.to_nat PNG_WINDOW -> length work' = Z.to_nat PNG_WINDOW -> Z.of_nat (length row) = width ->
  (forall r1, png_palette_pass get_row (seqZ 0 height) r = Some r1 ->
    (1 <= length (palette r1) <= 256)%nat /\ Forall (fun v => 0 <= v < 65536) (palette r1)) ->
  snk_data io = [] -> png_encode get_row palette width height work io r = (io', r', true) -> src_left f = snk_data io' ->
  exists r1 rows, png_palette_pass get_row (seqZ 0 height) r = Some r1 /\ row_pass get_row (seqZ 0 height) r1 = Some (r', rows) /\
    forall pf, put_all (put_row (palette r1)) 0 rows p = Some pf ->
      png_decode put_row width height work' row f p = Some (pf, palette r1, PngOk).
Proof. apply decode_encode. Qed.

(** ** A small image *)

(** A file in memory: writing appends, reading takes from the front. *)
#[export] Program Instance memory_sink : Sink (list Z) :=
  {| snk_write c d := (c ++ d, Z.of_nat (length d)); snk_data c := c |}.
Next Obligation. by intros c d c' [= <-]. Qed.
#[export] Program Instance memory_source : Source (list Z) :=
  {| src_read c n := (drop (Z.to_nat n) c, take (Z.to_nat n) (map u8 c)); src_left c := map u8 c |}.
Next Obligation. intros c. induction c; cbn; constructor; [apply u8_range|done]. Qed.
Next Obligation. intros c n _. left. cbn. split; [done|]. symmetry. apply skipn_map. Qed.
#[export] Instance memory_reliable : Reliable (list Z).
Proof. intros c n _. cbn. split; [done|]. symmetry. apply skipn_map. Qed.

Definition picture : list (list Z) := [[0; 1; 0; 1; 0; 1; 0; 1]; [2; 2; 2; 2; 2; 2; 2; 1]].
Definition picture_row (_ : unit) (y : Z) : option (unit * list Z) := Some (tt, nth (Z.to_nat y) picture (repeat 0 8)).
Definition keep_row (_ : list Z) (l : list (list Z)) (y : Z) (row : list Z) : list (list Z) * bool := (l ++ [row], true).
Definition blank : list Z := repeat 0 512.

Lemma picture_bytes : byte_rows (fun _ => True) picture_row 8.
Proof.
  intros r y r' row _ Er. split; [done|]. assert (row = nth (Z.to_nat y) picture (repeat 0 8)) as -> by (unfold picture_row in Er; congruence). assert (H : Forall (fun row => Z.of_nat (length row) = 8 /\ Forall (fun b => 0 <= b < 256) row) (repeat 0 8 :: picture))
    by (repeat (constructor; [split; [reflexivity|repeat (constructor; [lia|]); constructor]|]); constructor).
  apply Forall_cons in H as [H0 H]. rewrite nth_lookup. destruct (picture !! Z.to_nat y) as [l|] eqn:E; [exact (Forall_lookup_1 _ _ _ _ H E)|exact H0].
Qed.

Definition picture_file : list Z :=
  fst (fst (png_encode picture_row (fun _ => [0; 0xF8; 0x1F00]) 8 2 blank [] tt)).

Lemma png_roundtrip_witness :
  png_decode keep_row 8 2 blank (repeat 0 8) picture_file [] = Some (picture, [0; 0xF8; 0x1F00], PngOk).
Proof.
  destruct (png_roundtrip picture_row (fun _ => [0; 0xF8; 0x1F00]) keep_row 8 2 blank blank (repeat 0 8) (fun _ => True) [] picture_file picture_file tt tt []
    picture_bytes I ltac:(lia) ltac:(lia) ltac:(lia) eq_refl eq_refl eq_refl) as (r1 & rows & E1 & E2 & D).
  - intros r1 _. cbn. split; [lia|]. repeat (constructor; [lia|]). constructor.
  - reflexivity.
  - vm_compute. reflexivity.
  - vm_compute. reflexivity.
  - injection E2 as <-. apply D. reflexivity.
Defined.

Lemma png_decode_safe_witness : exists l pal res,
  png_decode keep_row 8 2 blank (repeat 0 8) (take 100 picture_file) [] = Some (l, pal, res) /\ Forall (fun row => length row = 8%nat) l.
Proof.
  destruct (png_decode_safe keep_row 8 2 (fun l => Forall (fun row => length row = 8%nat) l) blank (repeat 0 8) (take 100 picture_file) [])
    as (l & pal & res & E & Hl & _).
  - intros c p y line Hp _ Hlen. cbn. apply Forall_app. split; [exact Hp|]. constructor; [lia|constructor].
  - lia.
  - reflexivity.
  - constructor.
  - exists l, pal, res. split; [exact E|exact Hl].
Defined.
