(* ===== verification/Printf.v ===== *)
(** * chprintf.c: number formatting and the [%] directives

    Number to text conversion ([long_to_string_with_divisor], [ulong_freq],
    [ftoa], [ftoaS]), the format interpreter [chvprintf] and the bounded
    buffer printer [plot_printf]. *)

From S2P Require Import Prelude Num Common.

Definition MAX_FILLER : Z := 11.
Definition FLOAT_PRECISION : Z := 9.
Definition FLOAT_PREFIX_PRECISION : Z := 3.
Definition MAX_FREQ_PRESCISION : Z := 14.
Definition FREQ_PSET : Z := 1.
Definition FREQ_PREFIX_SPACE : Z := 2.

Definition pow10 : list Z :=
  [1; 10; 100; 1000; 10000; 100000; 1000000; 10000000; 100000000; 1000000000].
Definition bigPrefix : list Z := [32; 107; 77; 71; 84; 80; 69; 90; 89; 0].
Definition smallPrefix : list Z := [109; 29; 110; 112; 102; 97; 122; 121; 0].

Definition digit_char (c : Z) : Z := u8 (c + (if 9 <? c then 65 - 10 else 48)).

(** [do {*--q = digit;} while ((precision && --precision) || num);] - the
    digits are stored from the end, so each round conses one. *)
Fixpoint long_to_string_loop (fuel : nat) (num radix precision : Z) (q : list Z) : list Z :=
  match fuel with
  | O => q
  | S fuel =>
      let c := num mod radix in
      let num := num / radix in
      let q := digit_char c :: q in
      let precision := if negb (precision =? 0) then precision - 1 else precision in
      if negb (precision =? 0) || negb (num =? 0)
      then long_to_string_loop fuel num radix precision q
      else q
  end.

(** [num % radix] is unsigned arithmetic ([radix] is a [uint32_t]); one round
    per digit, at most 32 significant ones and [precision] forced ones. *)
Definition long_to_string_with_divisor (num radix precision : Z) : list Z :=
  long_to_string_loop (32 + Z.to_nat precision) (u32 num) radix precision [].

(** ** Frequencies *)

(** The Cortex-M0 division by ten of [ulong_freq]: shifts and a correction
    loop; returns the quotient and the remainder. *)
Fixpoint div10_fix (fuel : nat) (freq c : Z) : Z * Z :=
  match fuel with
  | O => (freq, c)
  | S fuel => if 10 <=? c then div10_fix fuel (u32 (freq + 1)) (u32 (c - 10)) else (freq, c)
  end.

Definition div10_shift (freq : Z) : Z * Z :=
  let c := freq in
  let freq := Z.shiftr freq 1 in
  let freq := u32 (freq + Z.shiftr freq 1) in
  let freq := u32 (freq + Z.shiftr freq 4) in
  let freq := u32 (freq + Z.shiftr freq 8) in
  let freq := u32 (freq + Z.shiftr freq 16) in
  let freq := Z.shiftr freq 3 in
  let c := u32 (c - freq * 10) in
  div10_fix 3 freq c.

(** First loop of [ulong_freq]: digits in groups of three, and the number of
    spaces (the prefix index). Ten digits at most for 32 bits. *)
Fixpoint ulong_freq_digits (fuel : nat) (freq format s : Z) (q : list Z) : list Z * Z :=
  match fuel with
  | O => (q, s)
  | S fuel =>
      let c := freq mod 10 in
      let freq := freq / 10 in
      let q := (c + 48) :: q in
      if freq =? 0 then (q, s)
      else
        let '(q, s) := if negb (Z.land format 1 =? 0) then (32 :: q, s + 1) else (q, s) in
        ulong_freq_digits fuel freq (Z.shiftr format 1) s q
  end.

(** The copy loop: [i] counts the rounds left. [None] is a read past the end
    of the digits (the skipped blanks are not counted in [i]). *)
Fixpoint ulong_freq_copy (i : nat) (q : list Z) (flag precision : Z) : option (list Z) :=
  match i with
  | O => Some []
  | S i =>
      match q with
      | [] => None
      | c :: q =>
          let r :=
            if c =? 32 then
              if bit_test flag FREQ_PSET then Some (46, q, bit_clr flag FREQ_PSET)
              else if negb (bit_test flag FREQ_PREFIX_SPACE) then
                match q with
                | [] => None
                | c :: q => Some (c, q, flag)
                end
              else Some (c, q, flag)
            else Some (c, q, flag) in
          match r with
          | None => None
          | Some (c, q, flag) =>
              if negb (bit_test flag FREQ_PSET) then
                if precision <? 0 then Some []
                else cons c <$> ulong_freq_copy i q flag (precision - 1)
              else cons c <$> ulong_freq_copy i q flag precision
          end
      end
  end.

Definition ulong_freq (freq precision : Z) : option (list Z) :=
  let flag := FREQ_PSET in
  let flag := if precision =? 0 then Z.lor flag FREQ_PREFIX_SPACE else flag in
  let precision :=
    if (precision =? 0) || (MAX_FREQ_PRESCISION <? precision)
    then MAX_FREQ_PRESCISION else precision in
  let '(q, s) := ulong_freq_digits 10 (u32 freq) 18724 0 [] in
  let s := nth (Z.to_nat s) bigPrefix 0 in
  body ← ulong_freq_copy (length q) q flag precision;
  Some (body ++ (if bit_test flag FREQ_PREFIX_SPACE && negb (s =? 32) then [32] else [])
        ++ [s]).

(** ** Floats *)

Section Float.
Context {F : Type} `{FloatOps F}.
Variable DIGIT_SEPARATOR : Z.   (* '.' or ',', from config._vna_mode *)

Definition ftoa (num : F) (precision : Z) : list Z :=
  let precision := if FLOAT_PRECISION <? precision then FLOAT_PRECISION else precision in
  let multi := nth (Z.to_nat precision) pow10 0 in
  let l := u32 (f_trunc num) in
  let k := u32 (f_trunc (fadd (fmul (fsub num (f_of_Z l)) (f_of_Z multi)) (f_lit 5 (-1)))) in
  let '(k, l) := if multi <=? k then (u32 (k - multi), u32 (l + 1)) else (k, l) in
  long_to_string_with_divisor l 10 0 ++
  (if negb (precision =? 0)
   then DIGIT_SEPARATOR :: long_to_string_with_divisor k 10 precision else []).

(** [for (; *ptr && num >= 1000.0f; num /= 1000.0f, ptr++);] with the last
    passed prefix character. *)
Fixpoint big_prefix_loop (ptr : list Z) (last : Z) (num : F) : F * Z :=
  match ptr with
  | c :: ptr =>
      if negb (c =? 0) && fge num (f_of_Z 1000)
      then big_prefix_loop ptr c (fdiv num (f_of_Z 1000)) else (num, last)
  | [] => (num, last)
  end.

Fixpoint small_prefix_loop (ptr : list Z) (last : Z) (num : F) : F * Z :=
  match ptr with
  | c :: ptr =>
      if negb (c =? 0) && flt num f1
      then small_prefix_loop ptr c (fmul num (f_of_Z 1000)) else (num, last)
  | [] => (num, last)
  end.

(** [while (p[-1] == '0') p--;] on the reversed text; [None] when the scan
    leaves the buffer. *)
Fixpoint strip_zeros (r : list Z) : option (list Z) :=
  match r with
  | [] => None
  | c :: r' => if c =? 48 then strip_zeros r' else Some r
  end.

(** ... [if (p[-1] == sep) p--;] *)
Definition strip_trailing (sep : Z) (txt : list Z) : option (list Z) :=
  r ← strip_zeros (rev txt);
  match r with
  | c :: r' => Some (rev (if c =? sep then r' else r))
  | [] => None
  end.

Definition ftoaS (num : F) (precision : Z) : option (list Z) :=
  let '(num, prefix) :=
    if fge num (f_of_Z 1000) then big_prefix_loop (tl bigPrefix) 32 num
    else if flt num f1 then
      let '(num, last) := small_prefix_loop smallPrefix 0 num in
      (num, if fgt num (f_lit 1 (-3)) then last else 0)
    else (num, 0) in
  let precision := if negb (prefix =? 0) then precision - 1 else precision in
  let l := u32 (f_trunc num) in
  let precision :=
    if 100 <=? l then precision - 2 else if 10 <=? l then precision - 1 else precision in
  let precision := if precision <? 0 then 0 else precision in
  let txt := ftoa num precision in
  txt ← (if negb (precision =? 0) then strip_trailing DIGIT_SEPARATOR txt else Some txt);
  Some (txt ++ (if negb (prefix =? 0) then [prefix] else [])).
End Float.

(** ** The format interpreter *)

Definition IS_LONG : Z := 1.
Definition LEFT_ALIGN : Z := 2.
Definition POSITIVE : Z := 4.
Definition NEGATIVE : Z := 8.
Definition PAD_ZERO : Z := 16.
Definition PLUS_SPACE : Z := 32.
Definition DEFAULT_PRESCISION : Z := 64.
Definition COMPLEX : Z := 128.
Definition SHORT_FLOAT : Z := 256.

(** Variadic arguments. A float is passed as a [double], or by its 32 bits
    under the 'b' flag; both carry the same value. *)
Inductive parg (F : Type) :=
  | AInt (z : Z)
  | AStr (s : option (list Z))
  | AFloat (f : F).
Arguments AInt {F} z.
Arguments AStr {F} s.
Arguments AFloat {F} f.

(** [[flags]]: any sequence of flag characters. *)
Fixpoint parse_flags (fmt : list Z) (state : Z) : list Z * Z :=
  match fmt with
  | c :: fmt' =>
      if c =? 45 then parse_flags fmt' (Z.lor state LEFT_ALIGN)
      else if c =? 43 then parse_flags fmt' (Z.lor state POSITIVE)
      else if c =? 48 then parse_flags fmt' (Z.lor state PAD_ZERO)
      else if c =? 106 then parse_flags fmt' (Z.lor state COMPLEX)
      else if c =? 32 then parse_flags fmt' (Z.lor state PLUS_SPACE)
      else if c =? 98 then parse_flags fmt' (Z.lor state SHORT_FLOAT)
      else (fmt, state)
  | [] => ([], state)
  end.

Section Printf.
Context {F : Type} `{FloatOps F}.
Variable DIGIT_SEPARATOR : Z.

(** [width|*] and [precision|*]: digits and stars accumulate; returns the
    number, the character that ended it and the rest. [None] is a missing
    or mistyped argument. *)
Fixpoint parse_number (fmt : list Z) (args : list (parg F)) (n : Z)
    : option (Z * Z * list Z * list (parg F)) :=
  match fmt with
  | [] => Some (n, 0, [], args)
  | c :: fmt' =>
      if isdigit c then parse_number fmt' args (n * 10 + (c - 48))
      else if c =? 42 then
        match args with
        | AInt z :: args' => parse_number fmt' args' (n * 10 + u8 z)
        | _ => None
        end
      else Some (n, c, fmt', args)
  end.

(** Sign and 'j' in front of a signed number. *)
Definition sign_prefix (neg : bool) (state : Z) : list Z * Z :=
  let '(p, state) :=
    if neg then ([45], Z.lor state NEGATIVE)
    else if bit_test state POSITIVE then ([43], state)
    else if bit_test state PLUS_SPACE then ([32], state)
    else ([], state) in
  (p ++ (if bit_test state COMPLEX then [106] else []), state).

(** The [switch (c)]: the text of the directive between [s] and [p], the
    updated state and the arguments left. *)
Definition convert (c state precision : Z) (args : list (parg F))
    : option (list Z * Z * list (parg F)) :=
  if c =? 99 then
    match args with
    | AInt z :: args => Some ([u8 z], bit_clr state PAD_ZERO, args)
    | _ => None
    end
  else if c =? 115 then
    match args with
    | AStr s :: args =>
        let s := match s with Some s => s | None => cstr "(null)" end in
        let precision := if bit_test state DEFAULT_PRESCISION then 32767 else precision in
        Some (take (Z.to_nat precision) s, bit_clr state PAD_ZERO, args)
    | _ => None
    end
  else if (c =? 68) || (c =? 100) || (c =? 73) || (c =? 105) then
    match args with
    | AInt z :: args =>
        let l := s32 z in
        let '(p, state) := sign_prefix (l <? 0) state in
        let l := if l <? 0 then s32 (- l) else l in
        Some (p ++ long_to_string_with_divisor l 10 0, state, args)
    | _ => None
    end
  else if c =? 113 then
    match args with
    | AInt z :: args => txt ← ulong_freq z precision; Some (txt, state, args)
    | _ => None
    end
  else if (c =? 70) || (c =? 102) then
    match args with
    | AFloat f :: args =>
        let '(p, state) := sign_prefix (flt f f0) state in
        let f := if flt f f0 then fneg f else f in
        if f_isinf f then Some (p ++ [25; 32], state, args)
        else
          let precision :=
            if bit_test state DEFAULT_PRESCISION
            then if c =? 70 then FLOAT_PREFIX_PRECISION else FLOAT_PRECISION
            else precision in
          txt ← (if c =? 70 then ftoaS DIGIT_SEPARATOR f precision
                 else Some (ftoa DIGIT_SEPARATOR f precision));
          if bit_test state PAD_ZERO then
            txt ← strip_trailing 46 (p ++ txt);
            Some (txt, Z.lxor state PAD_ZERO, args)
          else Some (p ++ txt, state, args)
    | _ => None
    end
  else if (c =? 88) || (c =? 120) || (c =? 85) || (c =? 117) || (c =? 79) || (c =? 111) then
    match args with
    | AInt z :: args =>
        let radix :=
          if (c =? 88) || (c =? 120) then 16
          else if (c =? 85) || (c =? 117) then 10 else 8 in
        Some (long_to_string_with_divisor z radix 0, state, args)
    | _ => None
    end
  else Some ([c], state, args).

(** Alignment and filling of one directive's text. *)
Definition put_field (state width : Z) (txt : list Z) : list Z :=
  let width := width - Z.of_nat (length txt) in
  let '(width, filler) :=
    if width <? 0 then (0, 32)
    else (width, if bit_test state PAD_ZERO then 48 else 32) in
  let fill := repeat filler (Z.to_nat width) in
  if negb (bit_test state LEFT_ALIGN) then
    if bit_test state (Z.lor NEGATIVE (Z.lor POSITIVE PLUS_SPACE)) && bit_test state PAD_ZERO
    then match txt with
         | c :: txt => c :: fill ++ txt
         | [] => fill
         end
    else fill ++ txt
  else txt ++ fill.

(** [chvprintf]: the characters put on the stream; the return value is
    their number. One round per format character, so [length fmt] rounds
    are enough. *)
Fixpoint chvprintf_loop (fuel : nat) (fmt : list Z) (args : list (parg F)) : option (list Z) :=
  match fuel with
  | O => Some []
  | S fuel =>
      match fmt with
      | [] => Some []
      | c :: fmt =>
          if negb (c =? 37) then cons c <$> chvprintf_loop fuel fmt args
          else
            let '(fmt, state) := parse_flags fmt 0 in
            '(width, c, fmt, args) ← parse_number fmt args 0;
            '(precision, c, fmt, args, state) ←
              (if c =? 46 then
                 '(precision, c, fmt, args) ← parse_number fmt args 0;
                 Some (precision, c, fmt, args, state)
               else Some (0, c, fmt, args, Z.lor state DEFAULT_PRESCISION));
            if c =? 0 then None   (* the directive runs over the terminator *)
            else
            '(txt, state, args) ← convert c state precision args;
            app (put_field state width txt) <$> chvprintf_loop fuel fmt args
      end
  end.

Definition chvprintf (fmt : list Z) (args : list (parg F)) : option (list Z) :=
  chvprintf_loop (S (length fmt)) fmt args.

(** [put] on the memory stream: keeps one byte for the terminator. *)
Definition print_put (st : list Z * Z) (b : Z) : list Z * Z :=
  let '(buffer, size) := st in
  if 1 <? size then (buffer ++ [b], size - 1) else st.

(** [plot_printf]: the bytes stored in [str], terminator included, and the
    return value. *)
Definition plot_printf (size : Z) (fmt : list Z) (args : list (parg F))
    : option (list Z * Z) :=
  if size <=? 0 then Some ([], 0)
  else
    out ← chvprintf fmt args;
    let '(buffer, _) := fold_left print_put out ([], u16 size) in
    let retval := Z.of_nat (length out) in
    Some (buffer ++ [0], if size - 1 <? retval then size - 1 else retval).
End Printf.

(** * Lemmas *)

(** ** Digits *)

Lemma digit_of_digit_char c : 0 <= c < 16 -> digit_of (digit_char c) = c.
Proof.
  intros Hc.
  assert (forallb (fun c => digit_of (digit_char c) =? c) (seqZ 0 16) = true) as H
    by (vm_compute; reflexivity).
  rewrite forallb_forall in H. apply Z.eqb_eq, H, list_elem_of_In, elem_of_seqZ. lia.
Qed.

Lemma digit_char_dec c : 0 <= c < 10 -> digit_char c = c + 48.
Proof. intros Hc. unfold digit_char. zcase; [lia|]. rewrite u8_small; lia. Qed.

Lemma long_to_string_step fuel num radix q :
  long_to_string_loop (S fuel) num radix 0 q =
    (let q' := digit_char (num mod radix) :: q in
     if num / radix =? 0 then q' else long_to_string_loop fuel (num / radix) radix 0 q').
Proof. cbn [long_to_string_loop]. cbn [Z.eqb negb orb]. by destruct (num / radix =? 0). Qed.

(** Reading back the digits of [num] continues with [num] accumulated. *)
Lemma my_atoui_digits radix fuel num q :
  2 <= radix <= 16 -> 0 <= num < 4294967296 -> num < radix ^ Z.of_nat fuel ->
  my_atoui_loop radix (long_to_string_loop fuel num radix 0 q) 0 = my_atoui_loop radix q num.
Proof.
  intros Hr. revert num q. induction fuel as [|fuel IH]; intros num q Hn Hf.
  { cbn in *. assert (num = 0) as -> by lia. done. }
  rewrite long_to_string_step. cbn zeta.
  assert (0 <= num mod radix < radix) by (apply Z.mod_pos_bound; lia).
  assert (0 <= num / radix) by (apply Z.div_pos; lia).
  assert (num = radix * (num / radix) + num mod radix) as Hdm by (apply Z.div_mod; lia).
  assert (num / radix <= num) by (apply Z.div_le_upper_bound; nia).
  assert (forall v, 0 <= v -> v * radix + num mod radix = num ->
    my_atoui_loop radix (digit_char (num mod radix) :: q) v = my_atoui_loop radix q num)
    as Hstep.
  { intros v Hv He. cbn [my_atoui_loop]. rewrite digit_of_digit_char by lia.
    zcase; [lia|]. by rewrite He, u32_small by lia. }
  destruct (Z.eqb_spec (num / radix) 0) as [E|E].
  - apply Hstep; [lia|]. rewrite E in Hdm. lia.
  - rewrite IH; [apply Hstep; [lia|lia]|lia|].
    rewrite Nat2Z.inj_succ, Z.pow_succ_r in Hf by lia.
    apply Z.div_lt_upper_bound; lia.
Qed.

Lemma pow_fuel radix n : 2 <= radix -> 0 <= n < 4294967296 -> n < radix ^ Z.of_nat (32 + 0).
Proof.
  intros Hr Hn. eapply Z.lt_le_trans; [apply Hn|].
  change 4294967296 with (2 ^ 32). apply Z.pow_le_mono_l. lia.
Qed.

Lemma long_to_string_length radix fuel num q k :
  2 <= radix -> 0 <= num < radix ^ Z.of_nat (S k) ->
  (length (long_to_string_loop fuel num radix 0 q) <= S k + length q)%nat.
Proof.
  intros Hr. revert num q k. induction fuel as [|fuel IH]; intros num q k Hn; [cbn; lia|].
  rewrite long_to_string_step. cbn zeta. destruct (Z.eqb_spec (num / radix) 0); [cbn; lia|].
  destruct k as [|k].
  { exfalso. rewrite Z.pow_1_r in Hn. apply n. by apply Z.div_small. }
  etrans; [apply (IH _ _ k)|cbn; lia].
  rewrite (Nat2Z.inj_succ (S k)), Z.pow_succ_r in Hn by lia.
  split; [apply Z.div_pos; lia|]. apply Z.div_lt_upper_bound; lia.
Qed.

(** The digits are the same characters whatever follows them. *)
Lemma long_to_string_app radix fuel num q :
  long_to_string_loop fuel num radix 0 q = long_to_string_loop fuel num radix 0 [] ++ q.
Proof.
  revert num q. induction fuel as [|fuel IH]; intros num q; [done|].
  rewrite !long_to_string_step. cbn zeta. destruct (num / radix =? 0); [done|].
  rewrite IH, (IH _ [_]). by rewrite <- app_assoc.
Qed.

Lemma long_to_string_head fuel num :
  0 <= num < 10 ^ Z.of_nat fuel -> (0 < fuel)%nat ->
  exists c s, long_to_string_loop fuel num 10 0 [] = c :: s /\ 48 <= c <= 57 /\ (0 < num -> c <> 48) /\ forallb isdigit (c :: s) = true /\ (num = 0 -> s = []).
Proof.
  revert num. induction fuel as [|fuel IH]; intros num Hn Hf; [lia|].
  rewrite long_to_string_step. cbn zeta.
  assert (forall c, 0 <= c < 10 -> isdigit (c + 48) = true) as Hd.
  { intros c Hc. unfold isdigit. apply andb_true_iff. split; apply Z.leb_le; lia. }
  rewrite digit_char_dec by lia.
  destruct (Z.eqb_spec (num / 10) 0).
  - exists (num mod 10 + 48), []. repeat split; try lia. cbn. by rewrite Hd by lia.
  - rewrite long_to_string_app.
    rewrite Nat2Z.inj_succ, Z.pow_succ_r in Hn by lia.
    destruct fuel as [|fuel]; [cbn in Hn; lia|].
    destruct (IH (num / 10)) as (c & s & -> & Hc & Hz & Hs & _); [lia|lia|].
    exists c, (s ++ [num mod 10 + 48]). repeat split; try lia.
    cbn [forallb] in *. rewrite forallb_app. cbn.
    apply andb_true_iff in Hs as [-> ->]. by rewrite Hd by lia.
Qed.

(** ** The signed reader *)

Lemma my_atoi_loop_digits num fuel q :
  0 <= num < 4294967296 -> num < 10 ^ Z.of_nat fuel ->
  my_atoi_loop (long_to_string_loop fuel num 10 0 q) 0 = my_atoi_loop q (s32 num).
Proof.
  revert num q. induction fuel as [|fuel IH]; intros num q Hn Hf.
  { cbn in Hf. assert (num = 0) as -> by lia. done. }
  rewrite long_to_string_step. cbn zeta.
  rewrite digit_char_dec by lia.
  assert (forall v, s32 (v * 10 + num mod 10) = s32 num ->
    my_atoi_loop (num mod 10 + 48 :: q) v = my_atoi_loop q (s32 num)) as Hstep.
  { intros v He. cbn [my_atoi_loop]. rewrite u32_small by lia.
    replace (num mod 10 + 48 - 48) with (num mod 10) by lia.
    zcase; [|lia]. by rewrite He. }
  destruct (Z.eqb_spec (num / 10) 0) as [E|E].
  - apply Hstep. f_equal. lia.
  - rewrite IH; [|lia|].
    + apply Hstep. unfold s32. lia.
    + rewrite Nat2Z.inj_succ, Z.pow_succ_r in Hf by lia. lia.
Qed.

(** ** The shift division *)

Lemma shiftr_div k x : 0 <= k -> Z.shiftr x k = x / 2 ^ k.
Proof. intros. by apply Z.shiftr_div_pow2. Qed.

Lemma div10_estimate n :
  0 <= n < 4294967296 ->
  let a := n / 2 in let b := a + a / 2 in let c := b + b / 16 in
  let d := c + c / 256 in let e := d + d / 65536 in let q := e / 8 in
  0 <= e < 4294967296 /\ 0 <= n - 10 * q < 40.
Proof. cbv zeta. intros Hn. split; lia. Qed.

Lemma div10_fix_spec fuel n q c :
  0 <= q -> 0 <= c -> n = 10 * q + c -> n < 4294967296 -> c < 10 * (Z.of_nat fuel + 1) ->
  div10_fix fuel q c = (n / 10, n mod 10).
Proof.
  revert q c. induction fuel as [|fuel IH]; intros q c Hq Hc Hn Hb Hf; cbn [div10_fix].
  - f_equal; lia.
  - destruct (Z.leb_spec 10 c); [|f_equal; lia].
    rewrite !u32_small by lia. apply IH; lia.
Qed.

Lemma long_to_string_fuel f1 f2 num q :
  0 <= num < 10 ^ Z.of_nat f1 -> num < 10 ^ Z.of_nat f2 -> (0 < f1)%nat -> (0 < f2)%nat ->
  long_to_string_loop f1 num 10 0 q = long_to_string_loop f2 num 10 0 q.
Proof.
  revert f2 num q. induction f1 as [|f1 IH]; intros f2 num q H1 H2 Hf1 Hf2; [lia|].
  destruct f2 as [|f2]; [lia|]. rewrite !long_to_string_step. cbn zeta.
  destruct (Z.eqb_spec (num / 10) 0); [done|].
  rewrite Nat2Z.inj_succ, Z.pow_succ_r in H1, H2 by lia.
  destruct f1 as [|f1]; [cbn in H1; lia|]. destruct f2 as [|f2]; [cbn in H2; lia|].
  apply IH; lia.
Qed.

(** ** Frequencies *)

Fixpoint bits_low (fuel : nat) (format : Z) : nat :=
  match fuel with
  | O => O
  | S fuel => ((if (Z.land format 1 =? 0)%Z then 0 else 1) + bits_low fuel (Z.shiftr format 1))%nat
  end.

Definition freq_char (c : Z) : Prop := isdigit c = true \/ c = 32.

Lemma ulong_freq_digits_spec fuel freq format s q :
  0 <= freq -> Forall freq_char q ->
  let '(q', s') := ulong_freq_digits fuel freq format s q in
  filter isdigit q' = long_to_string_loop fuel freq 10 0 (filter isdigit q) /\
  Forall freq_char q' /\ (length q' <= length q + fuel + bits_low fuel format)%nat.
Proof.
  revert freq format s q. induction fuel as [|fuel IH]; intros freq format s q Hf Hq.
  { cbn. split; [done|]. split; [done|lia]. }
  rewrite long_to_string_step. cbn [ulong_freq_digits]. cbn zeta.
  rewrite digit_char_dec by lia.
  assert (isdigit (freq mod 10 + 48) = true) as Hd.
  { unfold isdigit. apply andb_true_iff. split; apply Z.leb_le; lia. }
  assert (Forall freq_char (freq mod 10 + 48 :: q)) as Hq' by (constructor; [by left|done]).
  assert (filter isdigit (freq mod 10 + 48 :: q) = freq mod 10 + 48 :: filter isdigit q) as Hfl.
  { rewrite filter_cons. by rewrite Hd. }
  destruct (Z.eqb_spec (freq / 10) 0).
  { split; [done|]. split; [done|]. cbn. lia. }
  cbn [bits_low]. destruct (Z.land format 1 =? 0); cbn [negb].
  - specialize (IH (freq / 10) (Z.shiftr format 1) s _ ltac:(lia) Hq').
    destruct (ulong_freq_digits _ _ _ _ _) as [q' s']. rewrite Hfl in IH.
    destruct IH as (-> & HF & Hl). split; [done|]. split; [done|]. cbn in Hl. lia.
  - assert (Forall freq_char (32 :: freq mod 10 + 48 :: q)) as Hq2
      by (constructor; [by right|done]).
    specialize (IH (freq / 10) (Z.shiftr format 1) (s + 1) _ ltac:(lia) Hq2).
    destruct (ulong_freq_digits _ _ _ _ _) as [q' s'].
    rewrite filter_cons in IH. cbn [isdigit] in IH.
    change (if decide (Is_true (isdigit 32)) then _ else ?y) with y in IH.
    rewrite Hfl in IH. destruct IH as (-> & HF & Hl). split; [done|]. split; [done|].
    cbn in Hl. lia.
Qed.

(** After the decimal point everything is copied while the precision lasts. *)
Lemma ulong_freq_copy_tail q precision :
  Z.of_nat (length q) <= precision + 1 ->
  ulong_freq_copy (length q) q FREQ_PREFIX_SPACE precision = Some q.
Proof.
  revert precision. induction q as [|c q IH]; intros precision Hp; [done|].
  cbn [length ulong_freq_copy].
  change (bit_test FREQ_PREFIX_SPACE FREQ_PSET) with false.
  change (bit_test FREQ_PREFIX_SPACE FREQ_PREFIX_SPACE) with true. cbn [negb].
  assert (forall b : bool, (if b then Some (c, q, FREQ_PREFIX_SPACE)
    else Some (c, q, FREQ_PREFIX_SPACE)) = Some (c, q, FREQ_PREFIX_SPACE)) as -> by by intros [].
  change (bit_test FREQ_PREFIX_SPACE FREQ_PSET) with false. cbn [negb].
  cbn in Hp. zcase; [lia|]. by rewrite IH by lia.
Qed.

(** The default mode copies every character and turns the first blank into
    the decimal point. *)
Lemma ulong_freq_copy_default q :
  Forall freq_char q -> Z.of_nat (length q) <= 15 ->
  exists body, ulong_freq_copy (length q) q 3 14 = Some body /\
    filter isdigit body = filter isdigit q.
Proof.
  intros Hq Hl. induction q as [|c q IH]; [by exists []|].
  inversion Hq as [|? ? Hc Hq']; subst. cbn [length ulong_freq_copy].
  destruct (Z.eqb_spec c 32) as [->|Hc32].
  - change (bit_test 3 FREQ_PSET) with true. change (bit_clr 3 FREQ_PSET) with FREQ_PREFIX_SPACE.
    cbn iota. change (bit_test FREQ_PREFIX_SPACE FREQ_PSET) with false. cbn [negb].
    change (14 <? 0) with false. cbn in Hl. rewrite ulong_freq_copy_tail by lia.
    by exists (46 :: q).
  - change (bit_test 3 FREQ_PSET) with true. cbn [negb].
    destruct IH as (body & -> & Hf); [done|cbn in Hl; lia|].
    exists (c :: body). split; [done|]. rewrite !filter_cons, Hf. done.
Qed.

(** ** The bounded buffer *)

Lemma print_put_fold out buffer size :
  1 <= size ->
  fst (fold_left print_put out (buffer, size)) = buffer ++ take (Z.to_nat (size - 1)) out.
Proof.
  revert buffer size. induction out as [|b out IH]; intros buffer size Hs; cbn.
  { by rewrite take_nil, app_nil_r. }
  zcase.
  - rewrite IH by lia. rewrite <- app_assoc. cbn.
    replace (Z.to_nat (size - 1)) with (S (Z.to_nat (size - 1 - 1))) by lia. done.
  - assert (size = 1) as -> by lia. rewrite IH by lia. done.
Qed.

(** The stripping of trailing zeros that follows a float looks for '.'
    whatever the separator in use. *)
Lemma strip_zeros_repeat k r : strip_zeros (repeat 48 k ++ r) = strip_zeros r.
Proof. by induction k. Qed.

Lemma rev_repeat_Z (c : Z) k : rev (repeat c k) = repeat c k.
Proof.
  induction k as [|k IH]; [done|]. cbn. rewrite IH. clear IH.
  induction k as [|k IH]; [done|]. cbn. by f_equal.
Qed.

Lemma strip_trailing_zeros txt sep c k :
  c <> 48 ->
  strip_trailing sep (txt ++ c :: repeat 48 k) =
    Some (if c =? sep then txt else txt ++ [c]).
Proof.
  intros Hc. unfold strip_trailing. rewrite rev_app_distr. cbn [rev].
  rewrite rev_repeat_Z, <- app_assoc, strip_zeros_repeat. cbn.
  destruct (Z.eqb_spec c 48); [done|]. cbn. destruct (c =? sep); cbn.
  - by rewrite rev_involutive.
  - by rewrite rev_involutive.
Qed.

(** ** Single directives *)

Lemma put_field_0 state txt : put_field state 0 txt = txt.
Proof.
  unfold put_field. destruct txt as [|c txt].
  - destruct (bit_test state PAD_ZERO), (bit_test state LEFT_ALIGN),
      (bit_test state (Z.lor NEGATIVE (Z.lor POSITIVE PLUS_SPACE))); reflexivity.
  - zcase; [|cbn in *; lia]. cbn [repeat Z.to_nat app].
    destruct (bit_test state LEFT_ALIGN); cbn; [by rewrite app_nil_r|].
    by destruct (_ && _).
Qed.

Section Directives.
Context {F : Type} `{FloatOps F}.
Variable sep : Z.

Lemma chvprintf_plain c (args : list (parg F)) :
  In c [100; 117; 120; 111; 113] ->
  chvprintf sep [37; c] args =
    ('(txt, _, _) ← convert sep c DEFAULT_PRESCISION 0 args; Some txt).
Proof.
  intros Hc. unfold chvprintf.
  repeat destruct Hc as [<-|Hc]; try done;
    cbn -[convert put_field Z.lor];
    change (Z.lor 0 DEFAULT_PRESCISION) with DEFAULT_PRESCISION;
    destruct (convert _ _ _ _ _) as [[[txt state] args']|]; cbn -[put_field]; try done;
    by rewrite put_field_0, app_nil_r.
Qed.

Lemma chvprintf_d z :
  chvprintf sep (cstr "%d") [AInt (F := F) z] =
    Some ((if s32 z <? 0 then [45] else []) ++
          long_to_string_with_divisor (if s32 z <? 0 then s32 (- s32 z) else s32 z) 10 0).
Proof.
  change (cstr "%d") with [37; 100]. rewrite chvprintf_plain by (cbn; tauto).
  unfold convert. cbn -[long_to_string_with_divisor s32 sign_prefix Z.ltb].
  by destruct (s32 z <? 0).
Qed.

Lemma chvprintf_unsigned c z :
  In c [117; 120; 111] ->
  chvprintf sep [37; c] [AInt (F := F) z] =
    Some (long_to_string_with_divisor z
            (if c =? 120 then 16 else if c =? 117 then 10 else 8) 0).
Proof.
  intros Hc. rewrite chvprintf_plain by (cbn in *; tauto).
  by repeat destruct Hc as [<-|Hc].
Qed.
End Directives.

Lemma my_atoui_radix r n :
  2 <= r <= 16 -> 0 <= n < 4294967296 ->
  my_atoui_loop r (long_to_string_with_divisor n r 0) 0 = n.
Proof.
  intros Hr Hn. unfold long_to_string_with_divisor. rewrite u32_small by lia.
  rewrite my_atoui_digits; [done|lia|lia|]. by apply pow_fuel; lia.
Qed.

Lemma my_atoui_dec n :
  0 <= n < 4294967296 -> my_atoui (long_to_string_with_divisor n 10 0) = n.
Proof.
  intros Hn. pose proof (my_atoui_radix 10 n ltac:(lia) Hn) as Hr.
  assert (exists c s, long_to_string_with_divisor n 10 0 = c :: s /\ 48 <= c <= 57 /\
    (0 < n -> c <> 48) /\ (n = 0 -> s = [])) as (c & s & E & Hc & Hz & Hs).
  { unfold long_to_string_with_divisor. rewrite u32_small by lia.
    destruct (long_to_string_head (32 + Z.to_nat 0) n) as (c & s & E & Hc & Hz & _ & Hs);
      [split; [lia|apply (pow_fuel 10); lia]|lia|]. by exists c, s. }
  rewrite E in *. clear E. unfold my_atoui. cbn [peek hd].
  destruct (Z.eqb_spec c 43); [lia|]. cbn iota. cbn [peek hd].
  destruct (Z.eqb_spec c 48) as [E48|]; [|exact Hr].
  assert (n = 0) as -> by lia. rewrite Hs by done. by rewrite E48.
Qed.

Lemma my_atoui_hex s : my_atoui (cstr "0x" ++ s) = my_atoui_loop 16 s 0.
Proof. reflexivity. Qed.

Lemma my_atoui_oct s : my_atoui (cstr "0o" ++ s) = my_atoui_loop 8 s 0.
Proof. reflexivity. Qed.

(** * Properties *)

(** Signed print and parse ([chvprintf] %d, [my_atoi]): every int32 value,
    the minimum included, prints to a text that the firmware's own parser
    reads back as the same value. *)
Theorem printf_d_atoi {F : Type} `{FloatOps F} (sep z : Z)
    (Hz : -2147483648 <= z < 2147483648) :
  exists txt, chvprintf sep (cstr "%d") [AInt (F := F) z] = Some txt /\ my_atoi txt = z.
Proof.
  eexists. split; [apply chvprintf_d|]. rewrite (s32_small z) by lia.
  unfold long_to_string_with_divisor, my_atoi.
  assert (forall n, 0 <= n < 4294967296 -> n < 10 ^ Z.of_nat (32 + Z.to_nat 0)) as Hfuel.
  { intros n Hn. apply (pow_fuel 10); lia. }
  destruct (Z.ltb_spec z 0).
  - cbn [app peek hd tl]. change (45 =? 45) with true. cbn iota.
    set (m := u32 (s32 (- z))). assert (m = - z) as Hm by (unfold m; words).
    destruct (long_to_string_head (32 + Z.to_nat 0) m) as (c & s & E & Hc & _);
      [split; [lia|apply Hfuel; lia]|lia|].
    rewrite E. cbn [peek hd]. destruct (Z.eqb_spec c 43); [lia|]. rewrite <- E.
    rewrite my_atoi_loop_digits by (lia || apply Hfuel; lia). cbn [my_atoi_loop]. words.
  - cbn [app]. set (m := u32 z). assert (m = z) as Hm by (unfold m; words).
    destruct (long_to_string_head (32 + Z.to_nat 0) m) as (c & s & E & Hc & _);
      [split; [lia|apply Hfuel; lia]|lia|].
    rewrite E. cbn [peek hd]. destruct (Z.eqb_spec c 45); [lia|]. cbn iota.
    cbn [peek hd]. destruct (Z.eqb_spec c 43); [lia|]. rewrite <- E.
    rewrite my_atoi_loop_digits by (lia || apply Hfuel; lia). cbn [my_atoi_loop]. words.
Qed.

Lemma printf_d_atoi_witness :
  exists txt, chvprintf 46 (cstr "%d") [AInt (F := Qcanon.Qc) (-2147483648)] = Some txt /\
    my_atoi txt = -2147483648.
Proof. apply (printf_d_atoi 46 (-2147483648)). lia. Defined.

(** Unsigned print and parse ([chvprintf] %u %x %o, [my_atoui]): every
    uint32 value printed in decimal, or in hexadecimal or octal behind the
    parser's 0x / 0o prefix, is read back as the same value. *)
Theorem printf_u_atoui {F : Type} `{FloatOps F} (sep n : Z) (Hn : 0 <= n < 4294967296) :
  exists u x o,
    chvprintf sep (cstr "%u") [AInt (F := F) n] = Some u /\ my_atoui u = n /\
    chvprintf sep (cstr "%x") [AInt (F := F) n] = Some x /\ my_atoui (cstr "0x" ++ x) = n /\
    chvprintf sep (cstr "%o") [AInt (F := F) n] = Some o /\ my_atoui (cstr "0o" ++ o) = n.
Proof.
  exists (long_to_string_with_divisor n 10 0), (long_to_string_with_divisor n 16 0),
    (long_to_string_with_divisor n 8 0).
  change (cstr "%u") with [37; 117]. change (cstr "%x") with [37; 120].
  change (cstr "%o") with [37; 111].
  rewrite !chvprintf_unsigned by (cbn; tauto).
  split; [done|]. split; [|split; [done|split; [|split; [done|]]]].
  - by apply my_atoui_dec.
  - rewrite my_atoui_hex. apply my_atoui_radix; lia.
  - rewrite my_atoui_oct. apply my_atoui_radix; lia.
Qed.

Lemma printf_u_atoui_witness :
  exists u x o,
    chvprintf 46 (cstr "%u") [AInt (F := Qcanon.Qc) 4294967295] = Some u /\ my_atoui u = 4294967295 /\
    chvprintf 46 (cstr "%x") [AInt (F := Qcanon.Qc) 4294967295] = Some x /\
      my_atoui (cstr "0x" ++ x) = 4294967295 /\
    chvprintf 46 (cstr "%o") [AInt (F := Qcanon.Qc) 4294967295] = Some o /\
      my_atoui (cstr "0o" ++ o) = 4294967295.
Proof. apply (printf_u_atoui 46 4294967295). lia. Defined.

(** Division by ten without a divider ([ulong_freq], chprintf.c): the
    shift sequence and its correction loop return the exact quotient and
    remainder for every 32-bit value, and no intermediate sum overflows. *)
Theorem div10_shift_correct (n : Z) (Hn : 0 <= n < 4294967296) :
  div10_shift n = (n / 10, n mod 10).
Proof.
  unfold div10_shift. cbv zeta. rewrite !shiftr_div by lia.
  change (2 ^ 1) with 2. change (2 ^ 4) with 16. change (2 ^ 8) with 256.
  change (2 ^ 16) with 65536. change (2 ^ 3) with 8.
  destruct (div10_estimate n Hn) as [He Hq].
  set (a := n / 2) in *. rewrite (u32_small (a + a / 2)) by lia.
  set (b := a + a / 2) in *. rewrite (u32_small (b + b / 16)) by lia.
  set (c := b + b / 16) in *. rewrite (u32_small (c + c / 256)) by lia.
  set (d := c + c / 256) in *. rewrite (u32_small (d + d / 65536)) by lia.
  set (e := d + d / 65536) in *. rewrite (u32_small (n - e / 8 * 10)) by lia.
  apply div10_fix_spec; lia.
Qed.

Lemma div10_shift_correct_witness : div10_shift 4294967295 = (429496729, 5).
Proof. rewrite (div10_shift_correct 4294967295); [reflexivity|lia]. Defined.

(** Frequency text ([ulong_freq], chprintf.c, the default %q): for every
    32-bit frequency the text is produced without reading past the digits,
    and without its separators and prefix it is the decimal digits of the
    frequency, none lost and none reordered. *)
Theorem ulong_freq_digits_kept (freq : Z) (Hf : 0 <= freq < 4294967296) :
  exists body tail, ulong_freq freq 0 = Some (body ++ tail) /\
    filter isdigit body = long_to_string_with_divisor freq 10 0 /\
    (length tail <= 2)%nat.
Proof.
  unfold ulong_freq. rewrite u32_small by lia.
  pose proof (ulong_freq_digits_spec 10 freq 18724 0 [] ltac:(lia) ltac:(constructor)) as Hd.
  destruct (ulong_freq_digits 10 freq 18724 0 []) as [q s]. destruct Hd as (Hfd & HF & Hl).
  cbn [length] in Hl. change (bits_low 10 18724) with 3%nat in Hl.
  change (0 =? 0) with true. cbn [orb]. cbn iota.
  change (Z.lor FREQ_PSET FREQ_PREFIX_SPACE) with 3. change MAX_FREQ_PRESCISION with 14.
  destruct (ulong_freq_copy_default q HF ltac:(lia)) as (body & -> & Hb). cbn [mbind option_bind].
  eexists body, _. split; [reflexivity|]. split.
  - rewrite Hb, Hfd. cbn [filter]. unfold long_to_string_with_divisor. rewrite u32_small by lia.
    apply long_to_string_fuel; [split; [lia|]|apply (pow_fuel 10); lia|lia|lia].
    etrans; [apply Hf|]. cbn. lia.
  - rewrite length_app. cbn. destruct (_ && _); cbn; lia.
Qed.

Lemma ulong_freq_digits_kept_witness :
  ulong_freq 2700000000 0 = Some (cstr "2.700 000 000 G") /\
  exists body tail, ulong_freq 2700000000 0 = Some (body ++ tail) /\
    filter isdigit body = long_to_string_with_divisor 2700000000 10 0 /\
    (length tail <= 2)%nat.
Proof.
  split; [vm_compute; reflexivity|].
  apply (ulong_freq_digits_kept 2700000000). lia.
Defined.

(** Bounded printing ([plot_printf], chprintf.c): for any format and
    arguments the buffer receives at most [size] bytes, NUL terminated, its
    text is the prefix of the full output that fits, and the return value is
    the length of that text. *)
Theorem plot_printf_bounded {F : Type} `{FloatOps F} (sep size : Z) (fmt : list Z)
    (args : list (parg F)) (buf : list Z) (ret : Z)
    (Hsize : 1 <= size < 65536)
    (Hrun : plot_printf sep size fmt args = Some (buf, ret)) :
  exists out, chvprintf sep fmt args = Some out /\
    buf = take (Z.to_nat (size - 1)) out ++ [0] /\
    Z.of_nat (length buf) <= size /\ ret = Z.of_nat (length buf) - 1.
Proof.
  unfold plot_printf in Hrun. zcase_in Hrun; [lia|].
  destruct (chvprintf sep fmt args) as [out|]; [|done]. cbn in Hrun.
  rewrite u16_small in Hrun by lia.
  pose proof (print_put_fold out [] size ltac:(lia)) as Hp.
  destruct (fold_left print_put out ([], size)) as [buffer rest]. cbn in Hp. subst buffer.
  exists out. split; [done|]. injection Hrun as <- <-. split; [done|].
  rewrite length_app, length_take. cbn. split; [lia|]. zcase; lia.
Qed.

Lemma plot_printf_bounded_witness :
  plot_printf 46 8 (cstr "%u Hz") [AInt (F := Qcanon.Qc) 123456] =
    Some (cstr "123456 " ++ [0], 7) /\
  exists out, chvprintf 46 (cstr "%u Hz") [AInt (F := Qcanon.Qc) 123456] = Some out /\
    cstr "123456 " ++ [0] = take (Z.to_nat (8 - 1)) out ++ [0] /\
    Z.of_nat (length (cstr "123456 " ++ [0])) <= 8 /\
    7 = Z.of_nat (length (cstr "123456 " ++ [0])) - 1.
Proof.
  assert (plot_printf 46 8 (cstr "%u Hz") [AInt (F := Qcanon.Qc) 123456] =
    Some (cstr "123456 " ++ [0], 7)) as E by (vm_compute; reflexivity).
  split; [exact E|]. apply (plot_printf_bounded 46 8 _ _ _ _ ltac:(lia) E).
Defined.

(** Zero stripping with the locale separator ([chvprintf], the PAD_ZERO
    branch of %f): the code compares with '.', so a value printed as
    "text.000" becomes "text", but with DIGIT_SEPARATOR ',' the separator
    stays behind: "text,000" becomes "text,". *)
Theorem zero_strip_separator (txt : list Z) (k : nat) :
  strip_trailing 46 (txt ++ 46 :: repeat 48 k) = Some txt /\
  strip_trailing 46 (txt ++ 44 :: repeat 48 k) = Some (txt ++ [44]) /\
  chvprintf 44 (cstr "%0.1f") [AFloat (f_of_Z 50 : SpecFloat.spec_float)] = Some (cstr "50,").
Proof.
  split; [by rewrite strip_trailing_zeros|]. split; [by rewrite strip_trailing_zeros|].
  vm_compute. reflexivity.
Qed.
