(* ===== verification/Lcd.v ===== *)
(** * Text on the display (lcd.c, fonts/Font7x11b.c)

    The font of the build, [lcd_blitBitmap], [lcd_drawchar] and the character stream
    behind [lcd_printf], on a screen that is a list of rows of pixels.  A window that is
    not inside the display and a character without a glyph are [None].

    A text of characters with glyphs, without [%], is drawn where it is placed and
    nothing else changes ([lcd_printf_draws]). *)

From S2P Require Import Prelude Num Common Printf.

Definition FONT_START_CHAR : Z := 0x16.
Definition FONT_WIDTH : Z := 7.
Definition FONT_GET_HEIGHT : Z := 11.
Definition FONT_STR_HEIGHT : Z := 11.
Definition R_BGCOLOR : Z := 1.
Definition R_FGCOLOR : Z := 2.

(** ** The font, eleven bytes for each character from 0x16 to 0x7E *)

Definition glyphs_16 : list Z := [
  0x00; 0x06; 0x06; 0x06; 0x26; 0x66; 0xfe; 0xfe; 0x60; 0x20; 0x00;
  0x00; 0x10; 0x10; 0x38; 0x38; 0x6c; 0x6c; 0xc6; 0xc6; 0xfe; 0x00;
  0x02; 0x80; 0xc0; 0xe0; 0xf0; 0xf8; 0xf0; 0xe0; 0xc0; 0x80; 0x00;
  0x00; 0x00; 0x6e; 0xdb; 0x91; 0x99; 0x89; 0xdb; 0x76; 0x00; 0x00;
  0x00; 0x00; 0x10; 0x30; 0x60; 0xfe; 0xfe; 0x60; 0x30; 0x10; 0x00;
  0x00; 0x00; 0x10; 0x18; 0x0c; 0xfe; 0xfe; 0x0c; 0x18; 0x10; 0x00;
  0x01; 0x00; 0x00; 0x00; 0xfc; 0x6c; 0x6c; 0x6c; 0xec; 0xcc; 0x00;
  0x00; 0x00; 0x00; 0x00; 0xc6; 0xc6; 0xc6; 0xc6; 0xee; 0xd6; 0xc0;
  0x00; 0x7c; 0xc6; 0xc6; 0xc6; 0xc6; 0xc6; 0x6c; 0x6c; 0xee; 0x00;
  0x02; 0x70; 0xd8; 0xd8; 0x70; 0x00; 0x00; 0x00; 0x00; 0x00; 0x00;
  0x04; 0x00; 0x00; 0x00; 0x00; 0x00; 0x00; 0x00; 0x00; 0x00; 0x00].
Definition glyphs_21 : list Z := [
  0x04; 0x60; 0x60; 0x60; 0x60; 0x60; 0x60; 0x00; 0x60; 0x60; 0x00;
  0x02; 0xd8; 0xd8; 0xd8; 0x00; 0x00; 0x00; 0x00; 0x00; 0x00; 0x00;
  0x02; 0x50; 0x50; 0xf8; 0xf8; 0x50; 0xf8; 0xf8; 0x50; 0x50; 0x00;
  0x00; 0x30; 0x7c; 0xb0; 0xb0; 0x78; 0x34; 0x34; 0xf8; 0x30; 0x00;
  0x60; 0x92; 0x96; 0x6c; 0x18; 0x30; 0x6c; 0xd2; 0x92; 0x0c; 0x00;
  0x00; 0x70; 0xd8; 0xd8; 0x70; 0x72; 0xdc; 0xcc; 0xdc; 0x72; 0x00;
  0x03; 0xe0; 0xe0; 0x60; 0xc0; 0x00; 0x00; 0x00; 0x00; 0x00; 0x00;
  0x03; 0x30; 0x60; 0x60; 0xc0; 0xc0; 0xc0; 0x60; 0x60; 0x30; 0x00;
  0x03; 0xc0; 0x60; 0x60; 0x30; 0x30; 0x30; 0x60; 0x60; 0xc0; 0x00;
  0x01; 0x00; 0x00; 0x20; 0xa8; 0x70; 0xa8; 0x20; 0x00; 0x00; 0x00;
  0x01; 0x00; 0x00; 0x30; 0x30; 0xfc; 0xfc; 0x30; 0x30; 0x00; 0x00].
Definition glyphs_2c : list Z := [
  0x04; 0x00; 0x00; 0x00; 0x00; 0x00; 0x00; 0x40; 0xe0; 0x60; 0xc0;
  0x01; 0x00; 0x00; 0x00; 0x00; 0xfc; 0xfc; 0x00; 0x00; 0x00; 0x00;
  0x04; 0x00; 0x00; 0x00; 0x00; 0x00; 0x00; 0x40; 0xe0; 0x40; 0x00;
  0x01; 0x0c; 0x0c; 0x18; 0x18; 0x30; 0x60; 0x60; 0xc0; 0xc0; 0x00;
  0x01; 0x78; 0xcc; 0xcc; 0xdc; 0xec; 0xcc; 0xcc; 0xcc; 0x78; 0x00;
  0x01; 0x30; 0x70; 0xb0; 0x30; 0x30; 0x30; 0x30; 0x30; 0xfc; 0x00;
  0x01; 0x78; 0xcc; 0xcc; 0x0c; 0x38; 0x60; 0xc0; 0xc0; 0xfc; 0x00;
  0x01; 0x78; 0xcc; 0xcc; 0x0c; 0x38; 0x0c; 0xcc; 0xcc; 0x78; 0x00;
  0x01; 0x0c; 0x1c; 0x3c; 0x6c; 0xcc; 0xcc; 0xfc; 0x0c; 0x0c; 0x00;
  0x01; 0xfc; 0xc0; 0xc0; 0xf8; 0xcc; 0x0c; 0x0c; 0xcc; 0x78; 0x00;
  0x01; 0x78; 0xcc; 0xc0; 0xc0; 0xf8; 0xcc; 0xcc; 0xcc; 0x78; 0x00].
Definition glyphs_37 : list Z := [
  0x01; 0xfc; 0x0c; 0x0c; 0x18; 0x18; 0x30; 0x30; 0x60; 0x60; 0x00;
  0x01; 0x78; 0xcc; 0xcc; 0xcc; 0x78; 0xcc; 0xcc; 0xcc; 0x78; 0x00;
  0x01; 0x78; 0xcc; 0xcc; 0xcc; 0x7c; 0x0c; 0x0c; 0xcc; 0x78; 0x00;
  0x04; 0x00; 0x40; 0xe0; 0x40; 0x00; 0x40; 0xe0; 0x40; 0x00; 0x00;
  0x04; 0x00; 0x40; 0xe0; 0x40; 0x00; 0x40; 0xe0; 0x40; 0x80; 0x00;
  0x01; 0x0c; 0x18; 0x30; 0x60; 0xc0; 0x60; 0x30; 0x18; 0x0c; 0x00;
  0x01; 0x00; 0x00; 0x00; 0xfc; 0x00; 0x00; 0xfc; 0x00; 0x00; 0x00;
  0x01; 0xc0; 0x60; 0x30; 0x18; 0x0c; 0x18; 0x30; 0x60; 0xc0; 0x00;
  0x01; 0x78; 0xcc; 0xcc; 0x0c; 0x18; 0x30; 0x00; 0x30; 0x30; 0x00;
  0x01; 0x78; 0x8c; 0x8c; 0xbc; 0xac; 0xb8; 0x80; 0x8c; 0x78; 0x00;
  0x01; 0x78; 0xcc; 0xcc; 0xcc; 0xfc; 0xcc; 0xcc; 0xcc; 0xcc; 0x00].
Definition glyphs_42 : list Z := [
  0x01; 0xf8; 0xcc; 0xcc; 0xcc; 0xf8; 0xcc; 0xcc; 0xcc; 0xf8; 0x00;
  0x01; 0x78; 0xcc; 0xcc; 0xc0; 0xc0; 0xc0; 0xcc; 0xcc; 0x78; 0x00;
  0x01; 0xf8; 0xcc; 0xcc; 0xcc; 0xcc; 0xcc; 0xcc; 0xcc; 0xf8; 0x00;
  0x01; 0xfc; 0xc0; 0xc0; 0xc0; 0xf8; 0xc0; 0xc0; 0xc0; 0xfc; 0x00;
  0x01; 0xfc; 0xc0; 0xc0; 0xc0; 0xf8; 0xc0; 0xc0; 0xc0; 0xc0; 0x00;
  0x01; 0x78; 0xcc; 0xcc; 0xc0; 0xc0; 0xdc; 0xcc; 0xdc; 0x6c; 0x00;
  0x01; 0xcc; 0xcc; 0xcc; 0xcc; 0xfc; 0xcc; 0xcc; 0xcc; 0xcc; 0x00;
  0x03; 0xf0; 0x60; 0x60; 0x60; 0x60; 0x60; 0x60; 0x60; 0xf0; 0x00;
  0x01; 0x0c; 0x0c; 0x0c; 0x0c; 0x0c; 0x0c; 0x0c; 0xcc; 0x78; 0x00;
  0x01; 0xcc; 0xcc; 0xcc; 0xd8; 0xf0; 0xd8; 0xcc; 0xcc; 0xcc; 0x00;
  0x01; 0xc0; 0xc0; 0xc0; 0xc0; 0xc0; 0xc0; 0xc0; 0xc0; 0xfc; 0x00].
Definition glyphs_4d : list Z := [
  0x00; 0xc6; 0xc6; 0xee; 0xee; 0xd6; 0xd6; 0xd6; 0xc6; 0xc6; 0x00;
  0x01; 0xcc; 0xcc; 0xec; 0xec; 0xfc; 0xdc; 0xdc; 0xcc; 0xcc; 0x00;
  0x01; 0x78; 0xcc; 0xcc; 0xcc; 0xcc; 0xcc; 0xcc; 0xcc; 0x78; 0x00;
  0x01; 0xf8; 0xcc; 0xcc; 0xcc; 0xf8; 0xc0; 0xc0; 0xc0; 0xc0; 0x00;
  0x01; 0x78; 0xcc; 0xcc; 0xcc; 0xcc; 0xcc; 0xec; 0xdc; 0x78; 0x0c;
  0x01; 0xf8; 0xcc; 0xcc; 0xcc; 0xf8; 0xd8; 0xcc; 0xcc; 0xcc; 0x00;
  0x01; 0x78; 0xcc; 0xcc; 0x60; 0x30; 0x18; 0xcc; 0xcc; 0x78; 0x00;
  0x01; 0xfc; 0xb4; 0x30; 0x30; 0x30; 0x30; 0x30; 0x30; 0x30; 0x00;
  0x01; 0xcc; 0xcc; 0xcc; 0xcc; 0xcc; 0xcc; 0xcc; 0xcc; 0x78; 0x00;
  0x00; 0xc6; 0xc6; 0xc6; 0x6c; 0x6c; 0x6c; 0x38; 0x38; 0x10; 0x00;
  0x00; 0xc6; 0xc6; 0xc6; 0xd6; 0xd6; 0xd6; 0xd6; 0xfe; 0x6c; 0x00].
Definition glyphs_58 : list Z := [
  0x01; 0xcc; 0xcc; 0xcc; 0x48; 0x30; 0x48; 0xcc; 0xcc; 0xcc; 0x00;
  0x01; 0xcc; 0xcc; 0xcc; 0xcc; 0x78; 0x30; 0x30; 0x30; 0x30; 0x00;
  0x01; 0xfc; 0x0c; 0x0c; 0x18; 0x30; 0x60; 0xc0; 0xc0; 0xfc; 0x00;
  0x03; 0xf0; 0xc0; 0xc0; 0xc0; 0xc0; 0xc0; 0xc0; 0xc0; 0xf0; 0x00;
  0x01; 0xc0; 0xc0; 0x60; 0x60; 0x30; 0x18; 0x18; 0x0c; 0x0c; 0x00;
  0x03; 0xf0; 0x30; 0x30; 0x30; 0x30; 0x30; 0x30; 0x30; 0xf0; 0x00;
  0x01; 0x30; 0x78; 0xcc; 0x84; 0x00; 0x00; 0x00; 0x00; 0x00; 0x00;
  0x01; 0x00; 0x00; 0x00; 0x00; 0x00; 0x00; 0x00; 0x00; 0xfc; 0xfc;
  0x03; 0xc0; 0x60; 0x30; 0x00; 0x00; 0x00; 0x00; 0x00; 0x00; 0x00;
  0x01; 0x00; 0x00; 0x00; 0x78; 0x0c; 0x7c; 0xcc; 0xcc; 0x7c; 0x00;
  0x01; 0xc0; 0xc0; 0xc0; 0xd8; 0xec; 0xcc; 0xcc; 0xec; 0xd8; 0x00].
Definition glyphs_63 : list Z := [
  0x01; 0x00; 0x00; 0x00; 0x78; 0xcc; 0xc0; 0xc0; 0xcc; 0x78; 0x00;
  0x01; 0x0c; 0x0c; 0x0c; 0x6c; 0xdc; 0xcc; 0xcc; 0xdc; 0x6c; 0x00;
  0x01; 0x00; 0x00; 0x00; 0x78; 0xcc; 0xfc; 0xc0; 0xcc; 0x78; 0x00;
  0x01; 0x38; 0x6c; 0x60; 0x60; 0xf0; 0x60; 0x60; 0x60; 0x60; 0x00;
  0x01; 0x00; 0x00; 0x00; 0x74; 0xcc; 0xcc; 0xcc; 0x7c; 0x0c; 0x78;
  0x01; 0xc0; 0xc0; 0xc0; 0xd8; 0xec; 0xcc; 0xcc; 0xcc; 0xcc; 0x00;
  0x03; 0x60; 0x60; 0x00; 0xe0; 0x60; 0x60; 0x60; 0x60; 0xf0; 0x00;
  0x01; 0x0c; 0x0c; 0x00; 0x0c; 0x0c; 0x0c; 0x0c; 0x0c; 0xcc; 0x78;
  0x01; 0xc0; 0xc0; 0xc0; 0xcc; 0xd8; 0xf0; 0xf0; 0xd8; 0xcc; 0x00;
  0x01; 0x70; 0x30; 0x30; 0x30; 0x30; 0x30; 0x30; 0x30; 0xfc; 0x00;
  0x00; 0x00; 0x00; 0x00; 0xec; 0xfe; 0xd6; 0xd6; 0xd6; 0xd6; 0x00].
Definition glyphs_6e : list Z := [
  0x01; 0x00; 0x00; 0x00; 0xd8; 0xec; 0xcc; 0xcc; 0xcc; 0xcc; 0x00;
  0x01; 0x00; 0x00; 0x00; 0x78; 0xcc; 0xcc; 0xcc; 0xcc; 0x78; 0x00;
  0x01; 0x00; 0x00; 0x00; 0xd8; 0xec; 0xcc; 0xcc; 0xf8; 0xc0; 0xc0;
  0x01; 0x00; 0x00; 0x00; 0x6c; 0xdc; 0xcc; 0xcc; 0x7c; 0x0c; 0x0c;
  0x01; 0x00; 0x00; 0x00; 0xd8; 0xec; 0xc0; 0xc0; 0xc0; 0xc0; 0x00;
  0x01; 0x00; 0x00; 0x00; 0x78; 0xcc; 0x60; 0x18; 0xcc; 0x78; 0x00;
  0x01; 0x00; 0x60; 0x60; 0xf8; 0x60; 0x60; 0x60; 0x6c; 0x38; 0x00;
  0x01; 0x00; 0x00; 0x00; 0xcc; 0xcc; 0xcc; 0xcc; 0xdc; 0x6c; 0x00;
  0x01; 0x00; 0x00; 0x00; 0xcc; 0xcc; 0x48; 0x48; 0x30; 0x30; 0x00;
  0x00; 0x00; 0x00; 0x00; 0xc6; 0xc6; 0xd6; 0xd6; 0xfe; 0x6c; 0x00;
  0x01; 0x00; 0x00; 0x00; 0xcc; 0x48; 0x30; 0x30; 0x48; 0xcc; 0x00].
Definition glyphs_79 : list Z := [
  0x01; 0x00; 0x00; 0x00; 0xcc; 0xcc; 0xcc; 0x7c; 0x0c; 0xcc; 0x78;
  0x01; 0x00; 0x00; 0x00; 0xfc; 0x0c; 0x18; 0x60; 0xc0; 0xfc; 0x00;
  0x02; 0x38; 0x60; 0x60; 0x60; 0xc0; 0x60; 0x60; 0x60; 0x38; 0x00;
  0x03; 0x60; 0x60; 0x60; 0x60; 0x60; 0x60; 0x60; 0x60; 0x60; 0x00;
  0x02; 0xe0; 0x30; 0x30; 0x30; 0x18; 0x30; 0x30; 0x30; 0xe0; 0x00;
  0x01; 0x64; 0xfc; 0x98; 0x00; 0x00; 0x00; 0x00; 0x00; 0x00; 0x00].

Definition x7x11b_bits : list Z := concat [glyphs_16; glyphs_21; glyphs_2c; glyphs_37; glyphs_42; glyphs_4d; glyphs_58; glyphs_63; glyphs_6e; glyphs_79].

Definition FONT_GET_DATA (ch : Z) : list Z := drop (Z.to_nat ((ch - FONT_START_CHAR) * FONT_GET_HEIGHT)) x7x11b_bits.
Definition FONT_GET_WIDTH (ch : Z) : Z := 8 - Z.land (peek (FONT_GET_DATA ch)) 7.
Definition has_glyph (ch : Z) : bool := (FONT_START_CHAR <=? ch) && ((ch - FONT_START_CHAR) * FONT_GET_HEIGHT <? Z.of_nat (length x7x11b_bits)).

(** ** The display *)

(** The colours in use, the palette and the digit separator. *)
Record pen := Pen { foreground_color : Z; background_color : Z; pen_palette : list Z; pen_separator : Z }.
Definition GET_PALETTE_COLOR (idx : Z) (p : pen) : Z := nth (Z.to_nat idx) (pen_palette p) 0.
Definition lcd_set_foreground (fg_idx : Z) (p : pen) : pen := Pen (GET_PALETTE_COLOR fg_idx p) (background_color p) (pen_palette p) (pen_separator p).
Definition lcd_set_background (bg_idx : Z) (p : pen) : pen := Pen (foreground_color p) (GET_PALETTE_COLOR bg_idx p) (pen_palette p) (pen_separator p).

Abbreviation screen := (list (list Z)).
Definition pixel (s : screen) (x y : Z) : Z := nth (Z.to_nat x) (nth (Z.to_nat y) s []) 0.

Section Lcd.
Variables (LCD_WIDTH LCD_HEIGHT : Z).
Implicit Types (s : screen) (p : pen).

Fixpoint put_window (x y : nat) (rows : list (list Z)) s : screen :=
  match rows with
  | [] => s
  | r :: rows => put_window x (S y) rows (alter (fun row => take x row ++ r ++ drop (x + length r) row) y s)
  end.
(** [lcd_bulk(x, y, w, h)] of a buffer seen as rows. *)
Definition lcd_bulk_window (x y w h : Z) (rows : list (list Z)) s : option screen :=
  if (0 <=? x) && (0 <=? y) && (x + w <=? LCD_WIDTH) && (y + h <=? LCD_HEIGHT) then Some (put_window (Z.to_nat x) (Z.to_nat y) rows s) else None.

(** A row of a bitmap: its pixels and the bytes that follow. *)
Definition ink p (set : bool) : Z := if set then foreground_color p else background_color p.
Fixpoint blit_row p (cols : list Z) (bits : Z) (b : list Z) : option (list Z * list Z) :=
  match cols with
  | [] => Some ([], b)
  | r :: cols =>
      '(bits, b) ← (if Z.land r 7 =? 0 then match b with v :: b => Some (v, b) | [] => None end else Some (bits, b));
      '(px, b) ← blit_row p cols (u32 (Z.shiftl bits 1)) b;
      Some (ink p (bit_test bits 0x80) :: px, b)
  end.
Fixpoint blit_rows p (height : nat) (width : Z) (b : list Z) : option (list (list Z)) :=
  match height with
  | O => Some []
  | S height => '(r, b) ← blit_row p (seqZ 0 width) 0 b; rows ← blit_rows p height width b; Some (r :: rows)
  end.
Definition lcd_blitBitmap (x y width height : Z) (b : list Z) p s : option screen :=
  rows ← blit_rows p (Z.to_nat height) width b; lcd_bulk_window (u16 x) (u16 y) width height rows s.

(** The width and the screen. *)
Definition lcd_drawchar (ch x y : Z) p s : option (Z * screen) :=
  if has_glyph ch then
    let w := FONT_GET_WIDTH ch in
    let step := if (8 <? FONT_WIDTH) && (w <=? 8) then 9 else w in
    s ← lcd_blitBitmap x y step FONT_GET_HEIGHT (FONT_GET_DATA ch) p s; Some (w, s)
  else None.

(** ** The character stream *)

Record lcdPrintStream := LcdPrintStream { ps_start_x : Z; ps_x : Z; ps_y : Z; ps_state : Z; ps_pen : pen; ps_screen : screen }.
Implicit Types (ps : lcdPrintStream).

Definition put_normal ps (ch : Z) : option lcdPrintStream :=
  if ch =? 10 then Some (LcdPrintStream (ps_start_x ps) (ps_start_x ps) (ps_y ps + FONT_STR_HEIGHT) (ps_state ps) (ps_pen ps) (ps_screen ps))
  else
    '(w, s) ← lcd_drawchar ch (ps_x ps) (ps_y ps) (ps_pen ps) (ps_screen ps);
    Some (LcdPrintStream (ps_start_x ps) (ps_x ps + w) (ps_y ps) (ps_state ps) (ps_pen ps) s).
Definition lcd_put ps (ch : Z) : option lcdPrintStream :=
  let next state p := Some (LcdPrintStream (ps_start_x ps) (ps_x ps) (ps_y ps) state p (ps_screen ps)) in
  if negb (ps_state ps =? 0) then
    next 0 (if ps_state ps =? R_BGCOLOR then lcd_set_background ch (ps_pen ps)
            else if ps_state ps =? R_FGCOLOR then lcd_set_foreground ch (ps_pen ps) else ps_pen ps)
  else if ch <? 9 then next ch (ps_pen ps)
  else put_normal ps ch.
Fixpoint lcd_puts (text : list Z) ps : option lcdPrintStream :=
  match text with
  | [] => Some ps
  | ch :: text => ps ← lcd_put ps ch; lcd_puts text ps
  end.

(** The screen; the colours stay as the text leaves them. *)
Definition lcd_printf {F : Type} `{FloatOps F} (x y : Z) (fmt : list Z) (args : list (parg F)) p s : option screen :=
  text ← chvprintf (pen_separator p) fmt args; ps_screen <$> lcd_puts text (LcdPrintStream x x y 0 p s).

(** ** What is drawn *)

Definition sized (s : screen) : Prop := Z.of_nat (length s) = LCD_HEIGHT /\ Forall (fun row => Z.of_nat (length row) = LCD_WIDTH) s.

Definition text_width (text : list Z) : Z := fold_right (fun ch w => FONT_GET_WIDTH ch + w) 0 text.
Fixpoint text_pixel p (text : list Z) (x r : Z) : option Z :=
  match text with
  | [] => None
  | ch :: text =>
      if x <? FONT_GET_WIDTH ch then Some (ink p (Z.testbit (nth (Z.to_nat r) (FONT_GET_DATA ch) 0) (7 - x)))
      else text_pixel p text (x - FONT_GET_WIDTH ch) r
  end.
(** [t] is [s] with the text at [x0], [y0]. *)
Definition lettered p (text : list Z) (x0 y0 : Z) s (t : screen) : Prop :=
  sized t /\ forall x y, 0 <= x < LCD_WIDTH -> 0 <= y < LCD_HEIGHT ->
    pixel t x y = (if (x0 <=? x) && (x <? x0 + text_width text) && (y0 <=? y) && (y <? y0 + FONT_GET_HEIGHT)
                   then default (pixel s x y) (text_pixel p text (x - x0) (y - y0)) else pixel s x y).
(** Text of the font, no format directive. *)
Definition plain (text : list Z) : Prop := Forall (fun ch => has_glyph ch = true /\ ch <> 37) text.

Lemma put_row_pixel x y r s i j : sized s -> (x + length r <= Z.to_nat LCD_WIDTH)%nat -> (y < length s)%nat -> 0 <= i < LCD_WIDTH -> 0 <= j ->
  let t := alter (fun row => take x row ++ r ++ drop (x + length r) row) y s in
  pixel t i j = if (Z.of_nat x <=? i) && (i <? Z.of_nat (x + length r)) && (j =? Z.of_nat y) then nth (Z.to_nat i - x) r 0 else pixel s i j.
Proof.
  intros [Hl Hs] Hr Hy Hi Hj t. subst t. unfold pixel. rewrite !(nth_lookup _ (Z.to_nat j)), list_lookup_alter.
  destruct (decide (Z.to_nat j = y)) as [E|Hne].
  - replace (j =? Z.of_nat y) with true by (symmetry; apply Z.eqb_eq; lia). rewrite E, andb_true_r.
    destruct (lookup_lt_is_Some_2 s y Hy) as [row Hrow]. rewrite Hrow, decide_True by done.
    pose proof (Forall_lookup_1 _ _ _ _ Hs Hrow) as Hlen. cbn beta in Hlen. cbn [fmap option_fmap option_map from_option]. unfold id.
    destruct (Z.leb_spec (Z.of_nat x) i), (Z.ltb_spec i (Z.of_nat (x + length r))); cbn [andb].
    + rewrite app_nth2, length_take, Nat.min_l by (rewrite ?length_take; lia). rewrite app_nth1 by lia. done.
    + rewrite app_nth2, length_take, Nat.min_l by (rewrite ?length_take; lia). rewrite app_nth2 by lia.
      rewrite !nth_lookup, lookup_drop. do 2 f_equal. lia.
    + rewrite app_nth1 by (rewrite length_take; lia). rewrite !nth_lookup, lookup_take_lt by lia. done.
    + lia.
  - replace (j =? Z.of_nat y) with false by (symmetry; apply Z.eqb_neq; lia). by rewrite andb_false_r, decide_False by congruence.
Qed.
Lemma put_row_sized x y r s : sized s -> (x + length r <= Z.to_nat LCD_WIDTH)%nat ->
  sized (alter (fun row => take x row ++ r ++ drop (x + length r) row) y s).
Proof.
  intros [Hl Hs] Hr. split; [by rewrite length_alter|]. apply Forall_alter; [done|]. intros row _ Hrow.
  rewrite !length_app, length_take, length_drop. lia.
Qed.

Lemma put_window_pixel w x rows : Forall (fun r => length r = w) rows -> (x + w <= Z.to_nat LCD_WIDTH)%nat -> forall y s, sized s ->
  (y + length rows <= length s)%nat ->
  sized (put_window x y rows s) /\ forall i j, 0 <= i < LCD_WIDTH -> 0 <= j ->
    pixel (put_window x y rows s) i j =
      if (Z.of_nat x <=? i) && (i <? Z.of_nat (x + w)) && (Z.of_nat y <=? j) && (j <? Z.of_nat (y + length rows))
      then nth (Z.to_nat i - x) (nth (Z.to_nat j - y) rows []) 0 else pixel s i j.
Proof.
  intros Hrows Hx. induction Hrows as [|r rows Hr _ IH]; intros y s Hs Hy; cbn [put_window length] in *.
  { split; [done|]. intros i j Hi Hj. replace (_ && (Z.of_nat y <=? j) && _) with false; [done|]. symmetry. apply andb_false_iff.
    destruct (Z.leb_spec (Z.of_nat y) j); [right; apply Z.ltb_ge; lia|left; apply andb_false_r]. }
  pose proof (put_row_sized x y r s Hs ltac:(lia)) as Hs1.
  destruct (IH (S y) _ Hs1 ltac:(rewrite length_alter; lia)) as [IHs IHp]. split; [exact IHs|].
  intros i j Hi Hj. rewrite IHp by done. rewrite put_row_pixel by (done || lia). rewrite Hr.
  destruct ((Z.of_nat x <=? i) && (i <? Z.of_nat (x + w))); cbn [andb]; [|done].
  destruct (Z.leb_spec (Z.of_nat (S y)) j), (Z.leb_spec (Z.of_nat y) j), (Z.eqb_spec j (Z.of_nat y)); try lia; cbn [andb];
    destruct (Z.ltb_spec j (Z.of_nat (S y + length rows))), (Z.ltb_spec j (Z.of_nat (y + S (length rows)))); try lia; try done.
  - replace (Z.to_nat j - y)%nat with (S (Z.to_nat j - S y)) by lia. done.
  - replace (Z.to_nat j - y)%nat with O by lia. done.
Qed.

(** *** Bitmaps at most a byte wide *)

Lemma blit_row_rest p v b n : 0 <= v < 256 -> forall k, 1 <= k -> k + Z.of_nat n <= 8 ->
  blit_row p (seqZ k (Z.of_nat n)) (Z.shiftl v k) b = Some (map (fun c => ink p (Z.testbit v (7 - c))) (seqZ k (Z.of_nat n)), b).
Proof.
  intros Hv. induction n as [|n IH]; intros k Hk Hn; [done|]. rewrite seqZ_cons by lia.
  replace (Z.pred (Z.of_nat (S n))) with (Z.of_nat n) by lia. cbn [blit_row map].
  replace (Z.land k 7 =? 0) with false.
  2:{ symmetry. apply Z.eqb_neq. assert (E : k = 1 \/ k = 2 \/ k = 3 \/ k = 4 \/ k = 5 \/ k = 6 \/ k = 7) by lia.
      by destruct E as [->|[->|[->|[->|[->|[->| ->]]]]]]. }
  cbn [mbind option_bind].
  assert (E : u32 (Z.shiftl (Z.shiftl v k) 1) = Z.shiftl v (Z.succ k)).
  { rewrite Z.shiftl_shiftl by lia. replace (k + 1) with (Z.succ k) by lia. apply u32_small. rewrite Z.shiftl_mul_pow2 by lia.
    assert (2 ^ Z.succ k <= 2 ^ 8) by (apply Z.pow_le_mono_r; lia). change (2 ^ 8) with 256 in *. assert (0 < 2 ^ Z.succ k) by (apply Z.pow_pos_nonneg; lia). nia. }
  rewrite E, IH by lia. cbn [mbind option_bind]. do 4 f_equal. change 0x80 with (2 ^ 7). rewrite bit_test_pow2 by lia. by rewrite Z.shiftl_spec by lia.
Qed.
Lemma blit_row_byte p v b w : 0 <= v < 256 -> 1 <= w <= 8 ->
  blit_row p (seqZ 0 w) 0 (v :: b) = Some (map (fun c => ink p (Z.testbit v (7 - c))) (seqZ 0 w), b).
Proof.
  intros Hv Hw. rewrite seqZ_cons by lia. cbn [blit_row map Z.land Z.eqb mbind option_bind].
  pose proof (blit_row_rest p v b (Z.to_nat (w - 1)) Hv 1 ltac:(lia) ltac:(lia)) as E.
  replace (Z.of_nat (Z.to_nat (w - 1))) with (Z.pred w) in E by lia. change (Z.succ 0) with 1.
  assert (Eu : u32 (Z.shiftl v 1) = Z.shiftl v 1) by (apply u32_small; rewrite Z.shiftl_mul_pow2 by lia; lia). change (Z.land 0 7 =? 0) with true. cbn [mbind option_bind]. rewrite Eu, E. cbn [mbind option_bind].
  do 4 f_equal. change 0x80 with (2 ^ 7). by rewrite bit_test_pow2 by lia.
Qed.
Lemma blit_rows_bytes p w n : 1 <= w <= 8 -> forall b, (n <= length b)%nat -> Forall (fun v => 0 <= v < 256) b ->
  blit_rows p n w b = Some (map (fun v => map (fun c => ink p (Z.testbit v (7 - c))) (seqZ 0 w)) (take n b)).
Proof.
  intros Hw. induction n as [|n IH]; intros b Hb Hv; [done|]. destruct Hv as [|v b Hv Hvs]; [cbn in Hb; lia|]. cbn [blit_rows length] in *.
  rewrite blit_row_byte by done. cbn [mbind option_bind]. rewrite IH by (done || lia). done.
Qed.

(** *** One character *)

Lemma glyph_data ch : has_glyph ch = true -> 1 <= FONT_GET_WIDTH ch <= 8 /\ (11 <= length (FONT_GET_DATA ch))%nat /\ Forall (fun v => 0 <= v < 256) (FONT_GET_DATA ch).
Proof.
  intros Hg. unfold has_glyph in Hg. apply andb_true_iff in Hg as [H1%Z.leb_le H2%Z.ltb_lt]. unfold FONT_START_CHAR, FONT_GET_HEIGHT in *.
  assert (Hb : Forall (fun v => 0 <= v < 256) x7x11b_bits).
  { apply Forall_forall. intros v Hv. assert (T : forallb (fun v => (0 <=? v) && (v <? 256)) x7x11b_bits = true) by (vm_compute; reflexivity).
    rewrite forallb_forall in T. specialize (T v (proj1 (list_elem_of_In _ _) Hv)). lia. }
  change (Z.of_nat (length x7x11b_bits)) with 1155 in H2.
  split; [|split; [|by apply Forall_drop]].
  - unfold FONT_GET_WIDTH. assert (0 <= Z.land (peek (FONT_GET_DATA ch)) 7 < 8).
    { change 7 with (Z.ones 3). rewrite Z.land_ones by lia. apply Z.mod_pos_bound. lia. } lia.
  - unfold FONT_GET_DATA, FONT_START_CHAR, FONT_GET_HEIGHT. rewrite length_drop. change (length x7x11b_bits) with 1155%nat. lia.
Qed.

Lemma drawchar_draws ch x y p s : has_glyph ch = true -> sized s -> 0 <= x -> x + FONT_GET_WIDTH ch <= LCD_WIDTH -> 0 <= y -> y + FONT_GET_HEIGHT <= LCD_HEIGHT ->
  LCD_WIDTH < 65536 -> LCD_HEIGHT < 65536 ->
  exists t, lcd_drawchar ch x y p s = Some (FONT_GET_WIDTH ch, t) /\ lettered p [ch] x y s t.
Proof.
  intros Hg Hs Hx Hxw Hy Hyh Hw16 Hh16. destruct (glyph_data ch Hg) as (Hw & Hl & Hb). unfold lcd_drawchar. rewrite Hg. cbv zeta. change (8 <? FONT_WIDTH) with false. cbn [andb].
  unfold lcd_blitBitmap. change (Z.to_nat FONT_GET_HEIGHT) with 11%nat. rewrite blit_rows_bytes by done. cbn [mbind option_bind].
  set (w := FONT_GET_WIDTH ch) in *. set (rows := map _ (take 11 _)). rewrite (u16_small x), (u16_small y) by (unfold FONT_GET_HEIGHT in *; lia).
  unfold lcd_bulk_window. rewrite (proj2 (Z.leb_le 0 x)), (proj2 (Z.leb_le 0 y)), (proj2 (Z.leb_le (x + w) _)), (proj2 (Z.leb_le (y + _) _)) by done. cbn [andb mbind option_bind].
  eexists. split; [reflexivity|].
  assert (Hlen : length rows = 11%nat) by (subst rows; rewrite length_map, length_take; lia).
  assert (Hrows : Forall (fun r => length r = Z.to_nat w) rows).
  { subst rows. apply Forall_forall. intros r Hr%list_elem_of_In%in_map_iff. destruct Hr as (v & <- & _). by rewrite length_map, length_seqZ. }
  pose proof Hs as [Hlh _]. unfold FONT_GET_HEIGHT in *.
  destruct (put_window_pixel (Z.to_nat w) (Z.to_nat x) rows Hrows ltac:(lia) (Z.to_nat y) s Hs ltac:(lia)) as [Hsz Hpx]. split; [exact Hsz|].
  intros i j Hi Hj. rewrite Hpx by lia. rewrite Hlen. cbn [text_width fold_right]. fold w. rewrite Z.add_0_r, !Nat2Z.inj_add, !Z2Nat.id by lia. change (Z.of_nat 11) with 11. unfold FONT_GET_HEIGHT.
  destruct (Z.leb_spec x i), (Z.ltb_spec i (x + w)), (Z.leb_spec y j), (Z.ltb_spec j (y + 11)); cbn [andb]; try done.
  cbn [text_pixel]. fold w. rewrite (proj2 (Z.ltb_lt (i - x) w)) by lia. cbn [default from_option]. subst rows.
  rewrite !nth_lookup, list_lookup_fmap, lookup_take_lt by lia. rewrite <- !Z2Nat.inj_sub by lia.
  destruct (FONT_GET_DATA ch !! Z.to_nat (j - y)) as [v|] eqn:E; [|apply lookup_ge_None in E; lia]. cbn [fmap option_fmap option_map from_option]. unfold id.
  rewrite list_lookup_fmap, lookup_seqZ_lt by lia. cbn. unfold id. do 2 f_equal. lia.
Qed.

(** *** A text *)

Lemma text_width_nonneg text : plain text -> 0 <= text_width text.
Proof. induction 1 as [|ch text [Hg _] _ IH]; [done|]. cbn. destruct (glyph_data ch Hg) as [? _]. fold (text_width text). lia. Qed.

Lemma lettered_cons p ch text x y s t u : has_glyph ch = true -> plain text -> lettered p [ch] x y s t -> lettered p text (x + FONT_GET_WIDTH ch) y t u ->
  lettered p (ch :: text) x y s u.
Proof.
  intros Hg Hp [_ H1] [Hu H2]. split; [exact Hu|]. intros i j Hi Hj. rewrite H2, H1 by done. cbn [text_width fold_right]. fold (text_width text).
  pose proof (text_width_nonneg text Hp) as Hw. destruct (glyph_data ch Hg) as [Hc _]. rewrite Z.add_0_r. set (w := FONT_GET_WIDTH ch) in *. set (tw := text_width text) in *.
  cbn [text_pixel]. fold w.
  destruct (Z.leb_spec y j), (Z.ltb_spec j (y + FONT_GET_HEIGHT)); rewrite ?andb_false_r, ?andb_true_r; try done.
  destruct (Z.leb_spec x i), (Z.leb_spec (x + w) i); cbn [andb]; try lia; try done.
  - rewrite (proj2 (Z.ltb_ge (i - x) w)), (proj2 (Z.ltb_ge i (x + w))) by lia. rewrite Z.add_assoc. destruct (Z.ltb_spec i (x + w + tw)); [|done].
    replace (i - x - w) with (i - (x + w)) by lia. done.
  - rewrite (proj2 (Z.ltb_lt (i - x) w)), (proj2 (Z.ltb_lt i (x + w))), (proj2 (Z.ltb_lt i (x + (w + tw)))) by lia. done.
Qed.

Lemma lcd_puts_draws text : plain text -> forall start x y p s, sized s -> 0 <= x -> x + text_width text <= LCD_WIDTH -> 0 <= y -> y + FONT_GET_HEIGHT <= LCD_HEIGHT ->
  LCD_WIDTH < 65536 -> LCD_HEIGHT < 65536 ->
  exists ps, lcd_puts text (LcdPrintStream start x y 0 p s) = Some ps /\ lettered p text x y s (ps_screen ps).
Proof.
  induction 1 as [|ch text [Hg Hpc] Hp IH]; intros start x y p s Hs Hx Hxw Hy Hyh Hw16 Hh16; cbn [lcd_puts].
  { eexists. split; [reflexivity|]. split; [exact Hs|]. intros i j _ _. cbn [text_width fold_right ps_screen text_pixel default from_option]. by destruct (_ && _). }
  cbn [text_width fold_right] in Hxw. fold (text_width text) in Hxw. pose proof (text_width_nonneg text Hp) as Hw. destruct (glyph_data ch Hg) as [Hc _].
  destruct (drawchar_draws ch x y p s Hg Hs Hx ltac:(lia) Hy Hyh Hw16 Hh16) as (t & E & Ht).
  assert (Hch : 22 <= ch) by (unfold has_glyph, FONT_START_CHAR in Hg; lia).
  unfold lcd_put, put_normal. cbn [ps_state ps_x ps_y ps_pen ps_screen ps_start_x Z.eqb negb]. rewrite (proj2 (Z.ltb_ge ch 9)), (proj2 (Z.eqb_neq ch 10)) by lia.
  rewrite E. cbn [mbind option_bind]. destruct (IH start (x + FONT_GET_WIDTH ch) y p t (proj1 Ht) ltac:(lia) ltac:(lia) Hy Hyh Hw16 Hh16) as (ps & -> & Hps).
  exists ps. split; [done|]. by apply lettered_cons with t.
Qed.

Lemma printf_plain {F : Type} `{FloatOps F} sep text (args : list (parg F)) : plain text -> chvprintf sep text args = Some text.
Proof.
  intros Hp. unfold chvprintf. generalize (Nat.lt_succ_diag_r (length text)). generalize (S (length text)) as fuel. intros fuel. revert text Hp.
  induction fuel as [|fuel IH]; intros text Hp Hf; [lia|]. destruct Hp as [|ch text [_ Hc] Hp]; [done|]. cbn [length] in Hf. cbn [chvprintf_loop].
  rewrite (proj2 (Z.eqb_neq ch 37)) by done. cbn [negb]. by rewrite (IH text Hp ltac:(lia)).
Qed.

Lemma lcd_printf_draws {F : Type} `{FloatOps F} (text : list Z) x y (args : list (parg F)) p s : plain text -> sized s -> 0 <= x -> x + text_width text <= LCD_WIDTH ->
  0 <= y -> y + FONT_GET_HEIGHT <= LCD_HEIGHT -> LCD_WIDTH < 65536 -> LCD_HEIGHT < 65536 ->
  exists t, lcd_printf x y text args p s = Some t /\ lettered p text x y s t.
Proof.
  intros Hp Hs Hx Hxw Hy Hyh Hw16 Hh16. unfold lcd_printf. rewrite (printf_plain _ text args Hp). cbn [mbind option_bind].
  destruct (lcd_puts_draws text Hp x x y p s Hs Hx Hxw Hy Hyh Hw16 Hh16) as (ps & -> & Hl). by exists (ps_screen ps).
Qed.
End Lcd.

(** A percent sign in the text is taken for a directive: here there is no argument for
    it. *)
Lemma percent_is_directive (p : pen) s : lcd_printf (F := SpecFloat.spec_float) 480 320 0 287 (cstr "R%s.bmp") [] p s = None.
Proof. reflexivity. Qed.
