(* ===== verification/Screen.v ===== *)
(** * Screenshots: saving and loading the screen (ui.c)

    The three image formats of the SD card menu: BMP rows with their bytes swapped,
    TIFF rows converted to RGB888 and compressed in the same buffer, and the PNG
    codec of Png.v and PngDec.v with the palette built from the pixels. The
    conversions run in place in [spi_buffer], which is a list of bytes here that the
    code sees as bytes and as 16-bit words.

    The display is its frame memory: rows of 16-bit pixels that reading returns as
    they were written. Saving draws a progress tick on the last pixel of each row it
    has read. A file is an instance of [FatOut] or [FatIn]; [Roomy] and [Readable]
    say that its writes are complete and its reads succeed.

    The theorems: a saved BMP or TIFF file loads as the screen it was taken from
    ([bmp_roundtrip], [tiff_roundtrip]), a PNG file as that screen with the ticks
    ([png_screenshot]), each with the name of the file printed over it, and what the
    savers report on a full card ([full_card_reports]). *)

From stdpp Require Import gmap.
From S2P Require Import Prelude Num Common Colour Png PngDec Printf Lcd.

(** ** Files: [f_write] and [f_read] of FatFs *)

(** [f_write c d] is the file, whether the result is FR_OK, and the bytes written:
    FR_OK with fewer bytes is a full card. *)
Class FatOut (C : Type) := {
  f_write : C -> list Z -> C * bool * Z;
  f_written : C -> list Z;
  f_write_law : forall c d c', f_write c d = (c', true, Z.of_nat (length d)) -> f_written c' = f_written c ++ d;
  f_write_nil : forall c, f_written (fst (fst (f_write c []))) = f_written c }.

(** [f_read c n]: fewer than [n] bytes at the end of the file, none on an error. *)
Class FatIn (C : Type) := {
  f_read : C -> Z -> C * bool * list Z;
  f_left : C -> list Z;
  f_bytes : forall c, Forall (fun b => 0 <= b < 256) (f_left c);
  f_read_law : forall c n, 0 <= n ->
    (snd (fst (f_read c n)) = true /\ snd (f_read c n) = take (Z.to_nat n) (f_left c) /\
      f_left (fst (fst (f_read c n))) = drop (Z.to_nat n) (f_left c)) \/
    (snd (fst (f_read c n)) = false /\ f_left (fst (fst (f_read c n))) = f_left c) }.

(** The callbacks of the PNG codec. *)
Definition png_fs_write {C} `{FatOut C} (c : C) (d : list Z) : C * Z :=
  let '(c, ok, w) := f_write c d in (c, if ok then w else 0).
Definition png_fs_read {C} `{FatIn C} (c : C) (n : Z) : C * list Z :=
  let '(c, ok, d) := f_read c n in (c, if ok then d else []).

#[export] Program Instance fat_sink C `{FatOut C} : Sink C := {| snk_write := png_fs_write; snk_data := f_written |}.
Next Obligation.
  intros C FO c d c' E. unfold png_fs_write in E. destruct (f_write c d) as [[c1 ok] w] eqn:Ew. destruct ok; injection E as <- E.
  - subst w. exact (f_write_law _ _ _ Ew).
  - destruct d; [|cbn in E; lia]. pose proof (f_write_nil c) as N. rewrite Ew in N. cbn in N. by rewrite N, app_nil_r.
Qed.
#[export] Program Instance fat_source C `{FatIn C} : Source C :=
  {| src_read := png_fs_read; src_left := f_left; src_bytes := f_bytes |}.
Next Obligation.
  intros C FI c n Hn. unfold png_fs_read. pose proof (f_read_law c n Hn) as L. destruct (f_read c n) as [[c1 ok] d].
  cbn [fst snd] in *. destruct L as [(-> & -> & ->)|(-> & ->)]; [by left|by right].
Qed.

(** ** The buffer *)

Definition u16_bytes (v : Z) : list Z := [u8 v; u8 (Z.shiftr v 8)].
Definition get8 (mem : list Z) (i : Z) : Z := tab mem i.
Definition get16 (mem : list Z) (i : Z) : Z := tab mem (2 * i) + 256 * tab mem (2 * i + 1).
Definition put8 (i v : Z) (mem : list Z) : list Z := <[Z.to_nat i := u8 v]> mem.
Definition put16 (i v : Z) (mem : list Z) : list Z := put8 (2 * i + 1) (Z.shiftr v 8) (put8 (2 * i) v mem).
(** The [n] words at the beginning of the buffer. *)
Definition words (n : Z) (mem : list Z) : list Z := map (get16 mem) (seqZ 0 n).
(** Bytes copied to the beginning of the buffer: a read that is short leaves the rest. *)
Definition store_at (d mem : list Z) : list Z := d ++ drop (length d) mem.

(** ** File headers *)

Definition BMP_UINT16 (v : Z) : list Z := u16_bytes v.
Definition BMP_UINT32 (v : Z) : list Z := [u8 v; u8 (Z.shiftr v 8); u8 (Z.shiftr v 16); u8 (Z.shiftr v 24)].
Definition BMP_H1_SIZE : Z := 14.
Definition BMP_V4_SIZE : Z := 108.
Definition BMP_HEAD_SIZE : Z := BMP_H1_SIZE + BMP_V4_SIZE.
Definition IFD_ENTRY (type val_t count value : Z) : list Z :=
  BMP_UINT16 type ++ BMP_UINT16 val_t ++ BMP_UINT32 count ++ BMP_UINT32 value.
Definition IFD_SHORT : Z := 3.
Definition IFD_LONG : Z := 4.
Definition TIFF_PACKBITS : Z := 0x8005.
Definition TIFF_PHOTOMETRIC_RGB : Z := 2.
Definition IFD_ENTRIES_COUNT : Z := 7.
Definition IFD_DATA_OFFSET : Z := 10 + 12 * IFD_ENTRIES_COUNT + 4.
(** The colour of the progress tick, an index of the palette. *)
Definition LCD_SWEEP_LINE_COLOR : Z := 17.

Section Screen.
(** The size of the display, and the colour of the progress tick. *)
Variables (LCD_WIDTH LCD_HEIGHT tick : Z).

Definition BMP_SIZE : Z := 2 * LCD_WIDTH * LCD_HEIGHT.
Definition BMP_FILE_SIZE : Z := BMP_SIZE + BMP_HEAD_SIZE.

Definition bmp_header_v4 : list Z :=
  [0x42; 0x4D] ++ BMP_UINT32 BMP_FILE_SIZE ++ BMP_UINT16 0 ++ BMP_UINT16 0 ++ BMP_UINT32 BMP_HEAD_SIZE ++
  BMP_UINT32 BMP_V4_SIZE ++ BMP_UINT32 LCD_WIDTH ++ BMP_UINT32 LCD_HEIGHT ++ BMP_UINT16 1 ++ BMP_UINT16 16 ++
  BMP_UINT32 3 ++ BMP_UINT32 BMP_SIZE ++ BMP_UINT32 0x0EC4 ++ BMP_UINT32 0x0EC4 ++ BMP_UINT32 0 ++ BMP_UINT32 0 ++
  BMP_UINT32 0xF800 ++ BMP_UINT32 0x7E0 ++ BMP_UINT32 0x1F ++ BMP_UINT32 0 ++ [66; 71; 82; 115] ++
  flat_map BMP_UINT32 (repeat 0 12).

Definition tif_header : list Z :=
  [0x49; 0x49] ++ BMP_UINT16 0x2A ++ BMP_UINT32 8 ++ BMP_UINT16 IFD_ENTRIES_COUNT ++
  IFD_ENTRY 0x0100 IFD_SHORT 1 LCD_WIDTH ++ IFD_ENTRY 0x0101 IFD_SHORT 1 LCD_HEIGHT ++
  IFD_ENTRY 0x0102 IFD_SHORT 3 IFD_DATA_OFFSET ++ IFD_ENTRY 0x0103 IFD_SHORT 1 TIFF_PACKBITS ++
  IFD_ENTRY 0x0106 IFD_SHORT 1 TIFF_PHOTOMETRIC_RGB ++ IFD_ENTRY 0x0111 IFD_LONG 1 (IFD_DATA_OFFSET + 6) ++
  IFD_ENTRY 0x0115 IFD_SHORT 1 3 ++ [0; 0; 0; 0] ++ BMP_UINT16 8 ++ BMP_UINT16 8 ++ BMP_UINT16 8.

(** ** The display *)

(** [lcd_read_memory(0, y, LCD_WIDTH, 1, buf_16)] *)
Definition lcd_read_memory (s : list (list Z)) (y : Z) (mem : list Z) : list Z :=
  store_at (flat_map u16_bytes (nth (Z.to_nat y) s [])) mem.
(** [lcd_bulk(0, y, LCD_WIDTH, 1)]: the words of the buffer to the row. *)
Definition lcd_bulk (mem : list Z) (y : Z) (s : list (list Z)) : list (list Z) :=
  <[Z.to_nat y := words LCD_WIDTH mem]> s.
(** [lcd_fill(LCD_WIDTH-1, y, 1, 1)] *)
Definition lcd_tick (y : Z) (s : list (list Z)) : list (list Z) :=
  alter (fun row => <[Z.to_nat (LCD_WIDTH - 1) := tick]> row) (Z.to_nat y) s.

(** [swap_bytes(buf_16, LCD_WIDTH)] on the words of the buffer. *)
Definition swap_row (mem : list Z) : list Z :=
  store_at (flat_map u16_bytes (swap_bytes (words LCD_WIDTH mem) LCD_WIDTH)) mem.

(** The rows from the bottom up: [for (y = LCD_HEIGHT-1; y >= 0 && res == FR_OK; y--)]. *)
Definition rows_down : list Z := rev (seqZ 0 LCD_HEIGHT).

(** [lcd_printf(0, LCD_HEIGHT - 3*FONT_STR_HEIGHT, fno->fname)]: the name is the format. *)
Definition show_name (p : pen) (fname : list Z) (s : list (list Z)) : option (list (list Z)) :=
  lcd_printf (F := SpecFloat.spec_float) LCD_WIDTH LCD_HEIGHT 0 (LCD_HEIGHT - 3 * FONT_STR_HEIGHT) fname [] p s.

(** ** BMP *)

Section Save.
Context {C : Type} `{FatOut C}.

Fixpoint save_bmp_rows (ys : list Z) (s : list (list Z)) (mem : list Z) (f : C) (res : bool) : list (list Z) * C * bool :=
  match ys with
  | [] => (s, f, res)
  | y :: ys =>
      if negb res then (s, f, res) else
      let mem := swap_row (lcd_read_memory s y mem) in
      let '(f, res, _) := f_write f (take (Z.to_nat (2 * LCD_WIDTH)) mem) in
      save_bmp_rows ys (lcd_tick y s) mem f res
  end.
(** The screen afterwards, the file, and whether the result is FR_OK. *)
Definition save_bmp (s : list (list Z)) (mem : list Z) (f : C) : list (list Z) * C * bool :=
  let '(f, res, _) := f_write f bmp_header_v4 in save_bmp_rows rows_down s mem f res.

(** ** TIFF *)

(** One pixel of the conversion to RGB888, 128 bytes above the words. *)
Definition rgb888 (v : Z) : list Z :=
  let color := Z.lor (Z.shiftl v 8) (Z.shiftr v 8) in
  let color := u16 color in
  let r := Z.land (Z.shiftr color 8) 0xF8 in let r := if 128 <? r then Z.lor r 7 else r in
  let g := Z.land (Z.shiftr color 3) 0xFC in let g := if 128 <? g then Z.lor g 3 else g in
  let b := Z.land (u8 (Z.shiftl color 3)) 0xF8 in let b := if 128 <? b then Z.lor b 7 else b in
  [r; g; b].
Definition tiff_pixel (x : Z) (mem : list Z) : list Z :=
  let c := rgb888 (get16 mem x) in
  put8 (128 + 3 * x + 2) (tab c 2) (put8 (128 + 3 * x + 1) (tab c 1) (put8 (128 + 3 * x) (tab c 0) mem)).
(** [for (x = LCD_WIDTH - 1; x >= 0; x--)] *)
Definition tiff_row (mem : list Z) : list Z := fold_left (fun mem x => tiff_pixel x mem) (rev (seqZ 0 LCD_WIDTH)) mem.

(** [packbits] where source and destination are parts of one buffer: [i], [sz] and
    [pk] as in the code, the source [src] bytes into the buffer. *)
Record pb_mem := PbMem { pm_i : nat; pm_sz : option nat; pm_pk : nat; pm_mem : list Z }.
Definition packbits_mem_step (src size : nat) (st : pb_mem) : pb_mem :=
  let source := drop src (pm_mem st) in
  let i := pm_i st in
  let l := Nat.min (size - i) 128 in
  let c := ch_at source i in
  let i := S i in
  let rle := rle_count l c (drop i source) in
  let '(rle, sz, pk) :=
    match pm_sz st with
    | Some sz => if (rle <? 2)%nat then (O, sz, pm_pk st) else (rle, pm_pk st, S (pm_pk st))
    | None => (rle, pm_pk st, S (pm_pk st))
    end in
  let mem := <[pk := c]> (pm_mem st) in
  let pk := S pk in
  if (0 <? rle)%nat then PbMem (i + rle) None pk (<[sz := u8 (- Z.of_nat rle)]> mem)
  else
    let n := (pk - sz - 2)%nat in
    PbMem i (if (n <? 127)%nat then Some sz else None) pk (<[sz := u8 (Z.of_nat n)]> mem).
Fixpoint packbits_mem_loop (fuel src size : nat) (st : pb_mem) : pb_mem :=
  match fuel with
  | O => st
  | S k => if (pm_i st <? size)%nat then packbits_mem_loop k src size (packbits_mem_step src size st) else st
  end.
(** The buffer afterwards and the size of the packed row. *)
Definition packbits_mem (src size : nat) (mem : list Z) : list Z * nat :=
  let st := packbits_mem_loop size src size (PbMem 0 None 0 mem) in (pm_mem st, pm_pk st).

Fixpoint save_tiff_rows (ys : list Z) (s : list (list Z)) (mem : list Z) (f : C) (res : bool) : list (list Z) * C * bool :=
  match ys with
  | [] => (s, f, res)
  | y :: ys =>
      if negb res then (s, f, res) else
      let '(mem, size) := packbits_mem 128 (Z.to_nat (LCD_WIDTH * 3)) (tiff_row (lcd_read_memory s y mem)) in
      let '(f, res, _) := f_write f (take size mem) in
      save_tiff_rows ys (lcd_tick y s) mem f res
  end.
Definition save_tiff (s : list (list Z)) (mem : list Z) (f : C) : list (list Z) * C * bool :=
  let '(f, res, _) := f_write f tif_header in save_tiff_rows (seqZ 0 LCD_HEIGHT) s mem f res.
End Save.

Section Load.
Context {C : Type} `{FatIn C}.

(** [false] for "Format err"; [None] when the name cannot be printed. *)
Fixpoint load_bmp_rows (ys : list Z) (s : list (list Z)) (mem : list Z) (f : C) (res : bool) : list (list Z) :=
  match ys with
  | [] => s
  | y :: ys =>
      if negb res then s else
      let '(f, res, d) := f_read f (LCD_WIDTH * 2) in
      let mem := swap_row (store_at d mem) in
      load_bmp_rows ys (lcd_bulk mem y s) mem f res
  end.
Definition load_bmp (p : pen) (fname : list Z) (s : list (list Z)) (mem : list Z) (f : C) : option (list (list Z) * bool) :=
  let '(f, res, d) := f_read f (Z.of_nat (length bmp_header_v4)) in
  let mem := store_at d mem in
  if negb res || negb (get16 mem 9 =? LCD_WIDTH) || negb (get16 mem 11 =? LCD_HEIGHT) || negb (get16 mem 14 =? 16)
  then Some (s, false) else s ← show_name p fname (load_bmp_rows rows_down s mem f res); Some (s, true).

(** One run of the packed row: [data] keeps what a short read does not write,
    [junk] before the first one. *)
Definition unpack_run (junk : Z * Z) (x : Z) (mem : list Z) (f : C) : Z * list Z * C * bool :=
  let '(f, res, d) := f_read f 2 in
  let count := s8 (match d with c :: _ => c | [] => fst junk end) in
  let value := match d with [_; v] => v | _ => snd junk end in
  let mem := put8 x value mem in let x := x + 1 in
  if 0 <? count then
    let '(f, res, d) := f_read f count in
    (x + count, take (Z.to_nat x) mem ++ d ++ drop (Z.to_nat x + length d) mem, f, res)
  else
    (x - count, for_range 0 (- count) (fun k mem => put8 (x + k) value mem) mem, f, res).
Fixpoint unpack_row (fuel : nat) (junk : Z * Z) (x : Z) (mem : list Z) (f : C) (res : bool) : Z * list Z * C * bool :=
  match fuel with
  | O => (x, mem, f, res)
  | S k =>
      if x <? LCD_WIDTH * 3 then
        let '(x, mem, f, res) := unpack_run junk x mem f in unpack_row k junk x mem f res
      else (x, mem, f, res)
  end.
(** RGB888 to RGB565 in place: [for (x = 0; x < LCD_WIDTH; x++)]. *)
Definition pack_pixel (x : Z) (mem : list Z) : list Z :=
  put16 x (RGB565 (get8 mem (3 * x)) (get8 mem (3 * x + 1)) (get8 mem (3 * x + 2))) mem.
Definition pack_row (mem : list Z) : list Z := for_range 0 LCD_WIDTH pack_pixel mem.

Fixpoint load_tiff_rows (junk : Z * Z) (ys : list Z) (s : list (list Z)) (mem : list Z) (f : C) (res : bool) : list (list Z) :=
  match ys with
  | [] => s
  | y :: ys =>
      if negb res then s else
      let '(_, mem, f, res) := unpack_row (Z.to_nat (LCD_WIDTH * 3)) junk 0 mem f res in
      let mem := pack_row mem in
      load_tiff_rows junk ys (lcd_bulk mem y s) mem f res
  end.
Definition load_tiff (p : pen) (fname : list Z) (junk : Z * Z) (s : list (list Z)) (mem : list Z) (f : C) : option (list (list Z) * bool) :=
  let '(f, res, d) := f_read f (Z.of_nat (length tif_header)) in
  let mem := store_at d mem in
  if negb res || negb (get16 mem 0 =? 0x4949) || negb (get16 mem 9 =? LCD_WIDTH) || negb (get16 mem 15 =? LCD_HEIGHT) ||
     negb (get16 mem 27 =? TIFF_PACKBITS)
  then Some (s, false) else s ← show_name p fname (load_tiff_rows junk (seqZ 0 LCD_HEIGHT) s mem f res); Some (s, true).
End Load.

(** ** PNG *)

(** [for (i = 0; i < ncolors && palette[i] != v; i++)] *)
Fixpoint palette_find (pal : list Z) (v i : Z) : Z :=
  match pal with
  | [] => i
  | c :: pal => if c =? v then i else palette_find pal v (i + 1)
  end.
Definition color_distance (a b : Z) : Z :=
  let dr := Z.land (Z.shiftr a 16) 255 - Z.land (Z.shiftr b 16) 255 in
  let dg := Z.land (Z.shiftr a 8) 255 - Z.land (Z.shiftr b 8) 255 in
  let db := Z.land a 255 - Z.land b 255 in
  u32 (dr * dr + dg * dg + db * db).
(** The nearest of the 256 colours. *)
Definition palette_nearest (pal : list Z) (v i : Z) : Z :=
  snd (for_range 0 256 (fun k '(best, i) =>
    let d := color_distance (HEXRGB v) (HEXRGB (tab pal k)) in if d <? best then (d, k) else (best, i)) (0xFFFFFFFF, i)).
(** The index of a pixel and the palette, which grows up to 256 colours. *)
Definition palette_index (pal : list Z) (v : Z) : Z * list Z :=
  let n := Z.of_nat (length pal) in
  let i := palette_find pal v 0 in
  if i =? n then if n <? 256 then (n, pal ++ [v]) else (palette_nearest pal v i, pal) else (i, pal).

(** The context of the row callbacks: the screen, the buffer, the palette in use. *)
Record png_lcd_t := PngLcd { l_screen : list (list Z); l_mem : list Z; l_palette : list Z }.

(** The row of indices shares the bytes of the row of pixels. *)
Definition png_lcd_row (c : png_lcd_t) (y : Z) : option (png_lcd_t * list Z) :=
  let mem := lcd_read_memory (l_screen c) y (l_mem c) in
  let '(mem, pal) := for_range 0 LCD_WIDTH (fun x '(mem, pal) =>
    let '(i, pal) := palette_index pal (get16 mem x) in (put8 x i mem, pal)) (mem, l_palette c) in
  Some (PngLcd (lcd_tick y (l_screen c)) mem pal, take (Z.to_nat LCD_WIDTH) mem).

(** The row of the decoder lies in the buffer; it is converted backwards. *)
Definition png_lcd_put (pal : list Z) (s : list (list Z)) (y : Z) (row : list Z) : list (list Z) * bool :=
  let mem := row ++ repeat 0 (length row) in
  let mem := fold_left (fun mem x =>
    let i := get8 mem x in put16 x (tab pal (if i <? Z.of_nat (length pal) then i else 0)) mem) (rev (seqZ 0 LCD_WIDTH)) mem in
  (lcd_bulk mem y s, true).

(** [work] is the ring inside the buffer, [palette] the screen palette. *)
Definition save_png {C} `{FatOut C} (palette work : list Z) (s : list (list Z)) (mem : list Z) (f : C) : list (list Z) * C * bool :=
  let '(f, c, ok) := png_encode png_lcd_row l_palette LCD_WIDTH LCD_HEIGHT work f (PngLcd s mem palette) in
  (l_screen c, f, ok).
Definition load_png {C} `{FatIn C} (p : pen) (fname work row : list Z) (s : list (list Z)) (f : C) : option (list (list Z) * png_result) :=
  '(s, _, res) ← png_decode png_lcd_put LCD_WIDTH LCD_HEIGHT work row f s;
  match res with PngOk => s ← show_name p fname s; Some (s, res) | _ => Some (s, res) end.
End Screen.

(** The loader of a screenshot, by the character behind the last dot of its name. *)
Inductive shot_format := FMT_BMP | FMT_TIFF | FMT_PNG.
Definition load_screenshot (fname : list Z) : shot_format :=
  let dot := fold_left (fun dot '(c, rest) => if c =? 46 then Some (rest : list Z) else dot)
    (imap (fun i c => (c, drop (S i) fname)) fname) None in
  match dot with
  | None => FMT_BMP
  | Some rest =>
      let c := Z.lor (peek rest) 0x20 in
      if c =? 116 then FMT_TIFF else if c =? 112 then FMT_PNG else FMT_BMP
  end.

(** ** Words and bytes *)

Lemma tab_ge l i : Z.of_nat (length l) <= i -> tab l i = 0.
Proof. intros Hi. unfold tab. apply nth_overflow. lia. Qed.
Lemma tab_app l l' i : 0 <= i -> tab (l ++ l') i = if i <? Z.of_nat (length l) then tab l i else tab l' (i - Z.of_nat (length l)).
Proof. intros Hi. destruct (Z.ltb_spec i (Z.of_nat (length l))); [apply tab_app_l; lia|apply tab_app_r; lia]. Qed.
Lemma tab_cons x l i : 0 < i -> tab (x :: l) i = tab l (i - 1).
Proof. intros Hi. apply (tab_app_r [x]). cbn. lia. Qed.
Lemma tab_drop l k i : 0 <= i -> tab (drop (Z.to_nat k) l) i = tab l (Z.max 0 k + i).
Proof. intros Hi. unfold tab. rewrite !nth_lookup, lookup_drop. do 2 f_equal. lia. Qed.

Lemma tab_put8 i v mem j : 0 <= i < Z.of_nat (length mem) -> 0 <= j ->
  tab (put8 i v mem) j = if j =? i then u8 v else tab mem j.
Proof.
  intros Hi Hj. unfold put8, tab. rewrite !nth_lookup. destruct (Z.eqb_spec j i) as [->|Hne].
  - by rewrite list_lookup_insert_eq by lia.
  - by rewrite list_lookup_insert_ne by lia.
Qed.
Lemma put8_length i v mem : length (put8 i v mem) = length mem.
Proof. apply length_insert. Qed.
Lemma put16_length i v mem : length (put16 i v mem) = length mem.
Proof. unfold put16. by rewrite !put8_length. Qed.
Lemma tab_put16 i v mem j : 0 <= i -> 2 * i + 1 < Z.of_nat (length mem) -> 0 <= j ->
  tab (put16 i v mem) j = if j =? 2 * i + 1 then u8 (Z.shiftr v 8) else if j =? 2 * i then u8 v else tab mem j.
Proof. intros Hi Hl Hj. unfold put16. rewrite tab_put8 by (rewrite ?put8_length; lia). by rewrite tab_put8 by lia. Qed.

Lemma join_bytes v : 0 <= v < 65536 -> u8 v + 256 * u8 (Z.shiftr v 8) = v.
Proof. intros Hv. rewrite Z.shiftr_div_pow2 by lia. unfold u8. lia. Qed.

(** Two lists of the same length with the same elements. *)
Lemma tab_ext l l' : length l = length l' -> (forall i, 0 <= i < Z.of_nat (length l) -> tab l i = tab l' i) -> l = l'.
Proof.
  intros Hl He. apply list_eq_same_length with (length l); [done|done|]. intros i x y Hi Hx Hy.
  specialize (He (Z.of_nat i) ltac:(lia)). unfold tab in He. rewrite Nat2Z.id, !nth_lookup, Hx, Hy in He. exact He.
Qed.
Lemma tab_map {A} (f : A -> Z) l i d : 0 <= i < Z.of_nat (length l) -> tab (map f l) i = f (nth (Z.to_nat i) l d).
Proof. intros Hi. unfold tab. rewrite (nth_indep _ 0 (f d)) by (rewrite length_map; lia). apply map_nth. Qed.
Lemma tab_map_seqZ f n i : 0 <= i < n -> tab (map f (seqZ 0 n)) i = f i.
Proof.
  intros Hi. rewrite (tab_map f (seqZ 0 n) i 0) by (rewrite length_seqZ; lia). f_equal.
  rewrite nth_lookup, lookup_seqZ_lt by lia. cbn. lia.
Qed.

(** The entries of a list of fixed-size groups. *)
Lemma tab_flat_map (f : Z -> list Z) n l : (forall x, length (f x) = n) -> forall i j, 0 <= i < Z.of_nat (length l) -> 0 <= j < Z.of_nat n ->
  tab (flat_map f l) (Z.of_nat n * i + j) = tab (f (tab l i)) j.
Proof.
  intros Hf. induction l as [|x l IH]; intros i j Hi Hj; cbn [length] in Hi; [lia|]. cbn [flat_map].
  destruct (Z.eq_dec i 0) as [->|]; [rewrite tab_app_l by (rewrite Hf; lia); f_equal; lia|].
  rewrite tab_app_r by (rewrite Hf; nia). rewrite Hf, tab_cons by lia. rewrite <- IH by lia. f_equal. lia.
Qed.
Lemma flat_map_length_const (f : Z -> list Z) n l : (forall x, length (f x) = n) -> length (flat_map f l) = (n * length l)%nat.
Proof. intros Hf. induction l as [|x l IH]; cbn [flat_map length]; [lia|]. rewrite length_app, Hf, IH. lia. Qed.

Definition pixels (row : list Z) : Prop := Forall (fun v => 0 <= v < 65536) row.
Lemma pixels_tab row i : pixels row -> 0 <= tab row i < 65536.
Proof. intros Hr. unfold tab. rewrite nth_lookup. destruct (row !! Z.to_nat i) as [v|] eqn:E; [exact (Forall_lookup_1 _ _ _ _ Hr E)|cbn; lia]. Qed.

Lemma tab_byte l i : Forall (fun b => 0 <= b < 256) l -> 0 <= tab l i < 256.
Proof. intros Hl. unfold tab. rewrite nth_lookup. destruct (l !! Z.to_nat i) as [v|] eqn:E; [exact (Forall_lookup_1 _ _ _ _ Hl E)|cbn; lia]. Qed.

(** A row stored as bytes is read back as words. *)
Lemma get16_row row mem i : pixels row -> 0 <= i < Z.of_nat (length row) -> get16 (flat_map u16_bytes row ++ mem) i = tab row i.
Proof.
  intros Hr Hi. pose proof (flat_map_length_const u16_bytes 2 row (fun _ => eq_refl)) as Hl. unfold get16.
  pose proof (tab_flat_map u16_bytes 2 row (fun _ => eq_refl) i 0 Hi ltac:(lia)) as E0.
  pose proof (tab_flat_map u16_bytes 2 row (fun _ => eq_refl) i 1 Hi ltac:(lia)) as E1.
  change (Z.of_nat 2) with 2 in E0, E1. rewrite Z.add_0_r in E0. rewrite !tab_app_l, E0, E1 by lia.
  exact (join_bytes _ (pixels_tab row i Hr)).
Qed.
Lemma words_row row mem : pixels row -> words (Z.of_nat (length row)) (flat_map u16_bytes row ++ mem) = row.
Proof.
  intros Hr. unfold words. apply tab_ext; rewrite length_map, length_seqZ; [lia|]. intros i Hi.
  rewrite tab_map_seqZ by lia. apply get16_row; [exact Hr|lia].
Qed.
Lemma store_row_length row mem : (2 * length row <= length mem)%nat -> length (store_at (flat_map u16_bytes row) mem) = length mem.
Proof. intros Hl. unfold store_at. rewrite length_app, length_drop, (flat_map_length_const u16_bytes 2 row (fun _ => eq_refl)). lia. Qed.

Lemma swap_bytes_map row : swap_bytes row (Z.of_nat (length row)) = map revsh row.
Proof.
  apply list_eq. intros i. rewrite swap_bytes_lookup by lia. rewrite list_lookup_fmap. zcase; [done|]. by rewrite lookup_ge_None_2 by lia.
Qed.
Lemma revsh_range v : 0 <= v < 65536 -> 0 <= revsh v < 65536.
Proof. intros Hv. rewrite revsh_swap by lia. lia. Qed.
Lemma pixels_swap row : pixels row -> pixels (map revsh row).
Proof. intros Hr. apply Forall_map. eapply Forall_impl; [exact Hr|]. intros v Hv. by apply revsh_range. Qed.

(** A loop downwards. *)
Lemma for_down_ind {S} (P : Z -> S -> Prop) (body : S -> Z -> S) n s : 0 <= n -> P n s ->
  (forall k s, 0 <= k < n -> P (k + 1) s -> P k (body s k)) -> P 0 (fold_left body (rev (seqZ 0 n)) s).
Proof.
  intros Hn. rewrite <- (Z2Nat.id n Hn). clear Hn. revert s. induction (Z.to_nat n) as [|m IH]; intros s Hs Hstep; [exact Hs|].
  rewrite Nat2Z.inj_succ, <- Z.add_1_r, (seqZ_app 0 (Z.of_nat m) 1), rev_app_distr by lia.
  replace (rev (seqZ (0 + Z.of_nat m) 1)) with [Z.of_nat m] by (cbn; f_equal; lia). cbn [app fold_left].
  apply IH; [apply Hstep; [lia|by replace (Z.of_nat m + 1) with (Z.of_nat (Datatypes.S m)) by lia]|].
  intros k s' Hk. apply Hstep. lia.
Qed.

(** ** Rows *)

(** The screen after the rows [ys] of [o] have been written to it. *)
Definition put_rows (o : list (list Z)) (ys : list Z) (s : list (list Z)) : list (list Z) :=
  fold_left (fun s y => <[Z.to_nat y := nth (Z.to_nat y) o []]> s) ys s.

Lemma put_rows_length o ys : forall s, length (put_rows o ys s) = length s.
Proof. induction ys as [|y ys IH]; intros s; [done|]. unfold put_rows. cbn [fold_left]. fold (put_rows o ys (<[Z.to_nat y := nth (Z.to_nat y) o []]> s)). by rewrite IH, length_insert. Qed.

Lemma put_rows_lookup o ys : length o = length o -> forall s i, length s = length o -> Forall (fun y => 0 <= y < Z.of_nat (length o)) ys ->
  put_rows o ys s !! i = if decide (Z.of_nat i ∈ ys) then o !! i else s !! i.
Proof.
  intros _. induction ys as [|y ys IH]; intros s i Hl Hys; [done|]. apply Forall_cons in Hys as [Hy Hys].
  unfold put_rows. cbn [fold_left]. fold (put_rows o ys (<[Z.to_nat y := nth (Z.to_nat y) o []]> s)).
  rewrite IH by (rewrite ?length_insert; done). destruct (decide (Z.of_nat i ∈ ys)) as [Hin|Hin].
  - rewrite decide_True by (by apply elem_of_cons; right). done.
  - destruct (decide (Z.of_nat i = y)) as [<-|Hne].
    + rewrite decide_True by (apply elem_of_cons; by left). rewrite Nat2Z.id, list_lookup_insert_eq by lia.
      rewrite nth_lookup. destruct (lookup_lt_is_Some_2 o i ltac:(lia)) as [x Hx]. by rewrite Hx.
    + rewrite decide_False by (intros [E|E]%elem_of_cons; congruence). apply list_lookup_insert_ne. lia.
Qed.

Lemma put_rows_all o ys s : length s = length o -> (forall y, y ∈ ys <-> 0 <= y < Z.of_nat (length o)) -> put_rows o ys s = o.
Proof.
  intros Hl Hys. apply list_eq. intros i. rewrite put_rows_lookup; [|done|done|].
  - destruct (decide _) as [|Hn]; [done|]. rewrite Hys in Hn. by rewrite !lookup_ge_None_2 by lia.
  - apply Forall_forall. intros y Hy. by apply Hys.
Qed.

(** A screen of the size of the display. *)
Definition screen_ok (width height : Z) (s : list (list Z)) : Prop :=
  Z.of_nat (length s) = height /\ Forall (fun row => Z.of_nat (length row) = width /\ pixels row) s.

Lemma screen_row width height s y : screen_ok width height s -> 0 <= y < height ->
  Z.of_nat (length (nth (Z.to_nat y) s [])) = width /\ pixels (nth (Z.to_nat y) s []).
Proof.
  intros [Hl Hs] Hy. rewrite nth_lookup. destruct (lookup_lt_is_Some_2 s (Z.to_nat y) ltac:(lia)) as [row Hr]. rewrite Hr.
  exact (Forall_lookup_1 _ _ _ _ Hs Hr).
Qed.

(** A screen with the name of a file on it. *)
Lemma show_name_letters width height (p : pen) fname s : screen_ok width height s -> plain fname -> text_width fname <= width -> 33 <= height ->
  width < 65536 -> height < 65536 ->
  exists t, show_name width height p fname s = Some t /\ lettered width height p fname 0 (height - 33) s t.
Proof.
  intros [Hl Hs] Hf Hw Hh Hw16 Hh16. apply (lcd_printf_draws width height fname 0 (height - 33)); [exact Hf| |lia|lia|lia|unfold FONT_GET_HEIGHT; lia|done|done].
  split; [exact Hl|]. eapply Forall_impl; [exact Hs|]. by intros row [? _].
Qed.

Section Files.
Variables (width height tick : Z).

(** The tick touches only its own row. *)
Lemma tick_other y y' s : 0 <= y -> 0 <= y' -> y <> y' -> nth (Z.to_nat y') (lcd_tick width tick y s) [] = nth (Z.to_nat y') s [].
Proof. intros H1 H2 Hne. unfold lcd_tick. rewrite !nth_lookup, list_lookup_alter_ne by lia. done. Qed.
Lemma tick_length y s : length (lcd_tick width tick y s) = length s.
Proof. apply length_alter. Qed.

Lemma rows_down_spec : NoDup (rows_down height) /\ forall y, y ∈ rows_down height <-> 0 <= y < height.
Proof.
  unfold rows_down. split.
  - apply NoDup_ListNoDup, List.NoDup_rev, NoDup_ListNoDup, NoDup_seqZ.
  - intros y. rewrite list_elem_of_In, <- in_rev, <- list_elem_of_In, elem_of_seqZ. lia.
Qed.
Lemma rows_up_spec : NoDup (seqZ 0 height) /\ forall y, y ∈ seqZ 0 height <-> 0 <= y < height.
Proof. split; [apply NoDup_seqZ|]. intros y. rewrite elem_of_seqZ. lia. Qed.
End Files.

(** A file with room for what is written, and one that is read without errors. *)
Class Roomy (C : Type) `{FatOut C} : Prop := roomy : forall c d, exists c', f_write c d = (c', true, Z.of_nat (length d)).
Class Readable (C : Type) `{FatIn C} : Prop := readable : forall c n, snd (fst (f_read c n)) = true.

#[export] Instance readable_reliable C `{Readable C} : Reliable C.
Proof.
  intros c n Hn. cbn. unfold png_fs_read. pose proof (readable c n) as R. pose proof (f_read_law c n Hn) as L.
  destruct (f_read c n) as [[c1 ok] d]. cbn [fst snd] in *. subst ok. destruct L as [(_ & -> & ->)|[[=] _]]. done.
Qed.

Lemma f_write_room {C} `{Roomy C} c d : exists c', f_write c d = (c', true, Z.of_nat (length d)) /\ f_written c' = f_written c ++ d.
Proof. destruct (roomy c d) as [c' E]. exists c'. split; [exact E|exact (f_write_law _ _ _ E)]. Qed.
Lemma f_read_exact {C} `{Readable C} f n l l' : f_left f = l ++ l' -> Z.of_nat (length l) = n ->
  exists f', f_read f n = (f', true, l) /\ f_left f' = l'.
Proof.
  intros El <-. pose proof (readable f (Z.of_nat (length l))) as R. pose proof (f_read_law f _ (Nat2Z.is_nonneg (length l))) as L.
  destruct (f_read f _) as [[f' ok] d]. cbn [fst snd] in *. subst ok. destruct L as [(_ & -> & L)|[[=] _]].
  rewrite El, Nat2Z.id in *. rewrite take_app_length. rewrite drop_app_length in L. eauto.
Qed.

(** ** BMP *)

Definition bmp_row (row : list Z) : list Z := flat_map u16_bytes (map revsh row).
Definition image_rows (enc : list Z -> list Z) (o : list (list Z)) (ys : list Z) : list Z :=
  flat_map (fun y => enc (nth (Z.to_nat y) o [])) ys.

Section Bmp.
Variables (width height tick : Z).
Hypothesis Hw : 0 <= width.

Lemma swap_row_store row mem : pixels row -> Z.of_nat (length row) = width ->
  swap_row width (store_at (flat_map u16_bytes row) mem) = store_at (bmp_row row) mem.
Proof.
  intros Hr Hl. unfold swap_row, store_at at 2. rewrite <- Hl, words_row, swap_bytes_map by exact Hr. unfold store_at, bmp_row.
  rewrite !(flat_map_length_const u16_bytes 2 _ (fun _ => eq_refl)), length_map. f_equal. rewrite drop_app_length'; [done|].
  by rewrite (flat_map_length_const u16_bytes 2 _ (fun _ => eq_refl)).
Qed.
Lemma bmp_row_length row : length (bmp_row row) = (2 * length row)%nat.
Proof. unfold bmp_row. by rewrite (flat_map_length_const u16_bytes 2 _ (fun _ => eq_refl)), length_map. Qed.
Lemma bmp_row_swap row mem : pixels row -> Z.of_nat (length row) = width ->
  words width (swap_row width (store_at (bmp_row row) mem)) = row.
Proof.
  intros Hr Hl. unfold bmp_row. rewrite swap_row_store by (rewrite ?length_map; auto using pixels_swap).
  unfold store_at, bmp_row. rewrite <- Hl. rewrite <- (map_id row) at 4.
  replace (map revsh (map revsh row)) with row; [rewrite map_id; by apply words_row|].
  rewrite map_map. rewrite <- (map_id row) at 1. apply map_ext_in. intros v Hv. symmetry. apply revsh_involutive.
  exact (proj1 (Forall_forall _ _) Hr v (proj2 (list_elem_of_In _ _) Hv)).
Qed.

Lemma save_bmp_rows_spec {C} `{Roomy C} o ys : screen_ok width height o -> NoDup ys -> Forall (fun y => 0 <= y < height) ys ->
  forall s mem f, (forall y, y ∈ ys -> nth (Z.to_nat y) s [] = nth (Z.to_nat y) o []) ->
  exists s' f', save_bmp_rows width tick ys s mem f true = (s', f', true) /\
    f_written f' = f_written f ++ image_rows bmp_row o ys.
Proof.
  intros Ho. induction ys as [|y ys IH]; intros Hnd Hys s mem f Hs; cbn [save_bmp_rows].
  { exists s, f. split; [done|]. cbn. by rewrite app_nil_r. }
  apply NoDup_cons in Hnd as [Hny Hnd]. apply Forall_cons in Hys as [Hy Hys]. cbn [negb].
  destruct (screen_row width height o y Ho Hy) as [Hl Hp]. unfold lcd_read_memory.
  rewrite (Hs y) by (apply elem_of_cons; by left). rewrite swap_row_store by done.
  destruct (f_write_room f (take (Z.to_nat (2 * width)) (store_at (bmp_row (nth (Z.to_nat y) o [])) mem))) as (f1 & -> & Hf1).
  destruct (IH Hnd Hys (lcd_tick width tick y s) (store_at (bmp_row (nth (Z.to_nat y) o [])) mem) f1) as (s' & f' & E & Hf').
  { intros y' Hy'. rewrite tick_other; [apply Hs, elem_of_cons; by right|lia| |].
    - rewrite Forall_forall in Hys. apply Hys in Hy'. lia.
    - intros ->. done. }
  exists s', f'. split; [exact E|]. rewrite Hf', Hf1, <- app_assoc. f_equal. unfold image_rows. cbn [flat_map]. f_equal.
  unfold store_at. apply take_app_length'. rewrite bmp_row_length. lia.
Qed.

Lemma load_bmp_rows_spec {C} `{Readable C} o ys : screen_ok width height o -> Forall (fun y => 0 <= y < height) ys ->
  forall s mem f rest, f_left f = image_rows bmp_row o ys ++ rest ->
  load_bmp_rows width ys s mem f true = put_rows o ys s.
Proof.
  intros Ho. induction ys as [|y ys IH]; intros Hys s mem f rest Hf; cbn [load_bmp_rows negb]; [done|].
  apply Forall_cons in Hys as [Hy Hys]. destruct (screen_row width height o y Ho Hy) as [Hl Hp].
  unfold image_rows in Hf. cbn [flat_map] in Hf. rewrite <- app_assoc in Hf.
  destruct (f_read_exact f (width * 2) _ _ Hf) as (f1 & -> & Hf1); [rewrite bmp_row_length; lia|].
  rewrite (IH Hys _ _ f1 rest Hf1). unfold put_rows. cbn [fold_left]. f_equal. unfold lcd_bulk. by rewrite bmp_row_swap.
Qed.
End Bmp.

Lemma bmp_header_words width height mem : 0 <= width < 65536 -> 0 <= height < 65536 ->
  let m := store_at (bmp_header_v4 width height) mem in get16 m 9 = width /\ get16 m 11 = height /\ get16 m 14 = 16.
Proof.
  intros Hw Hh m. split; [exact (join_bytes width Hw)|]. split; [exact (join_bytes height Hh)|reflexivity].
Qed.

(** C30: A BMP screenshot round trip: on a card with room, [save_bmp] reports success,
    and [load_bmp] of the file, under a name of characters of the font without a
    percent sign that fits the display, shows every pixel of the screen as it was,
    though saving has meanwhile drawn its progress tick over the last column, except
    that the name is printed over it at the left, 33 rows above the bottom. *)
Theorem bmp_roundtrip {K} `{Roomy K} {C} `{Readable C} (width height tick : Z) (p : pen) (fname : list Z) (s shown : list (list Z)) (mem mem' : list Z) (f : K) (g : C) :
  0 <= width < 65536 -> 33 <= height < 65536 -> screen_ok width height s -> Z.of_nat (length shown) = height -> f_written f = [] ->
  plain fname -> text_width fname <= width ->
  let '(_, f', ok) := save_bmp width height tick s mem f in
  ok = true /\ (f_left g = f_written f' ->
    exists t, load_bmp width height p fname shown mem' g = Some (t, true) /\ lettered width height p fname 0 (height - 33) s t).
Proof.
  intros Hw Hh Hs Hshown Hf Hname Hnw. unfold save_bmp. destruct (f_write_room f (bmp_header_v4 width height)) as (f1 & -> & Hf1).
  destruct (rows_down_spec height) as [Hnd Hin].
  assert (Hys : Forall (fun y => 0 <= y < height) (rows_down height)) by (apply Forall_forall; intros y Hy; by apply Hin).
  destruct (save_bmp_rows_spec width height tick s (rows_down height) Hs Hnd Hys s mem f1 ltac:(done)) as (s' & f' & -> & Hf').
  split; [done|]. rewrite Hf', Hf1, Hf. cbn [app]. intros Hg. unfold load_bmp.
  destruct (f_read_exact g _ _ _ Hg eq_refl) as (g1 & -> & Hg1).
  destruct (bmp_header_words width height mem' Hw ltac:(lia)) as (-> & -> & ->). rewrite !Z.eqb_refl. cbn [negb orb].
  rewrite <- (app_nil_r (image_rows _ _ _)) in Hg1. rewrite (load_bmp_rows_spec width height s _ Hs Hys _ _ _ _ Hg1).
  rewrite put_rows_all; [|destruct Hs; lia|intros y; rewrite Hin; destruct Hs; lia].
  destruct (show_name_letters width height p fname s Hs Hname Hnw) as (t & -> & Ht); [lia..|]. by exists t.
Qed.

(** ** TIFF *)

Lemma rgb888_565 v : 0 <= v < 65536 -> let c := rgb888 v in RGB565 (tab c 0) (tab c 1) (tab c 2) = v.
Proof.
  set (P := fun v => let c := rgb888 v in RGB565 (tab c 0) (tab c 1) (tab c 2) =? v).
  intros Hv. apply Z.eqb_eq. change (P v = true). apply (forallb_u16 P); [|exact Hv]. vm_compute. reflexivity.
Qed.
Lemma rgb888_bytes v : 0 <= v < 65536 -> Forall (fun b => 0 <= b < 256) (rgb888 v).
Proof.
  set (P := fun v => forallb (fun b => (0 <=? b) && (b <? 256)) (rgb888 v)).
  intros Hv. assert (Hp : P v = true).
  { apply (forallb_u16 P); [|exact Hv]. vm_compute. reflexivity. }
  apply Forall_forall. intros b Hb. unfold P in Hp. rewrite forallb_forall in Hp. specialize (Hp b (proj1 (list_elem_of_In _ _) Hb)). lia.
Qed.

Definition tiff_bytes (row : list Z) : list Z := flat_map rgb888 row.
Lemma tiff_bytes_length row : length (tiff_bytes row) = (3 * length row)%nat.
Proof. exact (flat_map_length_const rgb888 3 row (fun _ => eq_refl)). Qed.
Lemma tiff_bytes_tab row x j : 0 <= x < Z.of_nat (length row) -> 0 <= j < 3 -> tab (tiff_bytes row) (3 * x + j) = tab (rgb888 (tab row x)) j.
Proof. exact (tab_flat_map rgb888 3 row (fun _ => eq_refl) x j). Qed.

(** The conversion in place: the words above the one at work have been used. *)
Lemma tiff_row_spec width row mem : pixels row -> Z.of_nat (length row) = width -> 128 + 3 * width <= Z.of_nat (length mem) ->
  let mem' := tiff_row width (store_at (flat_map u16_bytes row) mem) in
  length mem' = length mem /\ take (3 * length row) (drop 128 mem') = tiff_bytes row.
Proof.
  intros Hr Hl Hm. set (m0 := store_at (flat_map u16_bytes row) mem).
  assert (Hm0 : length m0 = length mem) by (apply store_row_length; lia).
  set (P := fun (k : Z) (m : list Z) => length m = length mem /\ (forall j, 0 <= j < 128 + 3 * k -> tab m j = tab m0 j) /\
    forall x j, k <= x < width -> 0 <= j < 3 -> tab m (128 + 3 * x + j) = tab (rgb888 (tab row x)) j).
  assert (A : P 0 (tiff_row width m0)).
  { apply (for_down_ind P (fun mem x => tiff_pixel x mem)); unfold P; [lia|split; [exact Hm0|split; [done|lia]]|]. intros k m Hk (L & Hlow & Hhi).
    assert (Ec : get16 m k = tab row k).
    { unfold get16. rewrite !Hlow by lia. apply (get16_row row _ k Hr). lia. }
    pose proof (rgb888_bytes (tab row k) (pixels_tab row k Hr)) as Hc. unfold tiff_pixel. rewrite Ec.
    assert (Hb : forall i, 0 <= tab (rgb888 (tab row k)) i < 256).
    { intros i. by apply tab_byte. }
    split; [by rewrite !put8_length|]. split.
    - intros j Hj. rewrite !tab_put8 by (rewrite ?put8_length; lia). destruct (Z.eqb_spec j (128 + 3 * k + 2)); [lia|].
      destruct (Z.eqb_spec j (128 + 3 * k + 1)); [lia|]. destruct (Z.eqb_spec j (128 + 3 * k)); [lia|]. apply Hlow. lia.
    - intros x j Hx Hj. rewrite !tab_put8 by (rewrite ?put8_length; lia). destruct (Z.eqb_spec (128 + 3 * x + j) (128 + 3 * k + 2)).
      { rewrite u8_small by apply Hb. assert (x = k /\ j = 2) as [-> ->] by lia. done. }
      destruct (Z.eqb_spec (128 + 3 * x + j) (128 + 3 * k + 1)).
      { rewrite u8_small by apply Hb. assert (x = k /\ j = 1) as [-> ->] by lia. done. }
      destruct (Z.eqb_spec (128 + 3 * x + j) (128 + 3 * k)).
      { rewrite u8_small by apply Hb. assert (x = k /\ j = 0) as [-> ->] by lia. done. }
      apply Hhi; lia. }
  destruct A as (L & _ & Hhi). split; [exact L|].
  assert (Hlen : length (take (3 * length row) (drop 128 (tiff_row width m0))) = (3 * length row)%nat) by (rewrite length_take, length_drop; lia).
  apply tab_ext; [by rewrite Hlen, tiff_bytes_length|]. rewrite Hlen. intros i Hi.
  assert (Ei : i = 3 * (i / 3) + i mod 3) by lia. rewrite Ei at 2. rewrite tiff_bytes_tab, <- Hhi by lia.
  unfold tab. rewrite !nth_lookup, lookup_take_lt by lia. rewrite lookup_drop. do 2 f_equal. lia.
Qed.

(** *** PackBits in one buffer *)

Lemma take_insert_end {A} (l : list A) n x : (n < length l)%nat -> take (S n) (<[n := x]> l) = take n l ++ [x].
Proof.
  intros Hn. rewrite (take_S_r _ n x) by (by apply list_lookup_insert_eq). f_equal. apply take_insert_ge. lia.
Qed.

Lemma drop_more {A} n k (l l' : list A) : drop n l = drop n l' -> drop (n + k) l = drop (n + k) l'.
Proof. intros E. by rewrite <- !drop_drop, E. Qed.

(** The run in one buffer and the run with a separate source: what is written is the
    same, and the bytes still to be read are untouched. *)
Definition same_pack (src : nat) (mem0 : list Z) (m : pb_mem) (st : pb_state) : Prop :=
  pm_i m = pb_i st /\ pm_sz m = pb_sz st /\ pm_pk m = length (pb_dest st) /\ length (pm_mem m) = length mem0 /\
  take (pm_pk m) (pm_mem m) = pb_dest st /\ drop (src + pb_i st) (pm_mem m) = drop (src + pb_i st) mem0.

Lemma pb_inv_dest source size st : pb_inv source size st -> (128 * length (pb_dest st) <= 129 * pb_i st + 256)%nat.
Proof.
  intros [Hi Hd]. destruct (pb_sz st) as [sz|]; [|lia]. destruct Hd as (n & dn & out & lits & -> & _ & Hl & Hn & _ & Ho & Hb).
  assert (length out + length lits <= pb_i st)%nat by (rewrite <- length_app, Ho, length_take; lia).
  rewrite length_app. cbn [length]. lia.
Qed.
Lemma pb_inv_sz source size st sz : pb_inv source size st -> pb_sz st = Some sz -> (sz < length (pb_dest st))%nat.
Proof. intros [_ Hd] E. rewrite E in Hd. destruct Hd as (n & dn & out & lits & -> & <- & _). rewrite length_app. cbn [length]. lia. Qed.

Lemma packbits_mem_step_same src size mem0 m st : (src + size <= length mem0)%nat -> Z.of_nat size <= 16000 -> (128 <= src)%nat ->
  (pb_i st < size)%nat -> pb_inv (drop src mem0) size st -> same_pack src mem0 m st ->
  same_pack src mem0 (packbits_mem_step src size m) (packbits_step (drop src mem0) size st).
Proof.
  intros Hlen H16 H128 Hi Hinv (Ei & Es & Ep & El & Et & Eu).
  pose proof (pb_inv_dest _ _ _ Hinv) as Hd. pose proof (fun sz => pb_inv_sz _ _ _ sz Hinv) as Hsz.
  unfold packbits_mem_step, packbits_step. rewrite Ei, Es, Ep. rewrite Ep in Et.
  set (i := pb_i st) in *. set (pk := length (pb_dest st)) in *.
  assert (Hsrc : forall k, (i <= k)%nat -> drop k (drop src (pm_mem m)) = drop k (drop src mem0)).
  { intros k Hk. rewrite !drop_drop. replace (src + k)%nat with (src + i + (k - i))%nat by lia. by apply drop_more. }
  assert (Ec : ch_at (drop src (pm_mem m)) i = ch_at (drop src mem0) i).
  { pose proof (Hsrc i ltac:(lia)) as E. apply (f_equal (fun l => nth 0 l 0)) in E. rewrite !nth_lookup, !lookup_drop in E.
    unfold ch_at. rewrite !nth_lookup, !lookup_drop. by rewrite Nat.add_0_r in E. }
  rewrite Ec, (Hsrc (S i)) by lia. set (c := ch_at (drop src mem0) i).
  set (rle := rle_count _ c _).
  destruct (match pb_sz st with Some sz => _ | None => (rle, pk, S pk) end) as [[rle1 sz1] pk1] eqn:E1.
  destruct (match pb_sz st with Some sz => if (rle <? 2)%nat then (0%nat, sz, pb_dest st) else _ | None => _ end) as [[rle2 sz2] dest1] eqn:E2.
  assert (H12 : rle1 = rle2 /\ sz1 = sz2 /\ pk1 = length dest1 /\ (sz1 < pk1)%nat /\ (pk <= pk1 <= S pk)%nat /\
    exists t, dest1 = pb_dest st ++ t /\ (t = [] \/ (t = [0] /\ sz1 = pk))).
  { destruct (pb_sz st) as [sz|] eqn:Esz.
    - specialize (Hsz sz eq_refl). fold pk in Hsz. destruct (rle <? 2)%nat; injection E1 as <- <- <-; injection E2 as <- <- <-.
      + repeat split; try lia; try done. exists []. rewrite app_nil_r. auto.
      + rewrite length_app. cbn. fold pk. repeat split; try lia. exists [0]. auto.
    - injection E1 as <- <- <-. injection E2 as <- <- <-. rewrite length_app. cbn. fold pk. repeat split; try lia. exists [0]. auto. }
  destruct H12 as (<- & <- & Hpk & Hszp & Hpks & t & Edest & Ht). clear E1 E2.
  (* the buffer after the byte and the header have been written *)
  assert (W : forall h, let mem' := <[sz1 := h]> (<[pk1 := c]> (pm_mem m)) in
    length mem' = length mem0 /\ take (S pk1) mem' = <[sz1 := h]> (dest1 ++ [c]) /\
    drop (src + S i) mem' = drop (src + S i) mem0).
  { intros h mem'. split; [unfold mem'; by rewrite !length_insert|]. split.
    - unfold mem'. rewrite take_insert_lt by lia. rewrite take_insert_end by lia.
      rewrite Edest. destruct Ht as [->|[-> Esz1]].
      + rewrite app_nil_r in *. assert (pk1 = pk) as -> by (rewrite Hpk, Edest; done). by rewrite Et.
      + assert (pk1 = S pk) as -> by (rewrite Hpk, Edest, length_app; cbn; fold pk; lia). rewrite Esz1.
        destruct (lookup_lt_is_Some_2 (pm_mem m) pk ltac:(lia)) as [b Hb]. rewrite (take_S_r _ _ b Hb), Et.
        unfold pk. by rewrite !insert_hdr.
    - unfold mem'. rewrite !drop_insert_lt by lia. replace (src + S i)%nat with (src + i + 1)%nat by lia.
      by apply drop_more. }
  rewrite length_app. cbn [length]. rewrite <- Hpk. replace (pk1 + 1)%nat with (S pk1) by lia.
  destruct (Nat.ltb_spec 0 rle1) as [Hrle|Hrle].
  - destruct (W (u8 (- Z.of_nat rle1))) as (W1 & W2 & W3).
    refine (conj eq_refl (conj eq_refl (conj _ (conj W1 (conj W2 _))))); cbn [pm_i pm_sz pm_pk pm_mem pb_i pb_sz pb_dest].
    + rewrite length_insert, length_app. cbn. lia.
    + replace (src + (S i + rle1))%nat with (src + S i + rle1)%nat by lia. by apply drop_more.
  - destruct (W (u8 (Z.of_nat (S pk1 - sz1 - 2)))) as (W1 & W2 & W3).
    destruct (Nat.ltb_spec (S pk1 - sz1 - 2) 127); refine (conj eq_refl (conj eq_refl (conj _ (conj W1 (conj W2 W3)))));
      cbn [pm_pk pb_dest]; rewrite length_insert, length_app; cbn; lia.
Qed.

Lemma packbits_mem_loop_same src size mem0 fuel : (src + size <= length mem0)%nat -> Z.of_nat size <= 16000 -> (128 <= src)%nat ->
  forall m st, pb_inv (drop src mem0) size st -> same_pack src mem0 m st ->
  same_pack src mem0 (packbits_mem_loop fuel src size m) (packbits_loop fuel (drop src mem0) size st).
Proof.
  intros Hlen H16 H128. induction fuel as [|k IH]; intros m st Hinv Hsame; cbn [packbits_mem_loop packbits_loop]; [done|].
  rewrite (proj1 Hsame). destruct (Nat.ltb_spec (pb_i st) size); [|done]. apply IH.
  - apply packbits_step_inv; [rewrite length_drop; lia|done|done].
  - by apply packbits_mem_step_same.
Qed.

(** Compressing a row in its own buffer, 128 bytes below it, is safe. *)
Lemma packbits_mem_spec size mem : (128 + size <= length mem)%nat -> Z.of_nat size <= 16000 ->
  let '(mem', n) := packbits_mem 128 size mem in
  length mem' = length mem /\ take n mem' = packbits (drop 128 mem) size.
Proof.
  intros Hlen H16. unfold packbits_mem, packbits.
  destruct (packbits_mem_loop_same 128 size mem size Hlen H16 ltac:(lia) (PbMem 0 None 0 mem) (PbState 0 None []) (pb_inv_init _ _))
    as (_ & _ & _ & El & Et & _); [by repeat split|]. auto.
Qed.

(** One run of the packed row is unpacked behind the bytes before it. *)
Lemma take_put8 x v mem : 0 <= x < Z.of_nat (length mem) -> take (Z.to_nat (x + 1)) (put8 x v mem) = take (Z.to_nat x) mem ++ [u8 v].
Proof. intros Hx. unfold put8. replace (Z.to_nat (x + 1)) with (S (Z.to_nat x)) by lia. apply take_insert_end. lia. Qed.

Lemma repeat_value v x n mem : 0 <= x -> 0 <= n -> x + n <= Z.of_nat (length mem) ->
  let mem' := for_range 0 n (fun k mem => put8 (x + k) v mem) mem in
  length mem' = length mem /\ take (Z.to_nat (x + n)) mem' = take (Z.to_nat x) mem ++ repeat (u8 v) (Z.to_nat n).
Proof.
  intros Hx Hn Hl. apply (for_range_ind (fun k m => length m = length mem /\
    take (Z.to_nat (x + k)) m = take (Z.to_nat x) mem ++ repeat (u8 v) (Z.to_nat k))); [lia| |].
  - split; [done|]. rewrite Z.add_0_r. by rewrite app_nil_r.
  - intros k m Hk [L E]. split; [by rewrite put8_length|]. rewrite Z.add_assoc, take_put8, E by lia.
    replace (Z.to_nat (k + 1)) with (Z.to_nat k + 1)%nat by lia. by rewrite repeat_app, app_assoc.
Qed.

Section Unpack.
Context {C : Type} `{Readable C}.
Variables (width : Z).

Definition unpacked (junk : Z * Z) (fuel : nat) (x : Z) (mem : list Z) (f : C) (s rest : list Z) : Prop :=
  exists mem' f', unpack_row width fuel junk x mem f true = (width * 3, mem', f', true) /\ length mem' = length mem /\
    take (Z.to_nat (width * 3)) mem' = take (Z.to_nat x) mem ++ s /\ f_left f' = rest.

Lemma unpacked_run junk fuel x mem f x1 mem1 f1 s1 s rest : 0 <= x < width * 3 ->
  unpack_run junk x mem f = (x1, mem1, f1, true) -> length mem1 = length mem -> take (Z.to_nat x1) mem1 = take (Z.to_nat x) mem ++ s1 ->
  unpacked junk fuel x1 mem1 f1 s rest -> unpacked junk (S fuel) x mem f (s1 ++ s) rest.
Proof.
  intros Hx E L T (mem' & f' & E2 & L2 & T2 & R). exists mem', f'. cbn [unpack_row].
  rewrite (proj2 (Z.ltb_lt _ _)) by lia. rewrite E. split; [exact E2|]. split; [by rewrite L2|]. split; [|exact R].
  by rewrite T2, T, app_assoc.
Qed.

Lemma f_left_byte (f : C) a b l : f_left f = a :: b :: l -> 0 <= b < 256.
Proof. intros E. pose proof (f_bytes f) as Hb. rewrite E in Hb. by inversion_clear Hb as [|? ? _ Hb2]; inversion_clear Hb2. Qed.

Lemma unpack_row_spec junk d s : unpacks d s -> forall fuel x mem f rest, 0 <= x -> x + Z.of_nat (length s) = width * 3 ->
  width * 3 <= Z.of_nat (length mem) -> (length s <= fuel)%nat -> f_left f = d ++ rest -> unpacked junk fuel x mem f s rest.
Proof.
  induction 1 as [|n lits d s Hl Hn _ IH|n c d s Hn _ IH]; intros fuel x mem f rest Hx Hs Hm Hfuel Hf; cbn [length] in Hs, Hfuel.
  - exists mem, f. assert (x = width * 3) as -> by lia. split; [|split; [done|split; [by rewrite app_nil_r|done]]].
    destruct fuel; cbn [unpack_row]; [done|]. by rewrite Z.ltb_irrefl.
  - destruct lits as [|v lits]; [done|]. injection Hl as Hl. cbn [app length] in *. rewrite length_app in *.
    destruct fuel as [|fuel]; [lia|]. pose proof (f_left_byte f _ _ _ Hf) as Hv.
    destruct (f_read_exact f 2 [Z.of_nat n; v] (lits ++ d ++ rest)) as (f1 & E1 & F1); [by rewrite Hf, <- app_assoc|done|].
    assert (Es : s8 (Z.of_nat n) = Z.of_nat n) by (unfold s8; lia).
    pose proof (take_put8 x v mem ltac:(lia)) as Tp. rewrite u8_small in Tp by lia. change (v :: lits ++ s) with ((v :: lits) ++ s).
    destruct (decide (n = 0%nat)) as [->|Hn0].
    + destruct lits; [|done]. apply (unpacked_run junk fuel x mem f (x + 1) (put8 x v mem) f1 [v]); [lia| |apply put8_length|exact Tp|].
      * unfold unpack_run. rewrite E1. cbn [fst snd]. rewrite Es. cbn [Z.of_nat Z.ltb Z.compare Z.opp]. rewrite for_range_empty by lia.
        by rewrite Z.sub_0_r.
      * apply IH; rewrite ?put8_length; cbn [length] in *; try lia. exact F1.
    + destruct (f_read_exact f1 (Z.of_nat n) lits (d ++ rest) F1 ltac:(lia)) as (f2 & E2 & F2).
      set (m1 := take (Z.to_nat (x + 1)) (put8 x v mem) ++ lits ++ drop (Z.to_nat (x + 1) + length lits) (put8 x v mem)).
      assert (L1 : length m1 = length mem).
      { unfold m1. rewrite !length_app, length_take, length_drop, put8_length. lia. }
      apply (unpacked_run junk fuel x mem f (x + 1 + Z.of_nat n) m1 f2 (v :: lits)); [lia| |exact L1| |].
      * unfold unpack_run. rewrite E1. rewrite Es. rewrite (proj2 (Z.ltb_lt _ _)) by lia. by rewrite E2.
      * unfold m1. rewrite app_assoc, take_app_length', Tp; [by rewrite <- app_assoc|].
        rewrite length_app, length_take, put8_length. lia.
      * apply IH; [lia|cbn [length] in *; lia|lia|lia|exact F2].
  - rewrite length_app, repeat_length in *. destruct fuel as [|fuel]; [lia|]. cbn [app] in Hf. pose proof (f_left_byte f _ _ _ Hf) as Hc.
    destruct (f_read_exact f 2 [256 - Z.of_nat n; c] (d ++ rest) Hf eq_refl) as (f1 & E1 & F1).
    assert (Es : s8 (256 - Z.of_nat n) = - Z.of_nat n) by (unfold s8; lia).
    pose proof (take_put8 x c mem ltac:(lia)) as Tp. rewrite u8_small in Tp by lia.
    destruct (repeat_value c (x + 1) (Z.of_nat n) (put8 x c mem) ltac:(lia) ltac:(lia)) as [Lr Tr]; [rewrite put8_length; lia|].
    rewrite put8_length in Lr. rewrite Tp, u8_small, Nat2Z.id, <- app_assoc in Tr by lia.
    eapply (unpacked_run junk fuel x mem f (x + 1 + Z.of_nat n) _ f1 (repeat c (S n))); [lia| |exact Lr|exact Tr|].
    * unfold unpack_run. rewrite E1. rewrite Es. destruct (Z.ltb_spec 0 (- Z.of_nat n)); [lia|]. rewrite Z.opp_involutive.
      do 3 f_equal. lia.
    * apply IH; [lia|lia|rewrite Lr; lia|lia|exact F1].
Qed.
End Unpack.

(** The conversion back, in place too: the words written lie below the bytes still to be read. *)
Lemma pack_row_spec width row mem : 0 <= width -> pixels row -> Z.of_nat (length row) = width -> width * 3 <= Z.of_nat (length mem) ->
  take (Z.to_nat (width * 3)) mem = tiff_bytes row ->
  words width (pack_row width mem) = row /\ length (pack_row width mem) = length mem.
Proof.
  intros Hw Hr Hl Hm Ht.
  assert (Hb : forall x j, 0 <= x < width -> 0 <= j < 3 -> tab mem (3 * x + j) = tab (rgb888 (tab row x)) j).
  { intros x j Hx Hj. rewrite <- tiff_bytes_tab by lia. rewrite <- Ht. symmetry. apply tab_take. lia. }
  destruct (for_range_ind (fun k m => length m = length mem /\ (forall j, 0 <= j < k -> get16 m j = tab row j) /\
    forall j, 2 * k <= j -> tab m j = tab mem j) 0 width pack_pixel mem) as (L & Hlow & _); [lia|split; [done|split; [lia|done]]| |].
  { intros k m Hk (L & Hlow & Hhi). unfold pack_pixel.
    replace (RGB565 (get8 m (3 * k)) (get8 m (3 * k + 1)) (get8 m (3 * k + 2))) with (tab row k).
    2:{ unfold get8. rewrite !Hhi by lia. rewrite <- (Z.add_0_r (3 * k)) at 1. rewrite !Hb by lia. symmetry. exact (rgb888_565 _ (pixels_tab row k Hr)). }
    pose proof (pixels_tab row k Hr) as Hv. split; [by rewrite put16_length|]. split.
    - intros j Hj. unfold get16. rewrite !tab_put16 by lia. destruct (Z.eqb_spec (2 * j) (2 * k + 1)); [lia|].
      destruct (Z.eqb_spec (2 * j) (2 * k)).
      + assert (j = k) as -> by lia. rewrite Z.eqb_refl. by apply join_bytes.
      + destruct (Z.eqb_spec (2 * j + 1) (2 * k + 1)); [lia|]. destruct (Z.eqb_spec (2 * j + 1) (2 * k)); [lia|]. apply Hlow. lia.
    - intros j Hj. rewrite tab_put16 by lia. destruct (Z.eqb_spec j (2 * k + 1)); [lia|]. destruct (Z.eqb_spec j (2 * k)); [lia|]. apply Hhi. lia. }
  split; [|exact L]. unfold words. apply tab_ext; rewrite length_map, length_seqZ; [lia|]. intros i Hi.
  rewrite tab_map_seqZ by lia. apply Hlow. lia.
Qed.

(** The rows [ys] of [o] as they are in the file. *)
Definition tiff_rows (o : list (list Z)) (ys : list Z) (d : list Z) : Prop :=
  exists ds, Forall2 (fun y d => unpacks d (tiff_bytes (nth (Z.to_nat y) o []))) ys ds /\ d = concat ds.

Lemma save_tiff_rows_spec {C} `{Roomy C} width height tick o ys : screen_ok width height o -> 0 <= width -> width * 3 <= 16000 ->
  NoDup ys -> Forall (fun y => 0 <= y < height) ys ->
  forall s mem f, 128 + width * 3 <= Z.of_nat (length mem) -> (forall y, y ∈ ys -> nth (Z.to_nat y) s [] = nth (Z.to_nat y) o []) ->
  exists s' f' d, save_tiff_rows width tick ys s mem f true = (s', f', true) /\ f_written f' = f_written f ++ d /\ tiff_rows o ys d.
Proof.
  intros Ho Hw H16. induction ys as [|y ys IH]; intros Hnd Hys s mem f Hm Hs; cbn [save_tiff_rows].
  { exists s, f, []. split; [done|]. split; [by rewrite app_nil_r|]. by exists []. }
  apply NoDup_cons in Hnd as [Hny Hnd]. apply Forall_cons in Hys as [Hy Hys]. cbn [negb].
  destruct (screen_row width height o y Ho Hy) as [Hl Hp]. unfold lcd_read_memory.
  rewrite (Hs y) by (apply elem_of_cons; by left). set (row := nth (Z.to_nat y) o []) in *.
  destruct (tiff_row_spec width row mem Hp Hl ltac:(lia)) as [L1 T1]. set (mem1 := tiff_row width (store_at _ mem)) in *.
  pose proof (packbits_mem_spec (Z.to_nat (width * 3)) mem1 ltac:(lia) ltac:(lia)) as P.
  destruct (packbits_mem 128 (Z.to_nat (width * 3)) mem1) as [mem2 size]. destruct P as [L2 T2].
  destruct (packbits_final (drop 128 mem1) (Z.to_nat (width * 3)) ltac:(rewrite length_drop; lia)) as [U _].
  rewrite <- T2 in U. replace (Z.to_nat (width * 3)) with (3 * length row)%nat in U by lia. rewrite T1 in U.
  destruct (f_write_room f (take size mem2)) as (f1 & -> & Hf1).
  destruct (IH Hnd Hys (lcd_tick width tick y s) mem2 f1 ltac:(lia)) as (s' & f' & d & E & Hf' & ds & Hds & ->).
  { intros y' Hy'. rewrite tick_other; [apply Hs, elem_of_cons; by right|lia| |].
    - rewrite Forall_forall in Hys. apply Hys in Hy'. lia.
    - intros ->. done. }
  exists s', f', (take size mem2 ++ concat ds). split; [exact E|]. split; [by rewrite Hf', Hf1, app_assoc|].
  exists (take size mem2 :: ds). split; [by constructor|done].
Qed.

Lemma load_tiff_rows_spec {C} `{Readable C} width height junk o ys : screen_ok width height o -> 0 <= width -> Forall (fun y => 0 <= y < height) ys ->
  forall s mem f d rest, width * 3 <= Z.of_nat (length mem) -> tiff_rows o ys d -> f_left f = d ++ rest ->
  load_tiff_rows width junk ys s mem f true = put_rows o ys s.
Proof.
  intros Ho Hw. induction ys as [|y ys IH]; intros Hys s mem f d rest Hm (ds & Hds & ->) Hf; cbn [load_tiff_rows negb]; [done|].
  apply Forall_cons in Hys as [Hy Hys]. destruct (screen_row width height o y Ho Hy) as [Hl Hp].
  apply Forall2_cons_inv_l in Hds as (d & ds' & Hd & Hds & ->). cbn [concat] in Hf. rewrite <- app_assoc in Hf.
  set (row := nth (Z.to_nat y) o []) in *. pose proof (tiff_bytes_length row) as Hlb.
  destruct (unpack_row_spec width junk d (tiff_bytes row) Hd (Z.to_nat (width * 3)) 0 mem f (concat ds' ++ rest)) as (m1 & f1 & -> & L1 & T1 & F1);
    try lia; [exact Hf|].
  destruct (pack_row_spec width row m1 Hw Hp Hl ltac:(lia) T1) as [W1 L2].
  rewrite (IH Hys _ _ f1 (concat ds') rest); [|lia|by exists ds'|exact F1].
  unfold put_rows. cbn [fold_left]. unfold lcd_bulk. by rewrite W1.
Qed.

Lemma tif_header_words width height mem : 0 <= width < 65536 -> 0 <= height < 65536 ->
  let m := store_at (tif_header width height) mem in
  get16 m 0 = 0x4949 /\ get16 m 9 = width /\ get16 m 15 = height /\ get16 m 27 = TIFF_PACKBITS.
Proof.
  intros Hw Hh m. split; [reflexivity|]. split; [exact (join_bytes width Hw)|]. split; [exact (join_bytes height Hh)|reflexivity].
Qed.

(** C23: A TIFF screenshot round trip: on a card with room, [save_tiff] — conversion to
    RGB888 and PackBits compression inside one buffer — reports success and
    [load_tiff] of the file, under a name as above, shows every pixel of the screen as it
    was, except that the name is printed over it. *)
Theorem tiff_roundtrip {K} `{Roomy K} {C} `{Readable C} (width height tick : Z) (p : pen) (fname : list Z) (junk : Z * Z) (s shown : list (list Z)) (mem mem' : list Z) (f : K) (g : C) :
  0 <= width -> width * 3 <= 16000 -> 33 <= height < 65536 -> screen_ok width height s -> Z.of_nat (length shown) = height ->
  128 + width * 3 <= Z.of_nat (length mem) -> width * 3 <= Z.of_nat (length mem') -> f_written f = [] ->
  plain fname -> text_width fname <= width ->
  let '(_, f', ok) := save_tiff width height tick s mem f in
  ok = true /\ (f_left g = f_written f' ->
    exists t, load_tiff width height p fname junk shown mem' g = Some (t, true) /\ lettered width height p fname 0 (height - 33) s t).
Proof.
  intros Hw H16 Hh Hs Hshown Hm Hm' Hf Hname Hnw. unfold save_tiff. destruct (f_write_room f (tif_header width height)) as (f1 & -> & Hf1).
  assert (Hys : Forall (fun y => 0 <= y < height) (seqZ 0 height)) by (apply Forall_forall; intros y Hy; apply elem_of_seqZ in Hy; lia).
  destruct (save_tiff_rows_spec width height tick s (seqZ 0 height) Hs Hw H16 (NoDup_seqZ _ _) Hys s mem f1 Hm ltac:(done))
    as (s' & f' & d & -> & Hf' & Hd).
  split; [done|]. rewrite Hf', Hf1, Hf. cbn [app]. intros Hg. unfold load_tiff.
  destruct (f_read_exact g _ _ _ Hg eq_refl) as (g1 & -> & Hg1).
  destruct (tif_header_words width height mem' ltac:(lia) ltac:(lia)) as (-> & -> & -> & ->). rewrite !Z.eqb_refl. cbn [negb orb].
  rewrite <- (app_nil_r d) in Hg1.
  rewrite (load_tiff_rows_spec width height junk s (seqZ 0 height) Hs Hw Hys shown _ g1 d []); [|unfold store_at; rewrite length_app, length_drop; lia|exact Hd|exact Hg1].
  rewrite put_rows_all; [|destruct Hs; lia|intros y; rewrite elem_of_seqZ; destruct Hs; lia].
  destruct (show_name_letters width height p fname s Hs Hname Hnw) as (t & -> & Ht); [lia..|]. by exists t.
Qed.

(** ** PNG *)

(** *** The palette *)

Lemma palette_find_spec pal v : forall i, 0 <= i -> let k := palette_find pal v i in
  (v ∈ pal /\ i <= k < i + Z.of_nat (length pal) /\ tab pal (k - i) = v) \/ ((v ∉ pal) /\ k = i + Z.of_nat (length pal)).
Proof.
  induction pal as [|c pal IH]; intros i Hi; cbn [palette_find length].
  { right. split; [apply not_elem_of_nil|lia]. }
  destruct (Z.eqb_spec c v) as [->|Hne].
  { left. split; [apply elem_of_cons; by left|]. split; [lia|]. by rewrite Z.sub_diag. }
  destruct (IH (i + 1) ltac:(lia)) as [(Hin & Hk & E)|[Hin E]].
  - left. split; [apply elem_of_cons; by right|]. split; [lia|]. rewrite tab_cons by lia. rewrite <- E at 2. f_equal. lia.
  - right. split; [intros [E'|?]%elem_of_cons; congruence|lia].
Qed.

(** The palette [pal0] with colours of [cs] added, none of them twice. *)
Definition grown (pal0 : list Z) (cs : gset Z) (pal : list Z) : Prop :=
  exists new, pal = pal0 ++ new /\ NoDup new /\ forall v, v ∈ new -> v ∈ cs /\ v ∉ pal0.
(** The colours of a screen that a palette lacks. *)
Definition new_colours (pal0 : list Z) (s : list (list Z)) : gset Z := list_to_set (concat s) ∖ list_to_set pal0.

Section Palette.
Variables (pal0 : list Z) (cs : gset Z).
Hypothesis room : (length pal0 + size cs <= 256)%nat.

Lemma grown_length pal : grown pal0 cs pal -> (length pal <= 256)%nat.
Proof.
  intros (new & -> & Hnd & Hnew). rewrite length_app.
  assert (length new <= size cs)%nat; [|lia]. rewrite <- (size_list_to_set (C:=gset Z) new) by done.
  apply subseteq_size. intros v Hv. apply elem_of_list_to_set in Hv. by apply Hnew.
Qed.
Lemma grown_more pal v : grown pal0 cs pal -> v ∈ cs -> v ∉ pal -> grown pal0 cs (pal ++ [v]).
Proof.
  intros (new & -> & Hnd & Hnew) Hv Hn. exists (new ++ [v]). split; [by rewrite app_assoc|]. split.
  - apply NoDup_app. split; [done|]. split; [|apply NoDup_singleton]. intros x Hx Hx'. apply list_elem_of_singleton in Hx' as ->. apply Hn, elem_of_app. by right.
  - intros x [Hx|Hx]%elem_of_app; [by apply Hnew|]. apply list_elem_of_singleton in Hx as ->. split; [done|]. intros Hp. apply Hn, elem_of_app. by left.
Qed.

(** A colour of the palette or of [cs] gets an index that stands for it. *)
Lemma palette_index_spec pal v : grown pal0 cs pal -> v ∈ pal \/ v ∈ cs ->
  exists i pal', palette_index pal v = (i, pal') /\ grown pal0 cs pal' /\ pal `prefix_of` pal' /\
    0 <= i < Z.of_nat (length pal') /\ tab pal' i = v /\ (v ∈ pal -> pal' = pal).
Proof.
  intros Hg Hv. unfold palette_index. destruct (palette_find_spec pal v 0 ltac:(lia)) as [(Hin & Hk & E)|[Hin E]].
  - rewrite Z.sub_0_r in E. destruct (Z.eqb_spec (palette_find pal v 0) (Z.of_nat (length pal))); [lia|].
    exists (palette_find pal v 0), pal. repeat split; try done; lia.
  - rewrite E. cbn [Z.add]. rewrite Z.eqb_refl.
    assert (Hg' : grown pal0 cs (pal ++ [v])) by (apply grown_more; [done| |done]; by destruct Hv).
    pose proof (grown_length _ Hg') as Hl. rewrite length_app in Hl. cbn [length] in Hl.
    rewrite (proj2 (Z.ltb_lt _ _)) by lia. exists (Z.of_nat (length pal)), (pal ++ [v]).
    split; [done|]. split; [done|]. split; [by exists [v]|]. split; [rewrite length_app; cbn; lia|]. split; [|done].
    rewrite tab_app_r by lia. by rewrite Z.sub_diag.
Qed.
End Palette.

(** The indices [idx] stand for the pixels of [row]. *)
Definition stands_for (pal idx row : list Z) : Prop :=
  length idx = length row /\ forall j, 0 <= j < Z.of_nat (length row) -> 0 <= tab idx j < Z.of_nat (length pal) /\ tab pal (tab idx j) = tab row j.

Lemma tab_prefix pal pal' i : pal `prefix_of` pal' -> 0 <= i < Z.of_nat (length pal) -> tab pal' i = tab pal i.
Proof. intros [l ->] Hi. apply tab_app_l. lia. Qed.
Lemma tab_elem row i : 0 <= i < Z.of_nat (length row) -> tab row i ∈ row.
Proof. intros Hi. apply list_elem_of_lookup. exists (Z.to_nat i). unfold tab. destruct (lookup_lt_is_Some_2 row (Z.to_nat i) ltac:(lia)) as [x E]. by rewrite E, nth_lookup, E. Qed.

Section PngScreen.
Variables (width tick : Z).

(** What the rows are for the codec, whatever the screen holds. *)
Definition buffer_ok (c : png_lcd_t) : Prop := 2 * width <= Z.of_nat (length (l_mem c)).

(** The loop over a row: pixels at or above the one at work have not been overwritten. *)
Lemma png_row_loop pal0 cs row mem pal : (length pal0 + size cs <= 256)%nat -> grown pal0 cs pal -> pixels row ->
  Z.of_nat (length row) = width -> 2 * width <= Z.of_nat (length mem) -> (forall v, v ∈ row -> v ∈ pal \/ v ∈ cs) ->
  exists mem' pal', for_range 0 width (fun x '(mem, pal) =>
      let '(i, pal) := palette_index pal (get16 mem x) in (put8 x i mem, pal)) (store_at (flat_map u16_bytes row) mem, pal) = (mem', pal') /\
    length mem' = length mem /\ grown pal0 cs pal' /\ pal `prefix_of` pal' /\ stands_for pal' (take (Z.to_nat width) mem') row /\
    ((forall v, v ∈ row -> v ∈ pal) -> pal' = pal).
Proof.
  intros Hroom Hg Hr Hl Hm Hcs. set (m0 := store_at (flat_map u16_bytes row) mem).
  assert (Hm0 : length m0 = length mem) by (apply store_row_length; lia).
  set (P := fun (k : Z) (st : list Z * list Z) => length (fst st) = length mem /\ grown pal0 cs (snd st) /\ pal `prefix_of` snd st /\
    (forall j, k <= j -> tab (fst st) j = tab m0 j) /\
    (forall j, 0 <= j < k -> 0 <= tab (fst st) j < Z.of_nat (length (snd st)) /\ tab (snd st) (tab (fst st) j) = tab row j) /\
    ((forall v, v ∈ row -> v ∈ pal) -> snd st = pal)).
  match goal with |- context [for_range 0 width ?b ?i] => set (body := b); assert (A : P width (for_range 0 width body i)) end.
  { apply for_range_ind; unfold P; cbn [fst snd]; [lia|repeat split; try done; lia|].
    intros k [m p] Hk (L & Gp & Pp & Hhi & Hlow & Hsame). cbn [fst snd] in *. unfold body.
    assert (Ec : get16 m k = tab row k).
    { unfold get16. rewrite !Hhi by lia. apply (get16_row row _ k Hr). lia. }
    rewrite Ec. pose proof (tab_elem row k ltac:(lia)) as Hel.
    destruct (palette_index_spec pal0 cs Hroom p (tab row k) Gp) as (i & p' & -> & Gp' & Pp' & Hi & Ei & Hsame').
    { destruct (Hcs _ Hel) as [Hin|]; [left|by right]. destruct Pp as [l ->]. apply elem_of_app. by left. }
    pose proof (grown_length pal0 cs Hroom p' Gp') as H256. cbn [fst snd].
    split; [by rewrite put8_length|]. split; [done|]. split; [by trans p|]. split.
    - intros j Hj. rewrite tab_put8 by lia. destruct (Z.eqb_spec j k); [lia|]. apply Hhi. lia.
    - split.
      + intros j Hj. rewrite tab_put8 by lia. destruct (Z.eqb_spec j k) as [->|].
        * rewrite u8_small by lia. auto.
        * destruct (Hlow j ltac:(lia)) as [Hr1 Hr2]. rewrite (tab_prefix p p') by done.
          split; [|exact Hr2]. destruct Pp' as [l ->]. rewrite length_app. lia.
      + intros Hall. rewrite Hsame'; [by apply Hsame|]. rewrite Hsame by done. by apply Hall. }
  destruct (for_range 0 width body _) as [m p]. destruct A as (L & Gp & Pp & _ & Hlow & Hsame). cbn [fst snd] in *.
  exists m, p. split; [done|]. split; [done|]. split; [done|]. split; [done|]. split; [|done].
  split; [rewrite length_take; lia|]. intros j Hj. rewrite tab_take by lia. apply Hlow. lia.
Qed.

(** The ticks on a row and on the screen. *)
Definition tick_row (row : list Z) : list Z := <[Z.to_nat (width - 1) := tick]> row.

Lemma tick_row_twice row : tick_row (tick_row row) = tick_row row.
Proof. apply list_insert_insert_eq. Qed.
Lemma tick_row_in row v : v ∈ tick_row row -> v ∈ row \/ v = tick.
Proof.
  intros (i & Hi)%list_elem_of_lookup. unfold tick_row in Hi. apply list_lookup_insert_Some in Hi as [(_ & -> & _)|[_ Hi]]; [by right|].
  left. apply list_elem_of_lookup. by exists i.
Qed.
Lemma tick_row_ok row : 0 <= tick < 65536 -> Z.of_nat (length row) = width /\ pixels row -> Z.of_nat (length (tick_row row)) = width /\ pixels (tick_row row).
Proof.
  intros Ht [Hl Hp]. unfold tick_row. split; [by rewrite length_insert|]. apply Forall_forall. intros v [Hv|Hv]%tick_row_in.
  - unfold pixels in Hp. rewrite Forall_forall in Hp. by apply Hp.
  - lia.
Qed.

Definition ticks (ys : list Z) (s : list (list Z)) : list (list Z) := fold_left (fun s y => lcd_tick width tick y s) ys s.
Lemma ticks_lookup ys : Forall (fun y => 0 <= y) ys -> forall s i, ticks ys s !! i = if decide (Z.of_nat i ∈ ys) then tick_row <$> s !! i else s !! i.
Proof.
  induction ys as [|y ys IH]; intros Hys s i; [done|]. apply Forall_cons in Hys as [Hy Hys].
  unfold ticks. cbn [fold_left]. fold (ticks ys (lcd_tick width tick y s)). rewrite (IH Hys).
  destruct (decide (Z.of_nat i = y)) as [<-|Hne].
  - rewrite (decide_True (P:=Z.of_nat i ∈ Z.of_nat i :: ys)) by (apply elem_of_cons; by left). unfold lcd_tick. rewrite Nat2Z.id, list_lookup_alter_eq.
    destruct (decide _); [|done]. destruct (s !! i) as [row|]; [|done]. cbn. f_equal. apply tick_row_twice.
  - unfold lcd_tick. rewrite list_lookup_alter_ne by lia. destruct (decide (Z.of_nat i ∈ ys)).
    + rewrite decide_True by (apply elem_of_cons; by right). done.
    + rewrite decide_False by (intros [E|E]%elem_of_cons; congruence). done.
Qed.
Lemma ticks_all height s : Z.of_nat (length s) = height -> ticks (seqZ 0 height) s = map tick_row s.
Proof.
  intros Hl. apply list_eq. intros i. rewrite ticks_lookup by (apply Forall_forall; intros y Hy; apply elem_of_seqZ in Hy; lia).
  rewrite list_lookup_fmap. destruct (decide _) as [|Hn]; [done|]. rewrite elem_of_seqZ in Hn. by rewrite !lookup_ge_None_2 by lia.
Qed.
Lemma tick_ticked y s : lcd_tick width tick y (map tick_row s) = map tick_row s.
Proof.
  apply list_eq. intros i. unfold lcd_tick. destruct (decide (Z.to_nat y = i)) as [<-|Hne].
  - rewrite list_lookup_alter_eq, list_lookup_fmap. destruct (s !! Z.to_nat y) as [row|]; [|done]. cbn. f_equal. apply tick_row_twice.
  - by rewrite list_lookup_alter_ne.
Qed.

(** One call of the row callback. *)
Lemma png_lcd_row_spec pal0 cs c y row : (length pal0 + size cs <= 256)%nat -> grown pal0 cs (l_palette c) -> buffer_ok c ->
  nth (Z.to_nat y) (l_screen c) [] = row -> pixels row -> Z.of_nat (length row) = width -> (forall v, v ∈ row -> v ∈ l_palette c \/ v ∈ cs) ->
  exists mem pal idx, png_lcd_row width tick c y = Some (PngLcd (lcd_tick width tick y (l_screen c)) mem pal, idx) /\
    2 * width <= Z.of_nat (length mem) /\ grown pal0 cs pal /\ l_palette c `prefix_of` pal /\ stands_for pal idx row /\
    ((forall v, v ∈ row -> v ∈ l_palette c) -> pal = l_palette c).
Proof.
  intros Hroom Hg Hm Hrow Hr Hl Hcs. destruct c as [s mem pal]. cbn [l_screen l_mem l_palette] in *. unfold buffer_ok in Hm. cbn in Hm.
  destruct (png_row_loop pal0 cs row mem pal Hroom Hg Hr Hl Hm Hcs) as (m & p & E & L & Gp & Pp & St & Hsame).
  unfold png_lcd_row, lcd_read_memory. cbn [l_screen l_mem l_palette]. rewrite Hrow, E. exists m, p, (take (Z.to_nat width) m).
  split; [done|]. split; [by rewrite L|]. done.
Qed.

(** The first pass: the colours of every row enter the palette, and every row gets its tick. *)
Lemma palette_pass_spec pal0 cs height o ys : (length pal0 + size cs <= 256)%nat -> screen_ok width height o ->
  (forall y v, 0 <= y < height -> v ∈ nth (Z.to_nat y) o [] -> v ∈ pal0 \/ v ∈ cs) ->
  NoDup ys -> Forall (fun y => 0 <= y < height) ys ->
  forall c, grown pal0 cs (l_palette c) -> buffer_ok c -> (forall y, y ∈ ys -> nth (Z.to_nat y) (l_screen c) [] = nth (Z.to_nat y) o []) ->
  exists mem pal, png_palette_pass (png_lcd_row width tick) ys c = Some (PngLcd (ticks ys (l_screen c)) mem pal) /\
    2 * width <= Z.of_nat (length mem) /\ grown pal0 cs pal /\ l_palette c `prefix_of` pal /\
    forall y v, y ∈ ys -> v ∈ nth (Z.to_nat y) o [] -> v ∈ pal.
Proof.
  intros Hroom Ho Hcs. induction ys as [|y ys IH]; intros Hnd Hys c Hg Hm Hs.
  { destruct c as [s mem pal]. exists mem, pal. split; [done|]. repeat split; try done. intros y v Hy. by apply not_elem_of_nil in Hy. }
  apply NoDup_cons in Hnd as [Hny Hnd]. apply Forall_cons in Hys as [Hy Hys]. cbn [png_palette_pass].
  destruct (screen_row width height o y Ho Hy) as [Hl Hp].
  assert (Hin : forall v, v ∈ nth (Z.to_nat y) o [] -> v ∈ l_palette c \/ v ∈ cs).
  { intros v Hv. destruct (Hcs y v Hy Hv) as [H0|]; [left|by right]. destruct Hg as (new & -> & _). apply elem_of_app. by left. }
  destruct (png_lcd_row_spec pal0 cs c y _ Hroom Hg Hm (Hs y ltac:(apply elem_of_cons; by left)) Hp Hl Hin)
    as (m1 & p1 & idx & -> & Hm1 & Hg1 & Hp1 & [_ Hst] & _).
  destruct (IH Hnd Hys (PngLcd (lcd_tick width tick y (l_screen c)) m1 p1) Hg1 Hm1) as (m2 & p2 & E & Hm2 & Hg2 & Hp2 & Hall).
  { intros y' Hy'. cbn [l_screen]. rewrite tick_other; [apply Hs, elem_of_cons; by right|lia| |].
    - rewrite Forall_forall in Hys. apply Hys in Hy'. lia.
    - intros ->. done. }
  exists m2, p2. split; [exact E|]. split; [done|]. split; [done|]. split; [by trans p1|].
  intros y' v [->|Hy']%elem_of_cons Hv; [|by apply (Hall y')]. apply list_elem_of_lookup in Hv as [i Hi].
  assert (Et : tab (nth (Z.to_nat y) o []) (Z.of_nat i) = v) by (unfold tab; by rewrite Nat2Z.id, nth_lookup, Hi).
  apply lookup_lt_Some in Hi. destruct (Hst (Z.of_nat i) ltac:(lia)) as [Hr E2].
  rewrite <- Et, <- E2. destruct Hp2 as [l ->]. apply elem_of_app. left. by apply tab_elem.
Qed.

(** The second pass: the screen is ticked already, and the palette complete. *)
Lemma row_pass_spec height s ys : screen_ok width height s -> Forall (fun y => 0 <= y < height) ys -> map tick_row s = s ->
  forall c, (length (l_palette c) <= 256)%nat -> buffer_ok c -> l_screen c = s -> (forall y v, 0 <= y < height -> v ∈ nth (Z.to_nat y) s [] -> v ∈ l_palette c) ->
  exists mem rows, row_pass (png_lcd_row width tick) ys c = Some (PngLcd s mem (l_palette c), rows) /\
    Forall2 (fun y idx => stands_for (l_palette c) idx (nth (Z.to_nat y) s [])) ys rows.
Proof.
  intros Ho Hys Hticked. induction ys as [|y ys IH]; intros c H256 Hm Hs Hall.
  { destruct c as [s' mem pal]. cbn in Hs. subst s'. exists mem, []. by split. }
  apply Forall_cons in Hys as [Hy Hys]. cbn [row_pass]. destruct (screen_row width height s y Ho Hy) as [Hl Hp].
  assert (Hg : grown (l_palette c) ∅ (l_palette c)).
  { exists []. split; [by rewrite app_nil_r|]. split; [constructor|]. intros v Hv. by apply not_elem_of_nil in Hv. }
  destruct (png_lcd_row_spec (l_palette c) ∅ c y _ ltac:(rewrite size_empty; lia) Hg Hm (f_equal (fun s => nth (Z.to_nat y) s []) Hs) Hp Hl)
    as (m1 & p1 & idx & -> & Hm1 & _ & _ & St & Hsame); [intros v Hv; left; by apply (Hall y)|].
  rewrite Hsame in * by (intros v Hv; by apply (Hall y)). rewrite Hs, <- Hticked, tick_ticked, Hticked.
  destruct (IH Hys (PngLcd s m1 (l_palette c)) H256 Hm1 eq_refl Hall) as (m2 & rows & -> & Hrows).
  exists m2, (idx :: rows). split; [done|]. by constructor.
Qed.

(** Showing a row of indices: converted from the last pixel down. *)
Lemma png_lcd_put_spec pal s y idx row : 0 <= width -> stands_for pal idx row -> Z.of_nat (length row) = width -> pixels row -> (length pal <= 256)%nat ->
  png_lcd_put width pal s y idx = (<[Z.to_nat y := row]> s, true).
Proof.
  intros Hw [Hli Hst] Hl Hr H256. unfold png_lcd_put. set (m0 := idx ++ repeat 0 (length idx)).
  assert (Hm0 : Z.of_nat (length m0) = 2 * width) by (unfold m0; rewrite length_app, repeat_length; lia).
  assert (Hlow0 : forall j, 0 <= j < width -> tab m0 j = tab idx j) by (intros j Hj; apply tab_app_l; lia).
  clearbody m0. do 2 f_equal.
  match goal with |- context [fold_left ?b _ m0] => set (body := b) end.
  destruct (for_down_ind (fun k m => length m = length m0 /\ (forall j, 0 <= j < k -> tab m j = tab idx j) /\
    forall j, k <= j < width -> get16 m j = tab row j) body width m0 Hw) as (L & _ & Hhi); [split; [done|split; [done|lia]]| |].
  - intros k m Hk (L & Hlow & Hhi). unfold body, get8. rewrite (Hlow k) by lia.
    destruct (Hst k ltac:(lia)) as [Hi E]. rewrite (proj2 (Z.ltb_lt _ _)) by lia. rewrite E.
    pose proof (pixels_tab row k Hr) as Hv. split; [by rewrite put16_length|]. split.
    + intros j Hj. rewrite tab_put16 by lia. destruct (Z.eqb_spec j (2 * k + 1)); [lia|]. destruct (Z.eqb_spec j (2 * k)); [lia|]. apply Hlow. lia.
    + intros j Hj. unfold get16. rewrite !tab_put16 by lia. destruct (Z.eqb_spec (2 * j) (2 * k + 1)); [lia|].
      destruct (Z.eqb_spec (2 * j) (2 * k)).
      * assert (j = k) as -> by lia. rewrite Z.eqb_refl. by apply join_bytes.
      * destruct (Z.eqb_spec (2 * j + 1) (2 * k + 1)); [lia|]. destruct (Z.eqb_spec (2 * j + 1) (2 * k)); [lia|]. apply Hhi. lia.
  - unfold lcd_bulk. f_equal. unfold words. apply tab_ext; rewrite length_map, length_seqZ; [lia|]. intros i Hi.
    rewrite tab_map_seqZ by lia. apply Hhi. lia.
Qed.

Lemma put_all_rows pal height o : 0 <= width -> screen_ok width height o -> (length pal <= 256)%nat ->
  forall n y rows s, Forall2 (fun y idx => stands_for pal idx (nth (Z.to_nat y) o [])) (seqZ y n) rows -> 0 <= y -> y + n <= height ->
  put_all (png_lcd_put width pal) y rows s = Some (put_rows o (seqZ y n) s).
Proof.
  intros Hw Ho H256 n y rows. revert n y. induction rows as [|idx rows IH]; intros n y s H Hy Hn.
  { apply Forall2_nil_inv_r in H. by rewrite H. }
  assert (Hp : 0 < n) by (destruct (Z.le_gt_cases n 0) as [Hle|]; [rewrite seqZ_nil in H by done; by apply Forall2_nil_inv_l in H|done]).
  rewrite seqZ_cons in H |- * by lia. apply Forall2_cons in H as [H1 H]. cbn [put_all].
  destruct (screen_row width height o y Ho ltac:(lia)) as [Hl Hr]. rewrite (png_lcd_put_spec pal s y idx _ Hw H1 Hl Hr H256).
  replace (Z.succ y) with (y + 1) in H |- * by lia. by rewrite (IH (Z.pred n)) by (done || lia).
Qed.
End PngScreen.

(** Whatever the screen holds, a row is [width] bytes. *)
Lemma lcd_row_bytes width tick : 0 <= width -> byte_rows (buffer_ok width) (png_lcd_row width tick) width.
Proof.
  intros Hw [s mem pal] y c' idx Hm E. unfold buffer_ok in *. cbn [l_mem] in Hm. unfold png_lcd_row in E. cbn [l_screen l_mem l_palette] in E.
  set (m0 := lcd_read_memory s y mem) in E.
  assert (Hm0 : 2 * width <= Z.of_nat (length m0)) by (unfold m0, lcd_read_memory, store_at; rewrite length_app, length_drop; lia).
  clearbody m0. match goal with H : context [for_range 0 width ?b ?i] |- _ =>
    assert (A : length (fst (for_range 0 width b i)) = length m0 /\ forall j, 0 <= j < width -> 0 <= tab (fst (for_range 0 width b i)) j < 256) end.
  { apply (for_range_ind (fun k (st : list Z * list Z) => length (fst st) = length m0 /\ forall j, 0 <= j < k -> 0 <= tab (fst st) j < 256)); [lia|split; [done|lia]|].
    intros k [m p] Hk [L Hb]. cbn [fst] in *. destruct (palette_index p (get16 m k)) as [i p']. cbn [fst].
    split; [by rewrite put8_length|]. intros j Hj. rewrite tab_put8 by lia. destruct (Z.eqb_spec j k); [apply u8_range|]. apply Hb. lia. }
  destruct (for_range 0 width _ _) as [m p]. injection E as <- <-. cbn [l_mem fst] in *. destruct A as [L Hb].
  split; [lia|]. split; [rewrite length_take; lia|]. apply Forall_lookup. intros i x Hi. apply lookup_take_Some in Hi as [Hi Hlt].
  specialize (Hb (Z.of_nat i) ltac:(lia)). unfold tab in Hb. rewrite Nat2Z.id, nth_lookup, Hi in Hb. exact Hb.
Qed.

#[export] Instance roomy_complete C `{Roomy C} : Complete C.
Proof. intros c d. cbn. unfold png_fs_write. destruct (roomy c d) as [c' ->]. done. Qed.

(** The screen with its ticks is a screen, and ticking it again changes nothing. *)
Lemma ticked_ok width height tick s : 0 <= tick < 65536 -> screen_ok width height s -> screen_ok width height (map (tick_row width tick) s).
Proof.
  intros Ht [Hl Hall]. split; [by rewrite length_map|]. apply Forall_map. eapply Forall_impl; [exact Hall|]. intros r. by apply tick_row_ok.
Qed.
Lemma ticked_twice width tick s : map (tick_row width tick) (map (tick_row width tick) s) = map (tick_row width tick) s.
Proof. rewrite map_map. apply map_ext. intros r. apply tick_row_twice. Qed.
Lemma ticked_nth width height tick s y : screen_ok width height s -> 0 <= y < height ->
  nth (Z.to_nat y) (map (tick_row width tick) s) [] = tick_row width tick (nth (Z.to_nat y) s []).
Proof. intros [Hl _] Hy. rewrite !nth_lookup, list_lookup_fmap. destruct (lookup_lt_is_Some_2 s (Z.to_nat y) ltac:(lia)) as [r ->]. done. Qed.

(** Every pixel has a colour of the palette or a new one; a grown palette holds pixels. *)
Lemma new_colours_spec width height palette s y v : screen_ok width height s -> 0 <= y < height -> v ∈ nth (Z.to_nat y) s [] ->
  v ∈ palette \/ v ∈ new_colours palette s.
Proof.
  intros [Hl _] Hy Hv. destruct (decide (v ∈ palette)); [by left|right]. unfold new_colours. apply elem_of_difference. rewrite !elem_of_list_to_set. split; [|done].
  rewrite nth_lookup in Hv. destruct (s !! Z.to_nat y) as [r|] eqn:Er; [|by apply not_elem_of_nil in Hv].
  apply list_elem_of_In, in_concat. exists r. split; [apply list_elem_of_In, list_elem_of_lookup; by exists (Z.to_nat y)|by apply list_elem_of_In].
Qed.
Lemma grown_pixels width height palette s pal : screen_ok width height s -> pixels palette -> grown palette (new_colours palette s) pal -> pixels pal.
Proof.
  intros [_ Hs] Hpal (new & -> & _ & Hnew). apply Forall_app. split; [exact Hpal|]. apply Forall_forall. intros v Hv. apply Hnew in Hv as [Hv _].
  unfold new_colours in Hv. apply elem_of_difference in Hv as [Hv _]. apply elem_of_list_to_set, list_elem_of_In, in_concat in Hv as (r & Hr & Hv).
  rewrite Forall_forall in Hs. destruct (Hs r (proj2 (list_elem_of_In _ _) Hr)) as [_ Hrp]. unfold pixels in Hrp. rewrite Forall_forall in Hrp.
  by apply Hrp, list_elem_of_In.
Qed.

(** Both passes over a screen: the palette of the first stands for the ticked rows of the second. *)
Lemma both_passes width height tick palette s mem : screen_ok width height s -> pixels palette -> tick ∈ palette ->
  (length palette + size (new_colours palette s) <= 256)%nat -> 2 * width <= Z.of_nat (length mem) ->
  let t := map (tick_row width tick) s in let row := png_lcd_row width tick in
  exists c1 c2 rows, png_palette_pass row (seqZ 0 height) (PngLcd s mem palette) = Some c1 /\ row_pass row (seqZ 0 height) c1 = Some (c2, rows) /\
    l_screen c2 = t /\ (1 <= length (l_palette c1) <= 256)%nat /\ pixels (l_palette c1) /\
    Forall2 (fun y idx => stands_for (l_palette c1) idx (nth (Z.to_nat y) t [])) (seqZ 0 height) rows.
Proof.
  intros Hs Hpal Htick Hroom Hmem t row.
  assert (Htv : 0 <= tick < 65536) by (unfold pixels in Hpal; rewrite Forall_forall in Hpal; by apply Hpal).
  assert (Hys : Forall (fun y => 0 <= y < height) (seqZ 0 height)) by (apply Forall_forall; intros y Hy; apply elem_of_seqZ in Hy; lia).
  assert (Hg0 : grown palette (new_colours palette s) palette).
  { exists []. split; [by rewrite app_nil_r|]. split; [constructor|]. intros v Hv. by apply not_elem_of_nil in Hv. }
  destruct (palette_pass_spec width tick palette (new_colours palette s) height s (seqZ 0 height) Hroom Hs
    (fun y v => new_colours_spec width height palette s y v Hs) (NoDup_seqZ _ _) Hys (PngLcd s mem palette) Hg0 Hmem ltac:(done))
    as (m1 & pal & E1 & Hm1 & Hg & Hp & Hall).
  cbn [l_screen l_palette] in E1, Hp. rewrite (ticks_all width tick height s (proj1 Hs)) in E1. fold t in E1.
  pose proof (grown_length palette _ Hroom pal Hg) as H256.
  destruct (row_pass_spec width tick height t (seqZ 0 height) (ticked_ok _ _ _ _ Htv Hs) Hys (ticked_twice _ _ _) (PngLcd t m1 pal) H256 Hm1 eq_refl)
    as (m2 & rows & E2 & Hst).
  { intros y v Hy Hv. cbn [l_palette]. unfold t in Hv. rewrite (ticked_nth width height) in Hv by done.
    apply tick_row_in in Hv as [Hv|Hv]; [apply (Hall y); [apply elem_of_seqZ; lia|done]|].
    subst v. destruct Hp as [l ->]. apply elem_of_app. by left. }
  exists (PngLcd t m1 pal), (PngLcd t m2 pal), rows. cbn [l_screen l_palette] in *. split; [exact E1|]. split; [exact E2|]. split; [done|].
  split; [|split; [by eapply grown_pixels|exact Hst]].
  destruct Hp as [l ->]. destruct palette; [by apply not_elem_of_nil in Htick|]. cbn in *. lia.
Qed.

(** C29: What a PNG screenshot shows: on a card with room, if the palette of 32 colours and
    the colours of the screen are at most 256 together, [save_png] reports success, and
    [load_png] of the file, under a name as above, shows the screen with the progress
    tick over its last column (the ticks of the palette pass are there when the second
    pass reads the rows) and the name printed over it. *)
Theorem png_screenshot {K} `{Roomy K} {C} `{Readable C} (width height tick : Z) (p : pen) (fname palette work work' row : list Z)
    (s shown : list (list Z)) (mem : list Z) (f : K) (g : C) :
  1 <= width < 65536 -> 33 <= height < 65536 -> height * (width + 1) < 2 ^ 32 -> plain fname -> text_width fname <= width -> screen_ok width height s -> Z.of_nat (length shown) = height ->
  pixels palette -> tick ∈ palette -> (length palette + size (new_colours palette s) <= 256)%nat ->
  2 * width <= Z.of_nat (length mem) -> length work = Z.to_nat PNG_WINDOW -> length work' = Z.to_nat PNG_WINDOW -> Z.of_nat (length row) = width ->
  f_written f = [] ->
  let '(s', f', ok) := save_png width height tick palette work s mem f in
  ok = true /\ s' = map (tick_row width tick) s /\
  (f_left g = f_written f' ->
    exists t, load_png width height p fname work' row shown g = Some (t, PngOk) /\ lettered width height p fname 0 (height - 33) s' t).
Proof.
  intros Hw Hh Hsize Hname Hnw Hs Hshown Hpal Htick Hroom Hmem Hwork Hwork' Hrow Hf.
  assert (Htv : 0 <= tick < 65536) by (unfold pixels in Hpal; rewrite Forall_forall in Hpal; by apply Hpal).
  pose proof (ticked_ok width height tick s Htv Hs) as Ht.
  destruct (both_passes width height tick palette s mem Hs Hpal Htick Hroom Hmem) as (c1 & c2 & rows & E1 & E2 & Et & Hlen & Hpx & Hst).
  pose proof (lcd_row_bytes width tick ltac:(lia)) as Hb. unfold save_png.
  destruct (png_encode_room (png_lcd_row width tick) l_palette ltac:(intros r y; unfold png_lcd_row; destruct (for_range _ _ _ _); eauto)
    width height work f (PngLcd s mem palette)) as (f' & c' & Eenc). rewrite Eenc.
  assert (c' = c2) as ->.
  { destruct (png_encode_spec (png_lcd_row width tick) l_palette (buffer_ok width) width height work f (PngLcd s mem palette) f' c' Hb Hmem Hwork ltac:(lia) Hsize Eenc)
      as (r1 & rows' & _ & P1 & P2 & _). congruence. }
  split; [done|]. split; [exact Et|]. intros Hg. unfold load_png.
  destruct (decode_encode (png_lcd_row width tick) l_palette (png_lcd_put width) width height work work' row (buffer_ok width) f f' g (PngLcd s mem palette) c2 shown
      Hb Hmem ltac:(lia) ltac:(lia) Hsize Hwork Hwork' Hrow) as (r1 & rows' & P1 & P2 & D); [|exact Hf|exact Eenc|exact Hg|].
  { intros r1 P1. assert (r1 = c1) as -> by congruence. by split. }
  assert (r1 = c1) as -> by congruence. assert (rows' = rows) as -> by congruence. rewrite Et.
  rewrite (D (map (tick_row width tick) s)).
  { cbn [mbind option_bind]. destruct (show_name_letters width height p fname _ Ht Hname Hnw) as (t & -> & Hl); [lia..|]. by exists t. }
  rewrite (put_all_rows width (l_palette c1) height _ ltac:(lia) Ht ltac:(lia) height 0 rows shown Hst) by lia.
  f_equal. destruct Ht as [Hl _]. apply put_rows_all; [lia|]. intros y. rewrite elem_of_seqZ. lia.
Qed.

(** ** A full card *)

(** A card of [cap] bytes: a write that does not fit stores what does, and FatFs
    returns FR_OK with the number of bytes. *)
Record full_card (cap : nat) := FullCard { k_data : list Z; k_fits : (length k_data <= cap)%nat }.
Arguments k_data {cap}.
Arguments k_fits {cap}.
Definition k_store {cap} (c : full_card cap) (d : list Z) : full_card cap :=
  FullCard cap (take cap (k_data c ++ d)) (firstn_le_length _ _).
#[export] Program Instance full_out cap : FatOut (full_card cap) := {|
  f_write c d := (k_store c d, true, Z.of_nat (length (k_data (k_store c d))) - Z.of_nat (length (k_data c)));
  f_written := k_data |}.
Next Obligation.
  intros cap c d c' [= <- E]. cbn [k_data k_store] in *. apply take_ge. rewrite length_take in E. rewrite length_app in E |- *. lia.
Qed.
Next Obligation. intros cap c. cbn [fst k_data k_store]. rewrite app_nil_r. apply take_ge, k_fits. Qed.

Lemma save_bmp_rows_ok {C} `{FatOut C} width tick ys : (forall c d, snd (fst (f_write c d)) = true) ->
  forall s mem f, snd (save_bmp_rows width tick ys s mem f true) = true.
Proof.
  intros Hok. induction ys as [|y ys IH]; intros s mem f; cbn [save_bmp_rows negb]; [done|].
  match goal with |- context [f_write f ?d] => pose proof (Hok f d) as E; destruct (f_write f d) as [[f1 res] n] end.
  cbn [fst snd] in E. subst res. apply IH.
Qed.
Lemma save_tiff_rows_ok {C} `{FatOut C} width tick ys : (forall c d, snd (fst (f_write c d)) = true) ->
  forall s mem f, snd (save_tiff_rows width tick ys s mem f true) = true.
Proof.
  intros Hok. induction ys as [|y ys IH]; intros s mem f; cbn [save_tiff_rows negb]; [done|]. destruct (packbits_mem _ _ _) as [mem1 size].
  match goal with |- context [f_write f ?d] => pose proof (Hok f d) as E; destruct (f_write f d) as [[f1 res] n] end.
  cbn [fst snd] in E. subst res. apply IH.
Qed.

Lemma chunk_length tag d : length tag = 4%nat -> length (chunk tag d) = (12 + length d)%nat.
Proof. intros Ht. unfold chunk. rewrite !length_app, Ht. cbn. lia. Qed.

(** C31: What a full card does: [save_bmp] and [save_tiff] look at the result of
    [f_write] and not at the number of bytes written, and FatFs returns FR_OK when
    the card is full, so on a card of any size both report success, whatever is
    missing of the file; [save_png] counts the bytes: when it reports success the file
    is on the card from the signature to the end chunk, and on a card with no room for
    the fixed parts of a PNG file (57 bytes) it reports the error. *)
Theorem full_card_reports (cap : nat) (width height tick : Z) (palette work : list Z) (s : list (list Z)) (mem : list Z) (f : full_card cap) :
  0 <= width -> 0 <= height -> height * (width + 1) < 2 ^ 32 -> length work = Z.to_nat PNG_WINDOW -> 2 * width <= Z.of_nat (length mem) ->
  snd (save_bmp width height tick s mem f) = true /\ snd (save_tiff width height tick s mem f) = true /\
  let '(_, f', ok) := save_png width height tick palette work s mem f in
  (ok = true -> exists body, k_data f' = k_data f ++ png_signature ++ body ++ chunk IEND []) /\ ((cap < 57)%nat -> ok = false).
Proof.
  intros Hw Hh Hsize Hwork Hmem. split; [apply (save_bmp_rows_ok width tick); done|]. split; [apply (save_tiff_rows_ok width tick); done|].
  unfold save_png. destruct (png_encode _ _ _ _ _ _ _) as [[f' c'] [|]] eqn:E; [|done].
  destruct (png_encode_spec (png_lcd_row width tick) l_palette (buffer_ok width) width height work f (PngLcd s mem palette) f' c'
    (lcd_row_bytes width tick Hw) Hmem Hwork Hh Hsize E) as (c1 & rows & chunks & _ & _ & D & _).
  cbn [snk_data fat_sink f_written full_out] in D. split.
  { intros _. exists (chunk IHDR (png_ihdr width height) ++ chunk PLTE (flat_map plte_entry (l_palette c1)) ++ flat_map (chunk IDAT) chunks).
    rewrite <- !(app_assoc (chunk _ _)). exact D. }
  intros Hcap. exfalso. apply (f_equal length) in D. pose proof (k_fits f') as Hf.
  rewrite !length_app, !chunk_length in D by done. cbn [length png_signature png_ihdr app png_be32] in D. lia.
Qed.
Lemma full_card_reports_witness : snd (save_bmp 3 2 7 [[1; 2; 3]; [1; 0xF800; 0x1234]] (repeat 0 16) (FullCard 100 [] (Nat.le_0_l 100))) = true.
Proof.
  refine (proj1 (full_card_reports 100 3 2 7 [0; 1; 7] blank _ _ _ _ _ _ _ _)); [lia|lia|lia|reflexivity|cbn; lia].
Defined.

(** ** A small screen *)

(** A card in memory. *)
#[export] Program Instance card_out : FatOut (list Z) :=
  {| f_write c d := (c ++ d, true, Z.of_nat (length d)); f_written c := c |}.
Next Obligation. by intros c d c' [= <-]. Qed.
Next Obligation. intros c. cbn. apply app_nil_r. Qed.
#[export] Program Instance card_in : FatIn (list Z) :=
  {| f_read c n := (drop (Z.to_nat n) c, true, take (Z.to_nat n) (map u8 c)); f_left c := map u8 c |}.
Next Obligation. intros c. induction c; cbn; constructor; [apply u8_range|done]. Qed.
Next Obligation. intros c n _. left. cbn. split; [done|]. split; [done|]. symmetry. apply skipn_map. Qed.
#[export] Instance card_roomy : Roomy (list Z).
Proof. intros c d. by exists (c ++ d). Qed.
#[export] Instance card_readable : Readable (list Z).
Proof. done. Qed.

(** Eight columns, 33 rows, and a file called I. *)
Definition small : list (list Z) := map (fun y => [1; 2; 3; 0xF800; 0x1234; 0; 7; y mod 3]) (seqZ 0 33).
Definition dark : list (list Z) := repeat (repeat 0 8) 33.
Definition small_palette : list Z := [0; 1; 7].
Definition ink_pen : pen := Pen 0xFFFF 0 [] 46.
Lemma small_ok : screen_ok 8 33 small.
Proof.
  split; [reflexivity|]. apply Forall_forall. intros row Hrow%list_elem_of_In%in_map_iff. destruct Hrow as (y & <- & _).
  split; [reflexivity|]. unfold pixels. pose proof (Z.mod_pos_bound y 3 ltac:(lia)). repeat (constructor; [lia|]). constructor.
Qed.
Lemma name_plain : plain (cstr "I").
Proof. constructor; [split; [reflexivity|discriminate]|constructor]. Qed.
Lemma name_fits : text_width (cstr "I") <= 8.
Proof. vm_compute. discriminate. Qed.

Definition small_bmp : list Z := snd (fst (save_bmp 8 33 7 small (repeat 0 16) [])).
Lemma bmp_roundtrip_witness : exists t, load_bmp 8 33 ink_pen (cstr "I") dark (repeat 0 16) small_bmp = Some (t, true) /\ lettered 8 33 ink_pen (cstr "I") 0 0 small t.
Proof.
  assert (E : f_left small_bmp = small_bmp) by (vm_compute; reflexivity).
  pose proof (bmp_roundtrip 8 33 7 ink_pen (cstr "I") small dark (repeat 0 16) (repeat 0 16) ([] : list Z) small_bmp ltac:(lia) ltac:(lia) small_ok eq_refl eq_refl
    name_plain name_fits) as T.
  destruct (save_bmp 8 33 7 small (repeat 0 16) []) as [[s' f'] ok] eqn:Es.
  assert (Ef : small_bmp = f') by (unfold small_bmp; by rewrite Es). exact (proj2 T (eq_trans E Ef)).
Defined.

Definition small_tiff : list Z := snd (fst (save_tiff 8 33 7 small (repeat 0 256) [])).
Lemma tiff_roundtrip_witness : exists t, load_tiff 8 33 ink_pen (cstr "I") (0, 0) dark (repeat 0 32) small_tiff = Some (t, true) /\
  lettered 8 33 ink_pen (cstr "I") 0 0 small t.
Proof.
  assert (E : f_left small_tiff = small_tiff) by (vm_compute; reflexivity).
  pose proof (tiff_roundtrip 8 33 7 ink_pen (cstr "I") (0, 0) small dark (repeat 0 256) (repeat 0 32) ([] : list Z) small_tiff ltac:(lia) ltac:(lia) ltac:(lia) small_ok eq_refl
    ltac:(cbn; lia) ltac:(cbn; lia) eq_refl name_plain name_fits) as T.
  destruct (save_tiff 8 33 7 small (repeat 0 256) []) as [[s' f'] ok] eqn:Es.
  assert (Ef : small_tiff = f') by (unfold small_tiff; by rewrite Es). exact (proj2 T (eq_trans E Ef)).
Defined.

Definition small_png : list Z := snd (fst (save_png 8 33 7 small_palette blank small (repeat 0 16) [])).
Lemma small_tick : 7 ∈ small_palette.
Proof. unfold small_palette. set_solver. Qed.
Lemma small_room : (length small_palette + size (new_colours small_palette small) <= 256)%nat.
Proof. apply Nat.leb_le. vm_compute. reflexivity. Qed.
Lemma png_screenshot_witness : exists t, load_png 8 33 ink_pen (cstr "I") blank (repeat 0 8) dark small_png = Some (t, PngOk) /\
  lettered 8 33 ink_pen (cstr "I") 0 0 (map (tick_row 8 7) small) t.
Proof.
  assert (E : f_left small_png = small_png) by (vm_compute; reflexivity).
  pose proof (png_screenshot 8 33 7 ink_pen (cstr "I") small_palette blank blank (repeat 0 8) small dark (repeat 0 16) ([] : list Z) small_png ltac:(lia) ltac:(lia) ltac:(lia)
    name_plain name_fits small_ok eq_refl ltac:(repeat (constructor; [lia|]); constructor) small_tick small_room ltac:(cbn; lia) eq_refl eq_refl eq_refl eq_refl) as T.
  destruct (save_png 8 33 7 small_palette blank small (repeat 0 16) []) as [[s' f'] ok] eqn:Es.
  assert (Ef : small_png = f') by (unfold small_png; by rewrite Es).
  destruct T as (_ & Es' & T). pose proof (T (eq_trans E Ef)) as T2. rewrite Es' in T2. exact T2.
Defined.
