(* ===== verification/Hambands.v ===== *)
(** * vna_modules/vna_hambands.c: amateur band edges and sub-band segments

    The band tables of the nine regions, the three IARU sub-band plans, and
    the two lookup functions of the band indicator. *)

From S2P Require Import Prelude.

Record ham_band_t := Band { band_start : Z; band_end : Z }.

Inductive ham_seg_type := HAM_SEG_CW | HAM_SEG_DIGI | HAM_SEG_PHONE.

Record ham_segment_t := Seg { seg_start : Z; seg_end : Z; seg_type : ham_seg_type }.

Definition HAM_REGION_COUNT : Z := 9.

Definition ham_bands_iaru_r1 : list ham_band_t := [
  Band 135700 137800 (* 2200m *);
  Band 472000 479000 (* 630m *);
  Band 1810000 2000000 (* 160m *);
  Band 3500000 3800000 (* 80m *);
  Band 5351500 5366500 (* 60m (WRC-15) *);
  Band 7000000 7200000 (* 40m *);
  Band 10100000 10150000 (* 30m *);
  Band 14000000 14350000 (* 20m *);
  Band 18068000 18168000 (* 17m *);
  Band 21000000 21450000 (* 15m *);
  Band 24890000 24990000 (* 12m *);
  Band 28000000 29700000 (* 10m *);
  Band 50000000 52000000 (* 6m *);
  Band 70000000 70500000 (* 4m (not all R1 countries) *);
  Band 144000000 146000000 (* 2m *);
  Band 430000000 440000000 (* 70cm *);
  Band 1240000000 1300000000 (* 23cm *)
].

Definition ham_bands_iaru_r2 : list ham_band_t := [
  Band 135700 137800 (* 2200m *);
  Band 472000 479000 (* 630m *);
  Band 1800000 2000000 (* 160m *);
  Band 3500000 4000000 (* 80m *);
  Band 5330500 5406400 (* 60m (channelized, envelope) *);
  Band 7000000 7300000 (* 40m *);
  Band 10100000 10150000 (* 30m *);
  Band 14000000 14350000 (* 20m *);
  Band 18068000 18168000 (* 17m *);
  Band 21000000 21450000 (* 15m *);
  Band 24890000 24990000 (* 12m *);
  Band 28000000 29700000 (* 10m *);
  Band 50000000 54000000 (* 6m *);
  Band 144000000 148000000 (* 2m *);
  Band 222000000 225000000 (* 1.25m *);
  Band 420000000 450000000 (* 70cm *);
  Band 902000000 928000000 (* 33cm *);
  Band 1240000000 1300000000 (* 23cm *)
].

Definition ham_bands_iaru_r3 : list ham_band_t := [
  Band 135700 137800 (* 2200m *);
  Band 472000 479000 (* 630m *);
  Band 1800000 2000000 (* 160m *);
  Band 3500000 3900000 (* 80m *);
  Band 5351500 5366500 (* 60m (WRC-15) *);
  Band 7000000 7200000 (* 40m *);
  Band 10100000 10150000 (* 30m *);
  Band 14000000 14350000 (* 20m *);
  Band 18068000 18168000 (* 17m *);
  Band 21000000 21450000 (* 15m *);
  Band 24890000 24990000 (* 12m *);
  Band 28000000 29700000 (* 10m *);
  Band 50000000 54000000 (* 6m *);
  Band 144000000 148000000 (* 2m *);
  Band 430000000 440000000 (* 70cm *);
  Band 1240000000 1300000000 (* 23cm *)
].

Definition ham_bands_usa : list ham_band_t := [
  Band 135700 137800 (* 2200m *);
  Band 472000 479000 (* 630m *);
  Band 1800000 2000000 (* 160m *);
  Band 3500000 4000000 (* 80m *);
  Band 5330500 5406400 (* 60m (5 channels, envelope) *);
  Band 7000000 7300000 (* 40m *);
  Band 10100000 10150000 (* 30m *);
  Band 14000000 14350000 (* 20m *);
  Band 18068000 18168000 (* 17m *);
  Band 21000000 21450000 (* 15m *);
  Band 24890000 24990000 (* 12m *);
  Band 28000000 29700000 (* 10m *);
  Band 50000000 54000000 (* 6m *);
  Band 144000000 148000000 (* 2m *);
  Band 222000000 225000000 (* 1.25m *);
  Band 420000000 450000000 (* 70cm *);
  Band 902000000 928000000 (* 33cm *);
  Band 1240000000 1300000000 (* 23cm *)
].

Definition ham_bands_canada : list ham_band_t := [
  Band 135700 137800 (* 2200m *);
  Band 472000 479000 (* 630m *);
  Band 1800000 2000000 (* 160m *);
  Band 3500000 4000000 (* 80m *);
  Band 5330500 5406400 (* 60m (5 channels, envelope) *);
  Band 7000000 7300000 (* 40m *);
  Band 10100000 10150000 (* 30m *);
  Band 14000000 14350000 (* 20m *);
  Band 18068000 18168000 (* 17m *);
  Band 21000000 21450000 (* 15m *);
  Band 24890000 24990000 (* 12m *);
  Band 28000000 29700000 (* 10m *);
  Band 50000000 54000000 (* 6m *);
  Band 144000000 148000000 (* 2m *);
  Band 222000000 225000000 (* 1.25m *);
  Band 430000000 450000000 (* 70cm *);
  Band 902000000 928000000 (* 33cm *);
  Band 1240000000 1300000000 (* 23cm *)
].

Definition ham_bands_uk : list ham_band_t := [
  Band 135700 137800 (* 2200m *);
  Band 472000 479000 (* 630m *);
  Band 1810000 2000000 (* 160m *);
  Band 3500000 3800000 (* 80m *);
  Band 5258500 5406500 (* 60m (11 bandlets, envelope) *);
  Band 7000000 7200000 (* 40m *);
  Band 10100000 10150000 (* 30m *);
  Band 14000000 14350000 (* 20m *);
  Band 18068000 18168000 (* 17m *);
  Band 21000000 21450000 (* 15m *);
  Band 24890000 24990000 (* 12m *);
  Band 28000000 29700000 (* 10m *);
  Band 50000000 52000000 (* 6m *);
  Band 70000000 70500000 (* 4m *);
  Band 144000000 146000000 (* 2m *);
  Band 430000000 440000000 (* 70cm *);
  Band 1240000000 1325000000 (* 23cm (UK extends to 1325 MHz) *)
].

Definition ham_bands_germany : list ham_band_t := [
  Band 135700 137800 (* 2200m *);
  Band 472000 479000 (* 630m *);
  Band 1810000 2000000 (* 160m *);
  Band 3500000 3800000 (* 80m *);
  Band 5351500 5366500 (* 60m (WRC-15) *);
  Band 7000000 7200000 (* 40m *);
  Band 10100000 10150000 (* 30m *);
  Band 14000000 14350000 (* 20m *);
  Band 18068000 18168000 (* 17m *);
  Band 21000000 21450000 (* 15m *);
  Band 24890000 24990000 (* 12m *);
  Band 28000000 29700000 (* 10m *);
  Band 50000000 52000000 (* 6m *);
  Band 144000000 146000000 (* 2m *);
  Band 430000000 440000000 (* 70cm *);
  Band 1240000000 1300000000 (* 23cm *)
].

Definition ham_bands_japan : list ham_band_t := [
  Band 135700 137800 (* 2200m *);
  Band 472000 479000 (* 630m *);
  Band 1800000 1810000 (* 160m lower *);
  Band 1825000 1875000 (* 160m upper *);
  Band 3500000 3580000 (* 80m segment 1 *);
  Band 3662000 3687000 (* 80m segment 2 *);
  Band 3702000 3716000 (* 80m segment 3 *);
  Band 3745000 3770000 (* 80m segment 4 *);
  Band 3791000 3805000 (* 80m segment 5 *);
  Band 7000000 7200000 (* 40m *);
  Band 10100000 10150000 (* 30m *);
  Band 14000000 14350000 (* 20m *);
  Band 18068000 18168000 (* 17m *);
  Band 21000000 21450000 (* 15m *);
  Band 24890000 24990000 (* 12m *);
  Band 28000000 29700000 (* 10m *);
  Band 50000000 54000000 (* 6m *);
  Band 144000000 146000000 (* 2m *);
  Band 430000000 440000000 (* 70cm *);
  Band 1260000000 1300000000 (* 23cm (Japan: 1260-1300 MHz) *)
].

Definition ham_bands_australia : list ham_band_t := [
  Band 135700 137800 (* 2200m *);
  Band 472000 479000 (* 630m *);
  Band 1800000 1875000 (* 160m *);
  Band 3500000 3700000 (* 80m lower *);
  Band 3776000 3800000 (* 80m upper *);
  Band 7000000 7300000 (* 40m *);
  Band 10100000 10150000 (* 30m *);
  Band 14000000 14350000 (* 20m *);
  Band 18068000 18168000 (* 17m *);
  Band 21000000 21450000 (* 15m *);
  Band 24890000 24990000 (* 12m *);
  Band 28000000 29700000 (* 10m *);
  Band 50000000 54000000 (* 6m *);
  Band 144000000 148000000 (* 2m *);
  Band 430000000 450000000 (* 70cm *);
  Band 1240000000 1300000000 (* 23cm *)
].

Definition ham_segments_r1 : list ham_segment_t := [
  Seg 135700 137400 HAM_SEG_CW (* 2200m CW *);
  Seg 137400 137800 HAM_SEG_DIGI (* 2200m narrow digi *);
  Seg 472000 475000 HAM_SEG_CW (* 630m CW *);
  Seg 475000 479000 HAM_SEG_DIGI (* 630m CW/digi *);
  Seg 1810000 1838000 HAM_SEG_CW (* 160m CW *);
  Seg 1838000 1843000 HAM_SEG_DIGI (* 160m narrow digi *);
  Seg 1843000 2000000 HAM_SEG_PHONE (* 160m all modes *);
  Seg 3500000 3570000 HAM_SEG_CW (* 80m CW *);
  Seg 3570000 3600000 HAM_SEG_DIGI (* 80m narrow digi *);
  Seg 3600000 3800000 HAM_SEG_PHONE (* 80m all modes *);
  Seg 5351500 5354000 HAM_SEG_CW (* 60m CW/narrow *);
  Seg 5354000 5366000 HAM_SEG_PHONE (* 60m all modes (USB) *);
  Seg 5366000 5366500 HAM_SEG_DIGI (* 60m weak signal narrow *);
  Seg 7000000 7040000 HAM_SEG_CW (* 40m CW *);
  Seg 7040000 7050000 HAM_SEG_DIGI (* 40m narrow digi *);
  Seg 7050000 7200000 HAM_SEG_PHONE (* 40m all modes *);
  Seg 10100000 10130000 HAM_SEG_CW (* 30m CW *);
  Seg 10130000 10150000 HAM_SEG_DIGI (* 30m narrow digi (no phone on 30m) *);
  Seg 14000000 14070000 HAM_SEG_CW (* 20m CW *);
  Seg 14070000 14101000 HAM_SEG_DIGI (* 20m digi (incl beacons 14099-14101) *);
  Seg 14101000 14350000 HAM_SEG_PHONE (* 20m all modes *);
  Seg 18068000 18095000 HAM_SEG_CW (* 17m CW *);
  Seg 18095000 18111000 HAM_SEG_DIGI (* 17m digi (incl beacons) *);
  Seg 18111000 18168000 HAM_SEG_PHONE (* 17m all modes *);
  Seg 21000000 21070000 HAM_SEG_CW (* 15m CW *);
  Seg 21070000 21151000 HAM_SEG_DIGI (* 15m digi (incl beacons 21149-21151) *);
  Seg 21151000 21450000 HAM_SEG_PHONE (* 15m all modes *);
  Seg 24890000 24915000 HAM_SEG_CW (* 12m CW *);
  Seg 24915000 24931000 HAM_SEG_DIGI (* 12m digi (incl beacons) *);
  Seg 24931000 24990000 HAM_SEG_PHONE (* 12m all modes *);
  Seg 28000000 28070000 HAM_SEG_CW (* 10m CW *);
  Seg 28070000 28225000 HAM_SEG_DIGI (* 10m digi (incl beacons 28190-28225) *);
  Seg 28225000 29700000 HAM_SEG_PHONE (* 10m all modes *)
].

Definition ham_segments_r2 : list ham_segment_t := [
  Seg 135700 137400 HAM_SEG_CW (* 2200m CW *);
  Seg 137400 137800 HAM_SEG_DIGI (* 2200m narrow digi *);
  Seg 472000 475000 HAM_SEG_CW (* 630m CW *);
  Seg 475000 479000 HAM_SEG_DIGI (* 630m CW/digi *);
  Seg 1800000 1810000 HAM_SEG_DIGI (* 160m digimodes *);
  Seg 1810000 1840000 HAM_SEG_CW (* 160m CW *);
  Seg 1840000 2000000 HAM_SEG_PHONE (* 160m all modes *);
  Seg 3500000 3570000 HAM_SEG_CW (* 80m CW *);
  Seg 3570000 3600000 HAM_SEG_DIGI (* 80m narrow digi *);
  Seg 3600000 4000000 HAM_SEG_PHONE (* 75/80m all modes *);
  Seg 5330500 5406400 HAM_SEG_PHONE (* 60m channelized USB (envelope) *);
  Seg 7000000 7040000 HAM_SEG_CW (* 40m CW *);
  Seg 7040000 7043000 HAM_SEG_DIGI (* 40m narrow digi *);
  Seg 7043000 7300000 HAM_SEG_PHONE (* 40m all modes *);
  Seg 10100000 10130000 HAM_SEG_CW (* 30m CW *);
  Seg 10130000 10150000 HAM_SEG_DIGI (* 30m narrow digi (no phone on 30m) *);
  Seg 14000000 14070000 HAM_SEG_CW (* 20m CW *);
  Seg 14070000 14101000 HAM_SEG_DIGI (* 20m digi (incl beacons) *);
  Seg 14101000 14350000 HAM_SEG_PHONE (* 20m all modes *);
  Seg 18068000 18095000 HAM_SEG_CW (* 17m CW *);
  Seg 18095000 18111000 HAM_SEG_DIGI (* 17m digi (incl beacons) *);
  Seg 18111000 18168000 HAM_SEG_PHONE (* 17m all modes *);
  Seg 21000000 21070000 HAM_SEG_CW (* 15m CW *);
  Seg 21070000 21151000 HAM_SEG_DIGI (* 15m digi (incl beacons) *);
  Seg 21151000 21450000 HAM_SEG_PHONE (* 15m all modes *);
  Seg 24890000 24915000 HAM_SEG_CW (* 12m CW *);
  Seg 24915000 24931000 HAM_SEG_DIGI (* 12m digi (incl beacons) *);
  Seg 24931000 24990000 HAM_SEG_PHONE (* 12m all modes *);
  Seg 28000000 28070000 HAM_SEG_CW (* 10m CW *);
  Seg 28070000 28300000 HAM_SEG_DIGI (* 10m digi (incl beacons 28190-28300) *);
  Seg 28300000 29700000 HAM_SEG_PHONE (* 10m all modes *)
].

Definition ham_segments_r3 : list ham_segment_t := [
  Seg 135700 137400 HAM_SEG_CW (* 2200m CW *);
  Seg 137400 137800 HAM_SEG_DIGI (* 2200m narrow digi *);
  Seg 472000 475000 HAM_SEG_CW (* 630m CW *);
  Seg 475000 479000 HAM_SEG_DIGI (* 630m CW/digi *);
  Seg 1800000 1838000 HAM_SEG_CW (* 160m CW *);
  Seg 1838000 1843000 HAM_SEG_DIGI (* 160m narrow digi *);
  Seg 1843000 2000000 HAM_SEG_PHONE (* 160m all modes *);
  Seg 3500000 3570000 HAM_SEG_CW (* 80m CW *);
  Seg 3570000 3600000 HAM_SEG_DIGI (* 80m narrow digi *);
  Seg 3600000 3900000 HAM_SEG_PHONE (* 80m all modes *);
  Seg 5351500 5354000 HAM_SEG_CW (* 60m CW/narrow *);
  Seg 5354000 5366000 HAM_SEG_PHONE (* 60m all modes (USB) *);
  Seg 5366000 5366500 HAM_SEG_DIGI (* 60m weak signal narrow *);
  Seg 7000000 7025000 HAM_SEG_CW (* 40m CW *);
  Seg 7025000 7035000 HAM_SEG_DIGI (* 40m narrow digi *);
  Seg 7035000 7200000 HAM_SEG_PHONE (* 40m all modes *);
  Seg 10100000 10130000 HAM_SEG_CW (* 30m CW *);
  Seg 10130000 10150000 HAM_SEG_DIGI (* 30m narrow digi (no phone on 30m) *);
  Seg 14000000 14070000 HAM_SEG_CW (* 20m CW *);
  Seg 14070000 14101000 HAM_SEG_DIGI (* 20m digi (incl beacons) *);
  Seg 14101000 14350000 HAM_SEG_PHONE (* 20m all modes *);
  Seg 18068000 18095000 HAM_SEG_CW (* 17m CW *);
  Seg 18095000 18111000 HAM_SEG_DIGI (* 17m digi (incl beacons) *);
  Seg 18111000 18168000 HAM_SEG_PHONE (* 17m all modes *);
  Seg 21000000 21070000 HAM_SEG_CW (* 15m CW *);
  Seg 21070000 21151000 HAM_SEG_DIGI (* 15m digi (incl beacons) *);
  Seg 21151000 21450000 HAM_SEG_PHONE (* 15m all modes *);
  Seg 24890000 24915000 HAM_SEG_CW (* 12m CW *);
  Seg 24915000 24931000 HAM_SEG_DIGI (* 12m digi (incl beacons) *);
  Seg 24931000 24990000 HAM_SEG_PHONE (* 12m all modes *);
  Seg 28000000 28070000 HAM_SEG_CW (* 10m CW *);
  Seg 28070000 28300000 HAM_SEG_DIGI (* 10m digi (incl beacons) *);
  Seg 28300000 29700000 HAM_SEG_PHONE (* 10m all modes *)
].

Definition ham_regions : list (string * list ham_band_t) := [
  ("IARU R1", ham_bands_iaru_r1);
  ("IARU R2", ham_bands_iaru_r2);
  ("IARU R3", ham_bands_iaru_r3);
  ("USA", ham_bands_usa);
  ("CANADA", ham_bands_canada);
  ("UK", ham_bands_uk);
  ("GERMANY", ham_bands_germany);
  ("JAPAN", ham_bands_japan);
  ("AUSTRALIA", ham_bands_australia)
]%string.

(** [region] is a [uint8_t]; the table index is [region - 1]. [None] is a
    read outside the table, [Some None] the NULL return. *)
Definition ham_region_name (region : Z) : option string :=
  if (region =? 0) || (HAM_REGION_COUNT <? region) then Some "OFF"%string
  else fst <$> ham_regions !! Z.to_nat (region - 1).

(** The table pointer and [*count] of a valid region. *)
Definition ham_bands_get (region : Z) : option (option (list ham_band_t * Z)) :=
  if (region =? 0) || (HAM_REGION_COUNT <? region) then Some None
  else
    r ← ham_regions !! Z.to_nat (region - 1);
    Some (Some (snd r, Z.of_nat (length (snd r)))).

Definition ham_region_plan : list Z := [1; 2; 3; 2; 2; 1; 1; 3; 3].

Definition ham_seg_tables : list (list ham_segment_t) :=
  [ham_segments_r1; ham_segments_r2; ham_segments_r3].

Definition ham_segments_get (region : Z) : option (option (list ham_segment_t * Z)) :=
  if (region =? 0) || (HAM_REGION_COUNT <? region) then Some None
  else
    plan ← ham_region_plan !! Z.to_nat (region - 1);
    t ← ham_seg_tables !! Z.to_nat (plan - 1);
    Some (Some (t, Z.of_nat (length t))).

(** * Well-formedness of the tables *)

(** Non-empty intervals, ascending and not overlapping. *)
Fixpoint ascending (lo : Z) (l : list (Z * Z)) : bool :=
  match l with
  | [] => true
  | (a, b) :: l => (lo <=? a) && (a <? b) && ascending b l
  end.

Definition band_ivs (l : list ham_band_t) : list (Z * Z) :=
  map (fun b => (band_start b, band_end b)) l.
Definition seg_ivs (l : list ham_segment_t) : list (Z * Z) :=
  map (fun s => (seg_start s, seg_end s)) l.

Lemma ascending_lower lo l a b : ascending lo l = true -> In (a, b) l -> lo <= a < b.
Proof.
  revert lo. induction l as [|[x y] l IH]; intros lo H Hin; [done|]. cbn in H.
  apply andb_true_iff in H as [[H1 H2]%andb_true_iff H3].
  apply Z.leb_le in H1. apply Z.ltb_lt in H2.
  destruct Hin as [[= <- <-]|Hin]; [lia|]. specialize (IH _ H3 Hin). lia.
Qed.

(** Two intervals of an ascending table that share a point are the same entry. *)
Lemma ascending_disjoint lo l i j a b c d f :
  ascending lo l = true -> l !! i = Some (a, b) -> l !! j = Some (c, d) ->
  a <= f < b -> c <= f < d -> i = j.
Proof.
  revert lo i j. induction l as [|[x y] l IH]; intros lo i j H Hi Hj Hf Hg; [done|].
  cbn in H. apply andb_true_iff in H as [[H1 H2]%andb_true_iff H3].
  destruct i as [|i], j as [|j]; cbn in *; [done| | |f_equal; eauto].
  - injection Hi as -> ->. apply list_elem_of_lookup_2, list_elem_of_In in Hj.
    pose proof (ascending_lower _ _ _ _ H3 Hj). lia.
  - injection Hj as -> ->. apply list_elem_of_lookup_2, list_elem_of_In in Hi.
    pose proof (ascending_lower _ _ _ _ H3 Hi). lia.
Qed.

(** The intervals of [l] from [s] on join up to cover [s, e). *)
Fixpoint covers (l : list (Z * Z)) (s e : Z) : bool :=
  match l with
  | [] => e <=? s
  | (a, b) :: l =>
      if e <=? s then true
      else if b <=? s then covers l s e
      else (a <=? s) && covers l b e
  end.

Lemma covers_spec l s e f :
  covers l s e = true -> s <= f < e -> exists i a b, l !! i = Some (a, b) /\ a <= f < b.
Proof.
  revert s. induction l as [|[a b] l IH]; intros s H Hf; cbn in H.
  { apply Z.leb_le in H. lia. }
  destruct (Z.leb_spec e s); [lia|].
  destruct (Z.leb_spec b s).
  - destruct (IH _ H Hf) as (i & x & y & Hi & Hxy). by exists (S i), x, y.
  - apply andb_true_iff in H as [Ha H]. apply Z.leb_le in Ha.
    destruct (Z.ltb_spec f b).
    + exists O, a, b. split; [done|lia].
    + destruct (IH b H ltac:(lia)) as (i & x & y & Hi & Hxy). by exists (S i), x, y.
Qed.

(** Regions whose HF bands the parent plan describes completely. *)
Definition planned_region (region : Z) : bool :=
  negb (region =? 6) && negb (region =? 9) && (1 <=? region) && (region <=? 9).

Definition hf_bands (l : list ham_band_t) : list ham_band_t :=
  List.filter (fun b => band_end b <=? 29700000) l.

Definition region_tiled (region : Z) : bool :=
  match ham_bands_get region, ham_segments_get region with
  | Some (Some (bands, _)), Some (Some (segs, _)) =>
      ascending 0 (seg_ivs segs) &&
      forallb (fun b => covers (seg_ivs segs) (band_start b) (band_end b)) (hf_bands bands)
  | _, _ => false
  end.

Lemma region_tiled_all : forallb (fun r => negb (planned_region r) || region_tiled r) (seqZ 0 256) = true.
Proof. vm_compute. reflexivity. Qed.

Definition region_table_ok (region : Z) : bool :=
  match ham_bands_get region, ham_segments_get region, ham_region_name region with
  | Some None, Some None, Some n =>
      ((region =? 0) || (9 <? region)) && String.eqb n "OFF"
  | Some (Some (bands, nb)), Some (Some (segs, ns)), Some n =>
      (1 <=? region) && (region <=? 9) &&
      ascending 1 (band_ivs bands) && (nb =? Z.of_nat (length bands)) && (0 <? nb) &&
      ascending 1 (seg_ivs segs) && (ns =? Z.of_nat (length segs)) &&
      forallb (fun s => seg_end s <=? 29700000) segs
  | _, _, _ => false
  end.

Lemma region_table_ok_all : forallb region_table_ok (seqZ 0 256) = true.
Proof. vm_compute. reflexivity. Qed.

(** * Properties *)

(** Band tables ([ham_bands_get], [ham_segments_get], [ham_region_name]):
    for every value of the persisted region byte the lookups stay inside the
    tables; regions 1..9 get a non-empty table with its length, OFF and
    unknown values get NULL; and a frequency belongs to at most one band of
    the region. *)
Theorem ham_bands_wellformed (region : Z) (Hr : 0 <= region < 256) :
  region_table_ok region = true /\
  forall bands n i j b c f,
    ham_bands_get region = Some (Some (bands, n)) ->
    bands !! i = Some b -> bands !! j = Some c ->
    band_start b <= f < band_end b -> band_start c <= f < band_end c -> i = j.
Proof.
  pose proof (forallb_seqZ _ 0 _ region region_table_ok_all Hr) as Hok.
  split; [done|]. intros bands n i j b c f Hget Hi Hj Hf Hg.
  unfold region_table_ok in Hok. rewrite Hget in Hok.
  destruct (ham_segments_get region) as [[[segs ns]|]|]; try done.
  destruct (ham_region_name region); [|done].
  repeat match type of Hok with _ && _ = true => apply andb_true_iff in Hok as [Hok ?] end.
  eapply (ascending_disjoint 1 (band_ivs bands)); [done| | |exact Hf|exact Hg];
    unfold band_ivs; rewrite list_lookup_fmap; by rewrite ?Hi, ?Hj.
Qed.

Lemma ham_bands_wellformed_witness :
  0 <= 7 < 256 /\ ham_bands_get 7 = Some (Some (ham_bands_germany, 16)) /\
  region_table_ok 7 = true.
Proof.
  split; [lia|]. split; [vm_compute; reflexivity|].
  apply (ham_bands_wellformed 7). lia.
Defined.

(** Sub-band plans: in every region whose parent plan follows its own
    band edges (all but UK and Australia), each frequency of an HF band lies
    in exactly one CW/digital/phone segment of the plan the code selects. *)
Theorem ham_segments_tile (region : Z) (bands : list ham_band_t) (n : Z)
    (segs : list ham_segment_t) (m : Z) (b : ham_band_t) (f : Z)
    (Hr : planned_region region = true)
    (Hb : ham_bands_get region = Some (Some (bands, n)))
    (Hs : ham_segments_get region = Some (Some (segs, m)))
    (Hin : In b bands) (Hhf : band_end b <= 29700000)
    (Hf : band_start b <= f < band_end b) :
  exists i s, segs !! i = Some s /\ seg_start s <= f < seg_end s /\
    forall j t, segs !! j = Some t -> seg_start t <= f < seg_end t -> j = i.
Proof.
  assert (0 <= region < 256) as H0.
  { unfold planned_region in Hr.
    repeat match type of Hr with _ && _ = true => apply andb_true_iff in Hr as [Hr ?] end. lia. }
  pose proof (forallb_seqZ _ 0 _ region region_tiled_all H0) as Ht. cbn beta in Ht.
  rewrite Hr in Ht. cbn [negb orb] in Ht. unfold region_tiled in Ht. rewrite Hb, Hs in Ht.
  apply andb_true_iff in Ht as [Hasc Hcov]. rewrite forallb_forall in Hcov.
  assert (covers (seg_ivs segs) (band_start b) (band_end b) = true) as Hc.
  { apply Hcov, filter_In. split; [done|]. by apply Z.leb_le. }
  destruct (covers_spec _ _ _ _ Hc Hf) as (i & x & y & Hi & Hxy).
  unfold seg_ivs in Hi. rewrite list_lookup_fmap in Hi.
  destruct (segs !! i) as [s|] eqn:Es; [|done]. cbn in Hi. injection Hi as <- <-.
  exists i, s. split; [done|]. split; [done|]. intros j t Hj Htf.
  eapply (ascending_disjoint 0 (seg_ivs segs)); [done| | |exact Htf|exact Hxy];
    unfold seg_ivs; rewrite list_lookup_fmap; by rewrite ?Hj, ?Es.
Qed.

Lemma ham_segments_tile_witness :
  planned_region 4 = true /\
  exists i s, ham_segments_r2 !! i = Some s /\ seg_start s <= 14074000 < seg_end s /\
    forall j t, ham_segments_r2 !! j = Some t -> seg_start t <= 14074000 < seg_end t -> j = i.
Proof.
  split; [reflexivity|].
  apply (ham_segments_tile 4 ham_bands_usa 18 ham_segments_r2 31 (Band 14000000 14350000) 14074000);
    [reflexivity|vm_compute; reflexivity|vm_compute; reflexivity| |cbn; lia|cbn; lia].
  do 7 right. left. reflexivity.
Defined.
