(* ===== verification/Bus.v ===== *)
(** * The control bus: what the drivers send, and the register files it fills

    The drivers of the clock generator and of the codec act on the outside
    world only through [i2c_transfer] and through sleeps.  An execution is the
    sequence of those calls; [si_regs] and [aic_chip] read back, from such a
    sequence, the contents of the two chips' registers (each chip stores the
    bytes after the first one at consecutive register addresses). *)

From S2P Require Import Prelude.

Inductive bus_op :=
| I2cWrite (addr : Z) (buf : list Z)      (* i2c_transfer(addr, buf, len) *)
| SleepUs (us : Z).                       (* chThdSleepMicroseconds *)

(** ** A flat register file *)

Definition regfile := Z -> Z.

Fixpoint reg_burst (reg : Z) (data : list Z) (r : regfile) : regfile :=
  match data with
  | [] => r
  | d :: data' => reg_burst (reg + 1) data' (fun x => if x =? reg then d else r x)
  end.

Definition reg_write (buf : list Z) (r : regfile) : regfile :=
  match buf with
  | [] => r
  | reg :: data => reg_burst reg data r
  end.

Lemma reg_burst_spec data : forall reg r x,
  reg_burst reg data r x =
  if (reg <=? x) && (x <? reg + Z.of_nat (length data))
  then nth (Z.to_nat (x - reg)) data 0 else r x.
Proof.
  induction data as [|d data IH]; intros reg r x; cbn [reg_burst length].
  - repeat zcase; cbn; try lia; reflexivity.
  - rewrite IH. repeat zcase; cbn [andb]; try lia; try reflexivity.
    + replace (Z.to_nat (x - reg)) with (S (Z.to_nat (x - (reg + 1)))) by lia. done.
    + replace (Z.to_nat (x - reg)) with 0%nat by lia. done.
Qed.

(** ** The clock generator's registers (I2C address 0x60) *)

Definition SI5351_I2C_ADDR : Z := 0x60.
Definition AIC3204_ADDR : Z := 0x18.

Definition si_apply (r : regfile) (o : bus_op) : regfile :=
  match o with
  | I2cWrite a buf => if a =? SI5351_I2C_ADDR then reg_write buf r else r
  | SleepUs _ => r
  end.

Definition si_regs (ops : list bus_op) : regfile := fold_left si_apply ops (fun _ => 0).

Lemma si_regs_app a b : si_regs (a ++ b) = fold_left si_apply b (si_regs a).
Proof. apply fold_left_app. Qed.

(** ** The codec's registers: pages of 128, page selected by register 0 *)

Record aic := { aic_page : Z; aic_reg : Z -> Z -> Z }.

Fixpoint aic_burst (reg : Z) (data : list Z) (c : aic) : aic :=
  match data with
  | [] => c
  | d :: data' =>
      aic_burst (reg + 1) data'
        (if reg =? 0 then {| aic_page := d; aic_reg := aic_reg c |}
         else {| aic_page := aic_page c;
                 aic_reg := fun p x => if (p =? aic_page c) && (x =? reg) then d
                                       else aic_reg c p x |})
  end.

Definition aic_apply (c : aic) (o : bus_op) : aic :=
  match o with
  | I2cWrite a (reg :: data) => if a =? AIC3204_ADDR then aic_burst reg data c else c
  | _ => c
  end.

Definition aic_chip (c : aic) (ops : list bus_op) : aic := fold_left aic_apply ops c.

Lemma aic_chip_app c a b : aic_chip c (a ++ b) = aic_chip (aic_chip c a) b.
Proof. apply fold_left_app. Qed.

(** A burst that starts above register 0 stays within its page. *)
Lemma aic_burst_spec data : forall reg c, 0 < reg ->
  aic_page (aic_burst reg data c) = aic_page c /\
  forall p x, aic_reg (aic_burst reg data c) p x =
    if (p =? aic_page c) && ((reg <=? x) && (x <? reg + Z.of_nat (length data)))
    then nth (Z.to_nat (x - reg)) data 0 else aic_reg c p x.
Proof.
  induction data as [|d data IH]; intros reg c Hr; cbn [aic_burst length].
  - split; [done|]. intros p x. repeat zcase; cbn; try lia; reflexivity.
  - destruct (Z.eqb_spec reg 0); [lia|].
    destruct (IH (reg + 1) {| aic_page := aic_page c;
                 aic_reg := fun p x => if (p =? aic_page c) && (x =? reg) then d
                                       else aic_reg c p x |} ltac:(lia)) as [H1 H2].
    split; [exact H1|]. intros p x. rewrite H2. cbn [aic_page aic_reg].
    repeat zcase; cbn [andb]; try lia; try reflexivity.
    + replace (Z.to_nat (x - reg)) with (S (Z.to_nat (x - (reg + 1)))) by lia. done.
    + replace (Z.to_nat (x - reg)) with 0%nat by lia. done.
Qed.
