(* ===== verification/Codec.v ===== *)
(** * The audio codec driver (tlv320aic3204.c)

    Configuration tables and the operations that send them.  The theorems read
    the sampling configuration back from the chip's registers. *)

From S2P Require Import Prelude Bus.

(** ** Routing and interface constants *)

Definition REG_34_IN2L_TO_LEFT_P_10k : Z := Z.shiftl 1 4.
Definition REG_36_IN2R_TO_LEFT_N_10k : Z := Z.shiftl 1 4.
Definition REG_37_IN1R_TO_RIGHT_P_10k : Z := Z.shiftl 1 6.
Definition REG_37_IN3R_TO_RIGHT_P_10k : Z := Z.shiftl 1 2.
Definition REG_39_IN1L_TO_RIGHT_N_10k : Z := Z.shiftl 1 4.
Definition REG_39_IN3L_TO_RIGHT_N_10k : Z := Z.shiftl 1 2.

Definition REG_27 : Z :=
  Z.lor (Z.lor (Z.shiftl 0 4) (Z.shiftl 1 6)) (Z.lor (Z.shiftl 1 2) (Z.shiftl 1 3)).
(* sizeof(int16_t) / sizeof(audio_sample_t), both two bytes *)
Definition REG_30 (n : Z) : Z := 0x80 + n * 2 / 2.

Definition AUDIO_CLOCK_REF : Z := 8000000.
Definition AUDIO_ADC_FREQ : Z := 192000.
Definition AUDIO_SAMPLES_COUNT : Z := 48.

(** ** Tables, as (register, data) bytes *)

Definition conf_data_pll : list Z :=
  [ 0x00; 0x00;
    0x01; 0x01;
    (* MCLK = 8.000MHz * 12.2880 = 98.304MHz *)
    0x04; 0x43;
    0x05; 0x91;
    0x06; 12;
    0x07; Z.land (Z.shiftr 2880 8) 0xFF;
    0x08; Z.land (Z.shiftr 2880 0) 0xFF ].

(** AUDIO_ADC_FREQ == 192000 *)
Definition conf_data_192k : list Z :=
  [ 0x0b; 0x82;
    0x0c; 0x84;
    0x0d; 0x00;
    0x0e; 0x40;
    0x3c; 17;
    0x12; 0x82;
    0x13; 0x84;
    0x14; 0x40;
    0x3d; 7;
    0x1b; REG_27;
    0x1e; REG_30 8 ].

Definition conf_data_routing : list Z :=
  [ 0x00; 0x01;
    0x01; 0x08;
    0x02; 0x01;
    0x0a; 0x33;
    0x3d; 0x00;
    0x47; 0x32;
    0x7b; 0x01;
    0x34; REG_34_IN2L_TO_LEFT_P_10k;
    0x36; REG_36_IN2R_TO_LEFT_N_10k ].

Definition conf_data : list Z := conf_data_pll ++ conf_data_192k ++ conf_data_routing.

Definition conf_data_unmute : list Z :=
  [ 0x00; 0x00;  0x51; 0xc2;  0x52; 0x00;  0x00; 0x01 ].

Definition conf_data_ch3_select : list Z :=
  [ 0x37; REG_37_IN3R_TO_RIGHT_P_10k; 0x00; REG_39_IN3L_TO_RIGHT_N_10k; 192 ].

Definition conf_data_ch1_select : list Z :=
  [ 0x37; REG_37_IN1R_TO_RIGHT_P_10k; 0x00; REG_39_IN1L_TO_RIGHT_N_10k; 12 ].

(** ** Operations: the bus calls each one makes *)

Definition tlv320aic3204_bulk_write (buf : list Z) : list bus_op :=
  [I2cWrite AIC3204_ADDR buf].

(** [for (; len--; data += 2) bulk_write(data, 2)] *)
Fixpoint tlv320aic3204_config (data : list Z) (len : nat) : list bus_op :=
  match len with
  | O => []
  | S len' => tlv320aic3204_bulk_write (take 2 data) ++ tlv320aic3204_config (drop 2 data) len'
  end.

Definition tlv320aic3204_init : list bus_op :=
  tlv320aic3204_config conf_data (length conf_data / 2) ++
  tlv320aic3204_config conf_data_unmute (length conf_data_unmute / 2).

Definition tlv320aic3204_write_reg (page reg data : Z) : list bus_op :=
  let buf := [0x00; page; reg; data; 0x00; 0x01] in
  tlv320aic3204_config buf (length buf / 2).

Definition tlv320aic3204_select (channel : Z) : list bus_op :=
  tlv320aic3204_bulk_write
    (if negb (channel =? 0) then conf_data_ch1_select else conf_data_ch3_select).

Definition tlv320aic3204_set_gain (lgain rgain : Z) : list bus_op :=
  tlv320aic3204_bulk_write [0x3b; lgain; rgain].

(** ** What the registers mean (clock tree of the ADC)

    PLL_CLK = PLL_CLKIN * R * J.D / P, ADC_fs = CODEC_CLKIN / (NADC*MADC*AOSR).
    The divider registers hold a power-up flag in bit 7 and the value below. *)
Definition aic_div (x : Z) : Z := Z.land x 0x7F.

Definition aic_pll_clk (mclk : Z) (c : aic) : Z :=
  let r := aic_reg c 0 in
  let p := Z.land (Z.shiftr (r 5) 4) 7 in
  let rr := Z.land (r 5) 15 in
  let d := r 7 * 256 + r 8 in
  mclk * rr * (r 6 * 10000 + d) / (10000 * p).

Definition aic_adc_rate (mclk : Z) (c : aic) : Z :=
  let r := aic_reg c 0 in
  aic_pll_clk mclk c / (aic_div (r 0x12) * aic_div (r 0x13) * r 0x14).

Definition aic_bclk (mclk : Z) (c : aic) : Z :=
  let r := aic_reg c 0 in
  aic_pll_clk mclk c / (aic_div (r 0x0b) * aic_div (r 0x1e)).

(** The operations the rest of the program performs on a running codec. *)
Inductive codec_call :=
| CSelect (channel : Z)
| CGain (lgain rgain : Z)
| CReg (page reg data : Z).

Definition codec_ops (k : codec_call) : list bus_op :=
  match k with
  | CSelect ch => tlv320aic3204_select ch
  | CGain l r => tlv320aic3204_set_gain l r
  | CReg p r d => tlv320aic3204_write_reg p r d
  end.

(** Registers of page 1 that a call owns. *)
Definition select_owns (x : Z) : bool := (0x37 <=? x) && (x <=? 0x3a).
Definition gain_owns (x : Z) : bool := (0x3b <=? x) && (x <=? 0x3c).

(** A call other than a raw register write touches only page-1 registers of
    its own group, and keeps page 1 selected. *)
Lemma select_frame c ch p x :
  aic_page c = 1 ->
  aic_page (aic_chip c (tlv320aic3204_select ch)) = 1 /\
  (~ (p = 1 /\ select_owns x = true) ->
   aic_reg (aic_chip c (tlv320aic3204_select ch)) p x = aic_reg c p x).
Proof.
  intros Hp. unfold tlv320aic3204_select.
  set (t := if negb (ch =? 0) then conf_data_ch1_select else conf_data_ch3_select).
  assert (exists a b d e, t = [0x37; a; b; d; e]) as (a & b & d & e & ->)
    by (subst t; destruct (negb (ch =? 0)); do 4 eexists; reflexivity).
  cbn -[aic_burst].
  destruct (aic_burst_spec [a; b; d; e] 0x37 c) as [H1 H2]; [lia|]. rewrite H1. split; [done|].
  intros H. rewrite H2, Hp. cbn [length].
  unfold select_owns in H. destruct (Z.eqb_spec p 1); [|done]. cbn [andb].
  repeat zcase; cbn [andb]; try done; exfalso; apply H; repeat zcase; try lia; done.
Qed.

Lemma gain_frame c l r p x :
  aic_page c = 1 ->
  let c' := aic_chip c (tlv320aic3204_set_gain l r) in
  aic_page c' = 1 /\ aic_reg c' 1 0x3b = l /\ aic_reg c' 1 0x3c = r /\
  (~ (p = 1 /\ gain_owns x = true) -> aic_reg c' p x = aic_reg c p x).
Proof.
  intros Hp. cbn -[aic_burst].
  destruct (aic_burst_spec [l; r] 0x3b c) as [H1 H2]; [lia|]. rewrite H1, !H2, Hp.
  repeat split; try done. intros H. cbn [length].
  unfold gain_owns in H. destruct (Z.eqb_spec p 1); [|done]. cbn [andb].
  repeat zcase; cbn [andb]; try done; exfalso; apply H; repeat zcase; try lia; done.
Qed.

Lemma write_reg_frame c pg reg d p x :
  reg <> 0 ->
  let c' := aic_chip c (tlv320aic3204_write_reg pg reg d) in
  aic_page c' = 1 /\ aic_reg c' pg reg = d /\
  (~ (p = pg /\ x = reg) -> aic_reg c' p x = aic_reg c p x).
Proof.
  intros Hr. cbn. destruct (Z.eqb_spec reg 0); [done|]. cbn.
  rewrite !Z.eqb_refl. repeat split; try done. intros H.
  repeat (zcase; cbn [andb]); try reflexivity; subst; exfalso; apply H; auto.
Qed.

(** ** Properties *)

(** From any power-on state, [tlv320aic3204_init] leaves the chip sampling
    at AUDIO_ADC_FREQ from the AUDIO_CLOCK_REF clock, with the bit clock equal
    to 32 bits per sample pair, 16-bit data in DSP mode with both clocks driven by
    the codec, both ADC channels up and unmuted, and page 1 selected. *)
Theorem codec_init_rates c :
  let c' := aic_chip c tlv320aic3204_init in
  aic_adc_rate AUDIO_CLOCK_REF c' = AUDIO_ADC_FREQ /\
  aic_pll_clk AUDIO_CLOCK_REF c' = 98304000 /\
  aic_bclk AUDIO_CLOCK_REF c' = AUDIO_ADC_FREQ * 32 /\
  aic_reg c' 0 0x1b = REG_27 /\
  aic_reg c' 0 0x51 = 0xc2 /\ aic_reg c' 0 0x52 = 0 /\
  aic_page c' = 1.
Proof. vm_compute. repeat split. Qed.

(** After initialisation, any sequence of channel selections and gain
    changes, in any order, leaves the sampling configuration of page 0 as it
    was, keeps page 1 selected, and the last gain written is the one in force. *)
Theorem codec_calls_keep_rates (c : aic) (calls : list codec_call) (l r : Z) :
  aic_page c = 1 ->
  Forall (fun k => match k with CReg _ _ _ => False | _ => True end) calls ->
  let c' := aic_chip c (flat_map codec_ops calls ++ codec_ops (CGain l r)) in
  (forall x, aic_reg c' 0 x = aic_reg c 0 x) /\ aic_page c' = 1 /\
  aic_reg c' 1 0x3b = l /\ aic_reg c' 1 0x3c = r.
Proof.
  intros Hp Hc. cbn zeta. rewrite aic_chip_app.
  assert (aic_page (aic_chip c (flat_map codec_ops calls)) = 1 /\
          forall x, aic_reg (aic_chip c (flat_map codec_ops calls)) 0 x = aic_reg c 0 x)
    as [Hp' Hr'].
  { revert c Hp. induction Hc as [|k calls Hk _ IH]; intros c Hp; [done|].
    cbn [flat_map]. rewrite aic_chip_app.
    assert (aic_page (aic_chip c (codec_ops k)) = 1 /\
            forall x, aic_reg (aic_chip c (codec_ops k)) 0 x = aic_reg c 0 x) as [Hk1 Hk2].
    { destruct k as [ch|l' r'|]; [| |done]; split; cbn [codec_ops].
      - by apply (select_frame c ch 0 0).
      - intros x. apply (select_frame c ch 0 x Hp). lia.
      - by apply (gain_frame c l' r' 0 0).
      - intros x. apply (gain_frame c l' r' 0 x Hp). lia. }
    destruct (IH _ Hk1) as [H1 H2]. split; [done|]. intros x. by rewrite H2. }
  destruct (gain_frame (aic_chip c (flat_map codec_ops calls)) l r 0 0 Hp') as (A & B & C & _).
  cbn [codec_ops]. split; [|auto].
  intros x. rewrite <- Hr'. apply (gain_frame _ l r 0 x Hp'). lia.
Qed.

Lemma codec_calls_keep_rates_witness :
  let c := aic_chip {| aic_page := 0; aic_reg := fun _ _ => 0 |} tlv320aic3204_init in
  aic_reg (aic_chip c (flat_map codec_ops [CSelect 0; CGain 1 2; CSelect 1] ++
                       codec_ops (CGain 40 50))) 1 0x3b = 40.
Proof.
  refine (proj1 (proj2 (proj2 (codec_calls_keep_rates _ [CSelect 0; CGain 1 2; CSelect 1] 40 50 _ _)))).
  - reflexivity.
  - repeat constructor.
Defined.
