(* ===== verification/Synth.v ===== *)
(** * The clock generator driver (si5351.c)

    State: the driver's static variables ([synth]) and the bus calls made so
    far.  The register encodings, the rational approximation of the dividers,
    the band tables and [si5351_set_frequency] with its caches are modelled as
    written; the theorems read the frequencies back from the registers. *)

From S2P Require Import Prelude Bus Codec.

(** ** Registers and constants (si5351.h) *)

Definition SI5351_CLOCK_GEN : Z := 0.
Definition MS5351_CLOCK_GEN : Z := 1.
Definition SWC5351_CLOCK_GEN : Z := 2.
Definition SI5351_REG_3_OUTPUT_ENABLE_CONTROL : Z := 3.
Definition SI5351_CLK0_EN : Z := 1.
Definition SI5351_CLK1_EN : Z := 2.
Definition SI5351_CLK2_EN : Z := 4.
Definition SI5351_REG_16_CLK0_CONTROL : Z := 16.
Definition SI5351_CLK_POWERDOWN : Z := 128.
Definition SI5351_CLK_INTEGER_MODE : Z := 64.
Definition SI5351_CLK_PLL_SELECT_A : Z := 0.
Definition SI5351_CLK_PLL_SELECT_B : Z := 32.
Definition SI5351_CLK_INPUT_MULTISYNTH_N : Z := 12.
Definition SI5351_CLK_DRIVE_STRENGTH_2MA : Z := 0.
Definition SI5351_CLK_DRIVE_STRENGTH_4MA : Z := 1.
Definition SI5351_CLK_DRIVE_STRENGTH_6MA : Z := 2.
Definition SI5351_CLK_DRIVE_STRENGTH_8MA : Z := 3.
Definition SI5351_CLK_DRIVE_STRENGTH_AUTO : Z := 255.
Definition SI5351_REG_PLL_A : Z := 26.
Definition SI5351_REG_PLL_B : Z := 34.
Definition SI5351_REG_42_MULTISYNTH0 : Z := 42.
Definition SI5351_REG_50_MULTISYNTH1 : Z := 50.
Definition SI5351_REG_58_MULTISYNTH2 : Z := 58.
Definition SI5351_DIVBY4 : Z := 12.
Definition SI5351_R_DIV (n : Z) : Z := Z.shiftl n 4.
Definition SI5351_REG_177_PLL_RESET : Z := 177.
Definition SI5351_PLL_RESET_B : Z := 128.
Definition SI5351_PLL_RESET_A : Z := 32.
Definition SI5351_REG_183_CRYSTAL_LOAD : Z := 183.
Definition SI5351_CRYSTAL_LOAD_6PF : Z := 64.

Definition XTALFREQ : Z := 26000000.
Definition CLK2_FREQUENCY : Z := AUDIO_CLOCK_REF.
Definition PLL_N_2 : Z := 32.
Definition MAX_DENOMINATOR : Z := Z.shiftl 1 20 - 1.

(** Delays in system ticks of 10 us. *)
Definition CH_CFG_ST_FREQUENCY : Z := 100000.
Definition US2ST (usec : Z) : Z := u32 (u32 (usec * CH_CFG_ST_FREQUENCY) + 999999) / 1000000.
Definition DELAY_BAND_1_2 : Z := US2ST 100.
Definition DELAY_BAND_3_4 : Z := US2ST 120.
Definition DELAY_BANDCHANGE : Z := US2ST 2000.
Definition DELAY_CHANNEL_CHANGE : Z := US2ST 100.
Definition DELAY_SWEEP_START : Z := US2ST 2000.
Definition DELAY_RESET_PLL_AFTER : Z := 4000.

(** ** Band tables *)

Inductive band_mode := MODE_NONE | SI5351_FIXED_PLL | SI5351_FIXED_MULT.

(** [bs_div] is the union of [div] and [pll_n]. *)
Record band_strategy_t := Strategy {
  bs_freq : Z; bs_mode : band_mode; bs_div : Z; bs_mul : Z; bs_omul : Z;
  bs_pow : Z; bs_opow : Z; bs_l_gain : Z; bs_r_gain : Z; bs_freq_align : Z }.

#[export] Instance band_mode_eq_dec : EqDecision band_mode.
Proof. solve_decision. Defined.

(** Entry 0 of every table: [-1] in a 4-bit and in an 8-bit field. *)
Definition band_none : band_strategy_t := Strategy 0 MODE_NONE 0 0 0 15 15 255 255 1.

Definition band_strategy_H4_SI5351 : list band_strategy_t := [
  band_none;
  Strategy      26000 SI5351_FIXED_PLL   8  1  1 0 0  0  0 1;
  Strategy  100000000 SI5351_FIXED_PLL  32  1  1 0 0  0  0 1;
  Strategy  130000000 SI5351_FIXED_MULT  8  1  1 1 1  0  0 1;
  Strategy  180000000 SI5351_FIXED_MULT  6  1  1 1 1  0  0 1;
  Strategy          1 SI5351_FIXED_MULT  4  1  1 1 1  0  0 1;
  Strategy  460000000 SI5351_FIXED_MULT  6  3  5 1 1 40 40 60;
  Strategy  600000000 SI5351_FIXED_MULT  4  3  5 1 1 40 40 60;
  Strategy          3 SI5351_FIXED_MULT  4  3  5 3 1 50 50 60;
  Strategy 1200000000 SI5351_FIXED_MULT  4  5  7 3 2 70 70 140;
  Strategy          5 SI5351_FIXED_MULT  4  5  7 3 2 70 70 140;
  Strategy 1800000000 SI5351_FIXED_MULT  4  7  9 3 3 70 70 252;
  Strategy          7 SI5351_FIXED_MULT  4  7  9 3 3 70 70 252;
  Strategy 2400000000 SI5351_FIXED_MULT  4  9 11 3 3 85 85 396;
  Strategy          9 SI5351_FIXED_MULT  4  9 11 3 3 95 95 396;
  Strategy         11 SI5351_FIXED_MULT  4 11 12 3 3 95 95 528 ].

Definition band_strategy_36H_MS5351 : list band_strategy_t := [
  band_none;
  Strategy      26000 SI5351_FIXED_PLL  16  1  1 0 0  0  0 1;
  Strategy  120000000 SI5351_FIXED_PLL  32  1  1 0 0  0  0 1;
  Strategy          1 SI5351_FIXED_MULT  4  1  1 1 1  0  0 1;
  Strategy  400000000 SI5351_FIXED_MULT  8  3  5 3 2 20 20 1;
  Strategy  588000000 SI5351_FIXED_MULT  6  3  5 3 2 20 20 1;
  Strategy          3 SI5351_FIXED_MULT  4  3  5 3 2 30 30 1;
  Strategy          5 SI5351_FIXED_MULT  4  5  7 3 2 60 60 1;
  Strategy          7 SI5351_FIXED_MULT  4  7  9 3 3 75 75 252;
  Strategy          9 SI5351_FIXED_MULT  4  9 11 3 3 80 90 396;
  Strategy         11 SI5351_FIXED_MULT  4 11 13 3 3 95 95 528 ].

Definition band_strategy_SWC5351 : list band_strategy_t := [
  band_none;
  Strategy      32000 SI5351_FIXED_PLL   6  1  1 3 1  0  0 1;
  Strategy  130000000 SI5351_FIXED_PLL  40  1  1 3 1  0  0 1;
  Strategy          1 SI5351_FIXED_MULT  4  1  1 3 1  0  0 1;
  Strategy  588000000 SI5351_FIXED_MULT  6  3  5 3 1  0  0 60;
  Strategy          3 SI5351_FIXED_MULT  4  3  5 3 1  0  0 60;
  Strategy          5 SI5351_FIXED_MULT  4  5  7 3 3  0  0 140;
  Strategy          7 SI5351_FIXED_MULT  4  7  9 3 3 40 40 252;
  Strategy          9 SI5351_FIXED_MULT  4  9 11 3 3 40 40 396;
  Strategy         11 SI5351_FIXED_MULT  4 11 13 3 3 40 40 528 ].

(** The selection array of [si5351_set_band_mode] (NANOVNA_F303 build). *)
Definition band_tables : list (list band_strategy_t) :=
  [band_strategy_H4_SI5351; band_strategy_36H_MS5351; band_strategy_SWC5351].

(** ** State: the static variables, the configuration fields the driver
    reads, and the calls made to the bus *)

Record synth := Synth {
  current_band : Z;
  current_power : Z;
  current_freq : Z;
  clk_cache : list Z;                       (* three entries *)
  band_s : list band_strategy_t;
  IF_OFFSET : Z;
  s_xtal_freq : Z;                          (* config._xtal_freq *)
  s_harmonic_freq_threshold : Z;            (* config._harmonic_freq_threshold *)
  bus : list bus_op }.

Definition put_bus b (s : synth) : synth :=
  Synth (current_band s) (current_power s) (current_freq s) (clk_cache s) (band_s s)
        (IF_OFFSET s) (s_xtal_freq s) (s_harmonic_freq_threshold s) b.
Definition emit (ops : list bus_op) (s : synth) : synth := put_bus (bus s ++ ops) s.
Definition put_band b (s : synth) : synth :=
  Synth b (current_power s) (current_freq s) (clk_cache s) (band_s s)
        (IF_OFFSET s) (s_xtal_freq s) (s_harmonic_freq_threshold s) (bus s).
Definition put_power p (s : synth) : synth :=
  Synth (current_band s) p (current_freq s) (clk_cache s) (band_s s)
        (IF_OFFSET s) (s_xtal_freq s) (s_harmonic_freq_threshold s) (bus s).
Definition put_freq f (s : synth) : synth :=
  Synth (current_band s) (current_power s) f (clk_cache s) (band_s s)
        (IF_OFFSET s) (s_xtal_freq s) (s_harmonic_freq_threshold s) (bus s).
Definition put_cache c (s : synth) : synth :=
  Synth (current_band s) (current_power s) (current_freq s) c (band_s s)
        (IF_OFFSET s) (s_xtal_freq s) (s_harmonic_freq_threshold s) (bus s).
Definition put_table t (s : synth) : synth :=
  Synth (current_band s) (current_power s) (current_freq s) (clk_cache s) t
        (IF_OFFSET s) (s_xtal_freq s) (s_harmonic_freq_threshold s) (bus s).
Definition put_xtal x (s : synth) : synth :=
  Synth (current_band s) (current_power s) (current_freq s) (clk_cache s) (band_s s)
        (IF_OFFSET s) x (s_harmonic_freq_threshold s) (bus s).
Definition put_offset o (s : synth) : synth :=
  Synth (current_band s) (current_power s) (current_freq s) (clk_cache s) (band_s s)
        o (s_xtal_freq s) (s_harmonic_freq_threshold s) (bus s).

Definition si5351_reset_cache (s : synth) : synth := put_freq 0 (put_band 0 s).

Definition si5351_get_frequency (s : synth) : Z := current_freq s.

(** [gen] is [generate_DSP_Table], which does not touch this state. *)
Definition si5351_set_frequency_offset (offset : Z) (s : synth) : synth :=
  put_offset offset (si5351_reset_cache s).

Definition si5351_bulk_write (buf : list Z) (s : synth) : synth :=
  emit [I2cWrite SI5351_I2C_ADDR buf] s.

Definition si5351_write (reg dat : Z) (s : synth) : synth := si5351_bulk_write [reg; dat] s.

Definition si5351_reset_pll (mask : Z) (s : synth) : synth :=
  si5351_write SI5351_REG_177_PLL_RESET (Z.lor mask 0x0C) s.

Definition clk_all_en : Z := Z.lor (Z.lor SI5351_CLK0_EN SI5351_CLK1_EN) SI5351_CLK2_EN.

Definition disable_output : list Z :=
  [SI5351_REG_16_CLK0_CONTROL; SI5351_CLK_POWERDOWN; SI5351_CLK_POWERDOWN; SI5351_CLK_POWERDOWN].

Definition si5351_disable_output (s : synth) : synth :=
  si5351_reset_cache
    (si5351_bulk_write disable_output
       (si5351_write SI5351_REG_3_OUTPUT_ENABLE_CONTROL clk_all_en s)).

Definition si5351_enable_output (s : synth) : synth :=
  si5351_reset_cache
    (si5351_write SI5351_REG_3_OUTPUT_ENABLE_CONTROL (u8 (Z.lnot clk_all_en)) s).

Definition si5351_set_tcxo (xtal : Z) (s : synth) : synth :=
  let xtal := if (xtal <? XTALFREQ - 2000000) || (XTALFREQ + 2000000 <? xtal)
              then XTALFREQ else xtal in
  si5351_reset_cache (put_xtal xtal s).

(** ** Register encodings *)

(** The eight data bytes of a PLL or Multisynth block; [top] is or-ed into
    the byte that holds P1[17:16]. *)
Definition block_bytes (P1 P2 P3 top : Z) : list Z :=
  [ Z.shiftr (Z.land P3 0x0FF00) 8;
    Z.land P3 0x000FF;
    Z.lor (Z.shiftr (Z.land P1 0x30000) 16) top;
    Z.shiftr (Z.land P1 0x0FF00) 8;
    Z.land P1 0x000FF;
    Z.lor (Z.shiftr (Z.land P3 0xF0000) 12) (Z.shiftr (Z.land P2 0xF0000) 16);
    Z.shiftr (Z.land P2 0x0FF00) 8;
    Z.land P2 0x000FF ].

Definition si5351_setupPLL (pllSource mult num denom : Z) (s : synth) : synth :=
  let P1 := u32 (mult - 4 * 128) in
  si5351_bulk_write (pllSource :: map u8 (block_bytes P1 num denom 0)) s.

Definition msreg_base : list Z :=
  [SI5351_REG_42_MULTISYNTH0; SI5351_REG_50_MULTISYNTH1; SI5351_REG_58_MULTISYNTH2].

Definition si5351_setupMultisynth (channel div num denom rdiv chctrl : Z) (s : synth) : synth :=
  let P1 := u32 (div - 4 * 128) in
  let rdiv := SI5351_R_DIV rdiv in
  let rdiv := if P1 =? 0 then Z.lor rdiv SI5351_DIVBY4 else rdiv in
  let s := si5351_bulk_write (nth (Z.to_nat channel) msreg_base 0
                                :: map u8 (block_bytes P1 num denom rdiv)) s in
  let chctrl := u8 (Z.lor chctrl SI5351_CLK_INPUT_MULTISYNTH_N) in
  let chctrl := if num =? 0 then Z.lor chctrl SI5351_CLK_INTEGER_MODE else chctrl in
  if negb (nth (Z.to_nat channel) (clk_cache s) 0 =? chctrl) then
    let s := si5351_write (SI5351_REG_16_CLK0_CONTROL + channel) chctrl s in
    put_cache (<[Z.to_nat channel := chctrl]> (clk_cache s)) s
  else s.

(** ** Divider approximation *)

(** The loop of [approximate_fraction]; each turn is two Euclid steps. *)
Fixpoint approximate_fraction_loop (fuel : nat) (max denom num p0 q0 p1 q1 : Z)
  : option (Z * Z) :=
  match fuel with
  | O => None
  | S fuel' =>
      if num =? 0 then Some (p0, q0) else
      let a := denom / num in
      let q1 := u32 (q1 + u32 (a * q0)) in
      if max <? q1 then Some (p0, q0) else
      let denom := u32 (denom - u32 (a * num)) in
      let p1 := u32 (p1 + u32 (a * p0)) in
      if denom =? 0 then Some (p1, q1) else
      let a := num / denom in
      let q0 := u32 (q0 + u32 (a * q1)) in
      if max <? q0 then Some (p1, q1) else
      let num := u32 (num - u32 (a * denom)) in
      let p0 := u32 (p0 + u32 (a * p1)) in
      approximate_fraction_loop fuel' max denom num p0 q0 p1 q1
  end.

(** Each turn at least halves [num]; 33 turns exhaust 32 bits. *)
Definition approximate_fraction (n d max : Z) : Z * Z :=
  default (0, 1) (approximate_fraction_loop 33 max d n 0 1 1 0).

(** ** Frequency set-up *)

Definition si5351_set_frequency_fixedpll (channel pllfreq freq rdiv chctrl : Z) (s : synth)
  : synth :=
  let pllfreq := u64 (Z.shiftl pllfreq (7 - rdiv)) in
  let div := u32 (pllfreq / freq) in
  let num := u32 (pllfreq mod freq) in
  let '(num, denom) := approximate_fraction num freq MAX_DENOMINATOR in
  let '(num, div) := if num =? denom then (0, u32 (div + 1)) else (num, div) in
  si5351_setupMultisynth channel div num denom rdiv chctrl s.

Definition si5351_setupPLL_freq (pllSource pllfreq div : Z) (s : synth) : synth :=
  let pllfreq := u64 (Z.shiftl pllfreq 7) in
  let xtal := u32 (s_xtal_freq s * div) in
  let multi := u32 (pllfreq / xtal) in
  let num := u32 (pllfreq mod xtal) in
  let '(num, denom) := approximate_fraction num xtal MAX_DENOMINATOR in
  let '(num, multi) := if num =? denom then (0, u32 (multi + 1)) else (num, multi) in
  si5351_setupPLL pllSource multi num denom s.

(** ** Bands *)

(** [None]: there is no such table (the code reads past [bs]). *)
Definition si5351_set_band_mode (t : Z) (s : synth) : option synth :=
  match band_tables !! Z.to_nat t with
  | Some bs => Some (put_table bs s)
  | None => None
  end.

(** The loop has no bound of its own: [None] is the read past the table. *)
Fixpoint harmonic_lvl_loop (bs : list band_strategy_t) (thr freq i : Z) : option Z :=
  match bs with
  | [] => None
  | b :: bs' =>
      let f := if bs_freq b <? 20 then u32 (bs_freq b * thr) else bs_freq b in
      if freq <=? f then Some i else harmonic_lvl_loop bs' thr freq (i + 1)
  end.

Definition si5351_get_harmonic_lvl (freq : Z) (s : synth) : option Z :=
  harmonic_lvl_loop (band_s s) (s_harmonic_freq_threshold s) freq 0.

Definition band_at (i : Z) (s : synth) : band_strategy_t :=
  nth (Z.to_nat i) (band_s s) band_none.

(** Channels: CLK0 = frequency + offset, CLK1 = frequency, CLK2 = codec. *)
Definition OFREQ_CHANNEL : Z := 0.
Definition FREQ_CHANNEL : Z := 1.
Definition AUDIO_CODEC_CHANNEL : Z := 2.

(** ** si5351_set_frequency, in the order of its statements *)

(** Band, output divider and drive strength of a request. *)
Definition select_band (freq drive_strength : Z) (s : synth) : option (Z * Z * Z) :=
  if freq <? bs_freq (band_at 1 s) then Some (1, 7, SI5351_CLK_DRIVE_STRENGTH_2MA)
  else if freq <=? 1000000 then Some (2, 4, drive_strength)
  else match si5351_get_harmonic_lvl freq s with
       | Some b => Some (u8 b, 0, drive_strength)
       | None => None
       end.

Definition set_fixed_pll (band freq ofreq rdiv ds ods : Z) (s : synth) : synth :=
  let b := band_at band s in
  let pll_n := bs_div b in
  let s :=
    if negb (current_band s =? band) then
      let s := si5351_setupPLL SI5351_REG_PLL_A (u32 (Z.shiftl pll_n 7)) 0 1 s in
      let s := si5351_setupPLL SI5351_REG_PLL_B (u32 (Z.shiftl PLL_N_2 7)) 0 1 s in
      si5351_set_frequency_fixedpll AUDIO_CODEC_CHANNEL (u32 (s_xtal_freq s * PLL_N_2))
        CLK2_FREQUENCY 0 (Z.lor SI5351_CLK_DRIVE_STRENGTH_2MA SI5351_CLK_PLL_SELECT_B) s
    else s in
  let s := si5351_set_frequency_fixedpll OFREQ_CHANNEL
             (u64 (bs_omul b * s_xtal_freq s * pll_n)) ofreq rdiv
             (Z.lor ods SI5351_CLK_PLL_SELECT_A) s in
  si5351_set_frequency_fixedpll FREQ_CHANNEL
             (u64 (bs_mul b * s_xtal_freq s * pll_n)) freq rdiv
             (Z.lor ds SI5351_CLK_PLL_SELECT_A) s.

Definition set_fixed_mult (band freq ofreq rdiv ds ods : Z) (s : synth) : synth :=
  let b := band_at band s in
  let fdiv := bs_div b in
  let s := si5351_setupPLL_freq SI5351_REG_PLL_A (u64 (ofreq * fdiv)) (bs_omul b) s in
  let s := si5351_setupPLL_freq SI5351_REG_PLL_B (u64 (freq * fdiv)) (bs_mul b) s in
  let s :=
    if negb (bs_div (band_at (current_band s) s) =? fdiv) then
      let s := si5351_setupMultisynth OFREQ_CHANNEL (u32 (Z.shiftl fdiv 7)) 0 1 rdiv
                 (Z.lor ods SI5351_CLK_PLL_SELECT_A) s in
      si5351_setupMultisynth FREQ_CHANNEL (u32 (Z.shiftl fdiv 7)) 0 1 rdiv
                 (Z.lor ds SI5351_CLK_PLL_SELECT_B) s
    else s in
  si5351_set_frequency_fixedpll AUDIO_CODEC_CHANNEL (u64 (freq * fdiv))
    (u32 (CLK2_FREQUENCY * bs_mul b)) rdiv
    (Z.lor SI5351_CLK_DRIVE_STRENGTH_2MA SI5351_CLK_PLL_SELECT_B) s.

(** "Check current power settings": the caches are dropped when the drive
    strength changes. *)
Definition after_power (drive_strength : Z) (s : synth) : synth :=
  if negb (current_power s =? drive_strength)
  then put_power drive_strength (si5351_reset_cache s) else s.

(** "Set new gain values" of the codec at a band change. *)
Definition gain_change (band : Z) (s : synth) : synth :=
  let c := band_at (current_band s) s in
  let b := band_at band s in
  if negb (current_band s =? band) then
    if negb (bs_l_gain c =? bs_l_gain b) || negb (bs_r_gain c =? bs_r_gain b)
    then emit (tlv320aic3204_set_gain (bs_l_gain b) (bs_r_gain b)) s else s
  else s.

(** The switch over the band's mode. *)
Definition program_mode (band freq ofreq rdiv ds ods : Z) (s : synth) : synth * Z :=
  match bs_mode (band_at band s) with
  | SI5351_FIXED_PLL => (set_fixed_pll band freq ofreq rdiv ds ods s, DELAY_BAND_1_2)
  | SI5351_FIXED_MULT => (set_fixed_mult band freq ofreq rdiv ds ods s, DELAY_BAND_3_4)
  | MODE_NONE => (s, 0)
  end.

(** The PLL reset that ends a band change. *)
Definition band_end (band delay : Z) (s : synth) : synth * Z :=
  if negb (current_band s =? band) then
    (put_band band
       (si5351_reset_pll (Z.lor SI5351_PLL_RESET_A SI5351_PLL_RESET_B)
          (emit [SleepUs DELAY_RESET_PLL_AFTER] s)), DELAY_BANDCHANGE)
  else (s, delay).

(** From the power check on, with the band chosen. *)
Definition set_frequency_in_band (freq band rdiv drive_strength : Z) (s : synth) : synth * Z :=
  let ofreq := u32 (freq + IF_OFFSET s) in
  let s := after_power drive_strength s in
  if freq =? current_freq s then (s, DELAY_CHANNEL_CHANGE) else
  let s := gain_change band s in
  let b := band_at band s in
  let auto := SI5351_CLK_DRIVE_STRENGTH_8MA <? drive_strength in
  let ds := if auto then bs_pow b else drive_strength in
  let ods := if auto then bs_opow b else drive_strength in
  let '(s, delay) := program_mode band freq ofreq rdiv ds ods s in
  let '(s, delay) := band_end band delay s in
  (put_freq freq s, delay).

(** [None] is the read past the end of the band table. *)
Definition si5351_set_frequency (freq drive_strength : Z) (s : synth) : option (synth * Z) :=
  if freq =? 0 then Some (s, 0) else
  match select_band freq drive_strength s with
  | None => None
  | Some (band, rdiv, drive_strength) =>
      Some (set_frequency_in_band freq band rdiv drive_strength s)
  end.

Definition si5351_set_power (drive_strength : Z) (s : synth) : option synth :=
  if drive_strength =? current_power s then Some s
  else option_map fst (si5351_set_frequency (current_freq s) drive_strength s).

(** ** Start-up *)

Definition si5351_configs : list Z :=
  [ 2; SI5351_REG_3_OUTPUT_ENABLE_CONTROL; 0xff;
    4; SI5351_REG_16_CLK0_CONTROL; SI5351_CLK_POWERDOWN; SI5351_CLK_POWERDOWN; SI5351_CLK_POWERDOWN;
    2; SI5351_REG_183_CRYSTAL_LOAD; SI5351_CRYSTAL_LOAD_6PF;
    2; SI5351_REG_3_OUTPUT_ENABLE_CONTROL; u8 (Z.lnot clk_all_en);
    0 ].

(** [while (star p) { len = star p++; bulk_write(p, len); p += len; }] *)
Fixpoint init_writes (fuel : nat) (p : list Z) (s : synth) : synth :=
  match fuel with
  | O => s
  | S fuel' =>
      match p with
      | [] => s
      | len :: p' =>
          if len =? 0 then s
          else init_writes fuel' (drop (Z.to_nat len) p')
                 (si5351_bulk_write (take (Z.to_nat len) p') s)
      end
  end.

(** [band_mode] is config._band_mode. *)
Definition si5351_init (band_mode : Z) (s : synth) : option synth :=
  let s := init_writes (length si5351_configs) si5351_configs s in
  match si5351_set_band_mode band_mode s with
  | None => None
  | Some s => option_map fst (si5351_set_frequency XTALFREQ 0 s)
  end.

(** The static initial values; [band_s] is set by [si5351_init]. *)
Definition synth_reset (xtal thr offset : Z) : synth :=
  Synth 0 0 0 [0; 0; 0] [] offset xtal thr [].

(** Test runs of the definitions. *)
Example init_runs :
  exists s, si5351_init 0 (synth_reset XTALFREQ 300000100 12000) = Some s /\ current_band s = 2.
Proof. eexists. vm_compute. split; reflexivity. Qed.

(** ** The divider approximation

    Both candidates are kept as neighbours of the input, so the first one
    whose successor would exceed [max] is within 1/max of it. *)

Definition approx_ok (n d max : Z) (r : Z * Z) : Prop :=
  let '(p, q) := r in
  1 <= q <= max /\ 0 <= p /\ Z.abs (n * q - d * p) * max < d.

(** The invariant of the loop for input [N/D]. *)
Record approx_inv (N D max denom num p0 q0 p1 q1 : Z) : Prop := {
  ai_den : q0 * denom + q1 * num = D;
  ai_num : p0 * denom + p1 * num = N;
  ai_det : p1 * q0 - p0 * q1 = 1;
  ai_ord : 0 <= num < denom;
  ai_q0  : 1 <= q0 <= max;
  ai_q1  : 0 <= q1 <= max;
  ai_p   : 0 <= p0 /\ 0 <= p1 }.

(** The residues are the errors of the two candidates. *)
Lemma approx_inv_err0 N D max denom num p0 q0 p1 q1 :
  approx_inv N D max denom num p0 q0 p1 q1 -> N * q0 - D * p0 = num.
Proof.
  intros []. transitivity (num * (p1 * q0 - p0 * q1)); [|by rewrite ai_det0; lia].
  rewrite <- ai_den0, <- ai_num0. ring.
Qed.

(** Half a turn: the step that replaces one candidate. *)
Lemma half_step x y q q' a r :
  x = a * y + r -> 0 <= r -> 0 < y -> 0 <= a -> 0 <= q -> 0 <= q' ->
  q * x + q' * y = q * r + (q' + a * q) * y /\ q' + a * q <= q * x + q' * y.
Proof.
  intros -> Hr Hy Ha Hq Hq'. split; [ring|].
  assert (0 <= q * r) by (apply Z.mul_nonneg_nonneg; lia).
  assert (q' + a * q <= (q' + a * q) * y) by (assert (0 <= a * q) by (apply Z.mul_nonneg_nonneg; lia); nia). lia.
Qed.

(** [q + a*p] computed in 32 bits. *)
Lemma u32_mul_add q a p : 0 <= q -> 0 <= a -> 0 <= p -> q + a * p < 2 ^ 32 ->
  u32 (q + u32 (a * p)) = q + a * p.
Proof.
  intros. assert (0 <= a * p) by (apply Z.mul_nonneg_nonneg; lia).
  rewrite (u32_small (a * p)) by lia. apply u32_small. lia.
Qed.

(** [x - a*y] computed in 32 bits, for a quotient [a] of [x] by [y]. *)
Lemma u32_mul_sub x a y r : x = a * y + r -> 0 <= r -> 0 <= a -> 0 <= y -> x < 2 ^ 32 ->
  u32 (x - u32 (a * y)) = r.
Proof.
  intros. assert (0 <= a * y) by (apply Z.mul_nonneg_nonneg; lia).
  rewrite (u32_small (a * y)) by lia. rewrite u32_small; lia.
Qed.

Lemma mul_ge_1 a b : 1 <= a -> 1 <= b -> 1 <= a * b /\ a <= a * b /\ b <= a * b.
Proof. nia. Qed.

(** Quotient and remainder of a smaller by a larger number. *)
Lemma div_mod_facts x y : 0 < y -> y <= x ->
  x = (x / y) * y + x mod y /\ 0 <= x mod y < y /\ 1 <= x / y.
Proof.
  intros Hy Hx. pose proof (Z.div_mod x y ltac:(lia)) as H.
  split; [rewrite H at 1; ring|]. split; [apply Z.mod_pos_bound; lia|].
  apply Z.div_le_lower_bound; lia.
Qed.

Lemma approximate_fraction_loop_spec fuel :
  forall N D max denom num p0 q0 p1 q1,
  1 <= max -> 0 <= N < D -> D < 2 ^ 32 -> num < 2 ^ (Z.of_nat fuel - 1) -> (0 < fuel)%nat ->
  approx_inv N D max denom num p0 q0 p1 q1 ->
  exists r, approximate_fraction_loop fuel max denom num p0 q0 p1 q1 = Some r /\
            approx_ok N D max r.
Proof.
  induction fuel as [|fuel IH]; intros N D max denom num p0 q0 p1 q1 Hmax HN HD Hf Hpos I; [lia|].
  pose proof (approx_inv_err0 _ _ _ _ _ _ _ _ _ I) as E0. destruct I as [I1 I2 I3 I4 I5 I6 [I7 I8]].
  cbn [approximate_fraction_loop].
  destruct (Z.eqb_spec num 0) as [->|Hn].
  { eexists; split; [reflexivity|]. unfold approx_ok. rewrite E0. lia. }
  destruct (div_mod_facts denom num) as (Ha & Hr & Ha1); [lia..|].
  set (a := denom / num) in *. set (r := denom mod num) in *. clearbody a r.
  destruct (half_step denom num q0 q1 a r Ha) as [Q1 Q1b]; [lia..|].
  destruct (half_step denom num p0 p1 a r Ha) as [P1 P1b]; [lia..|].
  destruct (mul_ge_1 q0 denom) as (_ & _ & M1); [lia..|].
  destruct (mul_ge_1 a q0) as (M2 & _ & _); [lia..|].
  assert (M3 : 0 <= q1 * num) by (apply Z.mul_nonneg_nonneg; lia).
  assert (Hden : denom < 2 ^ 32) by lia.
  rewrite (u32_mul_add q1 a q0), (u32_mul_add p1 a p0), (u32_mul_sub denom a num r Ha) by lia.
  assert (T1 : (p1 + a * p0) * q0 - p0 * (q1 + a * q0) = 1) by lia.
  assert (B1 : 1 <= q1 + a * q0) by lia.
  assert (B2 : 0 <= p1 + a * p0) by (pose proof (Z.mul_nonneg_nonneg a p0); lia).
  set (q1' := q1 + a * q0) in *. set (p1' := p1 + a * p0) in *. clearbody q1' p1'.
  assert (D1 : q0 * r + q1' * num = D) by lia.
  assert (N1 : p0 * r + p1' * num = N) by lia.
  assert (E1 : D * p1' - N * q1' = r).
  { transitivity (r * (p1' * q0 - p0 * q1')); [|by rewrite T1; lia].
    rewrite <- D1, <- N1. ring. }
  assert (Q0r : 0 <= q0 * r) by (apply Z.mul_nonneg_nonneg; lia).
  destruct (Z.ltb_spec max q1').
  { eexists; split; [reflexivity|]. unfold approx_ok. rewrite E0.
    assert (num * max < num * q1') by (apply Z.mul_lt_mono_pos_l; lia). lia. }
  destruct (Z.eqb_spec r 0) as [Hr0|Hr0].
  { eexists; split; [reflexivity|]. unfold approx_ok.
    replace (N * q1' - D * p1') with 0 by lia. lia. }
  destruct (div_mod_facts num r) as (Hb & Ht & Hb1); [lia..|].
  set (b := num / r) in *. set (t := num mod r) in *. clearbody b t.
  destruct (half_step num r q1' q0 b t Hb) as [Q0 Q0b]; [lia..|].
  destruct (half_step num r p1' p0 b t Hb) as [P0 P0b]; [lia..|].
  rewrite (u32_mul_add q0 b q1'), (u32_mul_add p0 b p1'), (u32_mul_sub num b r t Hb) by lia.
  assert (T0 : p1' * (q0 + b * q1') - (p0 + b * p1') * q1' = 1) by lia.
  assert (B0 : 0 <= b * q1' /\ 0 <= b * p1') by (split; apply Z.mul_nonneg_nonneg; lia).
  set (bq := b * q1') in *. set (bp := b * p1') in *. clearbody bq bp.
  assert (Q1t : 0 <= q1' * t) by (apply Z.mul_nonneg_nonneg; lia).
  destruct (Z.ltb_spec max (q0 + bq)).
  { eexists; split; [reflexivity|]. unfold approx_ok.
    replace (N * q1' - D * p1') with (- r) by lia.
    assert (r * max < r * (q0 + bq)) by (apply Z.mul_lt_mono_pos_l; lia). lia. }
  assert (Hf' : (0 < fuel)%nat).
  { destruct fuel; [|lia]. change (Z.of_nat 1 - 1) with 0 in Hf. lia. }
  apply IH; [lia..| | |].
  - replace (Z.of_nat (S fuel) - 1) with (Z.succ (Z.of_nat fuel - 1)) in Hf by lia.
    rewrite Z.pow_succ_r in Hf by lia.
    destruct (mul_ge_1 b r) as (_ & _ & M4); lia.
  - lia.
  - constructor; lia.
Qed.

Lemma approximate_fraction_ok n d max :
  0 <= n < d -> d < 2 ^ 32 -> 1 <= max -> approx_ok n d max (approximate_fraction n d max).
Proof.
  intros Hn Hd Hm. unfold approximate_fraction.
  destruct (approximate_fraction_loop_spec 33 n d max d n 0 1 1 0) as (r & -> & Hr); try lia.
  - constructor; lia.
  - exact Hr.
Qed.

(** The result never exceeds one. *)
Lemma approx_ok_le n d max p q :
  0 <= n < d -> 1 <= max -> approx_ok n d max (p, q) -> p <= q.
Proof.
  intros Hn Hm (Hq & Hp & He). destruct (Z.le_gt_cases p q) as [|Hpq]; [done|].
  assert (d * (q + 1) <= d * p) by (apply Z.mul_le_mono_nonneg_l; lia).
  assert (n * q <= d * q) by (apply Z.mul_le_mono_nonneg_r; lia).
  assert (Z.abs (n * q - d * p) <= Z.abs (n * q - d * p) * max) by nia. lia.
Qed.

(** ** Register decoding

    The datasheet's reading of a PLL or Multisynth block at [base]. *)
Definition rd_P3 (r : regfile) (base : Z) : Z :=
  Z.lor (Z.lor (Z.shiftl (Z.land (Z.shiftr (r (base + 5)) 4) 15) 16) (Z.shiftl (r base) 8))
        (r (base + 1)).
Definition rd_P2 (r : regfile) (base : Z) : Z :=
  Z.lor (Z.lor (Z.shiftl (Z.land (r (base + 5)) 15) 16) (Z.shiftl (r (base + 6)) 8))
        (r (base + 7)).
Definition rd_P1 (r : regfile) (base : Z) : Z :=
  Z.lor (Z.lor (Z.shiftl (Z.land (r (base + 2)) 3) 16) (Z.shiftl (r (base + 3)) 8))
        (r (base + 4)).
Definition rd_rdiv (r : regfile) (base : Z) : Z := Z.land (Z.shiftr (r (base + 2)) 4) 7.
Definition rd_divby4 (r : regfile) (base : Z) : bool :=
  Z.land (Z.shiftr (r (base + 2)) 2) 3 =? 3.

(** The divider of a block is (512 + P1 + P2/P3) / 128. *)
Definition block_is (r : regfile) (base div num denom : Z) : Prop :=
  512 + rd_P1 r base = div /\ rd_P2 r base = num /\ rd_P3 r base = denom.

(** A block is its fields: the bytes as quotients and remainders. *)
Lemma block_bytes_fields P1 P2 P3 top :
  0 <= P2 -> 0 <= P3 ->
  block_bytes P1 P2 P3 top =
  [ (P3 / 256) mod 256; P3 mod 256; Z.lor ((P1 / 65536) mod 4) top;
    (P1 / 256) mod 256; P1 mod 256;
    (P3 / 65536) mod 16 * 16 + (P2 / 65536) mod 16;
    (P2 / 256) mod 256; P2 mod 256 ].
Proof.
  intros H2 H3. unfold block_bytes.
  pose proof (fun x => field_shiftr x 8 8) as F8. pose proof (fun x => field_shiftr x 2 16) as F2.
  pose proof (fun x => field_shiftr x 4 16) as F4. pose proof (fun x => land_mask x 8) as F0.
  change (Z.shiftl (Z.ones 8) 8) with 0x0FF00 in F8. change (Z.shiftl (Z.ones 2) 16) with 0x30000 in F2.
  change (Z.shiftl (Z.ones 4) 16) with 0xF0000 in F4. change (Z.ones 8) with 0x000FF in F0.
  rewrite !F8, !F2, !F4, !F0 by lia.
  assert (Z.shiftr (Z.land P3 0xF0000) 12 = (P3 / 65536) mod 16 * 16) as ->.
  { pose proof (field_in_place P3 4 16 ltac:(lia) ltac:(lia)) as F.
    change (Z.shiftl (Z.ones 4) 16) with 0xF0000 in F. rewrite F, Z.shiftr_div_pow2 by lia. lia. }
  pose proof (lor_add_pow2 ((P3 / 65536) mod 16) ((P2 / 65536) mod 16) 4) as L.
  change (2 ^ 4) with 16 in *. change (2 ^ 16) with 65536. rewrite L by lia. reflexivity.
Qed.

Lemma lor_shiftl_add a b k : 0 <= k -> 0 <= b < 2 ^ k -> Z.lor (Z.shiftl a k) b = a * 2 ^ k + b.
Proof. intros. rewrite Z.shiftl_mul_pow2 by lia. by apply lor_add_pow2. Qed.

Lemma lor3_bytes a b c : 0 <= b < 256 -> 0 <= c < 256 ->
  Z.lor (Z.lor (Z.shiftl a 16) (Z.shiftl b 8)) c = a * 65536 + b * 256 + c.
Proof.
  intros. pose proof (lor_shiftl_add a (Z.shiftl b 8) 16) as L1.
  rewrite !Z.shiftl_mul_pow2 in * by lia. rewrite L1 by lia.
  pose proof (lor_add_pow2 (a * 256 + b) c 8 ltac:(lia) ltac:(lia)) as L2.
  replace (a * 2 ^ 16 + b * 2 ^ 8) with ((a * 256 + b) * 2 ^ 8) by lia. lia.
Qed.

(** ** Encoding and decoding are inverse *)

Section Block.
Context (base P1 P2 P3 t : Z) (r : regfile).
Hypotheses (HP1 : 0 <= P1 < 2 ^ 18) (HP2 : 0 <= P2 < 2 ^ 20) (HP3 : 0 <= P3 < 2 ^ 20)
           (Ht : 0 <= t < 64).

(** [t] fills the six bits above P1[17:16]. *)
Let r' : regfile := reg_write (base :: map u8 (block_bytes P1 P2 P3 (t * 4))) r.

Lemma block_byte2 : Z.lor ((P1 / 65536) mod 4) (t * 4) = t * 4 + (P1 / 65536) mod 4.
Proof. rewrite Z.lor_comm. apply (lor_add_pow2 t ((P1 / 65536) mod 4) 2); lia. Qed.

Lemma block_read i : 0 <= i < 8 ->
  r' (base + i) = u8 (nth (Z.to_nat i) (block_bytes P1 P2 P3 (t * 4)) 0).
Proof.
  intros Hi. subst r'. cbn [reg_write]. rewrite reg_burst_spec. cbn [length map block_bytes].
  repeat zcase; cbn [andb]; try lia. replace (base + i - base) with i by lia.
  rewrite <- (map_nth u8). reflexivity.
Qed.

Lemma block_frame x : (x < base \/ base + 8 <= x) -> r' x = r x.
Proof.
  intros Hx. subst r'. cbn [reg_write]. rewrite reg_burst_spec. cbn [length map block_bytes].
  repeat zcase; cbn [andb]; try lia; reflexivity.
Qed.

Lemma block_decode :
  rd_P1 r' base = P1 /\ rd_P2 r' base = P2 /\ rd_P3 r' base = P3 /\
  Z.land (Z.shiftr (r' (base + 2)) 2) 63 = t.
Proof.
  unfold rd_P1, rd_P2, rd_P3. pose proof (block_read 0) as B0. rewrite Z.add_0_r in B0.
  rewrite B0, !block_read by lia. rewrite block_bytes_fields, block_byte2 by lia.
  change (Z.to_nat 0) with 0%nat. change (Z.to_nat 1) with 1%nat.
  change (Z.to_nat 2) with 2%nat. change (Z.to_nat 3) with 3%nat.
  change (Z.to_nat 4) with 4%nat. change (Z.to_nat 5) with 5%nat.
  change (Z.to_nat 6) with 6%nat. change (Z.to_nat 7) with 7%nat. cbn [nth].
  pose proof (fun x => land_mask x 2) as M2. pose proof (fun x => land_mask x 4) as M4.
  pose proof (fun x => land_mask x 6) as M6.
  change (Z.ones 2) with 3 in M2. change (Z.ones 4) with 15 in M4. change (Z.ones 6) with 63 in M6.
  rewrite M2, !M4, M6, !lor3_bytes by (words; lia). rewrite !Z.shiftr_div_pow2 by lia.
  rewrite !u8_small by lia.
  change (2 ^ 2) with 4. change (2 ^ 4) with 16. change (2 ^ 6) with 64.
  repeat split; lia.
Qed.
End Block.

(** ** Effect of each operation on the chip

    [regs s] is the register file after the calls made so far.  The
    operations below change nothing of the driver's state but the bus and the
    CLKx control cache ([same_cfg]). *)

Definition regs (s : synth) : regfile := si_regs (bus s).

Definition same_cfg (s s' : synth) : Prop :=
  current_band s' = current_band s /\ current_power s' = current_power s /\
  current_freq s' = current_freq s /\ band_s s' = band_s s /\
  IF_OFFSET s' = IF_OFFSET s /\ s_xtal_freq s' = s_xtal_freq s /\
  s_harmonic_freq_threshold s' = s_harmonic_freq_threshold s.

#[export] Instance same_cfg_preorder : PreOrder same_cfg.
Proof.
  split; [by repeat split|]. intros s1 s2 s3. unfold same_cfg.
  intros (->&->&->&->&->&->&->) (->&->&->&->&->&->&->). by repeat split.
Qed.

Lemma regs_bulk_write buf s : regs (si5351_bulk_write buf s) = reg_write buf (regs s).
Proof. unfold regs, si5351_bulk_write, emit. cbn [bus put_bus]. by rewrite si_regs_app. Qed.

Lemma regs_emit_sleep us s : regs (emit [SleepUs us] s) = regs s.
Proof. unfold regs, emit. cbn [bus put_bus]. by rewrite si_regs_app. Qed.

Lemma regs_emit_gain l r s : regs (emit (tlv320aic3204_set_gain l r) s) = regs s.
Proof. unfold regs, emit. cbn [bus put_bus]. by rewrite si_regs_app. Qed.

(** Reading a block depends on its eight registers only. *)
Lemma block_is_ext r r' base div num den :
  (forall x, base <= x < base + 8 -> r' x = r x) ->
  block_is r base div num den -> block_is r' base div num den.
Proof.
  intros E. unfold block_is, rd_P1, rd_P2, rd_P3.
  by rewrite !E by lia.
Qed.

Lemma rd_rdiv_ext r r' base :
  (forall x, base <= x < base + 8 -> r' x = r x) -> rd_rdiv r' base = rd_rdiv r base.
Proof. intros E. unfold rd_rdiv. by rewrite E by lia. Qed.

(** The three words fit their fields. *)
Definition fits (div num den : Z) : Prop :=
  512 <= div < 512 + 2 ^ 18 /\ 0 <= num < 2 ^ 20 /\ 0 <= den < 2 ^ 20.

Lemma setupPLL_spec src mult num den s :
  fits mult num den ->
  let s' := si5351_setupPLL src mult num den s in
  same_cfg s s' /\ clk_cache s' = clk_cache s /\
  block_is (regs s') src mult num den /\
  (forall x, ~ (src <= x < src + 8) -> regs s' x = regs s x).
Proof.
  intros (H1 & H2 & H3). unfold si5351_setupPLL. cbn zeta.
  rewrite (u32_small (mult - 4 * 128)) by lia.
  split; [by repeat split|]. split; [done|]. rewrite regs_bulk_write.
  destruct (block_decode src (mult - 512) num den 0 (regs s)) as (D1 & D2 & D3 & _); [lia..|].
  change (4 * 128) with 512. unfold block_is. change 0 with (0 * 4).
  rewrite D1, D2, D3. split; [repeat split; lia|].
  intros x Hx. apply block_frame; lia.
Qed.

(** *** CLKx control words *)

Definition clk_ctl (chctrl num : Z) : Z :=
  let c := u8 (Z.lor chctrl SI5351_CLK_INPUT_MULTISYNTH_N) in
  if num =? 0 then Z.lor c SI5351_CLK_INTEGER_MODE else c.

Lemma clk_ctl_bit chctrl num k : 0 <= k < 8 -> k <> 2 -> k <> 3 -> k <> 6 ->
  Z.testbit (clk_ctl chctrl num) k = Z.testbit chctrl k.
Proof.
  intros Hk H2 H3 H6. unfold clk_ctl.
  assert (E : Z.testbit (u8 (Z.lor chctrl SI5351_CLK_INPUT_MULTISYNTH_N)) k = Z.testbit chctrl k).
  { rewrite u8_land, Z.land_spec, Z.lor_spec.
    assert (k = 0 \/ k = 1 \/ k = 4 \/ k = 5 \/ k = 7) as [->|[->|[->|[->| ->]]]] by lia;
      cbn; rewrite orb_false_r, andb_true_r; done. }
  destruct (num =? 0); [|done]. rewrite Z.lor_spec, E.
  assert (k = 0 \/ k = 1 \/ k = 4 \/ k = 5 \/ k = 7) as [->|[->|[->|[->| ->]]]] by lia;
    cbn; by rewrite orb_false_r.
Qed.

Lemma clk_ctl_nonzero chctrl num : clk_ctl chctrl num <> 0.
Proof.
  intros H. assert (Z.testbit (clk_ctl chctrl num) 2 = true) as E; [|by rewrite H in E].
  unfold clk_ctl. assert (Z.testbit (u8 (Z.lor chctrl SI5351_CLK_INPUT_MULTISYNTH_N)) 2 = true) as E.
  { rewrite u8_land, Z.land_spec, Z.lor_spec. cbn. by rewrite orb_true_r. }
  destruct (num =? 0); [|done]. by rewrite Z.lor_spec, E.
Qed.

(** The cache never claims a value the chip does not hold; zero is the
    initial value and is never written. *)
Definition cache_ok (s : synth) : Prop :=
  length (clk_cache s) = 3%nat /\
  forall ch, 0 <= ch < 3 ->
    nth (Z.to_nat ch) (clk_cache s) 0 = 0 \/
    nth (Z.to_nat ch) (clk_cache s) 0 = regs s (16 + ch).

Definition ms_base (ch : Z) : Z := 42 + 8 * ch.

Lemma msreg_base_nth ch : 0 <= ch < 3 -> nth (Z.to_nat ch) msreg_base 0 = ms_base ch.
Proof. intros H. assert (ch = 0 \/ ch = 1 \/ ch = 2) as [->|[->| ->]] by lia; reflexivity. Qed.

(** The byte above P1[17:16]: output divider and the divide-by-4 mark. *)
Lemma ms_top_bits P1 rdiv : 0 <= rdiv < 8 ->
  exists t, 0 <= t < 64 /\ t / 4 = rdiv /\
  (if P1 =? 0 then Z.lor (SI5351_R_DIV rdiv) SI5351_DIVBY4 else SI5351_R_DIV rdiv) = t * 4.
Proof.
  intros H. unfold SI5351_R_DIV.
  destruct (P1 =? 0).
  - exists (rdiv * 4 + 3). rewrite lor_shiftl_add by (unfold SI5351_DIVBY4; lia).
    unfold SI5351_DIVBY4. lia.
  - exists (rdiv * 4). rewrite Z.shiftl_mul_pow2 by lia. lia.
Qed.

Lemma rd_rdiv_top r base t : 0 <= t < 64 ->
  Z.land (Z.shiftr (r (base + 2)) 2) 63 = t -> rd_rdiv r base = Z.land (t / 4) 7.
Proof.
  intros Ht <-. unfold rd_rdiv. change 4 with (2 ^ 2) at 2. rewrite <- Z.shiftr_div_pow2 by lia.
  rewrite Z.shiftr_land, Z.shiftr_shiftr by lia. change (2 + 2) with 4.
  rewrite <- Z.land_assoc. reflexivity.
Qed.

Lemma nth_insert_z (l : list Z) ch ch' v d :
  length l = 3%nat -> 0 <= ch < 3 -> 0 <= ch' < 3 ->
  nth (Z.to_nat ch') (<[Z.to_nat ch := v]> l) d = if ch' =? ch then v else nth (Z.to_nat ch') l d.
Proof.
  intros Hl H H'. destruct l as [|a [|b [|c [|]]]]; try discriminate Hl.
  assert (ch = 0 \/ ch = 1 \/ ch = 2) as [->|[->| ->]] by lia;
  assert (ch' = 0 \/ ch' = 1 \/ ch' = 2) as [->|[->| ->]] by lia; reflexivity.
Qed.

Lemma setupMultisynth_spec ch div num den rdiv chctrl s :
  0 <= ch < 3 -> fits div num den -> 0 <= rdiv < 8 -> cache_ok s ->
  let s' := si5351_setupMultisynth ch div num den rdiv chctrl s in
  same_cfg s s' /\ cache_ok s' /\
  block_is (regs s') (ms_base ch) div num den /\ rd_rdiv (regs s') (ms_base ch) = rdiv /\
  regs s' (16 + ch) = clk_ctl chctrl num /\
  (forall x, ~ (ms_base ch <= x < ms_base ch + 8) -> x <> 16 + ch -> regs s' x = regs s x).
Proof.
  intros Hch (H1 & H2 & H3) Hr (Hl & Hc). unfold si5351_setupMultisynth. cbn zeta.
  rewrite (u32_small (div - 4 * 128)), msreg_base_nth by lia. change (4 * 128) with 512.
  destruct (ms_top_bits (div - 512) rdiv Hr) as (t & Ht & Ht4 & ->).
  fold (clk_ctl chctrl num).
  set (s1 := si5351_bulk_write _ s).
  assert (R1 : regs s1 = reg_write (ms_base ch :: map u8 (block_bytes (div - 512) num den (t * 4)))
                                   (regs s)) by (subst s1; apply regs_bulk_write).
  destruct (block_decode (ms_base ch) (div - 512) num den t (regs s)) as (D1 & D2 & D3 & D4); [lia..|].
  rewrite <- R1 in D1, D2, D3, D4.
  assert (F1 : forall x, ~ (ms_base ch <= x < ms_base ch + 8) -> regs s1 x = regs s x).
  { intros x Hx. rewrite R1. apply block_frame; lia. }
  assert (B : block_is (regs s1) (ms_base ch) div num den) by (repeat split; [lia|done..]).
  assert (RD : rd_rdiv (regs s1) (ms_base ch) = rdiv).
  { rewrite (rd_rdiv_top _ _ t Ht D4), Ht4. change 7 with (Z.ones 3). rewrite Z.land_ones; lia. }
  change (clk_cache s1) with (clk_cache s).
  destruct (Z.eqb_spec (nth (Z.to_nat ch) (clk_cache s) 0) (clk_ctl chctrl num)) as [E|E]; cbn [negb].
  - split; [by repeat split|]. split.
    + split; [done|]. intros ch' Hch'. change (clk_cache s1) with (clk_cache s).
      rewrite F1 by (unfold ms_base; lia). by apply Hc.
    + repeat split; [by apply B..|done| |by intros; apply F1].
      rewrite F1 by (unfold ms_base; lia). destruct (Hc ch Hch) as [E0|E0]; [|congruence].
      exfalso. apply (clk_ctl_nonzero chctrl num). congruence.
  - set (s2 := si5351_write _ _ _). set (s3 := put_cache _ s2).
    assert (R2 : forall x, regs s3 x = if x =? 16 + ch then clk_ctl chctrl num else regs s1 x).
    { intros x. change (regs s3) with (regs s2). subst s2. unfold si5351_write.
      rewrite regs_bulk_write. reflexivity. }
    assert (E2 : forall x, ms_base ch <= x < ms_base ch + 8 -> regs s3 x = regs s1 x).
    { intros x Hx. rewrite R2. unfold ms_base in *. zcase; [lia|done]. }
    split; [by repeat split|]. split.
    + split; [subst s3; cbn [clk_cache put_cache]; by rewrite length_insert|].
      intros ch' Hch'. change (clk_cache s3) with (<[Z.to_nat ch := clk_ctl chctrl num]> (clk_cache s)).
      rewrite nth_insert_z, R2 by done.
      destruct (Z.eqb_spec ch' ch) as [->|Hne]; [rewrite Z.eqb_refl; by right|].
      destruct (Z.eqb_spec (16 + ch') (16 + ch)); [lia|].
      rewrite F1 by (unfold ms_base; lia). by apply Hc.
    + split; [by eapply block_is_ext|]. split; [by rewrite (rd_rdiv_ext _ _ _ E2)|].
      split; [by rewrite R2, Z.eqb_refl|].
      intros x Hx Hx'. rewrite R2. destruct (Z.eqb_spec x (16 + ch)); [done|]. by apply F1.
Qed.

(** ** Accuracy of the two dividers

    A divider word is [W/d] with [W = div*d + num]; the approximation puts it
    within 1/MAX_DENOMINATOR of the wanted ratio [n/m]. *)

Definition near (W d n m : Z) : Prop := 0 < d /\ Z.abs (W * m - n * d) * MAX_DENOMINATOR < m.

(** A block that holds a divider word near [n/m]. *)
Definition block_near (r : regfile) (base n m : Z) : Prop :=
  exists div num den, fits div num den /\ block_is r base div num den /\ near (div * den + num) den n m.

Lemma block_near_ext r r' base n m :
  (forall x, base <= x < base + 8 -> r' x = r x) -> block_near r base n m -> block_near r' base n m.
Proof. intros E (div & num & den & F & B & N). exists div, num, den. eauto using block_is_ext. Qed.

Lemma max_denominator_eq : MAX_DENOMINATOR = 1048575.
Proof. reflexivity. Qed.

(** The fraction of [n mod m] over [m], normalised as both callers do. *)
Lemma approx_word n m :
  0 < m < 2 ^ 32 -> 512 * m <= n -> n < (512 + 2 ^ 18 - 1) * m ->
  let '(num, denom) := approximate_fraction (n mod m) m MAX_DENOMINATOR in
  let '(num, div) := if num =? denom then (0, u32 (n / m + 1)) else (num, n / m) in
  fits div num denom /\ near (div * denom + num) denom n m.
Proof.
  intros Hm Hlo Hhi. pose proof (Z.mod_pos_bound n m ltac:(lia)) as Hmod.
  pose proof (approximate_fraction_ok (n mod m) m MAX_DENOMINATOR Hmod ltac:(lia)) as A.
  specialize (A ltac:(rewrite max_denominator_eq; lia)).
  destruct (approximate_fraction (n mod m) m MAX_DENOMINATOR) as [p q].
  pose proof (approx_ok_le _ _ MAX_DENOMINATOR p q Hmod ltac:(rewrite max_denominator_eq; lia) A) as Hpq.
  destruct A as (Hq & Hp & Herr). pose proof (Z.div_mod n m ltac:(lia)) as Hdiv.
  assert (Hb : 512 <= n / m < 512 + 2 ^ 18 - 1).
  { split; [apply Z.div_le_lower_bound; lia|apply Z.div_lt_upper_bound; lia]. }
  assert (EW : (n / m * q + p) * m - n * q = - (n mod m * q - m * p)) by (rewrite Hdiv at 2; ring).
  unfold fits, near. rewrite max_denominator_eq in *.
  destruct (Z.eqb_spec p q) as [->|Hne].
  - rewrite u32_small by lia. split; [lia|]. split; [lia|].
    replace ((n / m + 1) * q + 0) with (n / m * q + q) by ring. rewrite EW, Z.abs_opp. done.
  - split; [lia|]. split; [lia|]. rewrite EW, Z.abs_opp. done.
Qed.

Lemma setupPLL_freq_spec src pllfreq div s :
  let X := s_xtal_freq s * div in
  0 < X < 2 ^ 32 -> 0 <= pllfreq -> pllfreq * 128 < 2 ^ 64 ->
  512 * X <= pllfreq * 128 -> pllfreq * 128 < (512 + 2 ^ 18 - 1) * X ->
  let s' := si5351_setupPLL_freq src pllfreq div s in
  same_cfg s s' /\ clk_cache s' = clk_cache s /\
  block_near (regs s') src (pllfreq * 128) X /\
  (forall x, ~ (src <= x < src + 8) -> regs s' x = regs s x).
Proof.
  intros X HX Hp H64 Hlo Hhi. unfold si5351_setupPLL_freq. cbn zeta. fold X.
  rewrite Z.shiftl_mul_pow2 by lia. change (2 ^ 7) with 128.
  rewrite (u64_small (pllfreq * 128)), (u32_small X) by lia.
  assert (0 <= (pllfreq * 128) / X < 512 + 2 ^ 18).
  { split; [apply Z.div_pos; lia|apply Z.div_lt_upper_bound; lia]. }
  pose proof (Z.mod_pos_bound (pllfreq * 128) X ltac:(lia)).
  rewrite (u32_small (_ / X)), (u32_small (_ mod X)) by lia.
  pose proof (approx_word (pllfreq * 128) X ltac:(lia) Hlo Hhi) as A.
  destruct (approximate_fraction _ X _) as [p q].
  destruct (if p =? q then _ else _) as [num mul].
  destruct A as [F N]. destruct (setupPLL_spec src mul num q s F) as (S & C & B & R).
  split; [done|]. split; [done|]. split; [by exists mul, num, q|done].
Qed.

Lemma fixedpll_spec ch pllfreq freq rdiv chctrl s :
  let n := pllfreq * 2 ^ (7 - rdiv) in
  0 <= ch < 3 -> 0 <= rdiv < 8 -> cache_ok s ->
  0 < freq < 2 ^ 32 -> 0 <= n < 2 ^ 64 ->
  512 * freq <= n -> n < (512 + 2 ^ 18 - 1) * freq ->
  let s' := si5351_set_frequency_fixedpll ch pllfreq freq rdiv chctrl s in
  same_cfg s s' /\ cache_ok s' /\
  block_near (regs s') (ms_base ch) n freq /\ rd_rdiv (regs s') (ms_base ch) = rdiv /\
  (exists num, regs s' (16 + ch) = clk_ctl chctrl num) /\
  (forall x, ~ (ms_base ch <= x < ms_base ch + 8) -> x <> 16 + ch -> regs s' x = regs s x).
Proof.
  intros n Hch Hr Hc Hf Hn Hlo Hhi. unfold si5351_set_frequency_fixedpll. cbn zeta.
  rewrite Z.shiftl_mul_pow2 by lia. fold n. rewrite (u64_small n) by lia.
  assert (0 <= n / freq < 512 + 2 ^ 18).
  { split; [apply Z.div_pos; lia|apply Z.div_lt_upper_bound; lia]. }
  pose proof (Z.mod_pos_bound n freq ltac:(lia)).
  rewrite (u32_small (n / freq)), (u32_small (n mod freq)) by lia.
  pose proof (approx_word n freq ltac:(lia) Hlo Hhi) as A.
  destruct (approximate_fraction _ freq _) as [p q].
  destruct (if p =? q then _ else _) as [num div]. destruct A as [F N].
  destruct (setupMultisynth_spec ch div num q rdiv chctrl s Hch F Hr Hc) as (S & C & B & R & K & E).
  split; [done|]. split; [done|]. split; [by exists div, num, q|].
  split; [done|]. split; [by exists num|done].
Qed.

(** ** The frequency at an output, read from the registers

    CLKx = xtal * PW / MW / 2^R, with PW and MW the divider words of the PLL
    selected by bit 5 of the CLKx control and of the Multisynth.  The result
    is the fraction [fst / snd] in Hz. *)

Definition pll_of (r : regfile) (ch : Z) : Z :=
  if Z.testbit (r (16 + ch)) 5 then SI5351_REG_PLL_B else SI5351_REG_PLL_A.

Definition word_num (r : regfile) (base : Z) : Z := (512 + rd_P1 r base) * rd_P3 r base + rd_P2 r base.

Definition clk_hz (xtal : Z) (r : regfile) (ch : Z) : Z * Z :=
  let p := pll_of r ch in
  let m := ms_base ch in
  (xtal * word_num r p * rd_P3 r m, rd_P3 r p * word_num r m * 2 ^ rd_rdiv r m).

(** [mul] times the output is within 1 Hz of [f], and the output is on. *)
Definition output_near (xtal : Z) (r : regfile) (ch mul f : Z) : Prop :=
  let '(n, d) := clk_hz xtal r ch in
  0 < d /\ Z.abs (mul * n - f * d) < d /\ Z.testbit (r (16 + ch)) 7 = false.

Lemma word_num_is r base div num den :
  block_is r base div num den -> word_num r base = div * den + num /\ rd_P3 r base = den.
Proof. intros (E1 & E2 & E3). unfold word_num. by rewrite E1, E2, E3. Qed.

(** Variable PLL, exact integer divider [fdiv*128]: the error of [mul * CLK]
    is at most X / (MAX_DENOMINATOR * fdiv * 128), with X = xtal * mul. *)
Lemma output_near_mult xtal r ch fdiv mul f :
  4 <= fdiv -> 0 < xtal * mul <= 512 * MAX_DENOMINATOR ->
  block_near r (pll_of r ch) (f * fdiv * 128) (xtal * mul) ->
  block_is r (ms_base ch) (fdiv * 128) 0 1 -> rd_rdiv r (ms_base ch) = 0 ->
  Z.testbit (r (16 + ch)) 7 = false ->
  output_near xtal r ch mul f.
Proof.
  intros Hd HX (div & num & den & F & B & [Hden N]) M R0 Hon. unfold output_near, clk_hz.
  destruct (word_num_is _ _ _ _ _ B) as [-> ->]. destruct (word_num_is _ _ _ _ _ M) as [-> ->].
  rewrite R0. change (2 ^ 0) with 1. set (W := div * den + num) in *. clearbody W.
  split; [nia|]. split; [|done].
  replace (mul * (xtal * W * 1) - f * (den * (fdiv * 128 * 1 + 0) * 1))
    with (W * (xtal * mul) - f * fdiv * 128 * den) by ring.
  set (e := Z.abs _) in *. clearbody e.
  assert (e * MAX_DENOMINATOR < 512 * MAX_DENOMINATOR) by lia.
  assert (e < 512) by (rewrite max_denominator_eq in *; lia). nia.
Qed.

(** Fixed PLL of [pll] Hz with an integer word, fractional divider: the error
    of the output is below f / (MAX_DENOMINATOR * 512). *)
Lemma output_near_pll xtal r ch plln mul f rdiv :
  0 < xtal -> 0 < plln -> 0 <= rdiv < 8 -> 0 < f <= 512 * MAX_DENOMINATOR -> 0 < mul ->
  block_is r (pll_of r ch) (plln * 128) 0 1 ->
  block_near r (ms_base ch) (mul * xtal * plln * 2 ^ (7 - rdiv)) f ->
  rd_rdiv r (ms_base ch) = rdiv -> Z.testbit (r (16 + ch)) 7 = false ->
  output_near xtal r ch mul f.
Proof.
  intros Hx Hp Hr Hf Hmul B (div & num & den & F & M & [Hden N]) RD Hon. unfold output_near, clk_hz.
  destruct (word_num_is _ _ _ _ _ B) as [-> ->]. destruct (word_num_is _ _ _ _ _ M) as [-> ->].
  rewrite RD. destruct F as (F1 & F2 & F3).
  assert (HW : 512 * den <= div * den + num) by nia.
  set (W := div * den + num) in *. clearbody W.
  assert (HP : 0 < 2 ^ rdiv) by (apply Z.pow_pos_nonneg; lia).
  split; [nia|]. split; [|done].
  assert (E7 : 128 = 2 ^ (7 - rdiv) * 2 ^ rdiv) by (rewrite <- Z.pow_add_r by lia; replace (7 - rdiv + rdiv) with 7 by lia; done).
  rewrite E7.
  set (A := 2 ^ (7 - rdiv)) in *. set (C := 2 ^ rdiv) in *. clearbody A C.
  replace (mul * (xtal * (plln * (A * C) * 1 + 0) * den) - f * (1 * W * C))
    with (- (W * f - mul * xtal * plln * A * den) * C) by ring.
  rewrite Z.abs_mul, Z.abs_opp, (Z.abs_eq C) by lia.
  set (e := Z.abs _) in *. clearbody e.
  assert (e * MAX_DENOMINATOR < 512 * MAX_DENOMINATOR) by lia.
  assert (e < 512) by (rewrite max_denominator_eq in *; lia). nia.
Qed.

(** ** The state between two frequency changes *)

(** What the chip holds on behalf of the current band. *)
Definition dividers_ok (s : synth) : Prop :=
  let b := band_at (current_band s) s in
  let r := regs s in
  match bs_mode b with
  | MODE_NONE => True
  | SI5351_FIXED_PLL => block_is r SI5351_REG_PLL_A (bs_div b * 128) 0 1
  | SI5351_FIXED_MULT =>
      forall ch, 0 <= ch < 2 ->
        block_is r (ms_base ch) (bs_div b * 128) 0 1 /\ rd_rdiv r (ms_base ch) = 0 /\
        Z.testbit (r (16 + ch)) 7 = false /\ Z.testbit (r (16 + ch)) 5 = (ch =? 1)
  end.

(** CLK1 makes [f] and CLK0 makes [f] plus the offset, on the harmonics of
    the current band, each within 1 Hz. *)
Definition outputs_ok (s : synth) (f : Z) : Prop :=
  let b := band_at (current_band s) s in
  output_near (s_xtal_freq s) (regs s) OFREQ_CHANNEL (bs_omul b) (f + IF_OFFSET s) /\
  output_near (s_xtal_freq s) (regs s) FREQ_CHANNEL (bs_mul b) f.

Definition synth_inv (s : synth) : Prop :=
  cache_ok s /\ dividers_ok s /\ (current_freq s <> 0 -> outputs_ok s (current_freq s)).

(** *** When the registers can hold the dividers of a request *)

Definition range_pll (xtal plln mul rdiv f : Z) : Prop :=
  let n := mul * xtal * plln * 2 ^ (7 - rdiv) in
  0 < mul /\ 4 <= plln < 2048 /\ 0 < f <= 512 * 1048575 /\ n < 2 ^ 64 /\
  512 * f <= n /\ n < (512 + 2 ^ 18 - 1) * f.

Definition range_mult (xtal fdiv mul f : Z) : Prop :=
  let X := xtal * mul in
  4 <= fdiv < 2048 /\ 0 < f /\ 0 < X <= 512 * 1048575 /\ f * fdiv * 128 < 2 ^ 64 /\
  512 * X <= f * fdiv * 128 /\ f * fdiv * 128 < (512 + 2 ^ 18 - 1) * X.

Definition in_range (b : band_strategy_t) (xtal offset rdiv f : Z) : Prop :=
  f + offset < 2 ^ 32 /\ 0 <= rdiv < 8 /\
  match bs_mode b with
  | MODE_NONE => False
  | SI5351_FIXED_PLL =>
      range_pll xtal (bs_div b) (bs_omul b) rdiv (f + offset) /\
      range_pll xtal (bs_div b) (bs_mul b) rdiv f
  | SI5351_FIXED_MULT =>
      rdiv = 0 /\
      range_mult xtal (bs_div b) (bs_omul b) (f + offset) /\
      range_mult xtal (bs_div b) (bs_mul b) f /\
      0 < bs_mul b < 16 /\
      512 * (CLK2_FREQUENCY * bs_mul b) <= f * bs_div b * 128 /\
      f * bs_div b * 128 < (512 + 2 ^ 18 - 1) * (CLK2_FREQUENCY * bs_mul b)
  end.

(** The union [div]/[pll_n] is compared across modes: the dividers are
    reprogrammed unless the old band also was a divider band. *)
Definition alias_free (s : synth) (band : Z) : Prop :=
  let c := band_at (current_band s) s in
  let b := band_at band s in
  bs_mode b = SI5351_FIXED_MULT -> bs_div c = bs_div b -> bs_mode c = SI5351_FIXED_MULT.

Definition drive_ok (d : Z) : Prop := 0 <= d < 16.

Lemma drive_bits d sel k : drive_ok d -> 4 <= k -> Z.testbit (Z.lor d sel) k = Z.testbit sel k.
Proof.
  intros Hd Hk. rewrite Z.lor_spec, (testbit_above d 4 k) by (unfold drive_ok in Hd; lia). done.
Qed.

Lemma ctl_select d sel num k : drive_ok d -> k = 5 \/ k = 7 ->
  Z.testbit (clk_ctl (Z.lor d sel) num) k = Z.testbit sel k.
Proof. intros Hd Hk. rewrite clk_ctl_bit by lia. apply drive_bits; [done|lia]. Qed.

(** Agreement outside the registers an operation writes. *)
Definition frame_but (P : Z -> Prop) (r r' : regfile) : Prop := forall x, ~ P x -> r' x = r x.

Lemma block_is_frame (P : Z -> Prop) r r' base div num den :
  frame_but P r r' -> (forall x, P x -> x < base \/ base + 8 <= x) ->
  block_is r base div num den -> block_is r' base div num den.
Proof.
  intros F HP. apply block_is_ext. intros x Hx. apply F. intros Hp. apply HP in Hp. lia.
Qed.

Lemma block_near_frame (P : Z -> Prop) r r' base n m :
  frame_but P r r' -> (forall x, P x -> x < base \/ base + 8 <= x) ->
  block_near r base n m -> block_near r' base n m.
Proof.
  intros F HP. apply block_near_ext. intros x Hx. apply F. intros Hp. apply HP in Hp. lia.
Qed.

(** The CLKx block and its control, as the two modes leave it. *)
Record clk_is (r : regfile) (ch rdiv sel : Z) : Prop := {
  ck_rdiv : rd_rdiv r (ms_base ch) = rdiv;
  ck_on : Z.testbit (r (16 + ch)) 7 = false;
  ck_sel : Z.testbit (r (16 + ch)) 5 = Z.testbit sel 5 }.

Lemma clk_is_frame (P : Z -> Prop) r r' ch rdiv sel :
  frame_but P r r' -> (forall x, P x -> (x < ms_base ch \/ ms_base ch + 8 <= x) /\ x <> 16 + ch) ->
  clk_is r ch rdiv sel -> clk_is r' ch rdiv sel.
Proof.
  intros F HP [E1 E2 E3].
  assert (forall x, ms_base ch <= x < ms_base ch + 8 -> r' x = r x) as EB.
  { intros x Hx. apply F. intros Hp. apply HP in Hp. lia. }
  assert (r' (16 + ch) = r (16 + ch)) as EC by (apply F; intros Hp; apply HP in Hp; lia).
  constructor; rewrite ?(rd_rdiv_ext _ _ _ EB), ?EC; done.
Qed.

(** Registers written by a Multisynth set-up of channel [ch]. *)
Definition ms_regs (ch x : Z) : Prop := ms_base ch <= x < ms_base ch + 8 \/ x = 16 + ch.

(** [fixedpll_spec] for a drive strength or-ed with a PLL selection. *)
Lemma fixedpll_clk ch pllfreq freq rdiv d sel s :
  let n := pllfreq * 2 ^ (7 - rdiv) in
  0 <= ch < 3 -> 0 <= rdiv < 8 -> cache_ok s ->
  0 < freq < 2 ^ 32 -> 0 <= n < 2 ^ 64 ->
  512 * freq <= n -> n < (512 + 2 ^ 18 - 1) * freq ->
  drive_ok d -> Z.testbit sel 7 = false ->
  let s' := si5351_set_frequency_fixedpll ch pllfreq freq rdiv (Z.lor d sel) s in
  same_cfg s s' /\ cache_ok s' /\
  block_near (regs s') (ms_base ch) n freq /\ clk_is (regs s') ch rdiv sel /\
  frame_but (ms_regs ch) (regs s) (regs s').
Proof.
  intros n Hch Hr Hc Hf Hn Hlo Hhi Hd Hsel s'.
  destruct (fixedpll_spec ch pllfreq freq rdiv (Z.lor d sel) s) as (S & C & B & R & [num K] & F); auto.
  fold s' in S, C, B, R, K, F. repeat (split; [done|]). split.
  - constructor; [done| |]; rewrite K, ctl_select by auto; done.
  - intros x Hx. apply F; unfold ms_regs in Hx; lia.
Qed.

Lemma multisynth_clk ch div rdiv d sel s :
  0 <= ch < 3 -> fits div 0 1 -> 0 <= rdiv < 8 -> cache_ok s ->
  drive_ok d -> Z.testbit sel 7 = false ->
  let s' := si5351_setupMultisynth ch div 0 1 rdiv (Z.lor d sel) s in
  same_cfg s s' /\ cache_ok s' /\
  block_is (regs s') (ms_base ch) div 0 1 /\ clk_is (regs s') ch rdiv sel /\
  frame_but (ms_regs ch) (regs s) (regs s').
Proof.
  intros Hch F Hr Hc Hd Hsel s'.
  destruct (setupMultisynth_spec ch div 0 1 rdiv (Z.lor d sel) s Hch F Hr Hc) as (S & C & B & R & K & E).
  fold s' in S, C, B, R, K, E. repeat (split; [done|]). split.
  - constructor; [done| |]; rewrite K, ctl_select by auto; done.
  - intros x Hx. apply E; unfold ms_regs in Hx; lia.
Qed.

(** Writing a PLL block leaves the cached controls alone. *)
Lemma cache_ok_frame s s' :
  clk_cache s' = clk_cache s -> (forall x, 16 <= x < 19 -> regs s' x = regs s x) ->
  cache_ok s -> cache_ok s'.
Proof.
  intros E F [L H]. unfold cache_ok. rewrite E. split; [done|].
  intros ch Hch. rewrite F by lia. by apply H.
Qed.

(** Side conditions of frame steps: register ranges are linear. *)
Ltac regs_lia :=
  unfold ms_regs, ms_base, SI5351_REG_PLL_A, SI5351_REG_PLL_B, OFREQ_CHANNEL, FREQ_CHANNEL,
    AUDIO_CODEC_CHANNEL in *; intros; lia.

(** A PLL block set to an integer word leaves everything else as it was. *)
Lemma setupPLL_int src n s :
  4 <= n < 2048 -> 19 <= src -> cache_ok s ->
  let s' := si5351_setupPLL src (u32 (Z.shiftl n 7)) 0 1 s in
  same_cfg s s' /\ cache_ok s' /\ block_is (regs s') src (n * 128) 0 1 /\
  frame_but (fun x => src <= x < src + 8) (regs s) (regs s').
Proof.
  intros Hn Hsrc Hc. rewrite Z.shiftl_mul_pow2 by lia. change (2 ^ 7) with 128.
  rewrite u32_small by lia. intros s'.
  destruct (setupPLL_spec src (n * 128) 0 1 s ltac:(unfold fits; lia)) as (S & C & B & F).
  fold s' in S, C, B, F. split; [done|]. split; [|done].
  apply (cache_ok_frame s s'); [done|intros; apply F; lia|done].
Qed.

Lemma cfg_band_at s s' i : same_cfg s s' -> band_at i s' = band_at i s.
Proof. unfold band_at. by intros (_ & _ & _ & -> & _). Qed.

Lemma cfg_xtal s s' : same_cfg s s' -> s_xtal_freq s' = s_xtal_freq s.
Proof. by intros (_ & _ & _ & _ & _ & -> & _). Qed.

(** The part of [set_fixed_pll] run at a band change. *)
Lemma band_change_pll plln s :
  4 <= plln < 2048 -> 2000000 <= s_xtal_freq s <= 100000000 -> cache_ok s ->
  let s1 := si5351_setupPLL SI5351_REG_PLL_A (u32 (Z.shiftl plln 7)) 0 1 s in
  let s2 := si5351_setupPLL SI5351_REG_PLL_B (u32 (Z.shiftl PLL_N_2 7)) 0 1 s1 in
  let s3 := si5351_set_frequency_fixedpll AUDIO_CODEC_CHANNEL (u32 (s_xtal_freq s2 * PLL_N_2))
              CLK2_FREQUENCY 0 (Z.lor SI5351_CLK_DRIVE_STRENGTH_2MA SI5351_CLK_PLL_SELECT_B) s2 in
  same_cfg s s3 /\ cache_ok s3 /\ block_is (regs s3) SI5351_REG_PLL_A (plln * 128) 0 1.
Proof.
  intros Hn Hx Hc s1 s2 s3.
  destruct (setupPLL_int SI5351_REG_PLL_A plln s Hn) as (S1 & C1 & B1 & F1); [regs_lia|done|].
  fold s1 in S1, C1, B1, F1.
  destruct (setupPLL_int SI5351_REG_PLL_B PLL_N_2 s1) as (S2 & C2 & B2 & F2);
    [unfold PLL_N_2; lia|regs_lia|done|]. fold s2 in S2, C2, B2, F2.
  assert (HX : s_xtal_freq s2 = s_xtal_freq s) by (rewrite (cfg_xtal _ _ S2); apply (cfg_xtal _ _ S1)).
  assert (E32 : u32 (s_xtal_freq s2 * PLL_N_2) = s_xtal_freq s * 32)
    by (rewrite HX; unfold PLL_N_2; apply u32_small; lia).
  subst s3. rewrite E32. set (s3 := si5351_set_frequency_fixedpll _ _ _ _ _ _).
  destruct (fixedpll_clk AUDIO_CODEC_CHANNEL (s_xtal_freq s * 32) CLK2_FREQUENCY 0
              SI5351_CLK_DRIVE_STRENGTH_2MA SI5351_CLK_PLL_SELECT_B s2) as (S3 & C3 & _ & _ & F3);
    try (unfold AUDIO_CODEC_CHANNEL, CLK2_FREQUENCY, AUDIO_CLOCK_REF, drive_ok,
           SI5351_CLK_DRIVE_STRENGTH_2MA; change (2 ^ (7 - 0)) with 128; lia);
    [done|reflexivity|].
  fold s3 in S3, C3, F3. split; [by etransitivity; [|etransitivity]|]. split; [done|].
  eapply block_is_frame; [exact F3|regs_lia|]. eapply block_is_frame; [exact F2|regs_lia|done].
Qed.

Lemma range_pll_small xtal plln mul rdiv f : range_pll xtal plln mul rdiv f -> 0 <= rdiv < 8 ->
  0 < xtal -> u64 (mul * xtal * plln) = mul * xtal * plln.
Proof.
  intros (? & ? & ? & H & _) Hr Hx. apply u64_small.
  assert (1 <= 2 ^ (7 - rdiv)) by (pose proof (Z.pow_pos_nonneg 2 (7 - rdiv)); lia).
  assert (0 <= mul * xtal * plln) by nia. nia.
Qed.

Lemma set_fixed_pll_spec band freq rdiv ds ods s :
  let b := band_at band s in
  let off := IF_OFFSET s in
  cache_ok s -> drive_ok ds -> drive_ok ods -> 2000000 <= s_xtal_freq s <= 100000000 ->
  bs_mode b = SI5351_FIXED_PLL -> in_range b (s_xtal_freq s) off rdiv freq ->
  (current_band s = band -> dividers_ok s) ->
  let s' := set_fixed_pll band freq (freq + off) rdiv ds ods s in
  same_cfg s s' /\ cache_ok s' /\
  block_is (regs s') SI5351_REG_PLL_A (bs_div b * 128) 0 1 /\
  output_near (s_xtal_freq s) (regs s') OFREQ_CHANNEL (bs_omul b) (freq + off) /\
  output_near (s_xtal_freq s) (regs s') FREQ_CHANNEL (bs_mul b) freq.
Proof.
  intros b off Hc Hds Hods Hx Hm HR Hdiv. unfold set_fixed_pll. cbn zeta.
  destruct HR as (Hof & Hr & HR). rewrite Hm in HR. destruct HR as [RO RF].
  fold b. set (s0 := if negb (current_band s =? band) then _ else _).
  assert (same_cfg s s0 /\ cache_ok s0 /\ block_is (regs s0) SI5351_REG_PLL_A (bs_div b * 128) 0 1)
    as (S0 & C0 & B0).
  { subst s0. destruct (Z.eqb_spec (current_band s) band) as [E|E]; cbn [negb].
    - split; [done|]. split; [done|]. specialize (Hdiv E). unfold dividers_ok in Hdiv.
      rewrite E in Hdiv. fold b in Hdiv. by rewrite Hm in Hdiv.
    - apply band_change_pll; [unfold range_pll in RF; lia|done..]. }
  clearbody s0. rewrite (cfg_xtal _ _ S0).
  set (xt := s_xtal_freq s) in *.
  rewrite (range_pll_small _ _ _ _ _ RO Hr) by lia.
  set (s1 := si5351_set_frequency_fixedpll OFREQ_CHANNEL _ _ _ _ _).
  destruct (fixedpll_clk OFREQ_CHANNEL (bs_omul b * xt * bs_div b) (freq + off) rdiv ods
              SI5351_CLK_PLL_SELECT_A s0) as (S1 & C1 & N1 & K1 & F1);
    try (unfold range_pll in RO; unfold OFREQ_CHANNEL; lia); [done|done|reflexivity|].
  fold s1 in S1, C1, N1, K1, F1. rewrite (cfg_xtal _ _ S1), (cfg_xtal _ _ S0). fold xt.
  rewrite (range_pll_small _ _ _ _ _ RF Hr) by lia.
  set (s2 := si5351_set_frequency_fixedpll _ _ _ _ _ _).
  destruct (fixedpll_clk FREQ_CHANNEL (bs_mul b * xt * bs_div b) freq rdiv ds
              SI5351_CLK_PLL_SELECT_A s1) as (S2 & C2 & N2 & K2 & F2);
    try (unfold range_pll in RF; unfold FREQ_CHANNEL; lia); [done|done|reflexivity|].
  fold s2 in S2, C2, N2, K2, F2.
  assert (B2 : block_is (regs s2) SI5351_REG_PLL_A (bs_div b * 128) 0 1)
    by (eapply block_is_frame; [exact F2|regs_lia|]; eapply block_is_frame; [exact F1|regs_lia|done]).
  split; [by etransitivity; [|etransitivity]|]. split; [done|]. split; [done|].
  apply (block_near_frame _ _ _ _ _ _ F2) in N1; [|regs_lia].
  apply (clk_is_frame _ _ _ _ _ _ F2) in K1; [|regs_lia].
  split.
  - destruct K1 as [K1a K1b K1c]. eapply (output_near_pll _ _ _ (bs_div b)); try eassumption;
      try (unfold range_pll in RO; rewrite ?max_denominator_eq; lia).
    unfold pll_of. by rewrite K1c.
  - destruct K2 as [K2a K2b K2c]. eapply (output_near_pll _ _ _ (bs_div b)); try eassumption;
      try (unfold range_pll in RF; rewrite ?max_denominator_eq; lia).
    unfold pll_of. by rewrite K2c.
Qed.

(** The part of [set_fixed_mult] that programs one PLL. *)
Lemma mult_pll src fdiv mul f s :
  19 <= src -> range_mult (s_xtal_freq s) fdiv mul f -> cache_ok s ->
  let s' := si5351_setupPLL_freq src (u64 (f * fdiv)) mul s in
  same_cfg s s' /\ cache_ok s' /\
  block_near (regs s') src (f * fdiv * 128) (s_xtal_freq s * mul) /\
  frame_but (fun x => src <= x < src + 8) (regs s) (regs s').
Proof.
  intros Hsrc (H1 & H2 & H3 & H4 & H5 & H6) Hc.
  assert (0 <= f * fdiv) by (apply Z.mul_nonneg_nonneg; lia).
  rewrite u64_small by lia. intros s'.
  destruct (setupPLL_freq_spec src (f * fdiv) mul s) as (S & C & B & F); try lia.
  fold s' in S, C, B, F. split; [done|]. split; [|done].
  apply (cache_ok_frame s s'); [done|intros; apply F; lia|done].
Qed.

(** The constant dividers of CLK0 and CLK1, programmed or inherited. *)
Definition mult_dividers (r : regfile) (fdiv : Z) : Prop :=
  forall ch, 0 <= ch < 2 ->
    block_is r (ms_base ch) (fdiv * 128) 0 1 /\ rd_rdiv r (ms_base ch) = 0 /\
    Z.testbit (r (16 + ch)) 7 = false /\ Z.testbit (r (16 + ch)) 5 = (ch =? 1).

Lemma mult_dividers_frame (P : Z -> Prop) r r' fdiv :
  frame_but P r r' -> (forall x, P x -> ~ (16 <= x < 18) /\ ~ (42 <= x < 58)) ->
  mult_dividers r fdiv -> mult_dividers r' fdiv.
Proof.
  intros F HP H ch Hch. destruct (H ch Hch) as (B & R & K & E).
  assert (EB : forall x, ms_base ch <= x < ms_base ch + 8 -> r' x = r x).
  { intros x Hx. apply F. intros Hp. apply HP in Hp. unfold ms_base in Hx. lia. }
  assert (EC : r' (16 + ch) = r (16 + ch)) by (apply F; intros Hp; apply HP in Hp; lia).
  split; [by eapply block_is_ext|]. by rewrite (rd_rdiv_ext _ _ _ EB), EC.
Qed.

Lemma mult_set_dividers fdiv ds ods s :
  4 <= fdiv < 2048 -> drive_ok ds -> drive_ok ods -> cache_ok s ->
  let s1 := si5351_setupMultisynth OFREQ_CHANNEL (u32 (Z.shiftl fdiv 7)) 0 1 0
              (Z.lor ods SI5351_CLK_PLL_SELECT_A) s in
  let s2 := si5351_setupMultisynth FREQ_CHANNEL (u32 (Z.shiftl fdiv 7)) 0 1 0
              (Z.lor ds SI5351_CLK_PLL_SELECT_B) s1 in
  same_cfg s s2 /\ cache_ok s2 /\ mult_dividers (regs s2) fdiv /\
  frame_but (fun x => ms_regs 0 x \/ ms_regs 1 x) (regs s) (regs s2).
Proof.
  intros Hf Hds Hods Hc. rewrite Z.shiftl_mul_pow2 by lia. change (2 ^ 7) with 128.
  rewrite u32_small by lia. intros s1 s2.
  destruct (multisynth_clk OFREQ_CHANNEL (fdiv * 128) 0 ods SI5351_CLK_PLL_SELECT_A s)
    as (S1 & C1 & B1 & K1 & F1); try (unfold OFREQ_CHANNEL, fits; lia); [done|done|reflexivity|].
  fold s1 in S1, C1, B1, K1, F1.
  destruct (multisynth_clk FREQ_CHANNEL (fdiv * 128) 0 ds SI5351_CLK_PLL_SELECT_B s1)
    as (S2 & C2 & B2 & K2 & F2); try (unfold FREQ_CHANNEL, fits; lia); [done|done|reflexivity|].
  fold s2 in S2, C2, B2, K2, F2.
  split; [by etransitivity|]. split; [done|]. split.
  - intros ch Hch. assert (ch = 0 \/ ch = 1) as [->| ->] by lia.
    + apply (block_is_frame _ _ _ _ _ _ _ F2) in B1; [|regs_lia].
      apply (clk_is_frame _ _ _ _ _ _ F2) in K1; [|regs_lia]. destruct K1. auto.
    + destruct K2. auto.
  - intros x Hx. rewrite F2, F1 by (unfold OFREQ_CHANNEL, FREQ_CHANNEL; tauto). done.
Qed.

Lemma set_fixed_mult_spec band freq rdiv ds ods s :
  let b := band_at band s in
  let off := IF_OFFSET s in
  cache_ok s -> drive_ok ds -> drive_ok ods ->
  bs_mode b = SI5351_FIXED_MULT -> in_range b (s_xtal_freq s) off rdiv freq ->
  alias_free s band -> dividers_ok s ->
  let s' := set_fixed_mult band freq (freq + off) rdiv ds ods s in
  same_cfg s s' /\ cache_ok s' /\ mult_dividers (regs s') (bs_div b) /\
  output_near (s_xtal_freq s) (regs s') OFREQ_CHANNEL (bs_omul b) (freq + off) /\
  output_near (s_xtal_freq s) (regs s') FREQ_CHANNEL (bs_mul b) freq.
Proof.
  intros b off Hc Hds Hods Hm HR Hal Hdiv. unfold set_fixed_mult. cbn zeta. fold b.
  destruct HR as (Hof & Hr & HR). rewrite Hm in HR.
  destruct HR as (-> & RO & RF & Hmul & Hlo & Hhi). set (xt := s_xtal_freq s) in *.
  set (s1 := si5351_setupPLL_freq SI5351_REG_PLL_A _ _ s).
  destruct (mult_pll SI5351_REG_PLL_A (bs_div b) (bs_omul b) (freq + off) s)
    as (S1 & C1 & N1 & F1); [regs_lia|done..|]. fold s1 in S1, C1, N1, F1.
  set (s2 := si5351_setupPLL_freq SI5351_REG_PLL_B _ _ s1).
  destruct (mult_pll SI5351_REG_PLL_B (bs_div b) (bs_mul b) freq s1)
    as (S2 & C2 & N2 & F2); [regs_lia|by rewrite (cfg_xtal _ _ S1)|done|].
  fold s2 in S2, C2, N2, F2. rewrite (cfg_xtal _ _ S1) in N2. fold xt in N1, N2.
  assert (S12 : same_cfg s s2) by (by etransitivity).
  apply (block_near_frame _ _ _ _ _ _ F2) in N1; [|regs_lia].
  set (s3 := if negb (bs_div (band_at (current_band s2) s2) =? bs_div b) then _ else _).
  assert (same_cfg s2 s3 /\ cache_ok s3 /\ mult_dividers (regs s3) (bs_div b) /\
          frame_but (fun x => ms_regs 0 x \/ ms_regs 1 x) (regs s2) (regs s3)) as (S3 & C3 & D3 & F3).
  { subst s3. destruct (Z.eqb_spec (bs_div (band_at (current_band s2) s2)) (bs_div b)) as [E|E]; cbn [negb].
    - split; [done|]. split; [done|]. split; [|by intros x _].
      eapply mult_dividers_frame; [exact F2|regs_lia|].
      eapply mult_dividers_frame; [exact F1|regs_lia|].
      rewrite (cfg_band_at _ _ _ S12) in E. destruct S12 as [Eb _]. rewrite Eb in E.
      unfold dividers_ok in Hdiv. rewrite (Hal Hm E) in Hdiv. rewrite <- E. exact Hdiv.
    - apply mult_set_dividers; [unfold range_mult in RF; lia|done..]. }
  clearbody s3.
  apply (block_near_frame _ _ _ _ _ _ F3) in N1; [|regs_lia].
  apply (block_near_frame _ _ _ _ _ _ F3) in N2; [|regs_lia].
  set (s4 := si5351_set_frequency_fixedpll _ _ _ _ _ _).
  assert (EU : u64 (freq * bs_div b) = freq * bs_div b).
  { apply u64_small. unfold range_mult in RF. assert (0 <= freq * bs_div b) by (apply Z.mul_nonneg_nonneg; lia). lia. }
  assert (EC : u32 (CLK2_FREQUENCY * bs_mul b) = CLK2_FREQUENCY * bs_mul b)
    by (apply u32_small; unfold CLK2_FREQUENCY, AUDIO_CLOCK_REF; lia).
  destruct (fixedpll_clk AUDIO_CODEC_CHANNEL (u64 (freq * bs_div b)) (u32 (CLK2_FREQUENCY * bs_mul b))
              0 SI5351_CLK_DRIVE_STRENGTH_2MA SI5351_CLK_PLL_SELECT_B s3) as (S4 & C4 & _ & _ & F4);
    rewrite ?EU, ?EC; change (2 ^ (7 - 0)) with 128;
    try (unfold AUDIO_CODEC_CHANNEL, drive_ok, SI5351_CLK_DRIVE_STRENGTH_2MA, range_mult,
           CLK2_FREQUENCY, AUDIO_CLOCK_REF in *; lia); [done|reflexivity|].
  fold s4 in S4, C4, F4.
  apply (mult_dividers_frame _ _ _ _ F4) in D3; [|regs_lia].
  apply (block_near_frame _ _ _ _ _ _ F4) in N1; [|regs_lia].
  apply (block_near_frame _ _ _ _ _ _ F4) in N2; [|regs_lia].
  split; [by etransitivity; [|etransitivity]|]. split; [done|]. split; [done|].
  split.
  - destruct (D3 0 ltac:(lia)) as (B & R & K & E).
    eapply (output_near_mult _ _ _ (bs_div b)); try eassumption;
      try (unfold range_mult in RO; rewrite ?max_denominator_eq; lia).
    unfold pll_of, OFREQ_CHANNEL, FREQ_CHANNEL. by rewrite E.
  - destruct (D3 1 ltac:(lia)) as (B & R & K & E).
    eapply (output_near_mult _ _ _ (bs_div b)); try eassumption;
      try (unfold range_mult in RF; rewrite ?max_denominator_eq; lia).
    unfold pll_of, OFREQ_CHANNEL, FREQ_CHANNEL. by rewrite E.
Qed.

(** ** A frequency change *)

Lemma regs_band_end m us s :
  regs (si5351_reset_pll m (emit [SleepUs us] s)) =
  reg_write [SI5351_REG_177_PLL_RESET; Z.lor m 0x0C] (regs s).
Proof. unfold si5351_reset_pll, si5351_write. by rewrite regs_bulk_write, regs_emit_sleep. Qed.

Lemma frame_band_end m us s :
  frame_but (fun x => x = 177) (regs s) (regs (si5351_reset_pll m (emit [SleepUs us] s))).
Proof.
  intros x Hx. rewrite regs_band_end. cbn. unfold SI5351_REG_177_PLL_RESET.
  by destruct (Z.eqb_spec x 177).
Qed.

Lemma output_near_frame (P : Z -> Prop) xtal r r' ch mul f :
  frame_but P r r' -> 0 <= ch < 3 -> (forall x, P x -> ~ (16 <= x < 19) /\ ~ (26 <= x < 66)) ->
  output_near xtal r ch mul f -> output_near xtal r' ch mul f.
Proof.
  intros F Hch HP. unfold output_near, clk_hz, pll_of, word_num, rd_P1, rd_P2, rd_P3, rd_rdiv.
  assert (E : forall x, 16 <= x < 19 \/ 26 <= x < 66 -> r' x = r x).
  { intros x Hx. apply F. intros Hp. apply HP in Hp. lia. }
  rewrite (E (16 + ch)) by lia.
  destruct (Z.testbit (r (16 + ch)) 5); rewrite !E by regs_lia; done.
Qed.

Lemma after_power_inv d s : bs_mode (band_at 0 s) = MODE_NONE -> synth_inv s -> synth_inv (after_power d s).
Proof.
  intros H0 (C & D & O). unfold after_power. destruct (negb _); [|done].
  split; [done|]. split; [|done]. unfold dividers_ok.
  change (band_at (current_band (put_power d (si5351_reset_cache s))) _) with (band_at 0 s).
  by rewrite H0.
Qed.

(** [s'] keeps the table and the configuration of [s]. *)
Definition same_tables (s s' : synth) : Prop :=
  band_s s' = band_s s /\ IF_OFFSET s' = IF_OFFSET s /\ s_xtal_freq s' = s_xtal_freq s /\
  s_harmonic_freq_threshold s' = s_harmonic_freq_threshold s.

#[export] Instance same_tables_preorder : PreOrder same_tables.
Proof.
  split; [by repeat split|]. intros s1 s2 s3. unfold same_tables.
  intros (->&->&->&->) (->&->&->&->). by repeat split.
Qed.

Lemma same_cfg_tables s s' : same_cfg s s' -> same_tables s s'.
Proof. unfold same_tables. by intros (_ & _ & _ & -> & -> & -> & ->). Qed.

Lemma tables_band_at s s' i : same_tables s s' -> band_at i s' = band_at i s.
Proof. unfold band_at. by intros (-> & _). Qed.

Lemma gain_change_spec band s :
  same_cfg s (gain_change band s) /\ regs (gain_change band s) = regs s /\
  clk_cache (gain_change band s) = clk_cache s.
Proof.
  unfold gain_change. destruct (negb _); [|done]. destruct (_ || _); [|done].
  split; [by repeat split|]. split; [apply regs_emit_gain|done].
Qed.

(** What the chip holds once a request for [freq] in [band] is programmed. *)
Definition programmed (freq band : Z) (s s' : synth) : Prop :=
  let b := band_at band s in
  cache_ok s' /\
  match bs_mode b with
  | MODE_NONE => False
  | SI5351_FIXED_PLL => block_is (regs s') SI5351_REG_PLL_A (bs_div b * 128) 0 1
  | SI5351_FIXED_MULT => mult_dividers (regs s') (bs_div b)
  end /\
  output_near (s_xtal_freq s) (regs s') OFREQ_CHANNEL (bs_omul b) (freq + IF_OFFSET s) /\
  output_near (s_xtal_freq s) (regs s') FREQ_CHANNEL (bs_mul b) freq.

Lemma program_mode_spec freq band rdiv ds ods s :
  let b := band_at band s in
  let s' := fst (program_mode band freq (freq + IF_OFFSET s) rdiv ds ods s) in
  cache_ok s -> dividers_ok s -> drive_ok ds -> drive_ok ods ->
  2000000 <= s_xtal_freq s <= 100000000 ->
  in_range b (s_xtal_freq s) (IF_OFFSET s) rdiv freq -> alias_free s band ->
  same_cfg s s' /\ programmed freq band s s'.
Proof.
  intros b s' Hc Hdiv Hds Hods Hx HR Hal. subst s'. unfold program_mode, programmed. fold b.
  destruct (bs_mode b) eqn:Em; cbn [fst].
  - destruct HR as (_ & _ & HR). by rewrite Em in HR.
  - destruct (set_fixed_pll_spec band freq rdiv ds ods s) as (? & ? & ? & ? & ?); auto.
  - destruct (set_fixed_mult_spec band freq rdiv ds ods s) as (? & ? & ? & ? & ?); auto.
Qed.

Lemma band_end_spec band dl s :
  let s' := fst (band_end band dl s) in
  current_band s' = band /\ same_tables s s' /\ clk_cache s' = clk_cache s /\
  current_power s' = current_power s /\ frame_but (fun x => x = 177) (regs s) (regs s').
Proof.
  intros s'. subst s'. unfold band_end.
  destruct (Z.eqb_spec (current_band s) band) as [E|E]; cbn [negb fst]; [done|].
  split; [done|]. split; [by repeat split|]. split; [done|]. split; [done|]. apply frame_band_end.
Qed.

(** Bookkeeping after the registers are programmed. *)
Lemma programmed_done freq band s s1 s2 :
  programmed freq band s s1 -> same_tables s s2 -> current_band s2 = band ->
  clk_cache s2 = clk_cache s1 -> frame_but (fun x => x = 177) (regs s1) (regs s2) ->
  synth_inv (put_freq freq s2) /\ outputs_ok (put_freq freq s2) freq.
Proof.
  intros (C & M & HO & HF) T Eb Ec F.
  assert (Et : band_at band s2 = band_at band s) by (by apply tables_band_at).
  destruct T as (_ & Eo & Ex & _).
  assert (Hout : outputs_ok (put_freq freq s2) freq).
  { unfold outputs_ok. cbn [current_band IF_OFFSET s_xtal_freq put_freq].
    change (band_at (current_band s2) _) with (band_at (current_band s2) s2).
    rewrite Eb, Et, Eo, Ex. change (regs (put_freq freq s2)) with (regs s2).
    split; (eapply output_near_frame; [exact F|unfold OFREQ_CHANNEL, FREQ_CHANNEL; lia|regs_lia|done]). }
  split; [|exact Hout]. split; [|split; [|by intros _]].
  - apply (cache_ok_frame s1); [done| |done]. intros x Hx. apply F. lia.
  - unfold dividers_ok. change (band_at _ _) with (band_at (current_band s2) s2). rewrite Eb, Et.
    change (regs (put_freq freq s2)) with (regs s2). destruct (bs_mode _); [done| |].
    + eapply block_is_frame; [exact F|regs_lia|done].
    + eapply mult_dividers_frame; [exact F|regs_lia|done].
Qed.

Lemma set_frequency_in_band_spec freq band rdiv d s :
  let b := band_at band s in
  let r := set_frequency_in_band freq band rdiv d s in
  0 < freq -> 0 <= d < 256 -> 0 <= freq + IF_OFFSET s ->
  2000000 <= s_xtal_freq s <= 100000000 ->
  bs_mode (band_at 0 s) = MODE_NONE -> drive_ok (bs_pow b) -> drive_ok (bs_opow b) ->
  synth_inv s -> in_range b (s_xtal_freq s) (IF_OFFSET s) rdiv freq ->
  alias_free (after_power d s) band ->
  synth_inv (fst r) /\ same_tables s (fst r) /\ current_freq (fst r) = freq /\
  outputs_ok (fst r) freq /\
  current_power (fst r) = d /\ (current_band (fst r) = band \/ fst r = after_power d s).
Proof.
  intros b r Hf Hd Hoff Hx H0 Hp Hop Inv HR Hal.
  pose proof (after_power_inv d s H0 Inv) as (C0 & D0 & O0).
  subst r. unfold set_frequency_in_band. cbn zeta.
  assert (T0 : same_tables s (after_power d s)) by (unfold after_power; by destruct (negb _)).
  assert (W0 : current_power (after_power d s) = d)
    by (unfold after_power; destruct (Z.eqb_spec (current_power s) d); done).
  set (s0 := after_power d s) in *. clearbody s0.
  destruct (Z.eqb_spec freq (current_freq s0)) as [Eq|Hne].
  { cbn [fst]. repeat (split; [done|]). split; [rewrite Eq; apply O0; lia|]. split; [done|by right]. }
  destruct (gain_change_spec band s0) as (S1 & R1 & K1). set (s1 := gain_change band s0) in *. clearbody s1.
  assert (T1 : same_tables s s1).
  { etransitivity; [exact T0|by apply same_cfg_tables]. }
  assert (Eb : forall i, band_at i s1 = band_at i s) by (intros; by apply tables_band_at).
  assert (Eb0 : forall i, band_at i s0 = band_at i s) by (intros; by apply tables_band_at).
  rewrite Eb. fold b. pose proof T1 as (Et & Eo & Ex & _).
  rewrite u32_small by (destruct HR; lia).
  set (ds := if SI5351_CLK_DRIVE_STRENGTH_8MA <? d then bs_pow b else d).
  set (ods := if SI5351_CLK_DRIVE_STRENGTH_8MA <? d then bs_opow b else d).
  assert (Hdr : drive_ok ds /\ drive_ok ods)
    by (subst ds ods; unfold SI5351_CLK_DRIVE_STRENGTH_8MA, drive_ok in *; zcase; lia).
  destruct Hdr as [Hds Hods]. clearbody ds ods. rewrite <- Eo.
  destruct (program_mode_spec freq band rdiv ds ods s1) as [S2 P2]; rewrite ?Eb, ?Eo, ?Ex; auto.
  - by apply (cache_ok_frame s0); [|intros; rewrite R1|].
  - unfold dividers_ok in *. destruct S1 as (-> & _). by rewrite Eb, R1, <- Eb0.
  - unfold alias_free in *. destruct S1 as (-> & _). rewrite !Eb. by rewrite !Eb0 in Hal.
  - rewrite <- Eo. destruct (program_mode _ _ _ _ _ _ _) as [s2 dl]. cbn [fst] in S2, P2.
    destruct (band_end_spec band dl s2) as (B3 & T3 & K3 & W3 & F3).
    destruct (band_end band dl s2) as [s3 dl3]. cbn [fst] in *.
    assert (T13 : same_tables s1 s3).
    { etransitivity; [by apply same_cfg_tables|exact T3]. }
    destruct (programmed_done freq band s1 s2 s3) as [I O]; auto.
    assert (current_power (put_freq freq s3) = d).
    { cbn [current_power put_freq]. rewrite W3, <- W0. destruct S1 as (_ & <- & _). apply S2. }
    split; [done|]. split; [|auto 6].
    etransitivity; [exact T1|exact T13].
Qed.

(** ** The product's ranges

    For the three tables of [si5351_set_band_mode]: the lowest frequency whose
    divider fits the registers. *)
Definition lowest_freq (band_mode : Z) : Z :=
  if band_mode =? 0 then 800 else if band_mode =? 1 then 1600 else 600.

Definition FREQUENCY_MAX : Z := 2700000000.

(** A reference oscillator within 0.4 % and a threshold within 3 % of
    their defaults, any IF offset up to 100 kHz. *)
Record tuned (band_mode : Z) (s : synth) : Prop := {
  tn_table : band_tables !! Z.to_nat band_mode = Some (band_s s);
  tn_mode : 0 <= band_mode < 3;
  tn_xtal : 25900000 <= s_xtal_freq s <= 26100000;
  tn_thr : 290000000 <= s_harmonic_freq_threshold s <= 310000000;
  tn_off : 0 <= IF_OFFSET s <= 100000 }.

Lemma tuned_table m s : tuned m s ->
  (m = 0 /\ band_s s = band_strategy_H4_SI5351) \/
  (m = 1 /\ band_s s = band_strategy_36H_MS5351) \/
  (m = 2 /\ band_s s = band_strategy_SWC5351).
Proof.
  intros [Ht Hm _ _ _]. assert (m = 0 \/ m = 1 \/ m = 2) as [->|[->| ->]] by lia;
    injection Ht as <-; auto.
Qed.

(** Closes the case of one band: the linear bounds of its dividers. *)
Ltac in_band :=
  eexists _, _, _; split; [reflexivity|]; rewrite ?u8_small by lia;
  repeat match goal with |- context [nth (Z.to_nat ?b) ?l ?d] =>
    let e := eval vm_compute in (nth (Z.to_nat b) l d) in
    change (nth (Z.to_nat b) l d) with e end;
  repeat match goal with |- context [length ?l] =>
    let e := eval vm_compute in (length l) in change (length l) with e end;
  unfold in_range, range_pll, range_mult, drive_ok, CLK2_FREQUENCY, AUDIO_CLOCK_REF,
    SI5351_CLK_DRIVE_STRENGTH_2MA;
  cbn [bs_mode bs_div bs_mul bs_omul bs_pow bs_opow];
  split; [intros; first [reflexivity | exfalso; lia]|];
  change (2 ^ (7 - 7)) with 1; change (2 ^ (7 - 4)) with 8; change (2 ^ (7 - 0)) with 128;
  lia.

Ltac band_cases :=
  repeat match goal with
    | |- context [?f <? ?c] => destruct (Z.ltb_spec f c); [in_band|]
    | |- context [?f <=? ?c] => destruct (Z.leb_spec f c); [exfalso; lia|]
    | |- context [?f <=? ?c] => destruct (Z.leb_spec f c); [in_band|]
    end; exfalso; lia.

Lemma select_band_in_range m freq d s :
  tuned m s -> lowest_freq m <= freq <= FREQUENCY_MAX -> 0 <= d < 256 ->
  exists b rdiv d', select_band freq d s = Some (b, rdiv, d') /\
    (freq <= 100000000 -> bs_mode (band_at b s) = SI5351_FIXED_PLL) /\
    (0 < b < Z.of_nat (length (band_s s)) /\ 0 <= d' < 256 /\
     (b = 1 -> d' = 0) /\ (b <> 1 -> d' = d)) /\
    drive_ok (bs_pow (band_at b s)) /\ drive_ok (bs_opow (band_at b s)) /\
    in_range (band_at b s) (s_xtal_freq s) (IF_OFFSET s) rdiv freq.
Proof.
  intros T Hf Hd. pose proof (tuned_table m s T) as Ht. destruct T as [_ _ Hx Hthr Ho].
  unfold select_band, si5351_get_harmonic_lvl, band_at, FREQUENCY_MAX in *.
  set (thr := s_harmonic_freq_threshold s) in *; set (xt := s_xtal_freq s) in *;
  set (off := IF_OFFSET s) in *. clearbody thr xt off.
  destruct Ht as [[-> ->]|[[-> ->]|[-> ->]]]; cbn in Hf;
    match goal with |- context [bs_freq (nth (Z.to_nat 1) ?l ?d)] =>
      let e := eval vm_compute in (bs_freq (nth (Z.to_nat 1) l d)) in
      change (bs_freq (nth (Z.to_nat 1) l d)) with e;
      let t := eval cbn -[u8 u32 Z.mul] in (harmonic_lvl_loop l thr freq 0) in
      change (harmonic_lvl_loop l thr freq 0) with t
    end; rewrite ?u32_small by lia; band_cases.
Qed.

(** ** Sequences of requests *)

(** Band 1 is only ever entered with the 2 mA drive. *)
Definition good (m : Z) (s : synth) : Prop :=
  tuned m s /\ synth_inv s /\ 0 <= current_band s < Z.of_nat (length (band_s s)) /\
  (current_band s = 1 -> current_power s = 0).

Lemma tuned_tables m s s' : same_tables s s' -> tuned m s -> tuned m s'.
Proof. intros (E1 & E2 & E3 & E4) []. by constructor; rewrite ?E1, ?E2, ?E3, ?E4. Qed.

(** The only pair of bands whose union fields collide across modes starts
    from band 1. *)
Definition collides (bs : list band_strategy_t) (c b : nat) : bool :=
  let tc := nth c bs band_none in let tb := nth b bs band_none in
  bool_decide (bs_mode tb = SI5351_FIXED_MULT) && (bs_div tc =? bs_div tb) &&
  negb (bool_decide (bs_mode tc = SI5351_FIXED_MULT)).

Lemma table_collisions bs :
  In bs band_tables ->
  forall c b, (c < length bs)%nat -> (b < length bs)%nat -> c <> 1%nat -> collides bs c b = false.
Proof.
  intros Hin c b Hc Hb H1.
  assert (C : forallb (fun c => forallb (fun b => (c =? 1)%nat || negb (collides bs c b))
                                        (seq 0 (length bs))) (seq 0 (length bs)) = true).
  { repeat (destruct Hin as [<-|Hin]; [vm_compute; reflexivity|]). destruct Hin. }
  rewrite forallb_forall in C. specialize (C c). rewrite in_seq in C. specialize (C ltac:(lia)).
  rewrite forallb_forall in C. specialize (C b). rewrite in_seq in C. specialize (C ltac:(lia)).
  apply orb_prop in C as [C|C]; [apply Nat.eqb_eq in C; lia|by apply negb_true_iff in C].
Qed.

Lemma tuned_in m s : tuned m s -> In (band_s s) band_tables.
Proof. intros T. destruct (tuned_table m s T) as [[_ ->]|[[_ ->]|[_ ->]]]; cbn; auto. Qed.

(** A drive other than 2 mA never meets the collision. *)
Lemma alias_free_drive m s b d :
  good m s -> 0 < b < Z.of_nat (length (band_s s)) -> (b = 1 \/ d <> 0) ->
  (b = 1 -> bs_mode (band_at b s) <> SI5351_FIXED_MULT) ->
  alias_free (after_power d s) b.
Proof.
  intros (T & _ & Hb & Hp) Hbl Hd H1 Hm He.
  destruct (decide (b = 1)) as [E|E].
  { exfalso. apply (H1 E). revert Hm. unfold after_power. by destruct (negb _). }
  destruct Hd as [|Hd]; [done|].
  assert (H : exists c, 0 <= c < Z.of_nat (length (band_s s)) /\ c <> 1 /\
                current_band (after_power d s) = c /\ band_s (after_power d s) = band_s s).
  { unfold after_power. destruct (Z.eqb_spec (current_power s) d) as [Ed|Ed]; cbn [negb].
    - exists (current_band s). split; [done|]. split; [intros Ec; specialize (Hp Ec); lia|done].
    - exists 0. split; [lia|]. by split; [lia|]. }
  destruct H as (c & Hc & Hc1 & Ec & Et). unfold band_at in *. rewrite Ec, Et in *.
  pose proof (table_collisions (band_s s) (tuned_in m s T) (Z.to_nat c) (Z.to_nat b)
                ltac:(lia) ltac:(lia) ltac:(lia)) as C.
  unfold collides in C. rewrite Hm, He, Z.eqb_refl in C. cbn in C.
  apply negb_false_iff, bool_decide_eq_true in C. exact C.
Qed.

Lemma tuned_band_modes m s : tuned m s ->
  bs_mode (band_at 0 s) = MODE_NONE /\ bs_mode (band_at 1 s) = SI5351_FIXED_PLL /\
  bs_mode (band_at 2 s) = SI5351_FIXED_PLL.
Proof.
  intros T. unfold band_at. destruct (tuned_table m s T) as [[_ ->]|[[_ ->]|[_ ->]]]; done.
Qed.

Lemma after_power_table d s : band_s (after_power d s) = band_s s.
Proof. unfold after_power. by destruct (negb _). Qed.

(** A request the band collision cannot reach: the drive is not 2 mA, or the
    frequency is low enough for a fixed PLL in every table. *)
Definition safe_request (d freq : Z) : Prop := d <> 0 \/ freq <= 100000000.

Lemma safe_alias_free m s freq b d d' :
  good m s -> safe_request d freq ->
  (freq <= 100000000 -> bs_mode (band_at b s) = SI5351_FIXED_PLL) ->
  0 < b < Z.of_nat (length (band_s s)) -> (b <> 1 -> d' = d) ->
  alias_free (after_power d' s) b.
Proof.
  intros G Hs Hpll Hbl Hdn. pose proof G as (T & _). destruct (tuned_band_modes m s T) as (_ & M1 & _).
  destruct Hs as [Hd|Hf].
  - apply (alias_free_drive m); [done|done| |by intros ->; rewrite M1].
    destruct (decide (b = 1)); [by left|right]. by rewrite Hdn.
  - intros Hm. exfalso. unfold band_at in *. rewrite after_power_table in Hm.
    rewrite Hpll in Hm by done. discriminate.
Qed.

Lemma set_frequency_good m s freq d :
  good m s -> lowest_freq m <= freq <= FREQUENCY_MAX -> 0 <= d < 256 -> safe_request d freq ->
  exists s' delay, si5351_set_frequency freq d s = Some (s', delay) /\
    good m s' /\ same_tables s s' /\ current_freq s' = freq /\ outputs_ok s' freq.
Proof.
  intros G Hf Hd Hs. pose proof G as (T & I & Hb & Hp).
  assert (Hlow : 600 <= lowest_freq m) by (unfold lowest_freq; repeat zcase; lia).
  destruct (select_band_in_range m freq d s T Hf Hd)
    as (b & rdiv & d' & E & Hpll & (Hbl & Hd' & Hd1 & Hdn) & Hpw & Hopw & HR).
  destruct (tuned_band_modes m s T) as (M0 & _ & _).
  pose proof (safe_alias_free m s freq b d d' G Hs Hpll Hbl Hdn) as Hal.
  unfold si5351_set_frequency. destruct (Z.eqb_spec freq 0); [lia|]. rewrite E.
  pose proof (set_frequency_in_band_spec freq b rdiv d' s) as S. cbn zeta in S.
  destruct T as [Tt Tm Tx Tthr To].
  destruct S as (I' & T' & F' & O' & W' & B'); try lia; try done.
  destruct (set_frequency_in_band freq b rdiv d' s) as [s' dl]. cbn [fst] in *.
  exists s', dl. split; [done|]. split; [|done].
  split; [by apply (tuned_tables m s)|]. split; [done|].
  pose proof T' as (Et & _). rewrite Et.
  destruct B' as [-> | ->]; [split; [lia|]; intros; rewrite W'; auto|].
  revert W'. unfold after_power. destruct (Z.eqb_spec (current_power s) d'); cbn [negb]; [auto|].
  intros _. cbn. lia.
Qed.

(** [fs], one request after the other. *)
Fixpoint requests (fs : list Z) (d : Z) (s : synth) : option synth :=
  match fs with
  | [] => Some s
  | f :: fs' => match si5351_set_frequency f d s with
                | Some (s', _) => requests fs' d s'
                | None => None
                end
  end.

Lemma requests_good m d fs : forall s,
  good m s -> 0 <= d < 256 ->
  Forall (fun f => lowest_freq m <= f <= FREQUENCY_MAX /\ safe_request d f) fs ->
  exists s', requests fs d s = Some s' /\ good m s' /\ same_tables s s' /\
    (forall f, last fs = Some f -> current_freq s' = f /\ outputs_ok s' f).
Proof.
  induction fs as [|f fs IH]; intros s G Hd HF.
  - exists s. done.
  - apply Forall_cons in HF as [[Hf Hs] HF].
    destruct (set_frequency_good m s f d G Hf Hd Hs) as (s1 & dl & E & G1 & T1 & F1 & O1).
    cbn [requests]. rewrite E. destruct (IH s1 G1 Hd HF) as (s' & E' & G' & T' & L').
    exists s'. split; [done|]. split; [done|]. split; [by etransitivity|]. intros f'.
    destruct fs as [|g fs]; [|exact (L' f')]. cbn in E'. injection E' as <-.
    intros [= <-]. done.
Qed.

(** ** Start-up establishes the invariant *)

Lemma init_writes_state fuel : forall p s,
  let s' := init_writes fuel p s in
  same_cfg s s' /\ clk_cache s' = clk_cache s.
Proof.
  induction fuel as [|fuel IH]; intros p s; cbn [init_writes]; [done|].
  destruct p as [|len p]; [done|]. destruct (len =? 0); [done|].
  destruct (IH (drop (Z.to_nat len) p) (si5351_bulk_write (take (Z.to_nat len) p) s)) as [S C].
  split; [etransitivity; [|exact S]; by repeat split|by rewrite C].
Qed.

Lemma si5351_init_good m xtal thr off :
  0 <= m < 3 -> 25900000 <= xtal <= 26100000 -> 290000000 <= thr <= 310000000 ->
  0 <= off <= 100000 ->
  exists s, si5351_init m (synth_reset xtal thr off) = Some s /\ good m s /\
    s_xtal_freq s = xtal /\ IF_OFFSET s = off.
Proof.
  intros Hm Hx Ht Ho. unfold si5351_init.
  destruct (init_writes_state (length si5351_configs) si5351_configs (synth_reset xtal thr off)) as [S C].
  set (s0 := init_writes _ _ _) in *. clearbody s0.
  assert (exists bs, band_tables !! Z.to_nat m = Some bs /\ (0 < length bs)%nat /\
                     bs_mode (nth 0 bs band_none) = MODE_NONE) as (bs & Eb & Hl & H0).
  { assert (m = 0 \/ m = 1 \/ m = 2) as [->|[->| ->]] by lia; eexists; split;
      [reflexivity|cbn; split; [lia|done]|reflexivity|cbn; split; [lia|done]|reflexivity|cbn; split; [lia|done]]. }
  unfold si5351_set_band_mode. rewrite Eb.
  destruct S as (S1 & S2 & S3 & _ & S5 & S6 & S7).
  cbn in S1, S2, S3, S5, S6, S7, C.
  assert (G : good m (put_table bs s0)).
  { split; [by constructor; cbn; rewrite ?S5, ?S6, ?S7|].
    split; [|cbn; rewrite S1; lia]. split; [|split].
    - split; [cbn; by rewrite C|]. intros ch Hch. left. cbn [clk_cache put_table]. rewrite C.
      assert (ch = 0 \/ ch = 1 \/ ch = 2) as [->|[->| ->]] by lia; reflexivity.
    - unfold dividers_ok, band_at. cbn [current_band band_s put_table]. rewrite S1.
      change (Z.to_nat 0) with 0%nat. by rewrite H0.
    - cbn [current_freq put_table]. by rewrite S3. }
  destruct (set_frequency_good m _ XTALFREQ 0 G) as (s' & dl & -> & G' & (_ & E6 & E5 & _) & _);
    [unfold lowest_freq, XTALFREQ, FREQUENCY_MAX; repeat zcase; lia|lia|right; unfold XTALFREQ; lia|].
  exists s'. split; [done|]. split; [done|]. rewrite E5, E6. split; [exact S6|exact S5].
Qed.

(** ** Properties *)

(** [approximate_fraction] terminates within its 33 turns, never wraps a
    32-bit word, and returns a fraction [p/q] not above one with [q <= max]
    whose distance from [n/d] is below [1/(q*max)]; the fraction is exact
    when [d] already fits. *)
Theorem approximate_fraction_correct (n d max : Z) :
  0 <= n < d -> d < 2 ^ 32 -> 1 <= max ->
  exists p q, approximate_fraction_loop 33 max d n 0 1 1 0 = Some (p, q) /\
    approximate_fraction n d max = (p, q) /\
    1 <= q <= max /\ 0 <= p <= q /\
    Z.abs (n * q - d * p) * max < d /\ (d <= max -> n * q = d * p).
Proof.
  intros Hn Hd Hm.
  destruct (approximate_fraction_loop_spec 33 n d max d n 0 1 1 0) as ([p q] & E & A);
    try lia; [by constructor; lia|].
  pose proof (approx_ok_le _ _ _ _ _ Hn Hm A). destruct A as (A1 & A2 & A3).
  exists p, q. unfold approximate_fraction. rewrite E. repeat (split; [done || lia|]). nia.
Qed.

Lemma approximate_fraction_correct_witness :
  exists p q, approximate_fraction 355113 1130000 1000 = (p, q) /\
    Z.abs (355113 * q - 1130000 * p) * 1000 < 1130000.
Proof.
  destruct (approximate_fraction_correct 355113 1130000 1000) as (p & q & _ & E & _ & _ & H & _);
    [lia|lia|lia|].
  exists p, q. split; assumption.
Defined.

(** C4: from reset, for each of the three clock generators, [si5351_init]
    succeeds, and after any sequence of in-range frequency requests at a drive
    the band collision cannot reach, CLK1 gives the last requested frequency
    and CLK0 the requested frequency plus the IF offset, each on its band's
    harmonic, within 1 Hz and switched on, read back from the chip's registers. *)
Theorem synth_sweep_accurate (m xtal thr off d : Z) (fs : list Z) (f : Z) :
  0 <= m < 3 -> 25900000 <= xtal <= 26100000 -> 290000000 <= thr <= 310000000 ->
  0 <= off <= 100000 -> 0 <= d < 256 ->
  Forall (fun f => lowest_freq m <= f <= FREQUENCY_MAX /\ safe_request d f) (fs ++ [f]) ->
  exists s0 s, si5351_init m (synth_reset xtal thr off) = Some s0 /\
    requests (fs ++ [f]) d s0 = Some s /\ si5351_get_frequency s = f /\
    s_xtal_freq s = xtal /\ IF_OFFSET s = off /\
    let b := band_at (current_band s) s in
    output_near xtal (regs s) FREQ_CHANNEL (bs_mul b) f /\
    output_near xtal (regs s) OFREQ_CHANNEL (bs_omul b) (f + off).
Proof.
  intros Hm Hx Ht Ho Hd HF.
  destruct (si5351_init_good m xtal thr off Hm Hx Ht Ho) as (s0 & E & G & <- & <-).
  destruct (requests_good m d (fs ++ [f]) s0 G Hd HF) as (s & E' & G' & (_ & E2 & E3 & _) & L).
  exists s0, s. destruct (L f) as (F & HO & H1); [apply last_snoc|].
  rewrite E2, E3 in HO. rewrite E3 in H1. auto 8.
Qed.

Lemma synth_sweep_accurate_witness :
  exists s0 s, si5351_init 0 (synth_reset XTALFREQ 300000100 12000) = Some s0 /\
    requests ([1000; 26000; 145000000; 2400000000; 1000000] ++ [433000000]) 255 s0 = Some s /\
    si5351_get_frequency s = 433000000.
Proof.
  destruct (synth_sweep_accurate 0 XTALFREQ 300000100 12000 255
              [1000; 26000; 145000000; 2400000000; 1000000] 433000000)
    as (s0 & s & H1 & H2 & H3 & _);
    [lia|unfold XTALFREQ; lia|lia|lia|lia| |].
  - cbn [app]. unfold safe_request, FREQUENCY_MAX. change (lowest_freq 0) with 800.
    repeat (apply Forall_cons; split; [lia|]). apply Forall_nil. exact I.
  - exists s0, s. split; [exact H1|]. split; [exact H2|exact H3].
Defined.

(** The register encoding of a Multisynth is decoded, by the chip's own
    reading of the words, to the divider that was asked for; the output
    divider and the CLK control word are those of the call, even though the
    control word is only written when the cache differs; nothing else on the
    chip changes. *)
Theorem setupMultisynth_roundtrip (ch div num den rdiv chctrl : Z) (s : synth) :
  0 <= ch < 3 -> fits div num den -> 0 <= rdiv < 8 -> cache_ok s ->
  let s' := si5351_setupMultisynth ch div num den rdiv chctrl s in
  cache_ok s' /\
  512 + rd_P1 (regs s') (ms_base ch) = div /\ rd_P2 (regs s') (ms_base ch) = num /\
  rd_P3 (regs s') (ms_base ch) = den /\ rd_rdiv (regs s') (ms_base ch) = rdiv /\
  regs s' (16 + ch) = clk_ctl chctrl num /\
  (forall x, ~ ms_regs ch x -> regs s' x = regs s x).
Proof.
  intros Hch F Hr Hc s'.
  destruct (setupMultisynth_spec ch div num den rdiv chctrl s Hch F Hr Hc) as (_ & C & B & R & K & E).
  destruct B as (B1 & B2 & B3). repeat (split; [assumption|]).
  intros x Hx. apply E; unfold ms_regs in Hx; lia.
Qed.

Lemma setupMultisynth_roundtrip_witness :
  let s := synth_reset XTALFREQ 300000100 12000 in
  rd_P2 (regs (si5351_setupMultisynth 1 1000 77 1000 4 3 s)) (ms_base 1) = 77.
Proof.
  refine (proj1 (proj2 (proj2 (setupMultisynth_roundtrip 1 1000 77 1000 4 3 _ _ _ _ _)))).
  - lia.
  - unfold fits. lia.
  - lia.
  - split; [reflexivity|]. intros ch Hch. left.
    assert (ch = 0 \/ ch = 1 \/ ch = 2) as [->|[->| ->]] by lia; reflexivity.
Defined.

(** The default build after [si5351_init], then the given requests. *)
Definition default_run (d : Z) (fs : list Z) : option synth :=
  match si5351_init 0 (synth_reset XTALFREQ 300000100 12000) with
  | Some s => requests fs d s
  | None => None
  end.

(** The comparison of [div] with the previous band's [div] is fooled by
    the union with [pll_n]: at the 2 mA drive, going from 20 kHz (band 1,
    pll_n = 8) straight to 120 MHz (band 3, div = 8) leaves the old dividers,
    and CLK1 is wrong, while the same request by way of 50 MHz is right. *)
Theorem band_alias_stale :
  (exists s, default_run 0 [20000; 120000000] = Some s /\ si5351_get_frequency s = 120000000 /\
     ~ output_near XTALFREQ (regs s) FREQ_CHANNEL 1 120000000) /\
  (exists s, default_run 0 [20000; 50000000; 120000000] = Some s /\
     output_near XTALFREQ (regs s) FREQ_CHANNEL 1 120000000).
Proof.
  split.
  - eexists. split; [vm_compute; reflexivity|]. split; [reflexivity|].
    intros (_ & H & _). vm_compute in H. discriminate.
  - eexists. split; [vm_compute; reflexivity|]. vm_compute. repeat split; discriminate.
Qed.

(** The drive strength of a band is only written with its dividers, so it
    depends on the path: at the automatic drive, 700 MHz (band 8, 8 mA) reached from
    590 MHz (band 7, 4 mA, same divider) keeps 4 mA, and reached directly has
    8 mA. *)
Theorem drive_strength_path_dependent :
  exists s1 s2,
    default_run SI5351_CLK_DRIVE_STRENGTH_AUTO [590000000; 700000000] = Some s1 /\
    default_run SI5351_CLK_DRIVE_STRENGTH_AUTO [700000000] = Some s2 /\
    current_band s1 = 8 /\ current_band s2 = 8 /\
    Z.land (regs s1 (16 + FREQ_CHANNEL)) 3 = SI5351_CLK_DRIVE_STRENGTH_4MA /\
    Z.land (regs s2 (16 + FREQ_CHANNEL)) 3 = SI5351_CLK_DRIVE_STRENGTH_8MA.
Proof.
  eexists _, _. split; [vm_compute; reflexivity|]. split; [vm_compute; reflexivity|].
  repeat split; vm_compute; reflexivity.
Qed.

(** The 600 Hz lower limit of the firmware is below what the 18-bit P1
    field of the default table can divide to: a request for 600 Hz succeeds
    and CLK1 is off by more than a kilohertz. *)
Theorem low_frequency_wraps :
  exists s, default_run SI5351_CLK_DRIVE_STRENGTH_AUTO [600] = Some s /\
    si5351_get_frequency s = 600 /\
    let '(n, d) := clk_hz XTALFREQ (regs s) FREQ_CHANNEL in 0 < d /\ 1600 * d < n.
Proof.
  eexists. split; [vm_compute; reflexivity|]. split; [reflexivity|].
  vm_compute. split; reflexivity.
Qed.

(** [si5351_disable_output] powers the three clocks down without telling the
    control cache, so after [si5351_enable_output] and a new request at the
    same drive the clocks stay powered down. *)
Theorem disable_then_enable_stays_off :
  exists s1 s2 dl, default_run 255 [50000000] = Some s1 /\
    si5351_set_frequency 50000000 255 (si5351_enable_output (si5351_disable_output s1)) = Some (s2, dl) /\
    forall ch, 0 <= ch < 3 ->
      Z.testbit (regs s1 (16 + ch)) 7 = false /\ Z.testbit (regs s2 (16 + ch)) 7 = true.
Proof.
  do 3 eexists. split; [vm_compute; reflexivity|]. split; [vm_compute; reflexivity|].
  intros ch Hch. assert (ch = 0 \/ ch = 1 \/ ch = 2) as [->|[->| ->]] by lia;
    split; vm_compute; reflexivity.
Qed.
