(* ===== verification/Cplx.v ===== *)
(** * Complex numbers over the arithmetic interface

    The sources keep complex values as two floats and write their products and
    quotients out.  Here are the operations on pairs; in exact arithmetic they
    form a field, which is what the proofs about error terms compute in. *)

From S2P Require Import Prelude Num.
From Stdlib Require Import Field.

Section Cplx.
Context {F : Type} `{FloatOps F}.
Local Open Scope float_scope.

Definition cadd (x y : F * F) : F * F := (fst x + fst y, snd x + snd y).
Definition csub (x y : F * F) : F * F := (fst x - fst y, snd x - snd y).
Definition cneg (x : F * F) : F * F := (- fst x, - snd x).
Definition cmul (x y : F * F) : F * F :=
  (fst x * fst y - snd x * snd y, snd x * fst y + fst x * snd y).
Definition cnorm (x : F * F) : F := fst x * fst x + snd x * snd x.
(** [x * conj y / |y|^2] *)
Definition cdiv (x y : F * F) : F * F :=
  ((fst x * fst y + snd x * snd y) / cnorm y, (snd x * fst y - fst x * snd y) / cnorm y).
Definition c0 : F * F := (f0, f0).
Definition c1 : F * F := (f1, f0).
Definition cinv (y : F * F) : F * F := cdiv c1 y.
End Cplx.

Section CplxField.
Context {F : Type} `{EA : ExactArith F}.
Add Field cplx_base_field : (ea_field (F := F)).

Lemma ea_f0_f1 : (f0 : F) <> f1.
Proof. intros E. apply (ea_of_Z_inj (F := F)) in E. discriminate. Qed.

Lemma cnorm_zero (y : F * F) : cnorm y = f0 -> y = c0.
Proof.
  destruct y as [a b]. unfold cnorm. cbn [fst snd]. intros E. apply ea_sumsq in E as [-> ->]. reflexivity.
Qed.

Ltac cplx := intros; unfold cadd, csub, cneg, cmul, c0, c1; cbn [fst snd];
  repeat match goal with x : (F * F)%type |- _ => destruct x end; cbn [fst snd]; try (f_equal; ring).

Lemma cdiv_cinv (x y : F * F) : cdiv x y = cmul x (cinv y).
Proof.
  destruct (ea_field (F := F)) as [_ _ D _]. unfold cinv, cdiv, cmul, c1. cbn [fst snd].
  rewrite (D (fadd (fmul (fst x) _) _) (cnorm y)), (D (fsub (fmul (snd x) _) _) (cnorm y)),
    (D (fadd (fmul f1 _) _) (cnorm y)), (D (fsub (fmul f0 _) _) (cnorm y)).
  f_equal; ring.
Qed.

Lemma cplx_field : field_theory (c0 : F * F) c1 cadd cmul csub cneg cdiv cinv eq.
Proof.
  split.
  - split; cplx.
  - unfold c0, c1. intros E. injection E as E. by apply ea_f0_f1.
  - apply cdiv_cinv.
  - intros p Hp. assert (Hn : cnorm p <> f0) by (intros E; apply Hp, cnorm_zero, E).
    destruct p as [a b]. unfold cinv, cdiv, cmul, c1, cnorm in *. cbn [fst snd] in *.
    f_equal; field; exact Hn.
Qed.

Lemma ctwo_neq0 : cadd c1 c1 <> (c0 : F * F).
Proof.
  unfold cadd, c1, c0. cbn [fst snd]. intros E. injection E as E _.
  assert (E2 : f_of_Z (1 + 1) = (f_of_Z 0 : F)) by (rewrite ea_of_Z_add; exact E).
  apply ea_of_Z_inj in E2. discriminate.
Qed.
End CplxField.
