(* ===== verification/Exact.v ===== *)
(** * Exact arithmetic: constants and order

    Consequences of the field laws and of the order that the theorems about
    formulas share: the values of integer and decimal literals, and signs of
    products and quotients. *)

From S2P Require Import Prelude Num.
From Stdlib Require Import Field.
Local Open Scope Z_scope.

Section Exact.
Context {F : Type} `{EA : ExactArith F}.
Add Field exact_field : (ea_field (F := F)).
Local Open Scope float_scope.

Lemma of_Z_2 : f_of_Z 2 = (f1 + f1 : F).
Proof. exact (ea_of_Z_add 1 1). Qed.
Lemma of_Z_opp z : f_of_Z (- z) = (- f_of_Z z : F).
Proof.
  assert (E : f_of_Z (- z) + f_of_Z z = (f0 : F)).
  { rewrite <- ea_of_Z_add. replace (- z + z)%Z with 0%Z by lia. reflexivity. }
  transitivity (f_of_Z (- z) + f_of_Z z - f_of_Z z : F); [ring|]. rewrite E. ring.
Qed.
Lemma of_Z_neq z : z <> 0%Z -> f_of_Z z <> (f0 : F).
Proof. intros Hz E. apply ea_of_Z_inj in E. lia. Qed.
Lemma of_Z_m1 : f_of_Z (-1) = (- f1 : F).
Proof. exact (of_Z_opp 1). Qed.
Lemma of_Z_m2 : f_of_Z (-2) = (- (f1 + f1) : F).
Proof. rewrite <- of_Z_2. exact (of_Z_opp 2). Qed.
Lemma two_neq : (f1 + f1 : F) <> f0.
Proof. rewrite <- of_Z_2. by apply of_Z_neq. Qed.
Lemma lit_half : f_lit 5 (-1) = (f1 / (f1 + f1) : F).
Proof.
  pose proof (ea_lit (F := F) 5 1 ltac:(lia)) as E. change (10 ^ 1)%Z with (5 * 2)%Z in E.
  rewrite ea_of_Z_mul, of_Z_2 in E. pose proof (of_Z_neq 5 ltac:(lia)). pose proof two_neq.
  change (- (1))%Z with (-1)%Z in E.
  transitivity (f_lit 5 (-1) * (f_of_Z 5 * (f1 + f1)) / (f_of_Z 5 * (f1 + f1)) : F); [by field|].
  rewrite E. field. auto.
Qed.
Lemma ea_mul_zero (a b : F) : a * b = f0 -> a = f0 \/ b = f0.
Proof.
  intros E. destruct (feqb b f0) eqn:Eb; [right; by apply ea_feqb|left].
  assert (Hb : b <> f0) by (intros H0; apply (ea_feqb (F := F)) in H0; congruence).
  transitivity (a * b / b : F); [by field|]. rewrite E. by field.
Qed.
Lemma mul_neq (a b : F) : a <> f0 -> b <> f0 -> a * b <> f0.
Proof. intros Ha Hb E. apply ea_mul_zero in E. tauto. Qed.
End Exact.

(** ** Order *)

Section StrictOrder.
Context {F : Type} `{FO : FloatOrder F}.

Lemma flt_asym (a b : F) : flt a b = true -> flt b a = false.
Proof.
  intros E. apply not_true_is_false. intros E'. pose proof (flt_trans _ _ _ E E') as C. by rewrite flt_irrefl in C.
Qed.
Lemma flt_neq (a b : F) : flt a b = true -> a <> b.
Proof. intros E ->. by rewrite flt_irrefl in E. Qed.
End StrictOrder.


Section Order.
Context {F : Type} `{EO : ExactOrder F}.
Add Field order_field : (ea_field (F := F)).
Local Open Scope float_scope.

Definition pos (a : F) : Prop := flt f0 a = true.
Definition nonneg (a : F) : Prop := flt a f0 = false.

Lemma flt_lt_false (a b c : F) : flt b a = false -> flt b c = true -> flt a c = true.
Proof.
  intros E E'. destruct (flt a b) eqn:Eab; [by apply flt_trans with b|]. by rewrite (eo_total _ _ Eab E).
Qed.
Lemma pos_neq (a : F) : pos a -> a <> f0.
Proof. intros E ->. unfold pos in E. by rewrite flt_irrefl in E. Qed.
Lemma pos_nonneg (a : F) : pos a -> nonneg a.
Proof. apply flt_asym. Qed.
Lemma nonneg_cases (a : F) : nonneg a -> a = f0 \/ pos a.
Proof.
  intros E. unfold pos. destruct (flt f0 a) eqn:E'; [by right|left]. by apply eo_total.
Qed.

(** [a < b] as the sign of the difference. *)
Lemma flt_sub (a b : F) : flt a b = true <-> pos (b - a).
Proof.
  split; intros E; apply (eo_add (F := F)) with (c := - a) in E || apply (eo_add (F := F)) with (c := a) in E.
  - unfold pos. replace f0 with (a + - a) by ring. replace (b - a) with (b + - a) by ring. exact E.
  - unfold pos in E. apply (eo_add (F := F)) with (c := a + a) in E.
    replace a with (f0 + - a + (a + a)) by ring. replace b with (b - a + - a + (a + a)) by ring. exact E.
Qed.
Lemma flt_sub_false (a b : F) : flt a b = false <-> nonneg (a - b).
Proof.
  rewrite <- !not_true_iff_false, flt_sub. unfold nonneg. rewrite <- not_true_iff_false, flt_sub. unfold pos.
  by replace (f0 - (a - b)) with (b - a) by ring.
Qed.

Lemma pos_add (a b : F) : pos a -> pos b -> pos (a + b).
Proof.
  unfold pos. intros Ha Hb. apply flt_trans with b; [exact Hb|].
  apply (eo_add (F := F)) with (c := b) in Ha. by replace (f0 + b) with b in Ha by ring.
Qed.
Lemma pos_mul (a b : F) : pos a -> pos b -> pos (a * b).
Proof. apply eo_mul. Qed.
Lemma pos_of_Z z : (0 < z)%Z -> pos (f_of_Z z).
Proof. apply eo_of_Z. Qed.
Lemma pos_one : pos f1.
Proof. by apply pos_of_Z. Qed.
Lemma nonneg_mul (a b : F) : nonneg a -> nonneg b -> nonneg (a * b).
Proof.
  intros [->|Ha]%nonneg_cases [->|Hb]%nonneg_cases; [..|by apply pos_nonneg, pos_mul];
    unfold nonneg; [replace (f0 * f0) with (f0 : F) by ring|replace (f0 * b) with (f0 : F) by ring|
      replace (a * f0) with (f0 : F) by ring]; apply flt_irrefl.
Qed.
Lemma sign_cases (a : F) : a = f0 \/ pos a \/ pos (- a).
Proof.
  destruct (flt a f0) eqn:E; [right; right|destruct (nonneg_cases a E); auto].
  apply flt_sub in E. by replace (- a) with (f0 - a) by ring.
Qed.
Lemma pos_square (a : F) : a <> f0 -> pos (a * a).
Proof.
  intros Ha. destruct (sign_cases a) as [|[Hp|Hp]]; [done|by apply pos_mul|].
  replace (a * a) with (- a * - a) by ring. by apply pos_mul.
Qed.
Lemma nonneg_square (a : F) : nonneg (a * a).
Proof.
  destruct (feqb a f0) eqn:E; [apply (ea_feqb (F := F)) in E as ->; replace (f0 * f0) with (f0 : F) by ring; apply flt_irrefl|].
  apply pos_nonneg, pos_square. intros E'. apply (ea_feqb (F := F)) in E'. congruence.
Qed.
Lemma pos_add_nonneg (a b : F) : pos a -> nonneg b -> pos (a + b).
Proof.
  intros Ha [->|Hb]%nonneg_cases; [by replace (a + f0) with a by ring|by apply pos_add].
Qed.
Lemma pos_inv (a : F) : pos a -> pos (f1 / a).
Proof.
  intros Ha. pose proof (pos_neq a Ha). replace (f1 / a) with (a * (f1 / a * (f1 / a))) by (field; auto).
  apply pos_mul; [exact Ha|]. apply pos_square. intros E. apply (pos_neq f1 pos_one).
  transitivity (f1 / a * a); [by field|]. rewrite E. ring.
Qed.
Lemma pos_div (a b : F) : pos a -> pos b -> pos (a / b).
Proof.
  intros Ha Hb. pose proof (pos_neq b Hb). replace (a / b) with (a * (f1 / b)) by (field; auto).
  apply pos_mul; [exact Ha|]. by apply pos_inv.
Qed.
Lemma lit_div m e : (0 <= e)%Z -> f_lit m (- e) = (f_of_Z m / f_of_Z (10 ^ e) : F).
Proof.
  intros He. rewrite <- (ea_lit (F := F) m e He). field. apply of_Z_neq. pose proof (Z.pow_pos_nonneg 10 e). lia.
Qed.
Lemma pos_lit m e : (0 <= e)%Z -> (0 < m)%Z -> pos (f_lit m (- e) : F).
Proof.
  intros He Hm. rewrite lit_div by exact He. apply pos_div; apply pos_of_Z; [exact Hm|].
  apply Z.pow_pos_nonneg; lia.
Qed.
End Order.
