(* ===== verification/VnaMath.v ===== *)
(** * Mathematics (vna_math.c)

    Sine and cosine from a table, the radix-2 FFT, and the approximations of
    square root, cube root, logarithm, arc tangent and exponential that work on
    the encoding of the float. *)

From S2P Require Import Prelude Num.
From Stdlib Require Import SpecFloat QArith Qround Qcanon Lqa.

Local Open Scope Z_scope.

(** ** The sine table (first quarter of a period of 512), in units of 1e-9 *)

Definition sin_table_512 : list Z :=
  [
    0; 12271538; 24541229; 36807223; 49067674; 61320736; 73564564; 85797312;
    98017140; 110222207; 122410675; 134580709; 146730474; 158858143; 170961889; 183039888;
    195090322; 207111376; 219101240; 231058108; 242980180; 254865660; 266712757; 278519689;
    290284677; 302005949; 313681740; 325310292; 336889853; 348418680; 359895037; 371317194;
    382683432; 393992040; 405241314; 416429560; 427555093; 438616239; 449611330; 460538711;
    471396737; 482183772; 492898192; 503538384; 514102744; 524589683; 534997620; 545324988;
    555570233; 565731811; 575808191; 585797857; 595699304; 605511041; 615231591; 624859488;
    634393284; 643831543; 653172843; 662415778; 671558955; 680600998; 689540545; 698376249;
    707106781; 715730825; 724247083; 732654272; 740951125; 749136395; 757208847; 765167266;
    773010453; 780737229; 788346428; 795836905; 803207531; 810457198; 817584813; 824589303;
    831469612; 838224706; 844853565; 851355193; 857728610; 863972856; 870086991; 876070094;
    881921264; 887639620; 893224301; 898674466; 903989293; 909167983; 914209756; 919113852;
    923879533; 928506080; 932992799; 937339012; 941544065; 945607325; 949528181; 953306040;
    956940336; 960430519; 963776066; 966976471; 970031253; 972939952; 975702130; 978317371;
    980785280; 983105487; 985277642; 987301418; 989176510; 990902635; 992479535; 993906970;
    995184727; 996312612; 997290457; 998118113; 998795456; 999322385; 999698819; 999924702;
    1000000000 ].

Definition SIN_TABLE_N : Z := 9.
Definition FFT_N : Z := 9.

(** ** Square root, bit by bit, on the encoding (the variant without FPU) *)

(** One turn with [r = 2^k]: (s, q, ix). *)
Definition sqrt_step (r : Z) (st : Z * Z * Z) : Z * Z * Z :=
  let '(s, q, ix) := st in
  let t := s32 (s + r) in
  let '(s, q, ix) := if t <=? ix then (s32 (t + r), s32 (q + r), s32 (ix - t)) else (s, q, ix) in
  (s, q, s32 (ix + ix)).

(** [while (r != 0) {...; r >>= 1;}] from [r = 2^k]. *)
Fixpoint sqrt_loop (k : nat) (st : Z * Z * Z) : Z * Z * Z :=
  let st := sqrt_step (2 ^ Z.of_nat k) st in
  match k with
  | O => st
  | S k' => sqrt_loop k' st
  end.

(** In round-to-nearest the first test of the rounding step is true and the
    second false. *)
Definition vna_sqrtf_bits (u : Z) : Z :=
  let ix := s32 u in
  if ix =? 0 then 0 else
  let m := Z.shiftr ix 23 - 127 in
  let ix := Z.lor (Z.land ix 0x007fffff) 0x00800000 in
  let ix := s32 (Z.shiftl ix (if bit_test m 1 then 2 else 1)) in
  let m := Z.shiftr m 1 in
  let '(s, q, ix) := sqrt_loop 24 (0, 0, ix) in
  let q := if negb (ix =? 0) then q + Z.land q 1 else q in
  u32 (Z.shiftr q 1 + 0x3f000000 + Z.shiftl m 23).

(** The exponential on the encoding: linear in the mantissa, corrected by a
    quartic. *)
Definition expf_correction (m : Z) : Z :=
  Z.shiftr (s32 (s32 (Z.shiftr (s32 (s32 (Z.shiftr (s32 (s32 (Z.shiftr (s32 (903 * m)) 14 + 13521) * m)) 18
    + 15838) * m)) 14 - 80482) * m)) 11.

Definition expf_bits (i : Z) : Z :=
  let v := s32 (i + 0x3F800000) in
  let m := Z.land (Z.shiftr v 7) 0xFFFF in
  s32 (v + expf_correction m).

Section Math.
Context {F : Type} `{FloatOps F} `{!FloatBits F}.
Local Open Scope float_scope.

Definition SIN_TABLE (i : Z) : F := f_lit (nth (Z.to_nat i) sin_table_512 0%Z) (-9).

Definition VNA_PI : F := f_lit 314159265358979323846 (-20).
(** [logf(2.0f)] *)
Definition LN2 : F := f_lit 693147180559945 (-15).

(** ** Sine and cosine, angle in turns *)

Definition vna_sincosf (angle : F) : F * F :=
  let temp := angle - f_of_Z (f_trunc angle) in
  let temp := if temp <? f0 then temp + f1 else temp in
  let SIN_TABLE_SUB := (SIN_TABLE_N - 2)%Z in
  let temp := temp * f_of_Z (Z.shiftl 1 SIN_TABLE_N) in
  let table_index := f_trunc temp in
  let frac := temp - f_of_Z table_index in
  let sector := Z.shiftl 1 (Z.shiftr table_index SIN_TABLE_SUB) in
  let sidx := Z.land table_index (Z.shiftl 1 SIN_TABLE_SUB - 1) in
  let cidx := (Z.shiftl 1 SIN_TABLE_SUB - sidx)%Z in
  let s := SIN_TABLE sidx + frac * (SIN_TABLE (sidx + 1)%Z - SIN_TABLE sidx) in
  let c := SIN_TABLE cidx + frac * (SIN_TABLE (cidx - 1)%Z - SIN_TABLE cidx) in
  let '(s, c) := if bit_test sector 10 then (c, s) else (s, c) in
  let c := if bit_test sector 6 then - c else c in
  let s := if bit_test sector 12 then - s else s in
  (s, c).

(** ** Fast Fourier transform *)

(** The Cortex-M4 variant: [rbit], then a shift. *)
Fixpoint rbit_loop (n : nat) (x result : Z) : Z :=
  match n with
  | O => result
  | S n' => rbit_loop n' (Z.shiftr x 1) (Z.lor (Z.shiftl result 1) (Z.land x 1))
  end.
Definition reverse_bits (x n : Z) : Z := Z.shiftr (rbit_loop 32 x 0) (32 - n).

(** The table variant. *)
Definition rev_nibble : list Z :=
  [0x0; 0x8; 0x4; 0xC; 0x2; 0xA; 0x6; 0xE; 0x1; 0x9; 0x3; 0xB; 0x5; 0xD; 0x7; 0xF]%Z.
Definition reverse_bits_table (x n : Z) : Z :=
  let nib k := nth (Z.to_nat (Z.land (Z.shiftr x k) 0xF)) rev_nibble 0%Z in
  let x := Z.lor (Z.lor (Z.shiftl (nib 0%Z) 8) (Z.shiftl (nib 4%Z) 4)) (nib 8%Z) in
  Z.shiftr x (12 - n).

Definition point_at (array : list (F * F)) (i : Z) : F * F := nth (Z.to_nat i) array (f0, f0).
Definition put_point (i : Z) (v : F * F) (array : list (F * F)) : list (F * F) := <[Z.to_nat i := v]> array.

Definition fft_reorder (array : list (F * F)) : list (F * F) :=
  for_range 0 (Z.shiftl 1 FFT_N) (fun i array =>
    let j := reverse_bits i FFT_N in
    if (i <? j)%Z then put_point i (point_at array j) (put_point j (point_at array i) array) else array) array.

Definition butterfly (s c : F) (k l : Z) (array : list (F * F)) : list (F * F) :=
  let '(lr, li) := point_at array l in
  let '(kr, ki) := point_at array k in
  let tpre := ffma lr c ((- li) * s) in
  let tpim := ffma lr s (li * c) in
  put_point k (kr + tpre, ki + tpim) (put_point l (kr - tpre, ki - tpim) array).

(** [for (k = i; k < fft_size; k = l + size)]; a turn moves by at least 2. *)
Fixpoint fft_k_loop (fuel : nat) (s c : F) (size k : Z) (array : list (F * F)) : list (F * F) :=
  if (k <? Z.shiftl 1 FFT_N)%Z then
    match fuel with
    | O => array
    | S fuel' =>
        let l := (k + size)%Z in
        fft_k_loop fuel' s c size (l + size)%Z (butterfly s c k l array)
    end
  else array.

Definition twiddle (dir : bool) (table_index : Z) : F * F :=
  let SIN_TABLE_SUB := (SIN_TABLE_N - 2)%Z in
  let sector := Z.shiftr table_index SIN_TABLE_SUB in
  let sidx := Z.land table_index (Z.shiftl 1 SIN_TABLE_SUB - 1) in
  let cidx := (Z.shiftl 1 SIN_TABLE_SUB - sidx)%Z in
  let sin := SIN_TABLE sidx in
  let cos := SIN_TABLE cidx in
  let s := if bit_test sector 1 then cos else sin in
  let c := if bit_test sector 1 then - sin else cos in
  ((if dir then s else - s), c).

Definition fft_pass (dir : bool) (size tablestep : Z) (array : list (F * F)) : list (F * F) :=
  for_range 0 size (fun i array =>
    let '(s, c) := twiddle dir (i * tablestep)%Z in
    fft_k_loop 256 s c size i array) array.

Fixpoint fft_size_loop (fuel : nat) (dir : bool) (size tablestep : Z) (array : list (F * F)) : list (F * F) :=
  if (size <? Z.shiftl 1 FFT_N)%Z then
    match fuel with
    | O => array
    | S fuel' => fft_size_loop fuel' dir (Z.shiftl size 1) (Z.shiftr tablestep 1) (fft_pass dir size tablestep array)
    end
  else array.

Definition fft (array : list (F * F)) (dir : bool) : list (F * F) :=
  fft_size_loop 9 dir 1 (Z.shiftl 1 SIN_TABLE_N / 2)%Z (fft_reorder array).

(** ** Encodings *)

Definition i32_bits (x : F) : Z := s32 (f_bits x).

Definition vna_fabsf (x : F) : F := f_of_bits (Z.land (f_bits x) 0x7fffffff).

(** Fractional part and integral part. *)
Definition vna_modff (x : F) : F * F :=
  let u := f_bits x in
  let e := (Z.land (Z.shiftr u 23) 0xff - 0x7f)%Z in
  if (e <? 0)%Z then (x, f_of_Z 0)
  else if (23 <=? e)%Z then (f_of_Z 0, x)
  else let ip := f_of_bits (Z.land u (Z.lnot (Z.shiftr 0x007fffff e))) in (x - ip, ip).

Definition vna_sqrtf (x : F) : F := f_of_bits (vna_sqrtf_bits (f_bits x)).

(** One Newton step of the cube root. *)
Definition cbrt_step (x T : F) : F :=
  let r := T * T * T in T * ((x + x + r) / (x + r + r)).

Definition vna_cbrtf (x : F) : F :=
  let B1 := 709958130%Z in
  let B2 := 642849266%Z in
  let u := f_bits x in
  let hx := Z.land u 0x7fffffff in
  if (hx =? 0)%Z then x else
  let '(u, hx) :=
    if (hx <? 0x00800000)%Z then
      let u := f_bits (x * f_of_Z (2 ^ 24)) in
      (u, (Z.land u 0x7fffffff / 3 + B2)%Z)
    else (u, (hx / 3 + B1)%Z) in
  let T := f_of_bits (Z.lor (Z.land u 0x80000000) hx) in
  cbrt_step x (cbrt_step x T).

(** ** Logarithms *)

Definition minus_inf : F := f_of_Z (-1) / f_of_Z 0.

(** The encoding with the exponent of [0.5, 1). *)
Definition mantissa_of (i : Z) : F := f_of_bits (Z.lor (Z.land i 0x007FFFFF) 0x3f000000).

Definition vna_logf (x : F) : F :=
  let i := i32_bits x in
  if (i <=? 0)%Z then minus_inf else
  let MULT := LN2 in
  let mx := mantissa_of i in
  f_of_Z i * (MULT / f_of_Z (Z.shiftl 1 23)) - (f_lit 124225784301758 (-12) * MULT)
  - (f_lit 1497851252556 (-12) * MULT) * mx
  - (f_lit 1725635766983 (-12) * MULT) / (f_lit 352076232433 (-12) + mx).

Definition vna_log10f_x_10 (x : F) : F :=
  let i := i32_bits x in
  if (i <=? 0)%Z then minus_inf else
  let mx := mantissa_of i in
  f_of_Z i * f_lit 3588558655063 (-19) - f_lit 373955116469345 (-12)
  - f_lit 4509594876113 (-12) * mx
  - f_lit 5197150890108 (-12) / (f_lit 352256419296 (-12) + mx).

(** ** Arc tangent *)

Definition atanhi : list F :=
  [ f_lit 46364760399 (-11); f_lit 78539812565 (-11); f_lit 98279368877 (-11); f_lit 15707962513 (-10) ].
Definition atanlo : list F :=
  [ f_lit 50121582440 (-19); f_lit 37748947079 (-18); f_lit 34473217170 (-18); f_lit 75497894159 (-18) ].
Definition aT : list F :=
  [ f_lit 33333328366 (-11); f_lit (-19999158382) (-11); f_lit 14253635705 (-11);
    f_lit (-10648017377) (-11); f_lit 61687607318 (-12) ].

Definition vna_atanf (x : F) : F :=
  let nthF l i := nth i l f0 in
  let u := f_bits x in
  let sign := Z.shiftr u 31 in
  let ix := Z.land u 0x7fffffff in
  if (0x4c800000 <=? ix)%Z then
    (if (0x7f800000 <? ix)%Z then x else
     let z := nthF atanhi 3%nat + f_of_bits 58720256 in
     if (sign =? 0)%Z then z else - z)
  else if (ix <? 0x39800000)%Z then x
  else
    let '(id, x) :=
      if (ix <? 0x3ee00000)%Z then (None, x) else
      let x := vna_fabsf x in
      if (ix <? 0x3f980000)%Z then
        (if (ix <? 0x3f300000)%Z then (Some 0%nat, (f_of_Z 2 * x - f1) / (f_of_Z 2 + x))
         else (Some 1%nat, (x - f1) / (x + f1)))
      else
        (if (ix <? 0x401c0000)%Z then (Some 2%nat, (x - f_lit 15 (-1)) / (f1 + f_lit 15 (-1) * x))
         else (Some 3%nat, - f1 / x)) in
    let z := x * x in
    let w := z * z in
    let s1 := z * (nthF aT 0%nat + w * (nthF aT 2%nat + w * nthF aT 4%nat)) in
    let s2 := w * (nthF aT 1%nat + w * nthF aT 3%nat) in
    match id with
    | None => x - x * (s1 + s2)
    | Some id =>
        let z := nthF atanhi id - ((x * (s1 + s2) - nthF atanlo id) - x) in
        if (sign =? 0)%Z then z else - z
    end.

(** The quadrant mapping shared by the two functions: [q] a quarter turn,
    [h] a half turn. *)
Definition full_circle (q h : F) (uy ux : Z) (y x r : F) : F :=
  let r := if x <? y then q - r else r in
  let r := if (ux <? 0)%Z then h - r else r in
  if (uy <? 0)%Z then - r else r.

Definition vna_atan2f (y x : F) : F :=
  let ux := i32_bits x in let x := vna_fabsf x in
  let uy := i32_bits y in let y := vna_fabsf y in
  if feqb x f0 && feqb y f0 then f0 else
  let r := if x <? y then x / y else y / x in
  let s := r * r in
  let r := r * (f_lit 999133448222780 (-15) + s * (f_lit (-320533292381664) (-15)
             + s * (f_lit 144982490144465 (-15) + s * f_lit (-38254464970299) (-15)))) in
  full_circle (VNA_PI / f_of_Z 2) VNA_PI uy ux y x r.

Definition vna_atan2f_deg (y x : F) : F :=
  let ux := i32_bits x in let x := vna_fabsf x in
  let uy := i32_bits y in let y := vna_fabsf y in
  if feqb x f0 && feqb y f0 then f0 else
  let r := if x <? y then x / y else y / x in
  let s := r * r in
  let r := r * (f_lit 57288120755 (-9) + s * (f_lit (-18925070157) (-9)
             + s * (f_lit 10322367203 (-9) + s * (f_lit (-4879099474) (-9) + s * f_lit 1194337053 (-9))))) in
  full_circle (f_of_Z 90) (f_of_Z 180) uy ux y x r.

(** ** Exponential *)

Definition vna_expf (x : F) : F :=
  let x := x * (f_of_Z (Z.shiftl 1 23) / LN2) in
  f_of_bits (u32 (expf_bits (f_trunc x))).
End Math.

(** Test runs on binary32, by encodings. *)
Example sincos_runs : (* an eighth and three quarters of a turn *)
  vna_sincosf (b32_lit 125 (-3)) = (b32_lit 707106781 (-9), b32_lit 707106781 (-9)) /\
  vna_sincosf (b32_lit 75 (-2)) = (SFopp (b32_of_Z 1), S754_zero false).
Proof. vm_compute. split; reflexivity. Qed.
Example sqrt_runs : b32_bits (vna_sqrtf (b32_of_Z 2)) = 0x3fb504f3 /\ vna_sqrtf (b32_of_Z 9) = b32_of_Z 3.
Proof. vm_compute. split; reflexivity. Qed.
Example exp_runs : vna_expf (b32_of_Z 0) = b32_of_Z 1.
Proof. vm_compute. reflexivity. Qed.
Example atan_runs : vna_atan2f_deg (b32_of_Z (-3)) (b32_of_Z 0) = b32_of_Z (-90).
Proof. vm_compute. reflexivity. Qed.

(** ** Square root: correct rounding *)

Lemma sqrt_step_spec r q ix N :
  0 < r <= 2 ^ 24 -> 0 <= q -> 0 <= ix -> q + 2 * r <= 2 ^ 26 ->
  N = q * q + ix * r -> N < (q + 2 * r) * (q + 2 * r) ->
  exists q1 ix1, sqrt_step r (2 * q, q, ix) = (2 * q1, q1, 2 * ix1) /\ 0 <= ix1 /\
    N = q1 * q1 + ix1 * r /\ N < (q1 + r) * (q1 + r) /\ q <= q1 <= q + r.
Proof.
  intros Hr Hq Hi Hb HN Hlt. unfold sqrt_step.
  assert (Hix : ix < 4 * q + 4 * r) by nia.
  rewrite (s32_small (2 * q + r)) by lia. destruct (Z.leb_spec (2 * q + r) ix).
  - exists (q + r), (ix - (2 * q + r)). rewrite !(s32_small (ix - _)), !s32_small by lia.
    split; [f_equal; [f_equal|]; lia|]. split; [lia|]. split; [nia|]. split; [nia|lia].
  - exists q, ix. rewrite s32_small by lia.
    split; [f_equal; lia|]. split; [lia|]. split; [nia|]. split; [nia|lia].
Qed.

Lemma sqrt_loop_spec k : forall q ix N,
  (k <= 24)%nat -> 0 <= q -> 0 <= ix -> q + 2 * 2 ^ Z.of_nat k <= 2 ^ 26 ->
  N = q * q + ix * 2 ^ Z.of_nat k -> N < (q + 2 * 2 ^ Z.of_nat k) * (q + 2 * 2 ^ Z.of_nat k) ->
  exists q1, sqrt_loop k (2 * q, q, ix) = (2 * q1, q1, 2 * (N - q1 * q1)) /\
    0 <= q1 /\ q1 * q1 <= N < (q1 + 1) * (q1 + 1).
Proof.
  induction k as [|k IH]; intros q ix N Hk Hq Hi Hb HN Hlt; cbn [sqrt_loop].
  - change (2 ^ Z.of_nat 0) with 1 in *.
    destruct (sqrt_step_spec 1 q ix N ltac:(lia) Hq Hi Hb HN Hlt) as (q1 & ix1 & -> & H1 & H2 & H3 & H4).
    exists q1. split; [f_equal; lia|]. nia.
  - set (r := 2 ^ Z.of_nat (S k)) in *.
    assert (Hr : r = 2 * 2 ^ Z.of_nat k) by (subst r; rewrite Nat2Z.inj_succ, Z.pow_succ_r; lia).
    assert (H24 : 0 < r <= 2 ^ 24) by (subst r; split; [apply Z.pow_pos_nonneg; lia|apply Z.pow_le_mono_r; lia]).
    destruct (sqrt_step_spec r q ix N H24 Hq Hi Hb HN Hlt) as (q1 & ix1 & -> & H1 & H2 & H3 & H4).
    apply IH; lia.
Qed.

(** The bit-by-bit square root (of the builds without FPU) is correctly
    rounded: for every positive normal float, with E its exponent and X its
    24-bit mantissa made even by the exponent's parity, the result has exponent
    floor(E/2) and the 24-bit mantissa nearest to the square root. *)
Theorem vna_sqrtf_correct (u : Z) :
  0x00800000 <= u < 0x7f800000 ->
  let E := u / 2 ^ 23 - 127 in
  let X := (u mod 2 ^ 23 + 2 ^ 23) * 2 ^ (1 + E mod 2) in
  exists M, vna_sqrtf_bits u = (E / 2 + 127) * 2 ^ 23 + (M - 2 ^ 23) /\
    2 ^ 23 <= M < 2 ^ 24 /\ (2 * M - 1) ^ 2 < X * 2 ^ 24 < (2 * M + 1) ^ 2.
Proof.
  intros Hu E X. unfold vna_sqrtf_bits. rewrite (s32_small u) by lia.
  destruct (Z.eqb_spec u 0); [lia|]. rewrite Z.shiftr_div_pow2 by lia. fold E.
  change 0x007fffff with (Z.ones 23). rewrite land_mask by lia.
  assert (Hmant : Z.lor (u mod 2 ^ 23) 0x00800000 = u mod 2 ^ 23 + 2 ^ 23).
  { rewrite Z.lor_comm. change 0x00800000 with (1 * 2 ^ 23). rewrite lor_add_pow2; [lia|lia|].
    apply Z.mod_pos_bound. lia. }
  rewrite Hmant. pose proof (Z.mod_pos_bound u (2 ^ 23) ltac:(lia)) as Hm.
  pose proof (bit_test_pow2 E 0 ltac:(lia)) as HE. change (2 ^ 0) with 1 in HE.
  rewrite HE, Z.bit0_odd. clear HE.
  assert (HX : Z.shiftl (u mod 2 ^ 23 + 2 ^ 23) (if Z.odd E then 2 else 1) = X).
  { subst X. rewrite Z.shiftl_mul_pow2 by (destruct (Z.odd E); lia). f_equal. rewrite Zmod_odd. by destruct (Z.odd E). }
  assert (HXb : 2 ^ 24 <= X <= 2 ^ 26 - 4).
  { rewrite <- HX. destruct (Z.odd E); rewrite Z.shiftl_mul_pow2; lia. }
  rewrite HX. rewrite s32_small by lia. clearbody X. clear HX Hmant.
  destruct (sqrt_loop_spec 24 0 X (X * 2 ^ 24) ltac:(lia) ltac:(lia) ltac:(lia) ltac:(lia) ltac:(lia) ltac:(nia))
    as (q & Hl & Hq0 & Hq). change (2 * 0) with 0 in Hl. rewrite Hl.
  assert (Hqb : 2 ^ 24 <= q <= 2 ^ 25 - 2) by nia.
  set (N := X * 2 ^ 24) in *.
  assert (HM : exists M, Z.shiftr (if negb (2 * (N - q * q) =? 0) then q + Z.land q 1 else q) 1 = M /\
                2 ^ 23 <= M < 2 ^ 24 /\ (2 * M - 1) ^ 2 < N < (2 * M + 1) ^ 2).
  { pose proof (land_mask q 1 ltac:(lia)) as Hl1. change (Z.ones 1) with 1 in Hl1. change (2 ^ 1) with 2 in Hl1.
    rewrite Hl1, Z.shiftr_div_pow2 by lia. change (2 ^ 1) with 2.
    assert (Hev : q mod 2 = 1 -> N <> q * q) by (intros Hodd; subst N; lia).
    destruct (Z.eqb_spec (2 * (N - q * q)) 0); cbn [negb]; eexists; (split; [reflexivity|]).
    - assert (q mod 2 = 0) by lia. split; [lia|]. nia.
    - split; [lia|]. assert (q mod 2 = 0 \/ q mod 2 = 1) as [Hp|Hp] by lia; rewrite Hp; nia. }
  destruct HM as (M & -> & HMb & HMs). exists M. split; [|split; [done|exact HMs]].
  rewrite Z.shiftl_mul_pow2, Z.shiftr_div_pow2 by lia. change (2 ^ 1) with 2.
  rewrite u32_small; lia.
Qed.

Lemma vna_sqrtf_correct_witness : exists M, vna_sqrtf_bits 0x40000000 = (1 / 2 + 127) * 2 ^ 23 + (M - 2 ^ 23).
Proof. destruct (vna_sqrtf_correct 0x40000000 ltac:(lia)) as (M & E & _). exists M. exact E. Defined.

(** ** Bit reversal *)

(** The [n] low bits of [x] in reverse order, by definition. *)
Definition reversed_bits (n x y : Z) : bool :=
  (0 <=? y) && (y <? 2 ^ n) &&
  forallb (fun k => Bool.eqb (Z.testbit y k) (Z.testbit x (n - 1 - k))) (seqZ 0 n).

(** The nibbles the table gets wrong. *)
Definition bad_nibble (d : Z) : bool := (10 <=? d) && (d <=? 13).

Definition rev_ok (n x : Z) : bool :=
  let y := reverse_bits x n in
  reversed_bits n x y && (reverse_bits y n =? x) &&
  Bool.eqb (reverse_bits_table x n =? y)
    (negb (bad_nibble (x mod 16) || bad_nibble (x / 16 mod 16) || bad_nibble (x / 256))).

Lemma rev_ok_all : forallb (fun n => forallb (rev_ok n) (seqZ 0 (2 ^ n))) (seqZ 1 12) = true.
Proof. vm_compute. reflexivity. Qed.

Lemma rev_ok_at n x : 1 <= n <= 12 -> 0 <= x < 2 ^ n -> rev_ok n x = true.
Proof.
  intros Hn Hx. pose proof rev_ok_all as H. rewrite forallb_forall in H.
  specialize (H n ltac:(apply list_elem_of_In, elem_of_seqZ; lia)). rewrite forallb_forall in H.
  apply H, list_elem_of_In, elem_of_seqZ. lia.
Qed.

Lemma rev_ok_elim n x : rev_ok n x = true ->
  0 <= reverse_bits x n < 2 ^ n /\ reverse_bits (reverse_bits x n) n = x /\
  reversed_bits n x (reverse_bits x n) = true /\
  (reverse_bits_table x n =? reverse_bits x n) =
    negb (bad_nibble (x mod 16) || bad_nibble (x / 16 mod 16) || bad_nibble (x / 256)).
Proof.
  unfold rev_ok. generalize (reverse_bits x n) as y. intros y H.
  rewrite !andb_true_iff in H. destruct H as [[H1 H2] H3]. pose proof H1 as H4. unfold reversed_bits in H4.
  rewrite !andb_true_iff in H4. destruct H4 as [[H4 H5] _]. apply Z.leb_le in H4. apply Z.ltb_lt in H5.
  apply Z.eqb_eq in H2. apply eqb_prop in H3. done.
Qed.

#[local] Opaque reverse_bits reverse_bits_table.

Lemma rev_range i : 0 <= i < 512 -> 0 <= reverse_bits i 9 < 512 /\ reverse_bits (reverse_bits i 9) 9 = i.
Proof.
  intros Hi. destruct (rev_ok_elim 9 i (rev_ok_at 9 i ltac:(lia) Hi)) as (H1 & H2 & _). done.
Qed.

(** The table variant of [reverse_bits] (the builds without a Cortex-M4)
    does not reverse bits: its entries for the nibbles 0xA to 0xD are 3, B, 5, D
    instead of 5, D, 3, B, so it is right exactly on the indices without such a
    nibble; index 10 of a 256-point transform goes to 48 instead of 80. *)
Theorem reverse_bits_table_wrong (n x : Z) :
  1 <= n <= 12 -> 0 <= x < 2 ^ n ->
  (reverse_bits_table x n = reverse_bits x n <->
   bad_nibble (x mod 16) || bad_nibble (x / 16 mod 16) || bad_nibble (x / 256) = false) /\
  reverse_bits_table 10 8 = 48 /\ reverse_bits 10 8 = 80.
Proof.
  intros Hn Hx. destruct (rev_ok_elim n x (rev_ok_at n x Hn Hx)) as (_ & _ & _ & H).
  split; [|split; reflexivity]. rewrite <- Z.eqb_eq, H, negb_true_iff. done.
Qed.

Lemma reverse_bits_table_wrong_witness : reverse_bits_table 10 8 = 48.
Proof. exact (proj1 (proj2 (reverse_bits_table_wrong 8 10 ltac:(lia) ltac:(lia)))). Defined.

Section Reorder.
Context {F : Type} `{FloatOps F}.

Lemma point_put_eq i v (a : list (F * F)) : 0 <= i < Z.of_nat (length a) -> point_at (put_point i v a) i = v.
Proof. intros Hi. unfold point_at, put_point. apply nth_lookup_Some. apply list_lookup_insert_eq. lia. Qed.

Lemma point_put_ne i j v (a : list (F * F)) : 0 <= i -> 0 <= j -> i <> j -> point_at (put_point i v a) j = point_at a j.
Proof.
  intros Hi Hj Hne. unfold point_at, put_point. rewrite !nth_lookup.
  by rewrite list_lookup_insert_ne by lia.
Qed.

Lemma put_point_length i v (a : list (F * F)) : length (put_point i v a) = length a.
Proof. apply length_insert. Qed.

(** After the turns below [m], the points of the pairs that meet one of them
    are exchanged. *)
Definition exchanged (m : Z) (array a : list (F * F)) : Prop :=
  length a = 512%nat /\ forall i, 0 <= i < 512 ->
  point_at a i = if (i <? m) || (reverse_bits i 9 <? m) then point_at array (reverse_bits i 9) else point_at array i.

Lemma exchanged_step m array a : 0 <= m < 512 -> exchanged m array a ->
  let j := reverse_bits m 9 in
  exchanged (m + 1) array
    (if m <? j then put_point m (point_at a j) (put_point j (point_at a m) a) else a).
Proof.
  intros Hm [Ha IH] j. destruct (rev_range m Hm) as [Hrm Hrr]. fold j in Hrm, Hrr.
  split; [destruct (m <? j); by rewrite ?put_point_length|].
  intros i Hi. destruct (rev_range i Hi) as [Hri Hrri].
  assert (Hmi : reverse_bits i 9 = m <-> i = j) by (split; [intros <-; by subst j|intros ->; by subst j]).
  pose proof (IH i Hi) as Hii. pose proof (IH j Hrm) as Hjj. pose proof (IH m Hm) as Hmm.
  fold j in Hmm. rewrite Hrr in Hjj.
  assert (Hother : i <> m -> i <> j -> ((i <? m + 1) || (reverse_bits i 9 <? m + 1)) =
                                      ((i <? m) || (reverse_bits i 9 <? m))).
  { intros N1 N2. assert (reverse_bits i 9 <> m) by tauto. repeat zcase; (reflexivity || lia). }
  destruct (Z.eq_dec i m) as [Eim|Nim]; [|destruct (Z.eq_dec i j) as [Eij|Nij]].
  - subst i. fold j. rewrite (proj2 (Z.ltb_lt m (m + 1))) by lia. cbn [orb].
    rewrite (proj2 (Z.ltb_ge m m)) in Hjj, Hmm by lia. cbn [orb] in Hmm. rewrite orb_false_r in Hjj.
    destruct (Z.ltb_spec m j).
    + rewrite point_put_eq by (rewrite put_point_length; lia). rewrite Hjj.
      by rewrite (proj2 (Z.ltb_ge j m)) by lia.
    + rewrite Hmm. destruct (Z.ltb_spec j m); [done|]. by replace j with m by lia.
  - subst i. rewrite Hrr, (proj2 (Z.ltb_lt m (m + 1))), orb_true_r by lia.
    rewrite (proj2 (Z.ltb_ge m m)) in Hjj, Hmm by lia. cbn [orb] in Hmm. rewrite orb_false_r in Hjj.
    destruct (Z.ltb_spec m j).
    + rewrite point_put_ne, point_put_eq by lia. rewrite Hmm. by rewrite (proj2 (Z.ltb_ge j m)) by lia.
    + rewrite Hjj. by rewrite (proj2 (Z.ltb_lt j m)) by lia.
  - rewrite (Hother Nim Nij). destruct (m <? j); [rewrite !point_put_ne by lia|]; exact Hii.
Qed.

Lemma fft_reorder_points (array : list (F * F)) : length array = 512%nat ->
  length (fft_reorder array) = 512%nat /\
  forall i, 0 <= i < 512 -> point_at (fft_reorder array) i = point_at array (reverse_bits i FFT_N).
Proof.
  intros Hl.
  destruct (for_range_ind (fun m a => exchanged m array a) 0 512 (fun i a => let j := reverse_bits i 9 in
      if i <? j then put_point i (point_at a j) (put_point j (point_at a i) a) else a) array ltac:(lia)) as [Hn Hp].
  - split; [done|]. intros i' Hi'. destruct (rev_range i' Hi') as [Hr _].
    by rewrite (proj2 (Z.ltb_ge i' 0)), (proj2 (Z.ltb_ge _ 0)) by lia.
  - intros m a Hm Ha. by apply exchanged_step.
  - change (fft_reorder array) with (for_range 0 512 (fun i a => let j := reverse_bits i 9 in
      if i <? j then put_point i (point_at a j) (put_point j (point_at a i) a) else a) array).
    split; [exact Hn|]. intros i Hi. rewrite (Hp i Hi). by rewrite (proj2 (Z.ltb_lt i 512)) by lia.
Qed.

(** The first stage of the FFT puts the points in bit-reversed order: point
    [i] afterwards is the one whose index has the nine bits of [i] in reverse
    order, each pair being exchanged exactly once. *)
Theorem fft_reorder_reverses (array : list (F * F)) (i : Z) :
  length array = 512%nat -> 0 <= i < 512 ->
  point_at (fft_reorder array) i = point_at array (reverse_bits i FFT_N) /\
  reversed_bits FFT_N i (reverse_bits i FFT_N) = true.
Proof.
  intros Hl Hi. split; [by apply fft_reorder_points|]. apply (rev_ok_elim 9 i (rev_ok_at 9 i ltac:(lia) Hi)).
Qed.
End Reorder.

Lemma fft_reorder_reverses_witness :
  point_at (fft_reorder (map (fun i => (b32_of_Z i, b32_of_Z 0)) (seqZ 0 512))) 1 = (b32_of_Z 256, b32_of_Z 0).
Proof.
  rewrite (proj1 (fft_reorder_reverses (map (fun i => (b32_of_Z i, b32_of_Z 0)) (seqZ 0 512)) 1
    ltac:(by rewrite length_map, length_seqZ) ltac:(lia))).
  vm_compute. reflexivity.
Defined.

(** ** Exponential *)

(** The correction without the 32-bit wrap-around. *)
Definition expf_correction_exact (m : Z) : Z :=
  Z.shiftr ((Z.shiftr ((Z.shiftr ((Z.shiftr (903 * m) 14 + 13521) * m) 18 + 15838) * m) 14 - 80482) * m) 11.

(** Every product fits a signed 32-bit integer; the value is between -128 m and
    0 and falls by at most 40 to the next one. *)
Definition fits32 (x : Z) : bool := (-2147483648 <=? x) && (x <? 2147483648).
Definition correction_ok (m : Z) : bool :=
  let t1 := 903 * m in
  let t2 := (Z.shiftr t1 14 + 13521) * m in
  let t3 := (Z.shiftr t2 18 + 15838) * m in
  let t4 := (Z.shiftr t3 14 - 80482) * m in
  let c := Z.shiftr t4 11 in
  fits32 t1 && fits32 t2 && fits32 t3 && fits32 t4 && (c <=? 0) && (-128 * m <=? c) &&
  (if m =? 65535 then c =? -128 else c - 40 <=? expf_correction_exact (m + 1)).

Lemma correction_no_overflow m :
  let t1 := 903 * m in
  let t2 := (Z.shiftr t1 14 + 13521) * m in
  let t3 := (Z.shiftr t2 18 + 15838) * m in
  let t4 := (Z.shiftr t3 14 - 80482) * m in
  fits32 t1 = true -> fits32 t2 = true -> fits32 t3 = true -> fits32 t4 = true ->
  expf_correction m = expf_correction_exact m.
Proof.
  intros t1 t2 t3 t4 H1 H2 H3 H4. unfold fits32 in *. unfold expf_correction. fold t1.
  rewrite (s32_small t1) by lia. rewrite (s32_small (Z.shiftr t1 14 + 13521)) by (rewrite Z.shiftr_div_pow2; lia).
  fold t2. rewrite (s32_small t2) by lia. rewrite (s32_small (Z.shiftr t2 18 + 15838)) by (rewrite Z.shiftr_div_pow2; lia).
  fold t3. rewrite (s32_small t3) by lia. rewrite (s32_small (Z.shiftr t3 14 - 80482)) by (rewrite Z.shiftr_div_pow2; lia).
  fold t4. by rewrite (s32_small t4) by lia.
Qed.

(** A check of [n] consecutive integers. *)
Fixpoint check_from (f : Z -> bool) (n : nat) (i : Z) : bool :=
  match n with
  | O => true
  | S n' => f i && check_from f n' (i + 1)
  end.

Lemma check_from_at f n : forall i j, check_from f n i = true -> i <= j < i + Z.of_nat n -> f j = true.
Proof.
  induction n as [|n IH]; intros i j H Hj; [lia|]. cbn [check_from] in H. apply andb_true_iff in H as [H0 H1].
  destruct (Z.eq_dec i j) as [<-|]; [done|]. apply (IH (i + 1)); [done|lia].
Qed.

Lemma correction_ok_all : check_from correction_ok (Z.to_nat 65536) 0 = true.
Proof. vm_compute. reflexivity. Qed.

Lemma correction_at m : 0 <= m < 65536 ->
  expf_correction m = expf_correction_exact m /\ -128 * m <= expf_correction_exact m <= 0 /\
  (m = 65535 -> expf_correction_exact m = -128) /\
  (m < 65535 -> expf_correction_exact m - 40 <= expf_correction_exact (m + 1)).
Proof.
  intros Hm. pose proof (check_from_at _ _ _ m correction_ok_all ltac:(lia)) as H. unfold correction_ok in H. cbv zeta in H.
  rewrite !andb_true_iff in H. destruct H as [[[[[[H1 H2] H3] H4] H5] H6] H7].
  split; [by apply correction_no_overflow|]. unfold expf_correction_exact at 1 2 3 4. clear H1 H2 H3 H4.
  set (c := Z.shiftr _ 11) in *. clearbody c. generalize dependent (expf_correction_exact (m + 1)).
  intros c1 H7. destruct (Z.eqb_spec m 65535); lia.
Qed.

#[local] Opaque expf_correction expf_correction_exact.

(** The correction falls by at most 40 per step. *)
Lemma correction_drop m k : 0 <= m -> 0 <= k -> m + k < 65536 ->
  expf_correction_exact m - 40 * k <= expf_correction_exact (m + k).
Proof.
  intros Hm Hk. revert k Hk. apply (natlike_ind (fun k => m + k < 65536 -> expf_correction_exact m - 40 * k <= expf_correction_exact (m + k))).
  - intros _. rewrite Z.add_0_r. lia.
  - intros k Hk IH Hlt. destruct (correction_at (m + k) ltac:(lia)) as (_ & _ & _ & H).
    replace (m + Z.succ k) with (m + k + 1) by lia. specialize (IH ltac:(lia)). specialize (H ltac:(lia)). lia.
Qed.

(** Position of an argument: octave, step of the correction, rest. *)
Lemma expf_bits_split v : 0 <= v < 2 ^ 31 ->
  let m := (v / 128) mod 65536 in
  0 <= m < 65536 /\ v = v / 2 ^ 23 * 2 ^ 23 + 128 * m + v mod 128 /\
  expf_bits (v - 0x3F800000) = v + expf_correction m /\
  expf_correction m = expf_correction_exact m.
Proof.
  intros Hv m. assert (Hm : 0 <= m < 65536) by (apply Z.mod_pos_bound; lia).
  assert (Sv : v = v / 2 ^ 23 * 2 ^ 23 + 128 * m + v mod 128).
  { pose proof (Z.div_mod v 128 ltac:(lia)) as E1. pose proof (Z.div_mod (v / 128) 65536 ltac:(lia)) as E2.
    rewrite Z.div_div in E2 by lia. change (128 * 65536) with (2 ^ 23) in E2. fold m in E2.
    set (a := v / 2 ^ 23) in *. set (b := v / 128) in *. set (r := v mod 128) in *. clearbody a b r m. lia. }
  split; [done|]. split; [done|].
  assert (E : Z.land (Z.shiftr (s32 (v - 0x3F800000 + 0x3F800000)) 7) 0xFFFF = m).
  { replace (v - 0x3F800000 + 0x3F800000) with v by lia. rewrite s32_small by lia.
    change 0xFFFF with (Z.ones 16). rewrite Z.shiftr_div_pow2, land_mask by lia. done. }
  unfold expf_bits. rewrite E. replace (v - 0x3F800000 + 0x3F800000) with v by lia.
  destruct (correction_at m Hm) as (Hx & Hc & _). rewrite <- Hx in Hc. rewrite !(s32_small v) by lia.
  split; [|done]. apply s32_small. pose proof (Z.mod_pos_bound v 128 ltac:(lia)) as Hr.
  pose proof (Z.div_pos v (2 ^ 23) ltac:(lia) ltac:(lia)) as Ha.
  set (a := v / 2 ^ 23) in *. set (r := v mod 128) in *. clearbody a r m. lia.
Qed.

(** The fast exponential, on the encoding v = 2^23 (127 + log2 of the
    result): the correction polynomial never overflows its 32-bit products, the
    result keeps the octave of the argument, and the function is increasing up
    to its step: a larger argument gives a result at most 39 units in the last
    place smaller, and one that is 128 units larger gives a larger result. *)
Theorem expf_bits_monotone (v w : Z) :
  0 <= v -> v <= w -> w < 2 ^ 31 ->
  let E x := expf_bits (x - 0x3F800000) in
  E v = v + expf_correction_exact ((v / 128) mod 65536) /\
  E v / 2 ^ 23 = v / 2 ^ 23 /\
  E v - 39 <= E w /\ (v + 128 <= w -> E v < E w).
Proof.
  intros Hv Hvw Hw E. subst E. cbn beta.
  destruct (expf_bits_split v ltac:(lia)) as (Hm & Sv & Ev & Xv).
  destruct (expf_bits_split w ltac:(lia)) as (Hn & Sw & Ew & _).
  destruct (correction_at ((w / 128) mod 65536) Hn) as (Xw & _).
  rewrite Ev, Ew, Xv, Xw. set (m := (v / 128) mod 65536) in *. set (n := (w / 128) mod 65536) in *.
  destruct (correction_at m Hm) as (_ & Cm & Lm & _). destruct (correction_at n Hn) as (_ & Cn & _ & _).
  pose proof (Z.mod_pos_bound v 128 ltac:(lia)) as Rv. pose proof (Z.mod_pos_bound w 128 ltac:(lia)) as Rw.
  set (r := v mod 128) in *. set (t := w mod 128) in *. set (a := v / 2 ^ 23) in *. set (b := w / 2 ^ 23) in *.
  clearbody m n r t a b. split; [done|].
  assert (Hoct : 0 <= 128 * m + r + expf_correction_exact m < 2 ^ 23).
  { destruct (Z.eq_dec m 65535) as [->|]; [rewrite Lm by lia; lia|].
    lia. }
  split; [symmetry; apply (Z.div_unique_pos _ _ _ (128 * m + r + expf_correction_exact m)); lia|].
  assert (a <= b) as Hab by lia. destruct (Z.eq_dec a b) as [<-|].
  - assert (m <= n) by lia. pose proof (correction_drop m (n - m) ltac:(lia) ltac:(lia) ltac:(lia)) as D.
    replace (m + (n - m)) with n in D by lia. lia.
  - lia.
Qed.

Lemma expf_bits_monotone_witness : expf_bits (0x3F800000 - 0x3F800000) / 2 ^ 23 = 127.
Proof. exact (proj1 (proj2 (expf_bits_monotone 0x3F800000 0x3F800000 ltac:(lia) ltac:(lia) ltac:(lia)))). Defined.

(** ** Sine and cosine: the result stays on the unit circle *)

Lemma this_plus (x y : Qc) : (this (x + y)%Qc == x + y)%Q.
Proof. apply Qred_correct. Qed.
Lemma this_minus (x y : Qc) : (this (x - y)%Qc == x - y)%Q.
Proof. unfold Qcminus, Qcplus, Qcopp. cbn [this Q2Qc]. rewrite !Qred_correct. reflexivity. Qed.
Lemma this_mult (x y : Qc) : (this (x * y)%Qc == x * y)%Q.
Proof. apply Qred_correct. Qed.
Lemma this_opp (x : Qc) : (this (- x)%Qc == - x)%Q.
Proof. apply Qred_correct. Qed.
Lemma this_of_Z z : (this (Qc_of_Z z) == inject_Z z)%Q.
Proof. apply Qred_correct. Qed.

Lemma Qc_ltb_spec (x y : Qc) : Qc_ltb x y = true <-> (x < y)%Q.
Proof. unfold Qc_ltb, Qccompare. rewrite Qlt_alt. destruct (x ?= y)%Q; split; congruence. Qed.

Lemma Qc_trunc_nonneg (q : Qc) : (0 <= q)%Q -> 0 <= Qc_trunc q /\ (inject_Z (Qc_trunc q) <= q < inject_Z (Qc_trunc q) + 1)%Q.
Proof.
  intros Hq. assert (E : Qc_trunc q = Qfloor q).
  { unfold Qc_trunc, Qfloor. destruct (this q) as [n d]. unfold Qle in Hq. cbn in Hq |- *. apply Z.quot_div_nonneg; lia. }
  rewrite E. pose proof (Qfloor_le q). pose proof (Qlt_floor q) as Hl. rewrite inject_Z_plus in Hl.
  split; [exact (Qfloor_resp_le 0 q Hq)|split; [done|exact Hl]].
Qed.

Lemma Qc_trunc_neg (q : Qc) : (q < 0)%Q -> (inject_Z (Qc_trunc q) - 1 < q <= inject_Z (Qc_trunc q))%Q.
Proof.
  intros Hq. assert (E : Qc_trunc q = - Qfloor (- q)).
  { unfold Qc_trunc, Qfloor. destruct (this q) as [n d]. unfold Qlt in Hq. cbn in Hq |- *.
    rewrite <- Z.quot_div_nonneg, Z.quot_opp_l by lia. lia. }
  rewrite E, inject_Z_opp. pose proof (Qfloor_le (- q)). pose proof (Qlt_floor (- q)) as Hl.
  rewrite inject_Z_plus in Hl. change (inject_Z 1) with 1%Q in Hl. split; lra.
Qed.

(** The position in the table: [k] steps and a fraction. *)
Lemma sincos_position (angle : Qc) :
  let temp := (angle - Qc_of_Z (Qc_trunc angle))%Qc in
  let temp := if Qc_ltb temp (Qc_of_Z 0) then (temp + Qc_of_Z 1)%Qc else temp in
  let temp := (temp * Qc_of_Z 512)%Qc in
  let k := Qc_trunc temp in
  0 <= k < 512 /\ (0 <= this (temp - Qc_of_Z k)%Qc <= 1)%Q.
Proof.
  intros t0 t1 temp k.
  assert (H1 : (0 <= this t1 < 1)%Q).
  { subst t1. destruct (Qc_ltb t0 (Qc_of_Z 0)) eqn:E.
    - apply Qc_ltb_spec in E. rewrite this_of_Z in E. change (inject_Z 0) with 0%Q in E.
      rewrite this_plus, this_of_Z. change (inject_Z 1) with 1%Q. subst t0. rewrite this_minus, this_of_Z in *.
      destruct (Qlt_le_dec angle 0) as [Hn|Hp].
      + pose proof (Qc_trunc_neg angle Hn). lra.
      + pose proof (Qc_trunc_nonneg angle Hp). lra.
    - assert (E' : ~ (this t0 < 0)%Q).
      { intros E'. assert (Qc_ltb t0 (Qc_of_Z 0) = true); [|congruence]. apply Qc_ltb_spec.
        rewrite this_of_Z. exact E'. }
      clear E. subst t0. rewrite this_minus, this_of_Z in *. destruct (Qlt_le_dec angle 0) as [Hn|Hp].
      + pose proof (Qc_trunc_neg angle Hn). lra.
      + pose proof (Qc_trunc_nonneg angle Hp). lra. }
  assert (H2 : (0 <= this temp < 512)%Q).
  { subst temp. rewrite this_mult, this_of_Z. change (inject_Z 512) with 512%Q. lra. }
  pose proof (Qc_trunc_nonneg temp ltac:(lra)) as [Hk0 Hk]. fold k in Hk0, Hk.
  rewrite this_minus, this_of_Z. split; [|lra]. split; [done|].
  rewrite Zlt_Qlt. change (inject_Z 512) with 512%Q. lra.
Qed.

(** The table: squares of neighbours and their product sum, in units of 1e-18. *)
Definition sin_at (i : Z) : Z := nth (Z.to_nat i) sin_table_512 0.
Definition near_one (x : Z) : bool := (999920000000000000 <=? x) && (x <=? 1000000010000000000).
Definition table_circle (i : Z) : bool :=
  let a := sin_at i in let b := sin_at (i + 1) in
  let d := sin_at (128 - i) in let e := sin_at (127 - i) in
  near_one (a * a + d * d) && near_one (b * b + e * e) && near_one (a * b + d * e).

Lemma table_circle_all : check_from table_circle 128 0 = true.
Proof. vm_compute. reflexivity. Qed.

Lemma sin_lit i : (this (SIN_TABLE (F := Qc) i) == inject_Z (sin_at i) / 1000000000)%Q.
Proof.
  unfold SIN_TABLE. cbn [f_lit Qc_ops]. unfold Qc_lit. change (0 <=? -9) with false. cbv match.
  change (Qcdiv ?a ?b) with (a * / b)%Qc. rewrite this_mult, this_of_Z.
  transitivity (inject_Z (sin_at i) * / inject_Z 1000000000)%Q; [|reflexivity].
  apply Qmult_comp; [reflexivity|]. unfold Qcinv. etransitivity; [apply Qred_correct|]. by rewrite this_of_Z.
Qed.

Lemma convex_bounds (A B C f lo hi : Q) :
  (lo <= A <= hi)%Q -> (lo <= B <= hi)%Q -> (lo <= C <= hi)%Q -> (0 <= f <= 1)%Q ->
  (lo <= (1 - f) * (1 - f) * A + f * f * B + 2 * (1 - f) * f * C <= hi)%Q.
Proof.
  intros HA HB HC Hf.
  assert (P : forall x y, (0 <= x)%Q -> (0 <= y)%Q -> (0 <= x * y)%Q) by (intros; by apply Qmult_le_0_compat).
  pose proof (P (1 - f) (1 - f) ltac:(lra) ltac:(lra))%Q as U. pose proof (P f f ltac:(lra) ltac:(lra)) as V.
  pose proof (P (1 - f) f ltac:(lra) ltac:(lra))%Q as W.
  pose proof (P _ (A - lo) U ltac:(lra))%Q. pose proof (P _ (hi - A) U ltac:(lra))%Q.
  pose proof (P _ (B - lo) V ltac:(lra))%Q. pose proof (P _ (hi - B) V ltac:(lra))%Q.
  pose proof (P _ (C - lo) W ltac:(lra))%Q. pose proof (P _ (hi - C) W ltac:(lra))%Q.
  clear P U V W. split; nra.
Qed.

Definition norm2 (p : Qc * Qc) : Q := (fst p * fst p + snd p * snd p)%Q.

Lemma near_one_Q x : near_one x = true -> (99992 # 100000 <= inject_Z x / 1000000000000000000 <= 100000001 # 100000000)%Q.
Proof.
  unfold near_one. rewrite andb_true_iff, !Z.leb_le. intros [H1 H2]. rewrite Zle_Qle in H1, H2.
  change (inject_Z 999920000000000000) with (999920000000000000 # 1)%Q in H1.
  change (inject_Z 1000000010000000000) with (1000000010000000000 # 1)%Q in H2.
  unfold Qdiv. change (/ 1000000000000000000)%Q with (1 # 1000000000000000000)%Q. split; lra.
Qed.

Lemma Q_between (x y lo hi : Q) : (x == y)%Q -> (lo <= y <= hi)%Q -> (lo <= x <= hi)%Q.
Proof. by intros ->. Qed.

(** Interpolated values of a table row. *)
Lemma interp_circle i (f : Qc) : 0 <= i < 128 -> (0 <= this f <= 1)%Q ->
  let T := SIN_TABLE (F := Qc) in
  (99992 # 100000 <=
   norm2 (T i + f * (T (i + 1)%Z - T i), T (128 - i)%Z + f * (T (127 - i)%Z - T (128 - i)%Z))%Qc
   <= 100000001 # 100000000)%Q.
Proof.
  intros Hi Hf T. pose proof (check_from_at _ _ _ i table_circle_all ltac:(lia)) as H. unfold table_circle in H.
  rewrite !andb_true_iff in H. destruct H as [[HA HB] HC].
  apply near_one_Q in HA, HB, HC.
  pose proof (convex_bounds _ _ _ (this f) _ _ HA HB HC Hf) as HN.
  unfold norm2. cbn [fst snd]. subst T. rewrite !this_plus, !this_mult, !this_minus, !sin_lit.
  set (a := sin_at i) in *. set (b := sin_at (i + 1)) in *. set (d := sin_at (128 - i)) in *. set (e := sin_at (127 - i)) in *.
  rewrite !inject_Z_plus, !inject_Z_mult in HN.
  eapply Q_between; [|exact HN]. field.
Qed.

(** In exact arithmetic the interpolated sine and cosine satisfy
    0.99992 <= s^2 + c^2 <= 1.00000001 for every angle: a rotation by them keeps
    the magnitude within 4e-5. *)
Theorem vna_sincosf_unit_circle (angle : Qc) :
  (99992 # 100000 <= norm2 (vna_sincosf angle) <= 100000001 # 100000000)%Q.
Proof.
  unfold vna_sincosf. cbn [fsub fadd fmul f_of_Z f_trunc flt Qc_ops f0 f1].
  pose proof (sincos_position angle) as H. cbv zeta in H. change (Z.shiftl 1 SIN_TABLE_N) with 512.
  change (Z.shiftl 1 (SIN_TABLE_N - 2)) with 128. change (SIN_TABLE_N - 2) with 7.
  unfold f0, f1. cbn [f_of_Z Qc_ops].
  set (temp := Qcmult _ (Qc_of_Z 512)) in *. set (k := Qc_trunc temp) in *. destruct H as [Hk Hf].
  set (frac := Qcminus temp (Qc_of_Z k)) in *. clearbody frac.
  change (128 - 1) with (Z.ones 7). rewrite land_mask by lia. change (2 ^ 7) with 128.
  set (i := k mod 128). assert (Hi : 0 <= i < 128) by (apply Z.mod_pos_bound; lia).
  replace (128 - i - 1) with (127 - i) by lia. pose proof (interp_circle i frac Hi Hf) as HN. cbv zeta in HN.
  set (s := Qcplus (SIN_TABLE i) _) in *. set (c := Qcplus (SIN_TABLE (128 - i)) _) in *.
  assert (Eo : forall (b : bool) (x : Qc), (this (if b then - x else x)%Qc * this (if b then - x else x)%Qc == x * x)%Q).
  { intros [] x; [rewrite this_opp; ring|reflexivity]. }
  eapply Q_between; [|exact HN]. unfold norm2.
  destruct (bit_test _ 10); cbn [fneg Qc_ops fst snd]; rewrite !Eo; [ring|reflexivity].
Qed.
