(* ===== verification/Fft.v ===== *)
(** * The fast Fourier transform against its recursive definition (vna_math.c)

    [fft] works in place: bit reversal, then nine passes of butterflies.  The
    reference is the radix-2 recursion on the even and the odd points, with the
    same roots from the sine table; the two agree operation by operation, so the
    statement holds for the machine's floats. *)

From S2P Require Import Prelude Num VnaMath.
Local Open Scope Z_scope.

Section Fft.
Context {F : Type} `{FloatOps F}.
Variable dir : bool.
Implicit Types a b : list (F * F).

(** Sum and difference of a point and a turned point. *)
Definition turned (w : F * F) (l : F * F) : F * F :=
  (ffma (fst l) (snd w) (fmul (fneg (snd l)) (fst w)), ffma (fst l) (fst w) (fmul (snd l) (snd w))).
Definition plus_point (w k l : F * F) : F * F := (fadd (fst k) (fst (turned w l)), fadd (snd k) (snd (turned w l))).
Definition minus_point (w k l : F * F) : F * F := (fsub (fst k) (fst (turned w l)), fsub (snd k) (snd (turned w l))).

(** The transform of the [2 ^ m] points [off], [off + 2 ^ (9 - m)], ... *)
Fixpoint dit (array : list (F * F)) (m : nat) (off k : Z) : F * F :=
  match m with
  | O => point_at array off
  | S m' =>
      let h := 2 ^ Z.of_nat m' in
      let step := 2 ^ (8 - Z.of_nat m') in
      let j := k mod h in
      let even := dit array m' off j in
      let odd := dit array m' (off + step) j in
      let w := twiddle dir (j * step) in
      if k <? h then plus_point w even odd else minus_point w even odd
  end.

Lemma butterfly_points (w : F * F) k l a : 0 <= k -> 0 <= l -> k <> l -> k < Z.of_nat (length a) -> l < Z.of_nat (length a) ->
  let b := butterfly (fst w) (snd w) k l a in
  length b = length a /\ point_at b k = plus_point w (point_at a k) (point_at a l) /\
  point_at b l = minus_point w (point_at a k) (point_at a l) /\
  forall p, 0 <= p -> p <> k -> p <> l -> point_at b p = point_at a p.
Proof.
  intros Hk Hl Hne Lk Ll. unfold butterfly. destruct (point_at a l) as [lr li] eqn:El. destruct (point_at a k) as [kr ki] eqn:Ek.
  cbv zeta. split; [by rewrite !put_point_length|]. split; [|split].
  - rewrite point_put_eq by (rewrite put_point_length; lia). reflexivity.
  - rewrite point_put_ne, point_put_eq by lia. reflexivity.
  - intros p Hp N1 N2. by rewrite !point_put_ne by lia.
Qed.

(** ** One pass *)

Section Pass.
Variable h : Z.
Hypothesis Hh : exists m, 0 <= m <= 8 /\ h = 2 ^ m.

(** What a pass with distance [h] makes of point [p]. *)
Definition passed (w : F * F) a (p : Z) : F * F :=
  if p mod (2 * h) <? h then plus_point w (point_at a p) (point_at a (p + h))
  else minus_point w (point_at a (p - h)) (point_at a p).

Lemma pass_blocks : exists q, 512 = 2 * h * q /\ 1 <= h <= 256 /\ 1 <= q.
Proof.
  destruct Hh as (m & Hm & ->). exists (2 ^ (8 - m)).
  assert (E : 2 ^ m * 2 ^ (8 - m) = 256) by (rewrite <- Z.pow_add_r by lia; by replace (m + (8 - m)) with 8 by lia).
  pose proof (Z.pow_pos_nonneg 2 m ltac:(lia) ltac:(lia)). pose proof (Z.pow_pos_nonneg 2 (8 - m) ltac:(lia) ltac:(lia)).
  split; [lia|]. split; [nia|lia].
Qed.

Lemma mod_half p : p mod h = if p mod (2 * h) <? h then p mod (2 * h) else p mod (2 * h) - h.
Proof.
  destruct pass_blocks as (q & _ & Hb & _). pose proof (Z.div_mod p (2 * h) ltac:(lia)). pose proof (Z.mod_pos_bound p (2 * h) ltac:(lia)).
  symmetry. destruct (Z.ltb_spec (p mod (2 * h)) h).
  - apply (Z.mod_unique_pos p h (2 * (p / (2 * h)))); lia.
  - apply (Z.mod_unique_pos p h (2 * (p / (2 * h)) + 1)); lia.
Qed.

(** Where a point lies in its block. *)
Lemma block_of p : 0 <= p -> exists u r, 0 <= u /\ 0 <= r < 2 * h /\ p = 2 * h * u + r /\ p mod (2 * h) = r.
Proof.
  intros Hp. destruct pass_blocks as (q & _ & Hb & _). exists (p / (2 * h)), (p mod (2 * h)).
  pose proof (Z.div_mod p (2 * h) ltac:(lia)). pose proof (Z.mod_pos_bound p (2 * h) ltac:(lia)).
  pose proof (Z.div_pos p (2 * h) Hp ltac:(lia)). repeat split; lia.
Qed.

(** Every point of the block that starts at [k] and of the later ones. *)
Lemma passed_step w i k a a' p : 0 <= i < h -> 0 <= k -> k mod (2 * h) = i -> 0 <= p -> k <= p ->
  point_at a' k = plus_point w (point_at a k) (point_at a (k + h)) ->
  point_at a' (k + h) = minus_point w (point_at a k) (point_at a (k + h)) ->
  (forall j, 0 <= j -> j <> k -> j <> k + h -> point_at a' j = point_at a j) ->
  (if (p mod h =? i) && (k + h + h <=? p) then passed w a' p else point_at a' p) =
  (if p mod h =? i then passed w a p else point_at a p).
Proof.
  intros Hi Hk Hm Hp Hkp Ek El Eo. destruct pass_blocks as (q & _ & Hb & _).
  destruct (block_of p Hp) as (u & r & Hu & Hr & Ep & Er). destruct (block_of k Hk) as (t & i' & Ht & _ & Ekt & Ei).
  assert (i' = i) as -> by congruence. unfold passed. rewrite mod_half, Er.
  assert (Htu : t <= u) by nia.
  destruct (Z.eq_dec t u) as [<-|Hne].
  - replace (k + h + h <=? p) with false by lia. rewrite andb_false_r.
    destruct (Z.ltb_spec r h).
    + destruct (Z.eqb_spec r i) as [->|]; [by replace p with k by lia|]. apply Eo; lia.
    + destruct (Z.eqb_spec (r - h) i) as [E|]; [|apply Eo; lia]. replace p with (k + h) by lia. by replace (k + h - h) with k by lia.
  - assert (Hge : 2 * h * t + 2 * h <= 2 * h * u) by nia.
    set (X := 2 * h * t) in *. set (U := 2 * h * u) in *. clearbody X U. clear Hne Htu Hu Ht Er Ei Hm.
    destruct (Z.ltb_spec r h).
    + destruct (Z.eqb_spec r i) as [->|]; cbn [andb]; [|apply Eo; lia].
      rewrite (proj2 (Z.leb_le _ _)) by lia. by rewrite !Eo by lia.
    + destruct (Z.eqb_spec (r - h) i); cbn [andb]; [|apply Eo; lia].
      rewrite (proj2 (Z.leb_le _ _)) by lia. by rewrite !Eo by lia.
Qed.

(** The points of residue [i] from [k] on are done. *)
Lemma k_loop_points w i fuel : 0 <= i < h -> forall k a, length a = 512%nat -> 0 <= k ->
  k mod (2 * h) = i -> 512 - k <= 2 * h * Z.of_nat fuel ->
  let b := fft_k_loop fuel (fst w) (snd w) h k a in
  length b = 512%nat /\ forall p, 0 <= p < 512 ->
  point_at b p = if (p mod h =? i) && (k <=? p) then passed w a p else point_at a p.
Proof.
  intros Hi. destruct pass_blocks as (q & Eq & Hb & Hq).
  induction fuel as [|fuel IH]; intros k a La Hk Hm Hf; cbn [fft_k_loop]; change (Z.shiftl 1 FFT_N) with 512.
  - destruct (Z.ltb_spec k 512); [lia|]. split; [done|]. intros p Hp. rewrite (proj2 (Z.leb_gt k p)) by lia. by rewrite andb_false_r.
  - destruct (Z.ltb_spec k 512) as [Hlt|Hge].
    2: { split; [done|]. intros p Hp. rewrite (proj2 (Z.leb_gt k p)) by lia. by rewrite andb_false_r. }
    destruct (block_of k Hk) as (t & r & Ht & Hr & Ekt & Er). assert (r = i) as -> by congruence.
    assert (Htq : t + 1 <= q) by nia. assert (Hl : k + h < 512) by nia.
    destruct (butterfly_points w k (k + h) a) as (Lb & Bk & Bl & Bo); [lia..|].
    destruct (IH (k + h + h) (butterfly (fst w) (snd w) k (k + h) a)) as [Lr Pr]; [congruence|lia| |lia|].
    { replace (k + h + h) with (k + 1 * (2 * h)) by lia. by rewrite Z.mod_add by lia. }
    split; [done|]. intros p Hp. rewrite (Pr p Hp). destruct (Z.leb_spec k p) as [Hkp|Hkp].
    + rewrite andb_true_r. apply (passed_step w i k); done || lia.
    + rewrite andb_false_r, (proj2 (Z.leb_gt (k + h + h) p)), andb_false_r by lia. apply Bo; lia.
Qed.

(** A point only depends on the points of its residue. *)
Lemma passed_ext w a b p : 0 <= p < 512 ->
  (forall j, 0 <= j < 512 -> j mod h = p mod h -> point_at b j = point_at a j) -> passed w b p = passed w a p.
Proof.
  intros Hp Hext. destruct pass_blocks as (q & Eq & Hb & Hq). destruct (block_of p ltac:(lia)) as (u & r & Hu & Hr & Ep & Er).
  assert (Huq : u + 1 <= q) by nia. assert (Hle : 2 * h * u + 2 * h <= 512) by nia.
  assert (Hup : (p + h) mod h = p mod h) by (rewrite <- (Z.mul_1_l h) at 1; by rewrite Z.mod_add by lia).
  assert (Hdown : (p - h) mod h = p mod h).
  { rewrite <- (Z.mod_add (p - h) 1 h) by lia. f_equal. lia. }
  unfold passed. rewrite Er. assert (HU : 0 <= 2 * h * u) by nia. set (U := 2 * h * u) in *. clearbody U. clear Huq Hu Eq Er.
  destruct (Z.ltb_spec r h); by rewrite !Hext by (first [assumption | reflexivity | lia]).
Qed.

Lemma fft_pass_points a : length a = 512%nat -> let step := 256 / h in
  let b := fft_pass dir h step a in
  length b = 512%nat /\ forall p, 0 <= p < 512 -> point_at b p = passed (twiddle dir (p mod h * step)) a p.
Proof.
  intros La step. destruct pass_blocks as (q & Eq & Hb & Hq). unfold fft_pass.
  set (body := fun i array => let '(s, c) := twiddle dir (i * step) in fft_k_loop 256 s c h i array).
  assert (G : length (for_range 0 h body a) = 512%nat /\ forall p, 0 <= p < 512 ->
    point_at (for_range 0 h body a) p = if p mod h <? h then passed (twiddle dir (p mod h * step)) a p else point_at a p).
  { apply (for_range_ind (fun n b => length b = 512%nat /\ forall p, 0 <= p < 512 ->
      point_at b p = if p mod h <? n then passed (twiddle dir (p mod h * step)) a p else point_at a p)); [lia| |].
    - split; [done|]. intros p Hp. pose proof (Z.mod_pos_bound p h ltac:(lia)). by rewrite (proj2 (Z.ltb_ge _ 0)) by lia.
    - intros i b Hi [Lb Pb]. unfold body. destruct (twiddle dir (i * step)) as [s c] eqn:Ew.
      destruct (k_loop_points (s, c) i 256 Hi i b Lb) as [Lr Pr]; [lia|by rewrite Z.mod_small by lia|lia|].
      split; [exact Lr|]. intros p Hp. change (fft_k_loop 256 s c) with (fft_k_loop 256 (fst (s, c)) (snd (s, c))). rewrite (Pr p Hp).
      cbn [fst snd]. destruct (Z.eqb_spec (p mod h) i) as [Ei|Ne].
      + assert (Hip : i <= p) by (rewrite <- Ei; apply Z.mod_le; lia). rewrite (proj2 (Z.leb_le i p) Hip). cbn [andb].
        rewrite (proj2 (Z.ltb_lt _ (i + 1))) by lia. rewrite Ei, Ew. apply passed_ext; [done|].
        intros j Hj Ej. rewrite (Pb j Hj). by rewrite (proj2 (Z.ltb_ge _ i)) by lia.
      + cbn [andb]. rewrite (Pb p Hp). by replace (p mod h <? i + 1) with (p mod h <? i) by (repeat zcase; lia). }
  destruct G as [G1 G2]. split; [exact G1|]. intros p Hp. rewrite (G2 p Hp).
  pose proof (Z.mod_pos_bound p h ltac:(lia)). by rewrite (proj2 (Z.ltb_lt _ h)) by lia.
Qed.
End Pass.

(** ** The nine passes *)

Definition rev_halves (n q : Z) : bool :=
  (reverse_bits (2 * q) n =? reverse_bits q (n - 1)) && (reverse_bits (2 * q + 1) n =? reverse_bits q (n - 1) + 2 ^ (n - 1)).
Lemma rev_halves_all : forallb (fun n => forallb (rev_halves n) (seqZ 0 (2 ^ (n - 1)))) (seqZ 1 9) = true.
Proof. vm_compute. reflexivity. Qed.

Lemma reverse_bits_halves n q : 1 <= n <= 9 -> 0 <= q < 2 ^ (n - 1) ->
  reverse_bits (2 * q) n = reverse_bits q (n - 1) /\ reverse_bits (2 * q + 1) n = reverse_bits q (n - 1) + 2 ^ (n - 1).
Proof.
  intros Hn Hq. pose proof rev_halves_all as A. rewrite forallb_forall in A.
  specialize (A n ltac:(apply list_elem_of_In, elem_of_seqZ; lia)). rewrite forallb_forall in A.
  specialize (A q ltac:(apply list_elem_of_In, elem_of_seqZ; lia)). apply andb_prop in A as [A1 A2].
  apply Z.eqb_eq in A1, A2. by split.
Qed.

(** After [m] passes every block of [2 ^ m] points is a transform. *)
Definition blocks (array : list (F * F)) (m : nat) b : Prop :=
  length b = 512%nat /\ forall q k, 0 <= q < 2 ^ (9 - Z.of_nat m) -> 0 <= k < 2 ^ Z.of_nat m ->
  point_at b (q * 2 ^ Z.of_nat m + k) = dit array m (reverse_bits q (9 - Z.of_nat m)) k.

Lemma blocks_step array m b : (m <= 8)%nat -> blocks array m b ->
  blocks array (S m) (fft_pass dir (2 ^ Z.of_nat m) (2 ^ (8 - Z.of_nat m)) b).
Proof.
  intros Hm [Lb Pb]. set (h := 2 ^ Z.of_nat m) in *.
  assert (Hpow : exists m, 0 <= m <= 8 /\ h = 2 ^ m) by (exists (Z.of_nat m); split; [lia|done]).
  assert (Hstep : 2 ^ (8 - Z.of_nat m) = 256 / h).
  { unfold h. change 256 with (2 ^ 8). rewrite Z.pow_sub_r by lia. done. }
  assert (Hh : 1 <= h) by (unfold h; pose proof (Z.pow_pos_nonneg 2 (Z.of_nat m) ltac:(lia) ltac:(lia)); lia).
  assert (Hhs : 2 ^ Z.of_nat (S m) = 2 * h) by (unfold h; rewrite Nat2Z.inj_succ, Z.pow_succ_r by lia; done).
  assert (Hcount : 2 ^ (9 - Z.of_nat (S m)) * (2 * h) = 512).
  { rewrite <- Hhs, <- Z.pow_add_r by lia. by replace (9 - Z.of_nat (S m) + Z.of_nat (S m)) with 9 by lia. }
  assert (Hdouble : 2 ^ (9 - Z.of_nat m) = 2 * 2 ^ (9 - Z.of_nat (S m))).
  { rewrite <- Z.pow_succ_r by lia. f_equal. lia. }
  destruct (fft_pass_points h Hpow b Lb) as [Lr Pr]. cbv zeta in Lr, Pr. rewrite <- Hstep in Lr, Pr. split; [exact Lr|].
  intros q k Hq Hk. rewrite Hhs in *. set (N := 2 ^ (9 - Z.of_nat (S m))) in *.
  assert (Hqn : q * (2 * h) + 2 * h <= 512) by nia.
  rewrite Pr by lia. unfold passed. rewrite (Z.add_comm (q * (2 * h)) k), Z.mod_add by lia. rewrite (Z.mod_small k) by lia.
  replace ((k + q * (2 * h)) mod h) with (k mod h) by (replace (k + q * (2 * h)) with (k + (2 * q) * h) by lia; by rewrite Z.mod_add by lia).
  destruct (reverse_bits_halves (9 - Z.of_nat m) q) as [R0 R1]; [lia|split; [lia|replace (9 - Z.of_nat m - 1) with (9 - Z.of_nat (S m)) by lia; lia]|].
  replace (9 - Z.of_nat m - 1) with (9 - Z.of_nat (S m)) in R0, R1 by lia.
  replace (2 ^ (9 - Z.of_nat (S m))) with (2 ^ (8 - Z.of_nat m)) in R1 by (f_equal; lia).
  cbn [dit]. cbv zeta. fold h. set (off := reverse_bits q (9 - Z.of_nat (S m))) in *.
  destruct (Z.ltb_spec k h).
  - rewrite (Z.mod_small k h) by lia. replace (k + q * (2 * h)) with ((2 * q) * h + k) by lia.
    replace (2 * q * h + k + h) with ((2 * q + 1) * h + k) by lia. rewrite !Pb by lia. by rewrite R0, R1.
  - rewrite <- (Z.mod_unique_pos k h 1 (k - h)) by lia.
    replace (k + q * (2 * h) - h) with ((2 * q) * h + (k - h)) by lia.
    replace (k + q * (2 * h)) with ((2 * q + 1) * h + (k - h)) by lia. rewrite !Pb by lia. by rewrite R0, R1.
Qed.

Lemma size_loop_blocks array fuel : forall m b, (m <= 9)%nat -> (9 - m <= fuel)%nat -> blocks array m b ->
  blocks array 9 (fft_size_loop fuel dir (2 ^ Z.of_nat m) (2 ^ (8 - Z.of_nat m)) b).
Proof.
  induction fuel as [|fuel IH]; intros m b Hm Hf Hb; cbn [fft_size_loop]; change (Z.shiftl 1 FFT_N) with (2 ^ 9).
  - assert (m = 9)%nat as -> by lia. exact Hb.
  - destruct (Z.ltb_spec (2 ^ Z.of_nat m) (2 ^ 9)) as [Hlt|Hge].
    + apply Z.pow_lt_mono_r_iff in Hlt; [|lia|lia].
      rewrite Z.shiftl_mul_pow2, Z.shiftr_div_pow2 by lia.
      replace (2 ^ Z.of_nat m * 2 ^ 1) with (2 ^ Z.of_nat (S m)) by (rewrite <- Z.pow_add_r by lia; f_equal; lia).
      destruct (Z.eq_dec (Z.of_nat m) 8) as [E8|N8].
      * replace (2 ^ (8 - Z.of_nat m) / 2 ^ 1) with 0 by (by rewrite E8).
        assert (m = 8)%nat as -> by lia. assert (Hb' : blocks array 9 (fft_pass dir (2 ^ Z.of_nat 8) (2 ^ (8 - Z.of_nat 8)) b)) by (by apply blocks_step).
        destruct fuel; exact Hb'.
      * rewrite <- Z.pow_sub_r by lia. replace (8 - Z.of_nat m - 1) with (8 - Z.of_nat (S m)) by lia.
        apply IH; [lia|lia|]. by apply blocks_step; [lia|].
    + assert (m = 9)%nat as ->; [|exact Hb]. apply Z.pow_le_mono_r_iff in Hge; lia.
Qed.

Lemma fft_points (array : list (F * F)) : length array = 512%nat ->
  length (fft array dir) = 512%nat /\ forall k, 0 <= k < 512 -> point_at (fft array dir) k = dit array 9 0 k.
Proof.
  intros La. destruct (fft_reorder_points array La) as [Lr Pr].
  assert (B0 : blocks array 0 (fft_reorder array)).
  { split; [exact Lr|]. intros q k Hq Hk. change (2 ^ (9 - Z.of_nat 0)) with 512 in *.
    change (2 ^ Z.of_nat 0) with 1 in *. replace (q * 1 + k) with q by (clear -Hk; lia).
    rewrite Pr by lia. reflexivity. }
  pose proof (size_loop_blocks array 9 0 (fft_reorder array) ltac:(lia) ltac:(lia) B0) as B9.
  change (2 ^ Z.of_nat 0) with 1 in B9. change (2 ^ (8 - Z.of_nat 0)) with (Z.shiftl 1 SIN_TABLE_N / 2) in B9.
  unfold fft. generalize dependent (fft_size_loop 9 dir 1 (Z.shiftl 1 SIN_TABLE_N / 2) (fft_reorder array)). intros r B9. destruct B9 as [L9 P9]. split; [exact L9|]. intros k Hk.
  specialize (P9 0 k). change (2 ^ Z.of_nat 9) with 512 in P9. change (reverse_bits 0 (9 - Z.of_nat 9)) with 0 in P9.
  change (2 ^ (9 - Z.of_nat 9)) with 1 in P9. specialize (P9 ltac:(clear; lia) Hk). exact P9.
Qed.

(** C21: The in-place transform is the recursive radix-2 transform: on 512 points,
    in either direction, whatever the arithmetic (the operations are the same in
    the same order, so the agreement is exact for machine floats too), point [k]
    of the result is the recursion on even and odd points with the roots of the
    sine table. *)
Theorem fft_is_radix2 (array : list (F * F)) : length array = 512%nat ->
  length (fft array dir) = 512%nat /\ forall k, 0 <= k < 512 -> point_at (fft array dir) k = dit array 9 0 k.
Proof. exact (fft_points array). Qed.
End Fft.

Lemma fft_is_radix2_witness :
  let a := map (fun i => (f_of_Z i, f_of_Z 0)) (seqZ 0 512) : list (SpecFloat.spec_float * SpecFloat.spec_float) in
  point_at (fft a true) 3 = dit true a 9 0 3.
Proof. intros a. exact (proj2 (fft_is_radix2 true a eq_refl) 3 ltac:(lia)). Defined.
