(* ===== verification/Dsp.v ===== *)
(** * Signal processing (dsp.c, dsp.h) and the sampling interrupt (main.c)

    The quadrature correlation of the sampled IF with a sine table, the ratio
    of the two channels, and the interrupt that discards the first buffer
    after a switch and accumulates the following ones. *)

From S2P Require Import Prelude Num Codec.
From Stdlib Require Import Field.

(** ** dsp.h: the multiply-accumulate instructions

    [lo16]/[hi16] are the signed halves of a 32-bit register. *)

Definition lo16 (x : Z) : Z := s16 x.
Definition hi16 (x : Z) : Z := s16 (Z.shiftr x 16).

Definition __smlabb (x y acc : Z) : Z := s32 (lo16 x * lo16 y + acc).
Definition __smlabt (x y acc : Z) : Z := s32 (lo16 x * hi16 y + acc).
Definition __smlatb (x y acc : Z) : Z := s32 (hi16 x * lo16 y + acc).
Definition __smlatt (x y acc : Z) : Z := s32 (hi16 x * hi16 y + acc).
Definition __smlalbb (acc x y : Z) : Z := s64 (lo16 x * lo16 y + acc).
Definition __smlalbt (acc x y : Z) : Z := s64 (lo16 x * hi16 y + acc).
Definition __smlaltb (acc x y : Z) : Z := s64 (hi16 x * lo16 y + acc).
Definition __smlaltt (acc x y : Z) : Z := s64 (hi16 x * hi16 y + acc).

(** ** dsp.c: accumulators *)

Record accs := Accs { acc_samp_s : Z; acc_samp_c : Z; acc_ref_s : Z; acc_ref_c : Z }.

Definition reset_dsp_accumerator : accs := Accs 0 0 0 0.

(** [((int32_t * )a)[i]] for an array of 16-bit samples (little endian). *)
Definition word_at (a : list Z) (i : nat) : Z :=
  s32 (u16 (nth (2 * i) a 0) + 65536 * nth (2 * i + 1) a 0).

Definition dsp_step (sincos_tbl capture : list Z) (i : nat) (a : accs) : accs :=
  let sc := word_at sincos_tbl i in
  let sr := word_at capture i in
  Accs (__smlaltb (acc_samp_s a) sr sc) (__smlaltt (acc_samp_c a) sr sc)
       (__smlalbb (acc_ref_s a) sr sc) (__smlalbt (acc_ref_c a) sr sc).

(** [do { ... i++; } while (i < length/2);] with [n] turns left after this one. *)
Fixpoint dsp_loop (n : nat) (tbl capture : list Z) (i : nat) (a : accs) : accs :=
  let a := dsp_step tbl capture i a in
  match n with
  | O => a
  | S n' => dsp_loop n' tbl capture (S i) a
  end.

Definition dsp_process (tbl capture : list Z) (length : nat) (a : accs) : accs :=
  dsp_loop (Nat.pred (length / 2)) tbl capture 0 a.

(** ** Ratio of the channels *)

Section Gamma.
Context {F : Type} `{FloatOps F}.
Local Open Scope float_scope.

Definition calculate_gamma (a : accs) : F * F :=
  let rc : F := f_of_Z (acc_ref_c a) in
  let rs_rc := f_of_Z (acc_ref_s a) / rc in
  let sc_rc := f_of_Z (acc_samp_c a) / rc in
  let ss_rc := f_of_Z (acc_samp_s a) / rc in
  let rr := rs_rc * rs_rc + f1 in
  ((sc_rc + ss_rc * rs_rc) / rr, (ss_rc - sc_rc * rs_rc) / rr).

Definition fetch_amplitude (a : accs) : F * F :=
  (f_of_Z (acc_samp_s a) * f_lit 1 (-9), f_of_Z (acc_samp_c a) * f_lit 1 (-9)).

Definition fetch_amplitude_ref (a : accs) : F * F :=
  (f_of_Z (acc_ref_s a) * f_lit 1 (-9), f_of_Z (acc_ref_c a) * f_lit 1 (-9)).
End Gamma.

(** ** The sampling interrupt (main.c) *)

Definition AUDIO_BUFFER_LEN : nat := 96.

(** [wait_count], [ready_time] and the accumulators. *)
Record sampler := Sampler { wait_count : Z; ready_time : Z; acc : accs }.

Definition DSP_START (now delay bandwidth : Z) (s : sampler) : sampler :=
  Sampler (u16 (bandwidth + 2)) (u32 (now + delay)) (acc s).

(** One interrupt: the clock, whether the transfer is complete (second half
    of the buffer), and the DMA buffer. *)
Record irq := Irq { irq_now : Z; irq_full : bool; rx_buffer : list Z }.

Definition irq_half (q : irq) : list Z :=
  if irq_full q then drop AUDIO_BUFFER_LEN (rx_buffer q) else rx_buffer q.

Definition i2s_lld_serve_rx_interrupt (tbl : list Z) (bandwidth : Z) (q : irq) (s : sampler)
  : sampler :=
  let wait := wait_count s in
  if (wait =? 0) || (s32 (irq_now q - ready_time s) <? 0) then s else
  let a := if bandwidth + 2 <=? wait then reset_dsp_accumerator
           else dsp_process tbl (irq_half q) AUDIO_BUFFER_LEN (acc s) in
  Sampler (u16 (wait - 1)) (ready_time s) a.

Definition run_irqs (tbl : list Z) (bandwidth : Z) (qs : list irq) (s : sampler) : sampler :=
  fold_left (fun s q => i2s_lld_serve_rx_interrupt tbl bandwidth q s) qs s.

(** ** Reference: correlation sums over integers *)

(** Sum over the first [n] samples of [ch] (0: reference, 1: signal) times
    column [k] (0: sine, 1: cosine) of the table. *)
Fixpoint corr (tbl capture : list Z) (ch k : nat) (i n : nat) : Z :=
  match n with
  | O => 0
  | S n' => nth (2 * i + ch) capture 0 * nth (2 * i + k) tbl 0 + corr tbl capture ch k (S i) n'
  end.

Definition corrs (tbl capture : list Z) (i n : nat) : accs :=
  Accs (corr tbl capture 1 0 i n) (corr tbl capture 1 1 i n)
       (corr tbl capture 0 0 i n) (corr tbl capture 0 1 i n).

Definition accs_add (a b : accs) : accs :=
  Accs (acc_samp_s a + acc_samp_s b) (acc_samp_c a + acc_samp_c b)
       (acc_ref_s a + acc_ref_s b) (acc_ref_c a + acc_ref_c b).

Definition accs_zero : accs := Accs 0 0 0 0.

Definition int16 (x : Z) : Prop := -32768 <= x < 32768.
Definition samples (l : list Z) : Prop := Forall int16 l.
Definition accs_within (B : Z) (a : accs) : Prop :=
  -B <= acc_samp_s a <= B /\ -B <= acc_samp_c a <= B /\
  -B <= acc_ref_s a <= B /\ -B <= acc_ref_c a <= B.

(** ** Lemmas *)

Lemma samples_nth l i : samples l -> int16 (nth i l 0).
Proof.
  intros H. destruct (Nat.lt_ge_cases i (length l)) as [Hi|Hi].
  - unfold samples in H. rewrite List.Forall_forall in H. apply H, nth_In, Hi.
  - rewrite nth_overflow by done. unfold int16. lia.
Qed.

Lemma samples_repeat x n : int16 x -> samples (repeat x n).
Proof. intros H. apply List.Forall_forall. intros y Hy. apply repeat_spec in Hy as ->. done. Qed.

Lemma word_halves a i : samples a ->
  lo16 (word_at a i) = nth (2 * i) a 0 /\ hi16 (word_at a i) = nth (2 * i + 1) a 0.
Proof.
  intros Ha. pose proof (samples_nth a (2 * i) Ha) as H0. pose proof (samples_nth a (2 * i + 1) Ha) as H1.
  unfold word_at, lo16, hi16. set (x := nth (2 * i) a 0) in *. set (y := nth (2 * i + 1) a 0) in *.
  clearbody x y. rewrite Z.shiftr_div_pow2 by lia. change (2 ^ 16) with 65536.
  unfold int16 in *. rewrite s32_small by (unfold u16; lia). unfold s16, u16. split; lia.
Qed.

Lemma int16_mul x y : int16 x -> int16 y -> -(2 ^ 30) <= x * y <= 2 ^ 30.
Proof. unfold int16. nia. Qed.

Lemma s64_small x : - 2 ^ 63 <= x < 2 ^ 63 -> s64 x = x.
Proof. unfold s64. lia. Qed.

(** One sample, when the accumulators have room for it. *)
Lemma dsp_step_exact tbl capture i a B :
  samples tbl -> samples capture -> accs_within B a -> B + 2 ^ 30 < 2 ^ 63 ->
  dsp_step tbl capture i a = accs_add (corrs tbl capture i 1) a /\
  accs_within (B + 2 ^ 30) (dsp_step tbl capture i a).
Proof.
  intros Ht Hc (A1 & A2 & A3 & A4) HB.
  destruct (word_halves tbl i Ht) as [T0 T1]. destruct (word_halves capture i Hc) as [C0 C1].
  assert (M : forall x y, -(2 ^ 30) <= nth x capture 0 * nth y tbl 0 <= 2 ^ 30)
    by (intros; apply int16_mul; by apply samples_nth).
  pose proof (M (2 * i)%nat (2 * i)%nat). pose proof (M (2 * i)%nat (2 * i + 1)%nat).
  pose proof (M (2 * i + 1)%nat (2 * i)%nat). pose proof (M (2 * i + 1)%nat (2 * i + 1)%nat).
  unfold dsp_step, __smlaltb, __smlaltt, __smlalbb, __smlalbt. rewrite T0, T1, C0, C1.
  rewrite !s64_small by lia.
  unfold accs_add, corrs, accs_within. cbn [corr acc_samp_s acc_samp_c acc_ref_s acc_ref_c].
  rewrite !Nat.add_0_r. split; [f_equal; lia|lia].
Qed.

Lemma corr_split tbl capture ch k n : forall i,
  corr tbl capture ch k i (S n) = corr tbl capture ch k i 1 + corr tbl capture ch k (S i) n.
Proof. intros i. cbn [corr]. lia. Qed.

Lemma corrs_split tbl capture i n :
  corrs tbl capture i (S n) = accs_add (corrs tbl capture i 1) (corrs tbl capture (S i) n).
Proof. unfold corrs, accs_add. cbn [acc_samp_s acc_samp_c acc_ref_s acc_ref_c]. by rewrite <- !corr_split. Qed.

Lemma accs_add_assoc a b c : accs_add a (accs_add b c) = accs_add (accs_add a b) c.
Proof. unfold accs_add. cbn. f_equal; lia. Qed.
Lemma accs_add_comm a b : accs_add a b = accs_add b a.
Proof. unfold accs_add. f_equal; lia. Qed.

Lemma dsp_loop_exact n : forall tbl capture i a B,
  samples tbl -> samples capture -> accs_within B a -> B + Z.of_nat (S n) * 2 ^ 30 < 2 ^ 63 ->
  dsp_loop n tbl capture i a = accs_add a (corrs tbl capture i (S n)) /\
  accs_within (B + Z.of_nat (S n) * 2 ^ 30) (dsp_loop n tbl capture i a).
Proof.
  induction n as [|n IH]; intros tbl capture i a B Ht Hc Ha HB; cbn [dsp_loop];
    destruct (dsp_step_exact tbl capture i a B Ht Hc Ha ltac:(lia)) as [E W].
  - rewrite E, accs_add_comm. rewrite E, accs_add_comm in W. split; [done|]. by replace (Z.of_nat 1 * 2 ^ 30) with (2 ^ 30) by lia.
  - destruct (IH tbl capture (S i) _ (B + 2 ^ 30) Ht Hc W ltac:(lia)) as [E' W'].
    split; [by rewrite E', E, (corrs_split tbl capture i (S n)), accs_add_assoc,
                    (accs_add_comm (corrs tbl capture i 1))|].
    replace (B + Z.of_nat (S (S n)) * 2 ^ 30) with (B + 2 ^ 30 + Z.of_nat (S n) * 2 ^ 30) by lia. done.
Qed.

Lemma dsp_process_exact tbl capture a B :
  samples tbl -> samples capture -> accs_within B a -> B + 48 * 2 ^ 30 < 2 ^ 63 ->
  dsp_process tbl capture AUDIO_BUFFER_LEN a = accs_add a (corrs tbl capture 0 48) /\
  accs_within (B + 48 * 2 ^ 30) (dsp_process tbl capture AUDIO_BUFFER_LEN a).
Proof.
  intros. unfold dsp_process. change (Nat.pred (AUDIO_BUFFER_LEN / 2)) with 47%nat.
  apply (dsp_loop_exact 47); auto.
Qed.

(** *** The interrupt sequence *)

(** Interrupts that come before [ready_time]. *)
Definition live (ready : Z) (q : irq) : bool := negb (s32 (irq_now q - ready) <? 0).

Definition half_sums (tbl : list Z) (qs : list irq) : accs :=
  fold_left (fun a q => accs_add a (corrs tbl (irq_half q) 0 48)) qs accs_zero.

Lemma half_sums_acc tbl qs : forall a,
  fold_left (fun a q => accs_add a (corrs tbl (irq_half q) 0 48)) qs a = accs_add a (half_sums tbl qs).
Proof.
  unfold half_sums. induction qs as [|q qs IH]; intros a; cbn [fold_left].
  - unfold accs_add, accs_zero. destruct a. cbn. f_equal; lia.
  - rewrite IH, (IH (accs_add accs_zero _)). unfold accs_add, accs_zero. cbn. f_equal; lia.
Qed.

Lemma accs_add_0_r a : accs_add a accs_zero = a.
Proof. destruct a. unfold accs_add, accs_zero. cbn. f_equal; lia. Qed.

Lemma run_irqs_live tbl bw qs : forall s,
  run_irqs tbl bw qs s = run_irqs tbl bw (List.filter (live (ready_time s)) qs) s.
Proof.
  induction qs as [|q qs IH]; intros s; [done|]. cbn [List.filter].
  assert (R : ready_time (i2s_lld_serve_rx_interrupt tbl bw q s) = ready_time s).
  { unfold i2s_lld_serve_rx_interrupt. by destruct (_ || _). }
  unfold live at 1. destruct (s32 (irq_now q - ready_time s) <? 0) eqn:E; cbn [negb].
  - cbn [run_irqs fold_left]. fold (run_irqs tbl bw). rewrite <- IH. unfold run_irqs at 1. f_equal.
    unfold i2s_lld_serve_rx_interrupt. by rewrite E, orb_true_r.
  - cbn [run_irqs fold_left]. change (run_irqs tbl bw qs (i2s_lld_serve_rx_interrupt tbl bw q s) =
      run_irqs tbl bw (List.filter (live (ready_time s)) qs) (i2s_lld_serve_rx_interrupt tbl bw q s)).
    rewrite IH, R. done.
Qed.

Lemma run_irqs_stopped tbl bw qs : forall s, wait_count s = 0 -> run_irqs tbl bw qs s = s.
Proof.
  induction qs as [|q qs IH]; intros s Hs; [done|]. cbn [run_irqs fold_left].
  replace (i2s_lld_serve_rx_interrupt tbl bw q s) with s; [by apply IH|].
  unfold i2s_lld_serve_rx_interrupt. by rewrite Hs.
Qed.

(** Accumulating phase: [w] buffers still wanted. *)
Lemma run_irqs_acc tbl bw qs : forall s B,
  samples tbl -> Forall (fun q => samples (rx_buffer q)) qs ->
  Forall (fun q => live (ready_time s) q = true) qs ->
  0 <= wait_count s <= bw + 1 -> bw < 512 ->
  accs_within B (acc s) -> B + wait_count s * (48 * 2 ^ 30) < 2 ^ 63 ->
  let w := Z.to_nat (wait_count s) in
  run_irqs tbl bw qs s =
  Sampler (Z.max 0 (wait_count s - Z.of_nat (length qs))) (ready_time s)
          (accs_add (acc s) (half_sums tbl (take w qs))).
Proof.
  induction qs as [|q qs IH]; intros s B Ht Hq Hl Hw Hbw HB HBo; cbn zeta.
  - rewrite take_nil. change (half_sums tbl []) with accs_zero. rewrite accs_add_0_r.
    destruct s as [w r a]. cbn in *. f_equal; lia.
  - apply Forall_cons in Hq as [Hq Hqs]. apply Forall_cons in Hl as [Hlq Hls].
    destruct (Z.eq_dec (wait_count s) 0) as [E0|E0].
    { rewrite run_irqs_stopped by done. rewrite E0. change (take (Z.to_nat 0) (q :: qs)) with (@nil irq).
      change (half_sums tbl []) with accs_zero. rewrite accs_add_0_r.
      destruct s as [w r a]. cbn in *. f_equal; lia. }
    cbn [run_irqs fold_left]. unfold live in Hlq. apply negb_true_iff in Hlq.
    assert (Hh : samples (irq_half q)).
    { unfold irq_half. destruct (irq_full q); [|done]. by apply Forall_drop. }
    destruct (dsp_process_exact tbl (irq_half q) (acc s) B Ht Hh HB ltac:(nia)) as [P1 P2].
    assert (E : i2s_lld_serve_rx_interrupt tbl bw q s =
                Sampler (wait_count s - 1) (ready_time s) (dsp_process tbl (irq_half q) AUDIO_BUFFER_LEN (acc s))).
    { unfold i2s_lld_serve_rx_interrupt. rewrite Hlq.
      destruct (Z.eqb_spec (wait_count s) 0); [lia|]. cbn [orb].
      destruct (Z.leb_spec (bw + 2) (wait_count s)); [lia|]. by rewrite u16_small by lia. }
    rewrite E. change (fold_left _ qs ?x) with (run_irqs tbl bw qs x).
    rewrite (IH _ (B + 48 * 2 ^ 30)); cbn [wait_count ready_time acc]; try done; try lia.
    replace (Z.to_nat (wait_count s)) with (S (Z.to_nat (wait_count s - 1))) by lia.
    cbn [take length]. rewrite P1. f_equal; [lia|].
    unfold half_sums at 2. cbn [fold_left]. rewrite half_sums_acc.
    unfold accs_add, accs_zero. cbn. f_equal; lia.
Qed.

(** ** Properties *)

Lemma window_sums (tbl : list Z) (bandwidth now delay : Z) (s0 : sampler) (qs : list irq) :
  samples tbl -> 0 <= bandwidth < 512 -> Forall (fun q => samples (rx_buffer q)) qs ->
  let s := run_irqs tbl bandwidth qs (DSP_START now delay bandwidth s0) in
  let fresh := List.filter (live (u32 (now + delay))) qs in
  (Z.of_nat (length fresh) < bandwidth + 2 -> 0 < wait_count s) /\
  (bandwidth + 2 <= Z.of_nat (length fresh) ->
     wait_count s = 0 /\
     acc s = half_sums tbl (take (Z.to_nat (bandwidth + 1)) (drop 1 fresh))).
Proof.
  intros Ht Hbw Hq s fresh. subst s. rewrite run_irqs_live. cbn [ready_time DSP_START]. fold fresh.
  assert (Hf : Forall (fun q => samples (rx_buffer q)) fresh /\
               Forall (fun q => live (u32 (now + delay)) q = true) fresh).
  { subst fresh. rewrite !List.Forall_forall in *. split; intros q Hin; apply filter_In in Hin; [apply Hq|]; tauto. }
  destruct Hf as [Hfs Hfl]. clearbody fresh. destruct fresh as [|q fs].
  { cbn. rewrite u16_small by lia. split; [lia|]. intros. lia. }
  apply Forall_cons in Hfs as [_ Hfs]. apply Forall_cons in Hfl as [Hlq Hfl].
  cbn [run_irqs fold_left]. change (fold_left _ fs ?x) with (run_irqs tbl bandwidth fs x).
  assert (E : i2s_lld_serve_rx_interrupt tbl bandwidth q (DSP_START now delay bandwidth s0) =
              Sampler (bandwidth + 1) (u32 (now + delay)) accs_zero).
  { unfold i2s_lld_serve_rx_interrupt, DSP_START. cbn [wait_count ready_time acc].
    unfold live in Hlq. apply negb_true_iff in Hlq. rewrite Hlq, u16_small by lia.
    destruct (Z.eqb_spec (bandwidth + 2) 0); [lia|]. cbn [orb].
    destruct (Z.leb_spec (bandwidth + 2) (bandwidth + 2)); [|lia].
    rewrite u16_small by lia. f_equal. lia. }
  rewrite E, (run_irqs_acc tbl bandwidth fs _ 0); cbn [wait_count ready_time acc]; try done; try lia.
  cbn [length drop]. split; [lia|]. intros Hl. split; [lia|].
  by rewrite accs_add_comm, accs_add_0_r.
Qed.

(** C18: a measurement ([DSP_START], then interrupts): interrupts before the
    ready time change nothing, the first live buffer is thrown away, and once
    [bandwidth + 1] more have come the wait ends and the accumulators hold
    exactly the correlation sums of those buffers, with no 64-bit overflow;
    later buffers are ignored; until then the wait count is not zero. *)
Theorem measurement_window (tbl : list Z) (bandwidth now delay : Z) (s0 : sampler) (qs : list irq) :
  samples tbl -> 0 <= bandwidth < 512 -> Forall (fun q => samples (rx_buffer q)) qs ->
  let s := run_irqs tbl bandwidth qs (DSP_START now delay bandwidth s0) in
  let fresh := List.filter (live (u32 (now + delay))) qs in
  (Z.of_nat (length fresh) < bandwidth + 2 -> 0 < wait_count s) /\
  (bandwidth + 2 <= Z.of_nat (length fresh) ->
     wait_count s = 0 /\
     acc s = half_sums tbl (take (Z.to_nat (bandwidth + 1)) (drop 1 fresh))).
Proof. intros Ht Hbw Hq. exact (window_sums tbl bandwidth now delay s0 qs Ht Hbw Hq). Qed.

Lemma measurement_window_witness :
  let q t := Irq t false (repeat 100 96) in
  let s := run_irqs (repeat 7 96) 0 [q 5; q 20; q 30; q 40] (DSP_START 10 5 0 (Sampler 0 0 (Accs 9 9 9 9))) in
  wait_count s = 0 /\ acc s = half_sums (repeat 7 96) [q 30].
Proof.
  refine (proj2 (measurement_window (repeat 7 96) 0 10 5 (Sampler 0 0 (Accs 9 9 9 9))
                   [Irq 5 false (repeat 100 96); Irq 20 false (repeat 100 96);
                    Irq 30 false (repeat 100 96); Irq 40 false (repeat 100 96)] _ _ _) _).
  - apply samples_repeat. split; lia.
  - lia.
  - repeat (apply Forall_cons; split; [apply samples_repeat; split; lia|]). apply Forall_nil. exact I.
  - vm_compute. discriminate.
Defined.

Section GammaSpec.
Context {F : Type} `{EA : ExactArith F}.
Add Field gamma_field : ea_field.

(** In exact arithmetic [calculate_gamma] is the complex quotient of the
    sample by the reference channel, (sc + i ss) / (rc + i rs), the formula of
    its disabled variant, whenever the cosine reference is not zero. *)
Theorem calculate_gamma_quotient (a : accs) :
  acc_ref_c a <> 0 ->
  let re (x y : Z) : F := f_of_Z (x * y) in
  let rr := fadd (re (acc_ref_s a) (acc_ref_s a)) (re (acc_ref_c a) (acc_ref_c a)) in
  rr <> f0 /\
  calculate_gamma a =
  (fdiv (fadd (re (acc_samp_c a) (acc_ref_c a)) (re (acc_samp_s a) (acc_ref_s a))) rr,
   fdiv (fsub (re (acc_samp_s a) (acc_ref_c a)) (re (acc_samp_c a) (acc_ref_s a))) rr).
Proof.
  intros Hc re rr. subst re rr. cbn beta. rewrite !ea_of_Z_mul.
  set (rs := f_of_Z (acc_ref_s a)). set (rc := f_of_Z (acc_ref_c a)).
  assert (Hrc : rc <> f0) by (intros E; apply Hc, (ea_of_Z_inj (F := F)); exact E).
  assert (Hrr : fadd (fmul rs rs) (fmul rc rc) <> f0) by (intros E; apply ea_sumsq in E; tauto).
  split; [exact Hrr|]. unfold calculate_gamma. fold rs rc.
  assert (Hq : fadd (fmul (fdiv rs rc) (fdiv rs rc)) f1 <> f0).
  { intros E. apply Hrr. replace (fadd (fmul rs rs) (fmul rc rc))
      with (fmul (fmul rc rc) (fadd (fmul (fdiv rs rc) (fdiv rs rc)) f1)) by (field; exact Hrc).
    rewrite E. ring. }
  f_equal; field; (split; [exact Hrr|exact Hrc]).
Qed.
End GammaSpec.

Lemma calculate_gamma_quotient_witness :
  calculate_gamma (F := Qcanon.Qc) (Accs 3 4 0 2) = (fdiv (f_of_Z 8) (f_of_Z 4), fdiv (f_of_Z 6) (f_of_Z 4)).
Proof.
  assert (H : acc_ref_c (Accs 3 4 0 2) <> 0) by (cbn; lia).
  transitivity (fdiv (fadd (f_of_Z (4 * 2) : Qcanon.Qc) (f_of_Z (3 * 0))) (fadd (f_of_Z (0 * 0)) (f_of_Z (2 * 2))),
                fdiv (fsub (f_of_Z (3 * 2)) (f_of_Z (4 * 0))) (fadd (f_of_Z (0 * 0)) (f_of_Z (2 * 2)))).
  - exact (proj2 (calculate_gamma_quotient (F := Qcanon.Qc) (Accs 3 4 0 2) H)).
  - reflexivity.
Defined.
