(* ===== verification/Types.v ===== *)
(** * Data of the instrument (nanovna.h)

    The persistent properties and configuration, the traces and markers, and
    the variables of main.c, with one update function per field. *)

From S2P Require Import Prelude Num Synth.

(** ** Constants *)

Definition FREQUENCY_MIN : Z := 600.
Definition FREQUENCY_THRESHOLD : Z := 300000100.
Definition FREQUENCY_OFFSET : Z := 12000.
Definition SWEEP_POINTS_MAX : Z := 401.
Definition SWEEP_POINTS_MIN : Z := 21.
Definition POINTS_COUNT_DEFAULT : Z := SWEEP_POINTS_MAX.
Definition TRACES_MAX : Z := 4.
Definition MARKERS_MAX : Z := 8.
Definition MARKER_INVALID : Z := -1.
Definition TRACE_INVALID : Z := -1.
Definition SAVEAREA_MAX : Z := 7.
Definition NO_SAVE_SLOT : Z := 65535.
Definition CONFIG_MAGIC : Z := 0x434f4e56.
Definition PROPERTIES_MAGIC : Z := 0x434f4e54.

Definition CAL_TYPE_COUNT : Z := 5.
Definition CAL_LOAD : nat := 0.
Definition CAL_OPEN : nat := 1.
Definition CAL_SHORT : nat := 2.
Definition CAL_THRU : nat := 3.
Definition CAL_ISOLN : nat := 4.

Definition CALSTAT_LOAD : Z := 1.
Definition CALSTAT_OPEN : Z := 2.
Definition CALSTAT_SHORT : Z := 4.
Definition CALSTAT_THRU : Z := 8.
Definition CALSTAT_ISOLN : Z := 16.
Definition CALSTAT_ES : Z := 32.
Definition CALSTAT_ER : Z := 64.
Definition CALSTAT_ET : Z := 128.
Definition CALSTAT_APPLY : Z := 256.
Definition CALSTAT_INTERPOLATED : Z := 512.
Definition CALSTAT_ENHANCED_RESPONSE : Z := 1024.

Definition ETERM_ED : nat := 0.
Definition ETERM_ES : nat := 1.
Definition ETERM_ER : nat := 2.
Definition ETERM_ET : nat := 3.
Definition ETERM_EX : nat := 4.

(** [enum stimulus_type] *)
Definition ST_START : Z := 0.
Definition ST_STOP : Z := 1.
Definition ST_CENTER : Z := 2.
Definition ST_SPAN : Z := 3.
Definition ST_CW : Z := 4.
Definition ST_STEP : Z := 5.
Definition ST_VAR : Z := 6.

Definition SWEEP_ENABLE : Z := 0x01.
Definition SWEEP_ONCE : Z := 0x02.
Definition SWEEP_FILE_VIEW : Z := 0x04.
Definition SWEEP_BINARY : Z := 0x08.
Definition SWEEP_REMOTE : Z := 0x40.
Definition SWEEP_UI_MODE : Z := 0x80.

Definition DOMAIN_MODE : Z := 1.
Definition DOMAIN_FREQ : Z := 0.
Definition DOMAIN_TIME : Z := 1.
Definition TD_FUNC : Z := 6.
Definition TD_FUNC_BANDPASS : Z := 0.
Definition TD_FUNC_LOWPASS_IMPULSE : Z := 2.
Definition TD_FUNC_LOWPASS_STEP : Z := 4.
Definition TD_WINDOW : Z := 24.
Definition TD_WINDOW_NORMAL : Z := 0.
Definition TD_WINDOW_MINIMUM : Z := 8.
Definition TD_WINDOW_MAXIMUM : Z := 16.
Definition TD_CENTER_SPAN : Z := 64.

Definition REDRAW_PLOT : Z := 1.
Definition REDRAW_AREA : Z := 2.
Definition REDRAW_FREQUENCY : Z := 8.
Definition REDRAW_CAL_STATUS : Z := 16.
Definition REDRAW_MARKER : Z := 32.
Definition REDRAW_REFERENCE : Z := 64.
Definition REDRAW_GRID_VALUE : Z := 128.
Definition REDRAW_BATTERY : Z := 256.
Definition REDRAW_CLRSCR : Z := 512.
Definition REDRAW_BACKUP : Z := 1024.
Definition REDRAW_ALL : Z :=
  Z.lor REDRAW_CLRSCR (Z.lor REDRAW_AREA (Z.lor REDRAW_CAL_STATUS (Z.lor REDRAW_BATTERY REDRAW_FREQUENCY))).

(** [config._vna_mode] bits *)
Definition VNA_MODE_SMOOTH : Z := 1.
Definition VNA_MODE_BACKUP : Z := 6.
Definition VNA_MODE_MUTE_PAUSE : Z := 12.

Definition BANDWIDTH_1000 : Z := 3.
Definition BANDWIDTH_100 : Z := 39.

Definition LM_MARKER : Z := 0.

(** ** Records *)

Record marker_t := Marker {
  mk_enabled : bool;
  mk_reserved : Z;
  mk_index : Z;
  mk_frequency : Z }.

Definition set_mk_enabled (v : bool) (m : marker_t) : marker_t :=
  Marker v (mk_reserved m) (mk_index m) (mk_frequency m).
Definition set_mk_reserved (v : Z) (m : marker_t) : marker_t :=
  Marker (mk_enabled m) v (mk_index m) (mk_frequency m).
Definition set_mk_index (v : Z) (m : marker_t) : marker_t :=
  Marker (mk_enabled m) (mk_reserved m) v (mk_frequency m).
Definition set_mk_frequency (v : Z) (m : marker_t) : marker_t :=
  Marker (mk_enabled m) (mk_reserved m) (mk_index m) v.

Record trace_t (F : Type) := Trace {
  tr_enabled : bool;
  tr_type : Z;
  tr_channel : Z;
  tr_smith_format : Z;
  tr_scale : F;
  tr_refpos : F }.

Arguments Trace {F}.
Arguments tr_enabled {F} _.
Arguments tr_type {F} _.
Arguments tr_channel {F} _.
Arguments tr_smith_format {F} _.
Arguments tr_scale {F} _.
Arguments tr_refpos {F} _.

Definition set_tr_enabled {F : Type} (v : bool) (t : trace_t F) : trace_t F :=
  Trace v (tr_type t) (tr_channel t) (tr_smith_format t) (tr_scale t) (tr_refpos t).
Definition set_tr_type {F : Type} (v : Z) (t : trace_t F) : trace_t F :=
  Trace (tr_enabled t) v (tr_channel t) (tr_smith_format t) (tr_scale t) (tr_refpos t).
Definition set_tr_channel {F : Type} (v : Z) (t : trace_t F) : trace_t F :=
  Trace (tr_enabled t) (tr_type t) v (tr_smith_format t) (tr_scale t) (tr_refpos t).
Definition set_tr_smith_format {F : Type} (v : Z) (t : trace_t F) : trace_t F :=
  Trace (tr_enabled t) (tr_type t) (tr_channel t) v (tr_scale t) (tr_refpos t).
Definition set_tr_scale {F : Type} (v : F) (t : trace_t F) : trace_t F :=
  Trace (tr_enabled t) (tr_type t) (tr_channel t) (tr_smith_format t) v (tr_refpos t).
Definition set_tr_refpos {F : Type} (v : F) (t : trace_t F) : trace_t F :=
  Trace (tr_enabled t) (tr_type t) (tr_channel t) (tr_smith_format t) (tr_scale t) v.

(** [_cal_data] and [measured] are arrays of points; a point is (re, im).  The
    magic, reserved and checksum words of the saved structures are in Storage.v. *)
Record properties_t (F : Type) := Properties {
  _frequency0 : Z;
  _frequency1 : Z;
  _cal_frequency0 : Z;
  _cal_frequency1 : Z;
  _var_freq : Z;
  _mode : Z;
  _sweep_points : Z;
  _current_trace : Z;
  _active_marker : Z;
  _previous_marker : Z;
  _power : Z;
  _cal_power : Z;
  _measure : Z;
  _cal_sweep_points : Z;
  _cal_status : Z;
  _trace : list (trace_t F);
  _markers : list marker_t;
  _reserved : Z;
  _velocity_factor : Z;
  _electrical_delay : F * F;
  _var_delay : F;
  _s21_offset : F;
  _portz : F;
  _cal_load_r : F;
  _reserved1 : list Z;
  _cal_data : list (list (F * F)) }.

Arguments Properties {F}.
Arguments _frequency0 {F} _.
Arguments _frequency1 {F} _.
Arguments _cal_frequency0 {F} _.
Arguments _cal_frequency1 {F} _.
Arguments _var_freq {F} _.
Arguments _mode {F} _.
Arguments _sweep_points {F} _.
Arguments _current_trace {F} _.
Arguments _active_marker {F} _.
Arguments _previous_marker {F} _.
Arguments _power {F} _.
Arguments _cal_power {F} _.
Arguments _measure {F} _.
Arguments _cal_sweep_points {F} _.
Arguments _cal_status {F} _.
Arguments _trace {F} _.
Arguments _markers {F} _.
Arguments _reserved {F} _.
Arguments _velocity_factor {F} _.
Arguments _electrical_delay {F} _.
Arguments _var_delay {F} _.
Arguments _s21_offset {F} _.
Arguments _portz {F} _.
Arguments _cal_load_r {F} _.
Arguments _reserved1 {F} _.
Arguments _cal_data {F} _.

Definition set__frequency0 {F : Type} (v : Z) (p : properties_t F) : properties_t F :=
  Properties v (_frequency1 p) (_cal_frequency0 p) (_cal_frequency1 p) (_var_freq p) (_mode
    p) (_sweep_points p) (_current_trace p) (_active_marker p) (_previous_marker p) (_power
    p) (_cal_power p) (_measure p) (_cal_sweep_points p) (_cal_status p) (_trace p)
    (_markers p) (_reserved p) (_velocity_factor p) (_electrical_delay p) (_var_delay p)
    (_s21_offset p) (_portz p) (_cal_load_r p) (_reserved1 p) (_cal_data p).
Definition set__frequency1 {F : Type} (v : Z) (p : properties_t F) : properties_t F :=
  Properties (_frequency0 p) v (_cal_frequency0 p) (_cal_frequency1 p) (_var_freq p) (_mode
    p) (_sweep_points p) (_current_trace p) (_active_marker p) (_previous_marker p) (_power
    p) (_cal_power p) (_measure p) (_cal_sweep_points p) (_cal_status p) (_trace p)
    (_markers p) (_reserved p) (_velocity_factor p) (_electrical_delay p) (_var_delay p)
    (_s21_offset p) (_portz p) (_cal_load_r p) (_reserved1 p) (_cal_data p).
Definition set__cal_frequency0 {F : Type} (v : Z) (p : properties_t F) : properties_t F :=
  Properties (_frequency0 p) (_frequency1 p) v (_cal_frequency1 p) (_var_freq p) (_mode p)
    (_sweep_points p) (_current_trace p) (_active_marker p) (_previous_marker p) (_power p)
    (_cal_power p) (_measure p) (_cal_sweep_points p) (_cal_status p) (_trace p) (_markers
    p) (_reserved p) (_velocity_factor p) (_electrical_delay p) (_var_delay p) (_s21_offset
    p) (_portz p) (_cal_load_r p) (_reserved1 p) (_cal_data p).
Definition set__cal_frequency1 {F : Type} (v : Z) (p : properties_t F) : properties_t F :=
  Properties (_frequency0 p) (_frequency1 p) (_cal_frequency0 p) v (_var_freq p) (_mode p)
    (_sweep_points p) (_current_trace p) (_active_marker p) (_previous_marker p) (_power p)
    (_cal_power p) (_measure p) (_cal_sweep_points p) (_cal_status p) (_trace p) (_markers
    p) (_reserved p) (_velocity_factor p) (_electrical_delay p) (_var_delay p) (_s21_offset
    p) (_portz p) (_cal_load_r p) (_reserved1 p) (_cal_data p).
Definition set__var_freq {F : Type} (v : Z) (p : properties_t F) : properties_t F :=
  Properties (_frequency0 p) (_frequency1 p) (_cal_frequency0 p) (_cal_frequency1 p) v
    (_mode p) (_sweep_points p) (_current_trace p) (_active_marker p) (_previous_marker p)
    (_power p) (_cal_power p) (_measure p) (_cal_sweep_points p) (_cal_status p) (_trace p)
    (_markers p) (_reserved p) (_velocity_factor p) (_electrical_delay p) (_var_delay p)
    (_s21_offset p) (_portz p) (_cal_load_r p) (_reserved1 p) (_cal_data p).
Definition set__mode {F : Type} (v : Z) (p : properties_t F) : properties_t F :=
  Properties (_frequency0 p) (_frequency1 p) (_cal_frequency0 p) (_cal_frequency1 p)
    (_var_freq p) v (_sweep_points p) (_current_trace p) (_active_marker p)
    (_previous_marker p) (_power p) (_cal_power p) (_measure p) (_cal_sweep_points p)
    (_cal_status p) (_trace p) (_markers p) (_reserved p) (_velocity_factor p)
    (_electrical_delay p) (_var_delay p) (_s21_offset p) (_portz p) (_cal_load_r p)
    (_reserved1 p) (_cal_data p).
Definition set__sweep_points {F : Type} (v : Z) (p : properties_t F) : properties_t F :=
  Properties (_frequency0 p) (_frequency1 p) (_cal_frequency0 p) (_cal_frequency1 p)
    (_var_freq p) (_mode p) v (_current_trace p) (_active_marker p) (_previous_marker p)
    (_power p) (_cal_power p) (_measure p) (_cal_sweep_points p) (_cal_status p) (_trace p)
    (_markers p) (_reserved p) (_velocity_factor p) (_electrical_delay p) (_var_delay p)
    (_s21_offset p) (_portz p) (_cal_load_r p) (_reserved1 p) (_cal_data p).
Definition set__current_trace {F : Type} (v : Z) (p : properties_t F) : properties_t F :=
  Properties (_frequency0 p) (_frequency1 p) (_cal_frequency0 p) (_cal_frequency1 p)
    (_var_freq p) (_mode p) (_sweep_points p) v (_active_marker p) (_previous_marker p)
    (_power p) (_cal_power p) (_measure p) (_cal_sweep_points p) (_cal_status p) (_trace p)
    (_markers p) (_reserved p) (_velocity_factor p) (_electrical_delay p) (_var_delay p)
    (_s21_offset p) (_portz p) (_cal_load_r p) (_reserved1 p) (_cal_data p).
Definition set__active_marker {F : Type} (v : Z) (p : properties_t F) : properties_t F :=
  Properties (_frequency0 p) (_frequency1 p) (_cal_frequency0 p) (_cal_frequency1 p)
    (_var_freq p) (_mode p) (_sweep_points p) (_current_trace p) v (_previous_marker p)
    (_power p) (_cal_power p) (_measure p) (_cal_sweep_points p) (_cal_status p) (_trace p)
    (_markers p) (_reserved p) (_velocity_factor p) (_electrical_delay p) (_var_delay p)
    (_s21_offset p) (_portz p) (_cal_load_r p) (_reserved1 p) (_cal_data p).
Definition set__previous_marker {F : Type} (v : Z) (p : properties_t F) : properties_t F :=
  Properties (_frequency0 p) (_frequency1 p) (_cal_frequency0 p) (_cal_frequency1 p)
    (_var_freq p) (_mode p) (_sweep_points p) (_current_trace p) (_active_marker p) v
    (_power p) (_cal_power p) (_measure p) (_cal_sweep_points p) (_cal_status p) (_trace p)
    (_markers p) (_reserved p) (_velocity_factor p) (_electrical_delay p) (_var_delay p)
    (_s21_offset p) (_portz p) (_cal_load_r p) (_reserved1 p) (_cal_data p).
Definition set__power {F : Type} (v : Z) (p : properties_t F) : properties_t F :=
  Properties (_frequency0 p) (_frequency1 p) (_cal_frequency0 p) (_cal_frequency1 p)
    (_var_freq p) (_mode p) (_sweep_points p) (_current_trace p) (_active_marker p)
    (_previous_marker p) v (_cal_power p) (_measure p) (_cal_sweep_points p) (_cal_status p)
    (_trace p) (_markers p) (_reserved p) (_velocity_factor p) (_electrical_delay p)
    (_var_delay p) (_s21_offset p) (_portz p) (_cal_load_r p) (_reserved1 p) (_cal_data p).
Definition set__cal_power {F : Type} (v : Z) (p : properties_t F) : properties_t F :=
  Properties (_frequency0 p) (_frequency1 p) (_cal_frequency0 p) (_cal_frequency1 p)
    (_var_freq p) (_mode p) (_sweep_points p) (_current_trace p) (_active_marker p)
    (_previous_marker p) (_power p) v (_measure p) (_cal_sweep_points p) (_cal_status p)
    (_trace p) (_markers p) (_reserved p) (_velocity_factor p) (_electrical_delay p)
    (_var_delay p) (_s21_offset p) (_portz p) (_cal_load_r p) (_reserved1 p) (_cal_data p).
Definition set__measure {F : Type} (v : Z) (p : properties_t F) : properties_t F :=
  Properties (_frequency0 p) (_frequency1 p) (_cal_frequency0 p) (_cal_frequency1 p)
    (_var_freq p) (_mode p) (_sweep_points p) (_current_trace p) (_active_marker p)
    (_previous_marker p) (_power p) (_cal_power p) v (_cal_sweep_points p) (_cal_status p)
    (_trace p) (_markers p) (_reserved p) (_velocity_factor p) (_electrical_delay p)
    (_var_delay p) (_s21_offset p) (_portz p) (_cal_load_r p) (_reserved1 p) (_cal_data p).
Definition set__cal_sweep_points {F : Type} (v : Z) (p : properties_t F) : properties_t F :=
  Properties (_frequency0 p) (_frequency1 p) (_cal_frequency0 p) (_cal_frequency1 p)
    (_var_freq p) (_mode p) (_sweep_points p) (_current_trace p) (_active_marker p)
    (_previous_marker p) (_power p) (_cal_power p) (_measure p) v (_cal_status p) (_trace p)
    (_markers p) (_reserved p) (_velocity_factor p) (_electrical_delay p) (_var_delay p)
    (_s21_offset p) (_portz p) (_cal_load_r p) (_reserved1 p) (_cal_data p).
Definition set__cal_status {F : Type} (v : Z) (p : properties_t F) : properties_t F :=
  Properties (_frequency0 p) (_frequency1 p) (_cal_frequency0 p) (_cal_frequency1 p)
    (_var_freq p) (_mode p) (_sweep_points p) (_current_trace p) (_active_marker p)
    (_previous_marker p) (_power p) (_cal_power p) (_measure p) (_cal_sweep_points p) v
    (_trace p) (_markers p) (_reserved p) (_velocity_factor p) (_electrical_delay p)
    (_var_delay p) (_s21_offset p) (_portz p) (_cal_load_r p) (_reserved1 p) (_cal_data p).
Definition set__trace {F : Type} (v : list (trace_t F)) (p : properties_t F) : properties_t F :=
  Properties (_frequency0 p) (_frequency1 p) (_cal_frequency0 p) (_cal_frequency1 p)
    (_var_freq p) (_mode p) (_sweep_points p) (_current_trace p) (_active_marker p)
    (_previous_marker p) (_power p) (_cal_power p) (_measure p) (_cal_sweep_points p)
    (_cal_status p) v (_markers p) (_reserved p) (_velocity_factor p) (_electrical_delay p)
    (_var_delay p) (_s21_offset p) (_portz p) (_cal_load_r p) (_reserved1 p) (_cal_data p).
Definition set__markers {F : Type} (v : list marker_t) (p : properties_t F) : properties_t F :=
  Properties (_frequency0 p) (_frequency1 p) (_cal_frequency0 p) (_cal_frequency1 p)
    (_var_freq p) (_mode p) (_sweep_points p) (_current_trace p) (_active_marker p)
    (_previous_marker p) (_power p) (_cal_power p) (_measure p) (_cal_sweep_points p)
    (_cal_status p) (_trace p) v (_reserved p) (_velocity_factor p) (_electrical_delay p)
    (_var_delay p) (_s21_offset p) (_portz p) (_cal_load_r p) (_reserved1 p) (_cal_data p).
Definition set__reserved {F : Type} (v : Z) (p : properties_t F) : properties_t F :=
  Properties (_frequency0 p) (_frequency1 p) (_cal_frequency0 p) (_cal_frequency1 p)
    (_var_freq p) (_mode p) (_sweep_points p) (_current_trace p) (_active_marker p)
    (_previous_marker p) (_power p) (_cal_power p) (_measure p) (_cal_sweep_points p)
    (_cal_status p) (_trace p) (_markers p) v (_velocity_factor p) (_electrical_delay p)
    (_var_delay p) (_s21_offset p) (_portz p) (_cal_load_r p) (_reserved1 p) (_cal_data p).
Definition set__velocity_factor {F : Type} (v : Z) (p : properties_t F) : properties_t F :=
  Properties (_frequency0 p) (_frequency1 p) (_cal_frequency0 p) (_cal_frequency1 p)
    (_var_freq p) (_mode p) (_sweep_points p) (_current_trace p) (_active_marker p)
    (_previous_marker p) (_power p) (_cal_power p) (_measure p) (_cal_sweep_points p)
    (_cal_status p) (_trace p) (_markers p) (_reserved p) v (_electrical_delay p)
    (_var_delay p) (_s21_offset p) (_portz p) (_cal_load_r p) (_reserved1 p) (_cal_data p).
Definition set__electrical_delay {F : Type} (v : F * F) (p : properties_t F) : properties_t F :=
  Properties (_frequency0 p) (_frequency1 p) (_cal_frequency0 p) (_cal_frequency1 p)
    (_var_freq p) (_mode p) (_sweep_points p) (_current_trace p) (_active_marker p)
    (_previous_marker p) (_power p) (_cal_power p) (_measure p) (_cal_sweep_points p)
    (_cal_status p) (_trace p) (_markers p) (_reserved p) (_velocity_factor p) v (_var_delay
    p) (_s21_offset p) (_portz p) (_cal_load_r p) (_reserved1 p) (_cal_data p).
Definition set__var_delay {F : Type} (v : F) (p : properties_t F) : properties_t F :=
  Properties (_frequency0 p) (_frequency1 p) (_cal_frequency0 p) (_cal_frequency1 p)
    (_var_freq p) (_mode p) (_sweep_points p) (_current_trace p) (_active_marker p)
    (_previous_marker p) (_power p) (_cal_power p) (_measure p) (_cal_sweep_points p)
    (_cal_status p) (_trace p) (_markers p) (_reserved p) (_velocity_factor p)
    (_electrical_delay p) v (_s21_offset p) (_portz p) (_cal_load_r p) (_reserved1 p)
    (_cal_data p).
Definition set__s21_offset {F : Type} (v : F) (p : properties_t F) : properties_t F :=
  Properties (_frequency0 p) (_frequency1 p) (_cal_frequency0 p) (_cal_frequency1 p)
    (_var_freq p) (_mode p) (_sweep_points p) (_current_trace p) (_active_marker p)
    (_previous_marker p) (_power p) (_cal_power p) (_measure p) (_cal_sweep_points p)
    (_cal_status p) (_trace p) (_markers p) (_reserved p) (_velocity_factor p)
    (_electrical_delay p) (_var_delay p) v (_portz p) (_cal_load_r p) (_reserved1 p)
    (_cal_data p).
Definition set__portz {F : Type} (v : F) (p : properties_t F) : properties_t F :=
  Properties (_frequency0 p) (_frequency1 p) (_cal_frequency0 p) (_cal_frequency1 p)
    (_var_freq p) (_mode p) (_sweep_points p) (_current_trace p) (_active_marker p)
    (_previous_marker p) (_power p) (_cal_power p) (_measure p) (_cal_sweep_points p)
    (_cal_status p) (_trace p) (_markers p) (_reserved p) (_velocity_factor p)
    (_electrical_delay p) (_var_delay p) (_s21_offset p) v (_cal_load_r p) (_reserved1 p)
    (_cal_data p).
Definition set__cal_load_r {F : Type} (v : F) (p : properties_t F) : properties_t F :=
  Properties (_frequency0 p) (_frequency1 p) (_cal_frequency0 p) (_cal_frequency1 p)
    (_var_freq p) (_mode p) (_sweep_points p) (_current_trace p) (_active_marker p)
    (_previous_marker p) (_power p) (_cal_power p) (_measure p) (_cal_sweep_points p)
    (_cal_status p) (_trace p) (_markers p) (_reserved p) (_velocity_factor p)
    (_electrical_delay p) (_var_delay p) (_s21_offset p) (_portz p) v (_reserved1 p)
    (_cal_data p).
Definition set__reserved1 {F : Type} (v : list Z) (p : properties_t F) : properties_t F :=
  Properties (_frequency0 p) (_frequency1 p) (_cal_frequency0 p) (_cal_frequency1 p)
    (_var_freq p) (_mode p) (_sweep_points p) (_current_trace p) (_active_marker p)
    (_previous_marker p) (_power p) (_cal_power p) (_measure p) (_cal_sweep_points p)
    (_cal_status p) (_trace p) (_markers p) (_reserved p) (_velocity_factor p)
    (_electrical_delay p) (_var_delay p) (_s21_offset p) (_portz p) (_cal_load_r p) v
    (_cal_data p).
Definition set__cal_data {F : Type} (v : list (list (F * F))) (p : properties_t F) : properties_t F :=
  Properties (_frequency0 p) (_frequency1 p) (_cal_frequency0 p) (_cal_frequency1 p)
    (_var_freq p) (_mode p) (_sweep_points p) (_current_trace p) (_active_marker p)
    (_previous_marker p) (_power p) (_cal_power p) (_measure p) (_cal_sweep_points p)
    (_cal_status p) (_trace p) (_markers p) (_reserved p) (_velocity_factor p)
    (_electrical_delay p) (_var_delay p) (_s21_offset p) (_portz p) (_cal_load_r p)
    (_reserved1 p) v.

Record config_t (F : Type) := Config {
  _harmonic_freq_threshold : Z;
  _IF_freq : Z;
  _touch_cal : list Z;
  _vna_mode : Z;
  _dac_value : Z;
  _vbat_offset : Z;
  _bandwidth : Z;
  _lever_mode : Z;
  _brightness : Z;
  _lcd_palette : list Z;
  _serial_speed : Z;
  _xtal_freq : Z;
  _measure_r : F;
  _band_mode : Z;
  _ham_region : Z;
  _marker_search_mode : Z;
  _config_reserved : Z }.

Arguments Config {F}.
Arguments _harmonic_freq_threshold {F} _.
Arguments _IF_freq {F} _.
Arguments _touch_cal {F} _.
Arguments _vna_mode {F} _.
Arguments _dac_value {F} _.
Arguments _vbat_offset {F} _.
Arguments _bandwidth {F} _.
Arguments _lever_mode {F} _.
Arguments _brightness {F} _.
Arguments _lcd_palette {F} _.
Arguments _serial_speed {F} _.
Arguments _xtal_freq {F} _.
Arguments _measure_r {F} _.
Arguments _band_mode {F} _.
Arguments _ham_region {F} _.
Arguments _marker_search_mode {F} _.
Arguments _config_reserved {F} _.

Definition set__harmonic_freq_threshold {F : Type} (v : Z) (c : config_t F) : config_t F :=
  Config v (_IF_freq c) (_touch_cal c) (_vna_mode c) (_dac_value c) (_vbat_offset c)
    (_bandwidth c) (_lever_mode c) (_brightness c) (_lcd_palette c) (_serial_speed c)
    (_xtal_freq c) (_measure_r c) (_band_mode c) (_ham_region c) (_marker_search_mode c)
    (_config_reserved c).
Definition set__IF_freq {F : Type} (v : Z) (c : config_t F) : config_t F :=
  Config (_harmonic_freq_threshold c) v (_touch_cal c) (_vna_mode c) (_dac_value c)
    (_vbat_offset c) (_bandwidth c) (_lever_mode c) (_brightness c) (_lcd_palette c)
    (_serial_speed c) (_xtal_freq c) (_measure_r c) (_band_mode c) (_ham_region c)
    (_marker_search_mode c) (_config_reserved c).
Definition set__touch_cal {F : Type} (v : list Z) (c : config_t F) : config_t F :=
  Config (_harmonic_freq_threshold c) (_IF_freq c) v (_vna_mode c) (_dac_value c)
    (_vbat_offset c) (_bandwidth c) (_lever_mode c) (_brightness c) (_lcd_palette c)
    (_serial_speed c) (_xtal_freq c) (_measure_r c) (_band_mode c) (_ham_region c)
    (_marker_search_mode c) (_config_reserved c).
Definition set__vna_mode {F : Type} (v : Z) (c : config_t F) : config_t F :=
  Config (_harmonic_freq_threshold c) (_IF_freq c) (_touch_cal c) v (_dac_value c)
    (_vbat_offset c) (_bandwidth c) (_lever_mode c) (_brightness c) (_lcd_palette c)
    (_serial_speed c) (_xtal_freq c) (_measure_r c) (_band_mode c) (_ham_region c)
    (_marker_search_mode c) (_config_reserved c).
Definition set__dac_value {F : Type} (v : Z) (c : config_t F) : config_t F :=
  Config (_harmonic_freq_threshold c) (_IF_freq c) (_touch_cal c) (_vna_mode c) v
    (_vbat_offset c) (_bandwidth c) (_lever_mode c) (_brightness c) (_lcd_palette c)
    (_serial_speed c) (_xtal_freq c) (_measure_r c) (_band_mode c) (_ham_region c)
    (_marker_search_mode c) (_config_reserved c).
Definition set__vbat_offset {F : Type} (v : Z) (c : config_t F) : config_t F :=
  Config (_harmonic_freq_threshold c) (_IF_freq c) (_touch_cal c) (_vna_mode c) (_dac_value
    c) v (_bandwidth c) (_lever_mode c) (_brightness c) (_lcd_palette c) (_serial_speed c)
    (_xtal_freq c) (_measure_r c) (_band_mode c) (_ham_region c) (_marker_search_mode c)
    (_config_reserved c).
Definition set__bandwidth {F : Type} (v : Z) (c : config_t F) : config_t F :=
  Config (_harmonic_freq_threshold c) (_IF_freq c) (_touch_cal c) (_vna_mode c) (_dac_value
    c) (_vbat_offset c) v (_lever_mode c) (_brightness c) (_lcd_palette c) (_serial_speed c)
    (_xtal_freq c) (_measure_r c) (_band_mode c) (_ham_region c) (_marker_search_mode c)
    (_config_reserved c).
Definition set__lever_mode {F : Type} (v : Z) (c : config_t F) : config_t F :=
  Config (_harmonic_freq_threshold c) (_IF_freq c) (_touch_cal c) (_vna_mode c) (_dac_value
    c) (_vbat_offset c) (_bandwidth c) v (_brightness c) (_lcd_palette c) (_serial_speed c)
    (_xtal_freq c) (_measure_r c) (_band_mode c) (_ham_region c) (_marker_search_mode c)
    (_config_reserved c).
Definition set__brightness {F : Type} (v : Z) (c : config_t F) : config_t F :=
  Config (_harmonic_freq_threshold c) (_IF_freq c) (_touch_cal c) (_vna_mode c) (_dac_value
    c) (_vbat_offset c) (_bandwidth c) (_lever_mode c) v (_lcd_palette c) (_serial_speed c)
    (_xtal_freq c) (_measure_r c) (_band_mode c) (_ham_region c) (_marker_search_mode c)
    (_config_reserved c).
Definition set__lcd_palette {F : Type} (v : list Z) (c : config_t F) : config_t F :=
  Config (_harmonic_freq_threshold c) (_IF_freq c) (_touch_cal c) (_vna_mode c) (_dac_value
    c) (_vbat_offset c) (_bandwidth c) (_lever_mode c) (_brightness c) v (_serial_speed c)
    (_xtal_freq c) (_measure_r c) (_band_mode c) (_ham_region c) (_marker_search_mode c)
    (_config_reserved c).
Definition set__serial_speed {F : Type} (v : Z) (c : config_t F) : config_t F :=
  Config (_harmonic_freq_threshold c) (_IF_freq c) (_touch_cal c) (_vna_mode c) (_dac_value
    c) (_vbat_offset c) (_bandwidth c) (_lever_mode c) (_brightness c) (_lcd_palette c) v
    (_xtal_freq c) (_measure_r c) (_band_mode c) (_ham_region c) (_marker_search_mode c)
    (_config_reserved c).
Definition set__xtal_freq {F : Type} (v : Z) (c : config_t F) : config_t F :=
  Config (_harmonic_freq_threshold c) (_IF_freq c) (_touch_cal c) (_vna_mode c) (_dac_value
    c) (_vbat_offset c) (_bandwidth c) (_lever_mode c) (_brightness c) (_lcd_palette c)
    (_serial_speed c) v (_measure_r c) (_band_mode c) (_ham_region c) (_marker_search_mode
    c) (_config_reserved c).
Definition set__measure_r {F : Type} (v : F) (c : config_t F) : config_t F :=
  Config (_harmonic_freq_threshold c) (_IF_freq c) (_touch_cal c) (_vna_mode c) (_dac_value
    c) (_vbat_offset c) (_bandwidth c) (_lever_mode c) (_brightness c) (_lcd_palette c)
    (_serial_speed c) (_xtal_freq c) v (_band_mode c) (_ham_region c) (_marker_search_mode
    c) (_config_reserved c).
Definition set__band_mode {F : Type} (v : Z) (c : config_t F) : config_t F :=
  Config (_harmonic_freq_threshold c) (_IF_freq c) (_touch_cal c) (_vna_mode c) (_dac_value
    c) (_vbat_offset c) (_bandwidth c) (_lever_mode c) (_brightness c) (_lcd_palette c)
    (_serial_speed c) (_xtal_freq c) (_measure_r c) v (_ham_region c) (_marker_search_mode
    c) (_config_reserved c).
Definition set__ham_region {F : Type} (v : Z) (c : config_t F) : config_t F :=
  Config (_harmonic_freq_threshold c) (_IF_freq c) (_touch_cal c) (_vna_mode c) (_dac_value
    c) (_vbat_offset c) (_bandwidth c) (_lever_mode c) (_brightness c) (_lcd_palette c)
    (_serial_speed c) (_xtal_freq c) (_measure_r c) (_band_mode c) v (_marker_search_mode c)
    (_config_reserved c).
Definition set__marker_search_mode {F : Type} (v : Z) (c : config_t F) : config_t F :=
  Config (_harmonic_freq_threshold c) (_IF_freq c) (_touch_cal c) (_vna_mode c) (_dac_value
    c) (_vbat_offset c) (_bandwidth c) (_lever_mode c) (_brightness c) (_lcd_palette c)
    (_serial_speed c) (_xtal_freq c) (_measure_r c) (_band_mode c) (_ham_region c) v
    (_config_reserved c).
Definition set__config_reserved {F : Type} (v : Z) (c : config_t F) : config_t F :=
  Config (_harmonic_freq_threshold c) (_IF_freq c) (_touch_cal c) (_vna_mode c) (_dac_value
    c) (_vbat_offset c) (_bandwidth c) (_lever_mode c) (_brightness c) (_lcd_palette c)
    (_serial_speed c) (_xtal_freq c) (_measure_r c) (_band_mode c) (_ham_region c)
    (_marker_search_mode c) v.

(** The variables of main.c, of the plot grid and of the clock generator. *)
Record vna (F : Type) := Vna {
  config : config_t F;
  current_props : properties_t F;
  sweep_mode : Z;
  redraw_request : Z;
  p_sweep : Z;
  _f_start : Z;
  _f_delta : Z;
  _f_error : Z;
  _f_points : Z;
  lastsaveid : Z;
  smooth_factor : Z;
  measured : list (list (F * F));
  grid_offset : Z;
  grid_width : Z;
  gen : synth }.

Arguments Vna {F}.
Arguments config {F} _.
Arguments current_props {F} _.
Arguments sweep_mode {F} _.
Arguments redraw_request {F} _.
Arguments p_sweep {F} _.
Arguments _f_start {F} _.
Arguments _f_delta {F} _.
Arguments _f_error {F} _.
Arguments _f_points {F} _.
Arguments lastsaveid {F} _.
Arguments smooth_factor {F} _.
Arguments measured {F} _.
Arguments grid_offset {F} _.
Arguments grid_width {F} _.
Arguments gen {F} _.

Definition set_config {F : Type} (v : config_t F) (s : vna F) : vna F :=
  Vna v (current_props s) (sweep_mode s) (redraw_request s) (p_sweep s) (_f_start s)
    (_f_delta s) (_f_error s) (_f_points s) (lastsaveid s) (smooth_factor s) (measured s)
    (grid_offset s) (grid_width s) (gen s).
Definition set_current_props {F : Type} (v : properties_t F) (s : vna F) : vna F :=
  Vna (config s) v (sweep_mode s) (redraw_request s) (p_sweep s) (_f_start s) (_f_delta s)
    (_f_error s) (_f_points s) (lastsaveid s) (smooth_factor s) (measured s) (grid_offset s)
    (grid_width s) (gen s).
Definition set_sweep_mode {F : Type} (v : Z) (s : vna F) : vna F :=
  Vna (config s) (current_props s) v (redraw_request s) (p_sweep s) (_f_start s) (_f_delta
    s) (_f_error s) (_f_points s) (lastsaveid s) (smooth_factor s) (measured s) (grid_offset
    s) (grid_width s) (gen s).
Definition set_redraw_request {F : Type} (v : Z) (s : vna F) : vna F :=
  Vna (config s) (current_props s) (sweep_mode s) v (p_sweep s) (_f_start s) (_f_delta s)
    (_f_error s) (_f_points s) (lastsaveid s) (smooth_factor s) (measured s) (grid_offset s)
    (grid_width s) (gen s).
Definition set_p_sweep {F : Type} (v : Z) (s : vna F) : vna F :=
  Vna (config s) (current_props s) (sweep_mode s) (redraw_request s) v (_f_start s)
    (_f_delta s) (_f_error s) (_f_points s) (lastsaveid s) (smooth_factor s) (measured s)
    (grid_offset s) (grid_width s) (gen s).
Definition set__f_start {F : Type} (v : Z) (s : vna F) : vna F :=
  Vna (config s) (current_props s) (sweep_mode s) (redraw_request s) (p_sweep s) v (_f_delta
    s) (_f_error s) (_f_points s) (lastsaveid s) (smooth_factor s) (measured s) (grid_offset
    s) (grid_width s) (gen s).
Definition set__f_delta {F : Type} (v : Z) (s : vna F) : vna F :=
  Vna (config s) (current_props s) (sweep_mode s) (redraw_request s) (p_sweep s) (_f_start
    s) v (_f_error s) (_f_points s) (lastsaveid s) (smooth_factor s) (measured s)
    (grid_offset s) (grid_width s) (gen s).
Definition set__f_error {F : Type} (v : Z) (s : vna F) : vna F :=
  Vna (config s) (current_props s) (sweep_mode s) (redraw_request s) (p_sweep s) (_f_start
    s) (_f_delta s) v (_f_points s) (lastsaveid s) (smooth_factor s) (measured s)
    (grid_offset s) (grid_width s) (gen s).
Definition set__f_points {F : Type} (v : Z) (s : vna F) : vna F :=
  Vna (config s) (current_props s) (sweep_mode s) (redraw_request s) (p_sweep s) (_f_start
    s) (_f_delta s) (_f_error s) v (lastsaveid s) (smooth_factor s) (measured s)
    (grid_offset s) (grid_width s) (gen s).
Definition set_lastsaveid {F : Type} (v : Z) (s : vna F) : vna F :=
  Vna (config s) (current_props s) (sweep_mode s) (redraw_request s) (p_sweep s) (_f_start
    s) (_f_delta s) (_f_error s) (_f_points s) v (smooth_factor s) (measured s) (grid_offset
    s) (grid_width s) (gen s).
Definition put_smooth_factor {F : Type} (v : Z) (s : vna F) : vna F :=
  Vna (config s) (current_props s) (sweep_mode s) (redraw_request s) (p_sweep s) (_f_start
    s) (_f_delta s) (_f_error s) (_f_points s) (lastsaveid s) v (measured s) (grid_offset s)
    (grid_width s) (gen s).
Definition set_measured {F : Type} (v : list (list (F * F))) (s : vna F) : vna F :=
  Vna (config s) (current_props s) (sweep_mode s) (redraw_request s) (p_sweep s) (_f_start
    s) (_f_delta s) (_f_error s) (_f_points s) (lastsaveid s) (smooth_factor s) v
    (grid_offset s) (grid_width s) (gen s).
Definition set_grid_offset {F : Type} (v : Z) (s : vna F) : vna F :=
  Vna (config s) (current_props s) (sweep_mode s) (redraw_request s) (p_sweep s) (_f_start
    s) (_f_delta s) (_f_error s) (_f_points s) (lastsaveid s) (smooth_factor s) (measured s)
    v (grid_width s) (gen s).
Definition set_grid_width {F : Type} (v : Z) (s : vna F) : vna F :=
  Vna (config s) (current_props s) (sweep_mode s) (redraw_request s) (p_sweep s) (_f_start
    s) (_f_delta s) (_f_error s) (_f_points s) (lastsaveid s) (smooth_factor s) (measured s)
    (grid_offset s) v (gen s).
Definition set_gen {F : Type} (v : synth) (s : vna F) : vna F :=
  Vna (config s) (current_props s) (sweep_mode s) (redraw_request s) (p_sweep s) (_f_start
    s) (_f_delta s) (_f_error s) (_f_points s) (lastsaveid s) (smooth_factor s) (measured s)
    (grid_offset s) (grid_width s) v.


(** Update of a part of the state. *)
Definition upd_props {F : Type} (f : properties_t F -> properties_t F) (s : vna F) : vna F :=
  set_current_props (f (current_props s)) s.
Definition upd_config {F : Type} (f : config_t F -> config_t F) (s : vna F) : vna F :=
  set_config (f (config s)) s.

(** The accessor macros of nanovna.h. *)
Definition frequency0 {F} (s : vna F) : Z := _frequency0 (current_props s).
Definition frequency1 {F} (s : vna F) : Z := _frequency1 (current_props s).
Definition sweep_points {F} (s : vna F) : Z := _sweep_points (current_props s).
Definition cal_status {F} (s : vna F) : Z := _cal_status (current_props s).
Definition props_mode {F} (s : vna F) : Z := _mode (current_props s).
Definition markers {F} (s : vna F) : list marker_t := _markers (current_props s).

Definition FREQ_STARTSTOP {F} : vna F -> vna F :=
  upd_props (fun p => set__mode (bit_clr (_mode p) TD_CENTER_SPAN) p).
Definition FREQ_CENTERSPAN {F} : vna F -> vna F :=
  upd_props (fun p => set__mode (bit_set (_mode p) TD_CENTER_SPAN) p).
Definition FREQ_IS_CENTERSPAN {F} (s : vna F) : bool := bit_test (props_mode s) TD_CENTER_SPAN.
Definition VNA_MODE {F} (idx : Z) (s : vna F) : bool := bit_test (_vna_mode (config s)) (2 ^ idx).

Definition request_to_redraw {F} (mask : Z) (s : vna F) : vna F :=
  set_redraw_request (bit_set (redraw_request s) mask) s.
