(* ===== verification/Props.v ===== *)
(** * Settings (main.c, plot.c, ui.c): defaults and setters

    The default configuration and properties, and the functions that change
    the traces, the delays and the mode flags. *)

From S2P Require Import Prelude Colour Num Synth Types.

(** ** Constants of the 480 x 320 board *)

Definition NGRIDY : Z := 8.
Definition DEFAULT_BRIGHTNESS : Z := 70.
Definition SERIAL_DEFAULT_BITRATE : Z := 38400.
Definition LCD_DEFAULT_PALETTE : list Z :=
  [ RGB565 0 0 0; RGB565 255 255 255; RGB565 128 128 128; RGB565 230 230 230;
    RGB565 0 0 0; RGB565 210 210 210; RGB565 255 255 0; RGB565 0 255 255;
    RGB565 0 255 0; RGB565 255 0 255; RGB565 255 0 0; RGB565 0 0 255;
    RGB565 31 227 0; RGB565 255 0 0; RGB565 128 255 128; RGB565 255 255 255;
    RGB565 128 128 128; RGB565 0 0 255; RGB565 196 196 196; RGB565 0 0 0;
    RGB565 255 255 255; RGB565 255 255 255; RGB565 96 96 96; RGB565 31 227 0;
    RGB565 255 0 0; RGB565 0 0 192; RGB565 0 0 0 ] ++ repeat 0 5.

(** [enum trace_type], marker value formats. *)
Definition TRC_LOGMAG : Z := 0.
Definition TRC_PHASE : Z := 1.
Definition TRC_DELAY : Z := 2.
Definition TRC_SMITH : Z := 3.
Definition TRC_POLAR : Z := 4.
Definition TRC_SWR : Z := 6.
Definition TRC_SWR_ANT : Z := 30.
Definition MAX_TRACE_TYPE : Z := 31.
Definition MS_REIM : Z := 2.
Definition MS_RX : Z := 3.

Section Settings.
Context {F : Type} `{FloatOps F}.

(** ** Trace table (plot.c): name, default reference position and scale *)

Record trace_info_t := Trace_info { ti_name : string; ti_refpos : Z; ti_scale_unit : F }.

Definition trace_info_list : list trace_info_t :=
  [
    Trace_info "LOGMAG" (NGRIDY - 1) (f_of_Z 10);  (* TRC_LOGMAG *)
    Trace_info "PHASE" (NGRIDY / 2) (f_of_Z 90);  (* TRC_PHASE *)
    Trace_info "DELAY" (NGRIDY / 2) (f_lit 1 (-9));  (* TRC_DELAY *)
    Trace_info "SMITH" 0 (f_of_Z 1);              (* TRC_SMITH *)
    Trace_info "POLAR" 0 (f_of_Z 1);              (* TRC_POLAR *)
    Trace_info "LINEAR" 0 (f_lit 125 (-3));       (* TRC_LINEAR *)
    Trace_info "SWR" 0 (f_lit 25 (-2));           (* TRC_SWR *)
    Trace_info "REAL" (NGRIDY / 2) (f_lit 25 (-2));  (* TRC_REAL *)
    Trace_info "IMAG" (NGRIDY / 2) (f_lit 25 (-2));  (* TRC_IMAG *)
    Trace_info "R" 0 (f_of_Z 100);                (* TRC_R *)
    Trace_info "X" (NGRIDY / 2) (f_of_Z 100);     (* TRC_X *)
    Trace_info "|Z|" 0 (f_of_Z 50);               (* TRC_Z *)
    Trace_info "Z phase" (NGRIDY / 2) (f_of_Z 90);  (* TRC_ZPHASE *)
    Trace_info "G" 0 (f_lit 1 (-2));              (* TRC_G *)
    Trace_info "B" (NGRIDY / 2) (f_lit 1 (-2));   (* TRC_B *)
    Trace_info "|Y|" 0 (f_lit 2 (-2));            (* TRC_Y *)
    Trace_info "Rp" 0 (f_of_Z 100);               (* TRC_Rp *)
    Trace_info "Xp" (NGRIDY / 2) (f_of_Z 100);    (* TRC_Xp *)
    Trace_info "Cs" (NGRIDY / 2) (f_lit 1 (-8));  (* TRC_Cs *)
    Trace_info "Ls" (NGRIDY / 2) (f_lit 1 (-8));  (* TRC_Ls *)
    Trace_info "Cp" (NGRIDY / 2) (f_lit 1 (-8));  (* TRC_Cp *)
    Trace_info "Lp" (NGRIDY / 2) (f_lit 1 (-8));  (* TRC_Lp *)
    Trace_info "Q" 0 (f_of_Z 10);                 (* TRC_Q *)
    Trace_info "Rser" (NGRIDY / 2) (f_of_Z 100);  (* TRC_Rser *)
    Trace_info "Xser" (NGRIDY / 2) (f_of_Z 100);  (* TRC_Xser *)
    Trace_info "|Zser|" (NGRIDY / 2) (f_of_Z 100);  (* TRC_Zser *)
    Trace_info "Rsh" (NGRIDY / 2) (f_of_Z 100);   (* TRC_Rsh *)
    Trace_info "Xsh" (NGRIDY / 2) (f_of_Z 100);   (* TRC_Xsh *)
    Trace_info "|Zsh|" (NGRIDY / 2) (f_of_Z 100);  (* TRC_Zsh *)
    Trace_info "Q" 0 (f_of_Z 10);                 (* TRC_Qs21 *)
    Trace_info "SWR ANT" 0 (f_lit 25 (-2)) ]      (* TRC_SWR_ANT *).

Definition trace_info (t : Z) : trace_info_t :=
  nth (Z.to_nat t) trace_info_list (Trace_info "" 0 f0).

(** ** Defaults *)

(** The initial value of [config]. *)
Definition DEFAULT_TOUCH_CONFIG : list Z := [380; 665; 3600; 3450].

Definition default_config : config_t F :=
  Config FREQUENCY_THRESHOLD FREQUENCY_OFFSET DEFAULT_TOUCH_CONFIG 0 1922 420 BANDWIDTH_1000 LM_MARKER DEFAULT_BRIGHTNESS
         LCD_DEFAULT_PALETTE SERIAL_DEFAULT_BITRATE XTALFREQ (f_of_Z 50) SI5351_CLOCK_GEN 0 0 0.

Definition def_trace : list (trace_t F) :=
  [ Trace true TRC_LOGMAG 0 MS_RX (f_of_Z 10) (f_of_Z (NGRIDY - 1));
    Trace true TRC_LOGMAG 1 MS_REIM (f_of_Z 10) (f_of_Z (NGRIDY - 1));
    Trace true TRC_SMITH 0 MS_RX (f_of_Z 1) (f_of_Z 0);
    Trace true TRC_PHASE 1 MS_REIM (f_of_Z 90) (f_of_Z (NGRIDY / 2)) ].

Definition def_markers : list marker_t :=
  map (fun k => Marker (k =? 1) 0 (k * 10 * SWEEP_POINTS_MAX / 100 - 1) 0) (seqZ 1 MARKERS_MAX).

(** The calibration data of the old properties is kept. *)
Definition load_default_properties (p : properties_t F) : properties_t F :=
  Properties 50000 900000000 50000 900000000 0 0 POINTS_COUNT_DEFAULT 0 0 MARKER_INVALID
    SI5351_CLK_DRIVE_STRENGTH_AUTO SI5351_CLK_DRIVE_STRENGTH_AUTO 0 POINTS_COUNT_DEFAULT 0
    def_trace def_markers 0 70 (f0, f0) f0 f0 (f_of_Z 50) (f_of_Z 50) (_reserved1 p) (_cal_data p).

(** ** Traces *)

Definition trace_at (t : Z) (s : vna F) : trace_t F :=
  nth (Z.to_nat t) (_trace (current_props s)) (Trace false 0 0 0 f0 f0).
Definition upd_trace (t : Z) (f : trace_t F -> trace_t F) : vna F -> vna F :=
  upd_props (fun p => set__trace (alter f (Z.to_nat t) (_trace p)) p).

Definition set_trace_channel (t channel : Z) (s : vna F) : vna F :=
  let channel := Z.land channel 1 in
  if tr_channel (trace_at t s) =? channel then s
  else request_to_redraw (Z.lor REDRAW_MARKER REDRAW_PLOT) (upd_trace t (set_tr_channel channel) s).

Definition set_active_trace (t : Z) (s : vna F) : vna F :=
  if _current_trace (current_props s) =? t then s
  else request_to_redraw (Z.lor REDRAW_MARKER REDRAW_GRID_VALUE) (upd_props (set__current_trace t) s).

Definition set_trace_scale (t : Z) (scale : F) (s : vna F) : vna F :=
  if feqb (tr_scale (trace_at t s)) scale then s
  else request_to_redraw (Z.lor REDRAW_MARKER (Z.lor REDRAW_GRID_VALUE REDRAW_PLOT))
         (upd_trace t (set_tr_scale scale) s).

Definition set_trace_refpos (t : Z) (refpos : F) (s : vna F) : vna F :=
  if feqb (tr_refpos (trace_at t s)) refpos then s
  else request_to_redraw (Z.lor REDRAW_REFERENCE (Z.lor REDRAW_GRID_VALUE REDRAW_PLOT))
         (upd_trace t (set_tr_refpos refpos) s).

Definition set_trace_type (t type channel : Z) (s : vna F) : vna F :=
  let channel := Z.land channel 1 in
  if (tr_type (trace_at t s) =? type) && (tr_channel (trace_at t s) =? channel) then s else
  let s := if tr_type (trace_at t s) =? type then s else
    let s := upd_trace t (set_tr_type type) s in
    let s := set_trace_refpos t (f_of_Z (ti_refpos (trace_info type))) s in
    let s := set_trace_scale t (ti_scale_unit (trace_info type)) s in
    request_to_redraw (Z.lor REDRAW_AREA (Z.lor REDRAW_PLOT REDRAW_BACKUP)) s in
  set_trace_channel t channel s.

(** [for (i = 0; i < TRACES_MAX; i++) if (trace[i].enabled) {...; break;}] *)
Fixpoint first_enabled (i : Z) (l : list (trace_t F)) : option Z :=
  match l with
  | [] => None
  | t :: l' => if tr_enabled t then Some i else first_enabled (i + 1) l'
  end.

Definition set_trace_enable (t : Z) (enable : bool) (s : vna F) : vna F :=
  let s := upd_trace t (set_tr_enabled enable) s in
  let s := upd_props (set__current_trace (if enable then t else TRACE_INVALID)) s in
  let s := if enable then s else
    match first_enabled 0 (take (Z.to_nat TRACES_MAX) (_trace (current_props s))) with
    | Some i => set_active_trace i s
    | None => s
    end in
  request_to_redraw REDRAW_AREA s.

(** ** Delays, offset *)

Definition set_electrical_delay (ch : Z) (seconds : F) (s : vna F) : vna F :=
  let '(d0, d1) := _electrical_delay (current_props s) in
  if feqb (if ch =? 0 then d0 else d1) seconds then s
  else request_to_redraw REDRAW_MARKER
         (upd_props (set__electrical_delay (if ch =? 0 then (seconds, d1) else (d0, seconds))) s).

Definition get_electrical_delay (s : vna F) : F :=
  if _current_trace (current_props s) =? TRACE_INVALID then f0 else
  let '(d0, d1) := _electrical_delay (current_props s) in
  if tr_channel (trace_at (_current_trace (current_props s)) s) =? 0 then d0 else d1.

Definition set_s21_offset (offset : F) (s : vna F) : vna F :=
  if feqb (_s21_offset (current_props s)) offset then s
  else request_to_redraw REDRAW_MARKER (upd_props (set__s21_offset offset) s).

(** ** Power on: static storage is zero *)

Definition zero_properties : properties_t F :=
  Properties 0 0 0 0 0 0 0 0 0 0 0 0 0 0 0 (repeat (Trace false 0 0 0 f0 f0) 4)
    (repeat (Marker false 0 0 0) 8) 0 0 (f0, f0) f0 f0 f0 f0 (repeat 0 7)
    (repeat (repeat (f0, f0) (Z.to_nat SWEEP_POINTS_MAX)) (Z.to_nat CAL_TYPE_COUNT)).

Definition power_on : vna F :=
  Vna default_config zero_properties SWEEP_ENABLE 0 0 0 0 0 0 0 0
      (repeat (repeat (f0, f0) (Z.to_nat SWEEP_POINTS_MAX)) 2) 0 0 (synth_reset XTALFREQ FREQUENCY_THRESHOLD FREQUENCY_OFFSET).

(** ** Lemmas *)

Lemma first_enabled_spec l : forall i,
  match first_enabled i l with
  | Some j => exists t, i <= j /\ l !! Z.to_nat (j - i) = Some t /\ tr_enabled t = true
  | None => Forall (fun t => tr_enabled t = false) l
  end.
Proof.
  induction l as [|t l IH]; intros i; cbn [first_enabled]; [constructor|].
  destruct (tr_enabled t) eqn:E.
  - exists t. rewrite Z.sub_diag. auto with lia.
  - specialize (IH (i + 1)). destruct (first_enabled (i + 1) l) as [j|]; [|by constructor].
    destruct IH as (t' & Hj & Ht & He). exists t'. split; [lia|]. split; [|done].
    replace (Z.to_nat (j - i)) with (S (Z.to_nat (j - (i + 1)))) by lia. done.
Qed.

(** [set_trace_enable] keeps the active trace meaningful: afterwards it is
    the trace just enabled, or the first trace still enabled, or TRACE_INVALID
    exactly when no trace is enabled. *)
Theorem set_trace_enable_current (t : Z) (enable : bool) (s : vna F) :
  length (_trace (current_props s)) = Z.to_nat TRACES_MAX -> 0 <= t < TRACES_MAX ->
  let s' := set_trace_enable t enable s in
  let cur := _current_trace (current_props s') in
  (cur = TRACE_INVALID /\ Forall (fun tr => tr_enabled tr = false) (_trace (current_props s'))) \/
  (0 <= cur < TRACES_MAX /\ (enable = true -> cur = t) /\
   exists tr, _trace (current_props s') !! Z.to_nat cur = Some tr /\ tr_enabled tr = true).
Proof.
  intros Hl Ht. unfold set_trace_enable.
  set (tr1 := alter (set_tr_enabled enable) (Z.to_nat t) (_trace (current_props s))).
  assert (Hl1 : length tr1 = Z.to_nat TRACES_MAX) by (subst tr1; by rewrite length_alter).
  destruct enable; cbv zeta.
  - right. split; [done|]. split; [done|].
    destruct (lookup_lt_is_Some_2 (_trace (current_props s)) (Z.to_nat t) ltac:(unfold TRACES_MAX in *; lia)) as [tr Htr].
    exists (set_tr_enabled true tr). split; [|done]. cbn. rewrite list_lookup_alter_eq. by rewrite Htr.
  - cbn. fold tr1. rewrite firstn_all2 by (rewrite Hl1; done).
    pose proof (first_enabled_spec tr1 0) as Hf. destruct (first_enabled 0 tr1) as [j|]; [|by left].
    destruct Hf as (tr & Hj & Htr & He). rewrite Z.sub_0_r in Htr. right.
    pose proof (lookup_lt_Some _ _ _ Htr) as Hlt. rewrite Hl1 in Hlt.
    unfold set_active_trace. cbn. destruct (Z.eqb_spec TRACE_INVALID j) as [<-|_]; [unfold TRACE_INVALID in Hj; lia|].
    cbn. fold tr1. split; [unfold TRACES_MAX in *; lia|]. split; [done|]. by exists tr.
Qed.
End Settings.
Arguments trace_info_t F : clear implicits.

Lemma set_trace_enable_current_witness :
  let s := upd_props load_default_properties (power_on (F := Qcanon.Qc)) in
  _current_trace (current_props (set_trace_enable 0 false s)) = 1.
Proof.
  intros s. destruct (set_trace_enable_current 0 false s eq_refl ltac:(done)) as [[E _]|[_ [_ _]]].
  - vm_compute in E. discriminate E.
  - vm_compute. reflexivity.
Defined.
