(* ===== verification/Sweep.v ===== *)
(** * The stimulus (main.c, nanovna.h, plot.c): sweep range, points, markers

    The frequency of every sweep point, the range settings of the user
    interface and of the shell, the marker positions and the grid that follow
    them, and the sweep run mode. *)

From S2P Require Import Prelude Num Codec Synth Types Props.

(** ** Sweep points to frequencies *)

Section Freq.
Context {F : Type}.

Definition set_frequencies (start stop points : Z) (s : vna F) : vna F :=
  let span := u32 (stop - start) in
  let fp := u16 (points - 1) in
  set__f_start start (set__f_points fp (set__f_delta (span / fp) (set__f_error (span mod fp) s))).

Definition getFrequency (idx : Z) (s : vna F) : Z :=
  u32 (u32 (_f_start s + u32 (_f_delta s * idx)) +
       u32 (_f_points s / 2 + u32 (_f_error s * idx)) / _f_points s).

Definition getFrequencyStep (s : vna F) : Z := _f_delta s.

(** The table variant (__USE_FREQ_TABLE__): [frequencies], filled by an error
    accumulator. *)
Fixpoint freq_table_loop (n : nat) (step delta error f df : Z) : list Z :=
  match n with
  | O => []
  | S n' =>
      let df' := u32 (df + error) in
      let f' := if step <=? df' then u32 (f + 1) else f in
      let df'' := if step <=? df' then u32 (df' - step) else df' in
      f :: freq_table_loop n' step delta error (u32 (f' + delta)) df''
  end.

Definition freq_table (start stop points : Z) : list Z :=
  let step := points - 1 in
  let span := u32 (stop - start) in
  freq_table_loop (Z.to_nat points) step (span / step) (span mod step) start (Z.shiftr step 1)
    ++ repeat 0 (Z.to_nat (SWEEP_POINTS_MAX - points)).

Definition needInterpolate (start stop points : Z) (s : vna F) : bool :=
  let p := current_props s in
  negb (start =? _cal_frequency0 p) || negb (stop =? _cal_frequency1 p)
  || negb (points =? _cal_sweep_points p).

Definition get_sweep_frequency (type : Z) (s : vna F) : Z :=
  let f0 := frequency0 s in let f1 := frequency1 s in
  if type =? ST_START then f0
  else if type =? ST_STOP then f1
  else if type =? ST_CENTER then u32 (Z.shiftr f0 1 + Z.shiftr f1 1 + Z.land f0 1)
  else if type =? ST_SPAN then u32 (f1 - f0)
  else if type =? ST_CW then f0
  else if type =? ST_STEP then u32 (f1 - f0) / (sweep_points s - 1)
  else if type =? ST_VAR then _var_freq (current_props s)
  else 0.

(** ** Markers *)

Definition marker_at (m : Z) (s : vna F) : marker_t :=
  nth (Z.to_nat m) (markers s) (Marker false 0 0 0).
Definition upd_marker (m : Z) (f : marker_t -> marker_t) (s : vna F) : vna F :=
  upd_props (fun p => set__markers (alter f (Z.to_nat m) (_markers p)) p) s.

(** [idx] is an int; the comparison is unsigned. *)
Definition set_marker_index (m idx : Z) (s : vna F) : vna F :=
  if (m =? MARKER_INVALID) || (sweep_points s <=? u32 idx) then s else
  let s := upd_marker m (set_mk_frequency (getFrequency idx s)) s in
  if mk_index (marker_at m s) =? idx then s else
  request_to_redraw REDRAW_MARKER (upd_marker m (set_mk_index idx) s).

Definition get_marker_frequency (marker : Z) (s : vna F) : Z :=
  if MARKERS_MAX <=? u32 marker then 0 else mk_frequency (marker_at marker s).

(** ** Grid (plot.c) *)

Definition GRID_BITS : Z := 7.
Definition WIDTH : Z := 455.

(** The step search: [do { ... } while (dgrid /= 10)]. *)
Fixpoint grid_step (fuel : nat) (fspan dgrid : Z) : Z :=
  let N := 4 in
  let grid := dgrid in
  let k := fspan / grid in
  if N * 5 <=? k then u32 (grid * 5)
  else if N * 2 <=? k then u32 (grid * 2)
  else if N * 1 <=? k then grid
  else let dgrid := dgrid / 10 in
       if dgrid =? 0 then grid
       else match fuel with O => grid | S fuel' => grid_step fuel' fspan dgrid end.

Definition update_grid (fstart fstop : Z) (s : vna F) : vna F :=
  let fspan := u32 (fstop - fstart) in
  if fspan =? 0 then set_grid_offset 0 (set_grid_width 0 s) else
  let grid := grid_step 9 fspan 1000000000 in
  set_grid_offset (u16 (u64 ((fstart mod grid) * Z.shiftl WIDTH GRID_BITS) / fspan))
    (set_grid_width (u16 (u64 (grid * Z.shiftl WIDTH GRID_BITS) / fspan)) s).

Definition CELLOFFSETX : Z := 5.
Definition HEIGHT : Z := 304.
Definition GRIDY : Z := HEIGHT / 8.

Definition rectangular_grid_x (x : Z) (s : vna F) : bool :=
  let x := u32 (x - CELLOFFSETX) in
  if WIDTH <? x then false
  else if (x =? 0) || (x =? WIDTH) then true
  else (u32 (Z.shiftl x GRID_BITS + grid_offset s)) mod grid_width s <? Z.shiftl 1 GRID_BITS.

Definition rectangular_grid_y (y : Z) : bool :=
  if HEIGHT <? y then false else y mod GRIDY =? 0.

Definition RESET_SWEEP : vna F -> vna F := set_p_sweep 0.
End Freq.

(** ** Range settings *)

Section Range.
Context {F : Type} `{FloatOps F}.

(** New index of marker [m] ([idx] in the loop of [update_marker_index]). *)
Definition marker_new_index (fstart fstop points : Z) (mk : marker_t) : Z :=
  let f := mk_frequency mk in
  if f =? 0 then mk_index mk
  else if f <=? fstart then 0
  else if fstop <=? f then points - 1
  else let r := fdiv (f_of_Z (u32 (f - fstart)) : F) (f_of_Z (u32 (fstop - fstart))) in
       f_trunc (fmul r (f_of_Z (points - 1))).

Definition update_marker_index (fstart fstop points : Z) (s : vna F) : vna F :=
  for_range 0 MARKERS_MAX
    (fun m s => set_marker_index m (marker_new_index fstart fstop points (marker_at m s)) s) s.

Definition update_frequencies (s : vna F) : vna F :=
  let start := get_sweep_frequency ST_START s in
  let stop := get_sweep_frequency ST_STOP s in
  let s := set_frequencies start stop (sweep_points s) s in
  let s := update_marker_index start stop (sweep_points s) s in
  let s := update_grid start stop s in
  let s := upd_props (fun p => set__cal_status
             (if needInterpolate start stop (sweep_points s) s
              then bit_set (_cal_status p) CALSTAT_INTERPOLATED
              else bit_clr (_cal_status p) CALSTAT_INTERPOLATED) p) s in
  RESET_SWEEP (request_to_redraw
    (Z.lor REDRAW_BACKUP (Z.lor REDRAW_PLOT (Z.lor REDRAW_CAL_STATUS
      (Z.lor REDRAW_FREQUENCY REDRAW_AREA)))) s).

Definition pause_sweep (s : vna F) : vna F := set_sweep_mode (bit_clr (sweep_mode s) SWEEP_ENABLE) s.
Definition resume_sweep (s : vna F) : vna F := set_sweep_mode (bit_set (sweep_mode s) SWEEP_ENABLE) s.
Definition toggle_sweep (s : vna F) : vna F :=
  let s := set_sweep_mode (Z.lxor (sweep_mode s) SWEEP_ENABLE) s in
  let s := set_sweep_mode (bit_clr (sweep_mode s) SWEEP_FILE_VIEW) s in
  if negb (bit_test (sweep_mode s) SWEEP_ENABLE) && VNA_MODE VNA_MODE_MUTE_PAUSE s
  then set_sweep_mode (bit_set (sweep_mode s) SWEEP_ONCE) s else s.

Definition set_range (f0 f1 : Z) : vna F -> vna F :=
  upd_props (fun p => set__frequency0 f0 (set__frequency1 f1 p)).

(** The switch of [set_sweep_frequency]; [None]: [return] without the update. *)
Definition set_sweep_switch (type freq : Z) (s : vna F) : vna F :=
  if type =? ST_START then
    let s := FREQ_STARTSTOP s in
    set_range freq (if frequency1 s <? freq then freq else frequency1 s) s
  else if type =? ST_STOP then
    let s := FREQ_STARTSTOP s in
    set_range (if freq <? frequency0 s then freq else frequency0 s) freq s
  else if type =? ST_CENTER then
    let s := FREQ_CENTERSPAN s in
    let center := freq in
    let span := Z.shiftr (u32 (frequency1 s - frequency0 s + 1)) 1 in
    let span := if u32 (center - FREQUENCY_MIN) <? span then u32 (center - FREQUENCY_MIN) else span in
    let span := if u32 (FREQUENCY_MAX - center) <? span then u32 (FREQUENCY_MAX - center) else span in
    set_range (u32 (center - span)) (u32 (center + span)) s
  else if type =? ST_SPAN then
    let s := FREQ_CENTERSPAN s in
    let center := get_sweep_frequency ST_CENTER s in
    let span := Z.shiftr freq 1 in
    let center := if center <? u32 (FREQUENCY_MIN + span) then u32 (FREQUENCY_MIN + span) else center in
    let center := if u32 (FREQUENCY_MAX - span) <? center then u32 (FREQUENCY_MAX - span) else center in
    set_range (u32 (center - span)) (u32 (center + span)) s
  else if type =? ST_CW then
    set_range freq freq (FREQ_CENTERSPAN s)
  else s.

Definition set_sweep_frequency (type freq : Z) (s : vna F) : vna F :=
  let freq := if (type <? ST_SPAN) && (freq <? FREQUENCY_MIN) then FREQUENCY_MIN else freq in
  let '(type, freq) :=
    if type =? ST_STEP then
      let freq := u32 (freq * (sweep_points s - 1)) in
      let type := if FREQ_IS_CENTERSPAN s then ST_SPAN else ST_STOP in
      (type, if type =? ST_STOP then u32 (freq + frequency0 s) else freq)
    else (type, freq) in
  let freq := if FREQUENCY_MAX <? freq then FREQUENCY_MAX else freq in
  if type =? ST_VAR then
    request_to_redraw REDRAW_BACKUP (upd_props (set__var_freq freq) s)
  else
    let s := update_frequencies (set_sweep_switch type freq s) in
    if bit_test (sweep_mode s) SWEEP_FILE_VIEW
    then resume_sweep (set_sweep_mode (bit_clr (sweep_mode s) SWEEP_FILE_VIEW) s)
    else s.

Definition reset_sweep_frequency (s : vna F) : vna F :=
  update_frequencies
    (upd_props (fun p => set__frequency0 (_cal_frequency0 p)
                        (set__frequency1 (_cal_frequency1 p)
                        (set__sweep_points (_cal_sweep_points p) p))) s).

Definition set_sweep_points (points : Z) (s : vna F) : vna F :=
  let points := if SWEEP_POINTS_MAX <? points then SWEEP_POINTS_MAX else points in
  let points := if points <? SWEEP_POINTS_MIN then SWEEP_POINTS_MIN else points in
  if points =? sweep_points s then s
  else update_frequencies (upd_props (set__sweep_points points) s).

(** ** Bandwidth, smoothing, power *)

Definition set_bandwidth (bw_count : Z) (s : vna F) : vna F :=
  request_to_redraw (Z.lor REDRAW_BACKUP REDRAW_FREQUENCY)
    (upd_config (set__bandwidth (Z.land bw_count 0x1FF)) s).

Definition get_bandwidth_frequency (bw_freq : Z) : Z :=
  (AUDIO_ADC_FREQ / AUDIO_SAMPLES_COUNT) / (bw_freq + 1).

Definition MAX_BANDWIDTH : Z := AUDIO_ADC_FREQ / AUDIO_SAMPLES_COUNT.
Definition MIN_BANDWIDTH : Z := (AUDIO_ADC_FREQ / AUDIO_SAMPLES_COUNT) / 512 + 1.

(** The conversion of [cmd_bandwidth] from Hz to a count (a uint16_t). *)
Definition bandwidth_of_frequency (f : Z) : Z :=
  if MAX_BANDWIDTH <? f then 0
  else if f <? MIN_BANDWIDTH then 511
  else u16 (((AUDIO_ADC_FREQ + AUDIO_SAMPLES_COUNT / 2) / AUDIO_SAMPLES_COUNT) / f - 1).

Definition set_smooth_factor (factor : Z) (s : vna F) : vna F :=
  request_to_redraw REDRAW_CAL_STATUS
    (put_smooth_factor (if 8 <? factor then 8 else factor) s).

(** A call into the clock generator: it reads the oscillator frequency, the
    threshold and the offset from [config], and [si5351_set_tcxo] writes the first. *)
Definition load_gen (s : vna F) : synth :=
  let g := gen s in
  let c := config s in
  Synth (current_band g) (current_power g) (current_freq g) (clk_cache g) (band_s g)
        (_IF_freq c) (_xtal_freq c) (_harmonic_freq_threshold c) (bus g).

Definition store_gen (g : synth) (s : vna F) : vna F :=
  upd_config (fun c => set__IF_freq (IF_OFFSET g) (set__xtal_freq (s_xtal_freq g) c)) (set_gen g s).

Definition on_synth (f : synth -> synth) (s : vna F) : vna F := store_gen (f (load_gen s)) s.

Definition set_frequency (freq : Z) (s : vna F) : option (vna F * Z) :=
  match si5351_set_frequency freq (_power (current_props s)) (load_gen s) with
  | Some (g, delay) => Some (store_gen g s, delay)
  | None => None
  end.

Definition set_power (value : Z) (s : vna F) : option (vna F) :=
  let s := request_to_redraw REDRAW_CAL_STATUS s in
  let value := if SI5351_CLK_DRIVE_STRENGTH_8MA <? value then SI5351_CLK_DRIVE_STRENGTH_AUTO else value in
  if _power (current_props s) =? value then Some s else
  let s := upd_props (set__power value) s in
  if bit_test (sweep_mode s) SWEEP_ENABLE then Some s
  else option_map (fun g => store_gen g s) (si5351_set_power value (load_gen s)).
End Range.

(** ** Sweep points: the closed form *)

(** The exact position of point [idx], rounded to the nearest hertz. *)
Definition ideal_frequency (start stop n idx : Z) : Z := start + ((stop - start) * idx + n / 2) / n.

Lemma ideal_frequency_bounds start stop n idx :
  0 < n -> start <= stop -> 0 <= idx <= n -> start <= ideal_frequency start stop n idx <= stop.
Proof.
  intros Hn Hs Hi. unfold ideal_frequency.
  pose proof (Z.div_pos ((stop - start) * idx + n / 2) n ltac:(nia) ltac:(lia)).
  enough (((stop - start) * idx + n / 2) / n < stop - start + 1) by lia.
  apply Z.div_lt_upper_bound; nia.
Qed.

Lemma ideal_frequency_split start stop n idx : 0 < n ->
  ideal_frequency start stop n idx =
  start + (stop - start) / n * idx + (n / 2 + (stop - start) mod n * idx) / n.
Proof.
  intros Hn. unfold ideal_frequency. set (d := stop - start).
  pose proof (Z.div_mod d n ltac:(lia)) as E.
  replace (d * idx + n / 2) with (d / n * idx * n + (n / 2 + d mod n * idx)).
  - rewrite Z.div_add_l by lia. lia.
  - rewrite E at 3. lia.
Qed.

Lemma getFrequency_ideal {F} (s : vna F) start stop points idx :
  0 <= start <= stop -> stop < 2 ^ 32 -> 2 <= points <= SWEEP_POINTS_MAX -> 0 <= idx < points ->
  getFrequency idx (set_frequencies start stop points s) = ideal_frequency start stop (points - 1) idx.
Proof.
  unfold SWEEP_POINTS_MAX. intros Hs H32 Hp Hi. set (n := points - 1).
  pose proof (ideal_frequency_bounds start stop n idx ltac:(lia) ltac:(lia) ltac:(lia)) as B.
  rewrite ideal_frequency_split in * by lia.
  unfold getFrequency, set_frequencies. fold n. cbn.
  rewrite (u16_small n) by lia. rewrite (u32_small (stop - start)) by lia.
  set (d := stop - start) in *. pose proof (Z.mod_pos_bound d n ltac:(lia)) as Hm.
  pose proof (Z.div_pos d n ltac:(lia) ltac:(lia)) as Hq.
  set (q := d / n) in *. set (r := d mod n) in *. clearbody q r.
  rewrite (u32_small (n / 2 + _)) by (rewrite (u32_small (r * idx)) by nia; nia).
  rewrite (u32_small (r * idx)) by nia.
  pose proof (Z.div_pos (n / 2 + r * idx) n ltac:(nia) ltac:(lia)).
  rewrite (u32_small (q * idx)) by nia.
  rewrite (u32_small (start + q * idx)) by nia. apply u32_small. lia.
Qed.

(** C28: the sweep points: frequency of point [idx] is the ideal position
    start + idx (stop - start) / (points - 1) rounded to the nearest hertz, with
    no 32-bit overflow; the ends are exactly start and stop, and the points
    never decrease. *)
Theorem sweep_points_exact {F} (s : vna F) start stop points idx :
  0 <= start <= stop -> stop < 2 ^ 32 -> 2 <= points <= SWEEP_POINTS_MAX -> 0 <= idx < points ->
  let n := points - 1 in
  let s' := set_frequencies start stop points s in
  getFrequency 0 s' = start /\ getFrequency n s' = stop /\
  Z.abs (2 * n * (getFrequency idx s' - start) - 2 * (stop - start) * idx) <= n /\
  (idx < n -> getFrequency idx s' <= getFrequency (idx + 1) s').
Proof.
  intros Hs H32 Hp Hi n s'. subst s'. pose proof Hp as Hp'. unfold SWEEP_POINTS_MAX in Hp'.
  rewrite !getFrequency_ideal by (first [done|lia]). fold n. unfold ideal_frequency.
  repeat split.
  - rewrite Z.mul_0_r, Z.add_0_l, (Z.div_small (n / 2)); lia.
  - rewrite Z.div_add_l by lia. rewrite (Z.div_small (n / 2)); lia.
  - set (x := (stop - start) * idx). pose proof (Z.div_mod (x + n / 2) n ltac:(lia)).
    pose proof (Z.mod_pos_bound (x + n / 2) n ltac:(lia)).
    set (q := (x + n / 2) / n) in *. replace (2 * (stop - start) * idx) with (2 * x) by lia.
    replace (start + q - start) with q by lia. nia.
  - intros Hin. rewrite getFrequency_ideal by (first [done|lia]). unfold ideal_frequency. fold n.
    apply Z.add_le_mono_l, Z.div_le_mono; nia.
Qed.

(** *** The table variant *)

Lemma div_mod_add A r n : 0 < n -> 0 <= r < n ->
  (A + r) / n = A / n + (if n <=? A mod n + r then 1 else 0) /\
  (A + r) mod n = A mod n + r - (if n <=? A mod n + r then n else 0).
Proof.
  intros Hn Hr. pose proof (Z.div_mod A n ltac:(lia)) as HA. pose proof (Z.mod_pos_bound A n Hn).
  destruct (Z.leb_spec n (A mod n + r)).
  - split; symmetry; [apply (Z.div_unique _ _ _ (A mod n + r - n))|apply (Z.mod_unique _ _ (A / n + 1))]; lia.
  - split; symmetry; [apply (Z.div_unique _ _ _ (A mod n + r))|apply (Z.mod_unique _ _ (A / n))]; lia.
Qed.

Lemma half_small n : 0 < n -> (n / 2) / n = 0 /\ (n / 2) mod n = n / 2.
Proof. intros Hn. split; [apply Z.div_small|apply Z.mod_small]; lia. Qed.

Lemma freq_table_loop_S k n q r f df :
  freq_table_loop (S k) n q r f df =
  f :: (let df' := u32 (df + r) in
        freq_table_loop k n q r (u32 ((if n <=? df' then u32 (f + 1) else f) + q))
          (if n <=? df' then u32 (df' - n) else df')).
Proof. reflexivity. Qed.

Lemma freq_table_loop_nth start q r n : 0 < n < 65536 -> 0 <= r < n -> 0 <= start -> 0 <= q ->
  forall k i j, (j < S k)%nat -> 0 <= i ->
  start + q * (i + Z.of_nat k) + (n / 2 + r * (i + Z.of_nat k)) / n < 2 ^ 32 ->
  nth j (freq_table_loop (S k) n q r (start + q * i + (n / 2 + r * i) / n) ((n / 2 + r * i) mod n)) 0 =
  start + q * (i + Z.of_nat j) + (n / 2 + r * (i + Z.of_nat j)) / n.
Proof.
  intros Hn Hr Hs Hq k. induction k as [|k IH]; intros i j Hj Hi HB; rewrite freq_table_loop_S; cbv zeta;
    (destruct j as [|j]; [cbn [nth]; by rewrite !Z.add_0_r|]); [lia|]. cbn [nth].
  set (A := n / 2 + r * i).
  pose proof (Z.mod_pos_bound A n ltac:(lia)) as Hm. pose proof (Z.div_mod A n ltac:(lia)) as HA.
  assert (H0 : 0 <= A / n) by (apply Z.div_pos; subst A; nia).
  assert (Hmono : A / n <= (n / 2 + r * (i + 1)) / n <= (n / 2 + r * (i + Z.of_nat (S k))) / n)
    by (split; apply Z.div_le_mono; subst A; nia).
  pose proof (div_mod_add A r n ltac:(lia) Hr) as Hstep.
  replace (A + r) with (n / 2 + r * (i + 1)) in Hstep by (subst A; lia).
  destruct Hstep as [Hd Hr']. assert (Hq1 : 0 <= q * i /\ q * (i + 1) <= q * (i + Z.of_nat (S k))) by nia.
  rewrite (u32_small (A mod n + r)) by lia.
  assert (E : (if n <=? A mod n + r then u32 (start + q * i + A / n + 1) else start + q * i + A / n) + q =
              start + q * (i + 1) + (n / 2 + r * (i + 1)) / n).
  { rewrite Hd. destruct (Z.leb_spec n (A mod n + r)); [rewrite u32_small by lia|]; lia. }
  assert (E' : (if n <=? A mod n + r then u32 (A mod n + r - n) else A mod n + r) =
               (n / 2 + r * (i + 1)) mod n).
  { rewrite Hr'. destruct (Z.leb_spec n (A mod n + r)); [rewrite u32_small by lia|]; lia. }
  rewrite E, E', u32_small by lia.
  rewrite IH; [do 2 f_equal; try f_equal; lia|lia|lia|].
  replace (i + 1 + Z.of_nat k) with (i + Z.of_nat (S k)) by lia. done.
Qed.

Lemma freq_table_loop_length k : forall n q r f df, length (freq_table_loop k n q r f df) = k.
Proof. induction k as [|k IH]; intros; cbn; [done|]. by rewrite IH. Qed.

(** The frequency table of the build with __USE_FREQ_TABLE__, filled by an
    error accumulator, holds the same frequencies as the closed formula of the
    other build, and zero outside the sweep. *)
Theorem freq_table_agrees {F} (s : vna F) start stop points idx :
  0 <= start <= stop -> stop < 2 ^ 32 -> 2 <= points <= SWEEP_POINTS_MAX -> 0 <= idx < SWEEP_POINTS_MAX ->
  length (freq_table start stop points) = Z.to_nat SWEEP_POINTS_MAX /\
  nth (Z.to_nat idx) (freq_table start stop points) 0 =
    if idx <? points then getFrequency idx (set_frequencies start stop points s) else 0.
Proof.
  intros Hs H32 Hp Hi. pose proof Hp as Hp'. unfold SWEEP_POINTS_MAX in Hp', Hi.
  unfold freq_table. set (n := points - 1). rewrite (u32_small (stop - start)) by lia.
  set (d := stop - start).
  set (L := freq_table_loop _ _ _ _ _ _).
  assert (HL : length L = Z.to_nat points) by apply freq_table_loop_length.
  split; [rewrite length_app, repeat_length, HL; unfold SWEEP_POINTS_MAX; lia|].
  destruct (Z.ltb_spec idx points) as [Hlt|Hge].
  - rewrite app_nth1 by lia. rewrite getFrequency_ideal, ideal_frequency_split by (first [done|lia]). fold n d.
    subst L. replace (Z.to_nat points) with (S (Z.to_nat n)) by lia.
    pose proof (ideal_frequency_bounds start stop n n ltac:(lia) ltac:(lia) ltac:(lia)) as B.
    rewrite ideal_frequency_split in B by lia. fold d in B.
    assert (Hn0 : 0 < n) by lia.
    pose proof (freq_table_loop_nth start (d / n) (d mod n) n ltac:(lia)
                  (Z.mod_pos_bound d n ltac:(lia)) ltac:(lia) ltac:(apply Z.div_pos; lia)
                  (Z.to_nat n) 0 (Z.to_nat idx) ltac:(lia) ltac:(lia)) as E.
    assert (E0 : start + d / n * 0 + (n / 2 + d mod n * 0) / n = start).
    { rewrite !Z.mul_0_r, !Z.add_0_r, (proj1 (half_small n Hn0)). apply Z.add_0_r. }
    assert (E1 : (n / 2 + d mod n * 0) mod n = n / 2).
    { rewrite Z.mul_0_r, Z.add_0_r. exact (proj2 (half_small n Hn0)). }
    rewrite E0, E1, !Z.add_0_l, !Z2Nat.id in E by (clear E; lia).
    replace (Z.shiftr n 1) with (n / 2) by (by rewrite Z.shiftr_div_pow2). apply E. clear E. lia.
  - rewrite app_nth2 by lia. apply nth_repeat.
Qed.

(** ** Range settings *)

(** Two states with the same range, points and mode. *)
Definition same_range {F} (s s' : vna F) : Prop :=
  frequency0 s' = frequency0 s /\ frequency1 s' = frequency1 s /\
  sweep_points s' = sweep_points s /\ props_mode s' = props_mode s.

Lemma set_marker_index_range {F} m idx (s : vna F) : same_range s (set_marker_index m idx s).
Proof. unfold set_marker_index. repeat case_match; repeat split. Qed.

Lemma same_range_trans {F} (a b c : vna F) : same_range a b -> same_range b c -> same_range a c.
Proof. unfold same_range. intuition congruence. Qed.

Section RangeLemmas.
Context {F : Type} `{FloatOps F}.

Lemma update_marker_index_range a b p (s : vna F) : same_range s (update_marker_index a b p s).
Proof.
  unfold update_marker_index. apply (for_range_ind (fun _ s' => same_range s s')); [unfold MARKERS_MAX; lia|by repeat split|].
  intros i s' _ Hs. eapply same_range_trans; [exact Hs|apply set_marker_index_range].
Qed.

Lemma update_grid_range a b (s : vna F) : same_range s (update_grid a b s).
Proof. unfold update_grid. by destruct (_ =? _). Qed.

Lemma update_frequencies_range (s : vna F) : same_range s (update_frequencies s).
Proof.
  unfold update_frequencies. cbv zeta. set (s1 := set_frequencies _ _ _ s).
  set (s2 := update_marker_index _ _ _ s1). set (s3 := update_grid _ _ s2).
  assert (E1 : same_range s s1) by done.
  assert (E2 : same_range s1 s2) by apply update_marker_index_range.
  assert (E3 : same_range s2 s3) by apply update_grid_range.
  assert (E4 : same_range s s3) by (eauto using same_range_trans).
  clearbody s3. eapply same_range_trans; [exact E4|]. by destruct (needInterpolate _ _ _ _).
Qed.

(** The clamp of the frequency argument. *)
Definition clamp_freq (freq : Z) : Z := Z.max FREQUENCY_MIN (Z.min FREQUENCY_MAX freq).

Lemma set_sweep_frequency_range_of type freq (s : vna F) :
  type <> ST_STEP -> type <> ST_VAR ->
  same_range (set_sweep_switch type
    (if type <? ST_SPAN then clamp_freq freq else Z.min FREQUENCY_MAX freq) s)
    (set_sweep_frequency type freq s).
Proof.
  intros H5 H6. unfold set_sweep_frequency.
  rewrite (proj2 (Z.eqb_neq type ST_STEP) H5), (proj2 (Z.eqb_neq type ST_VAR) H6).
  cbv zeta.
  assert (E : (if FREQUENCY_MAX <? (if (type <? ST_SPAN) && (freq <? FREQUENCY_MIN) then FREQUENCY_MIN else freq)
               then FREQUENCY_MAX
               else if (type <? ST_SPAN) && (freq <? FREQUENCY_MIN) then FREQUENCY_MIN else freq) =
              if type <? ST_SPAN then clamp_freq freq else Z.min FREQUENCY_MAX freq).
  { unfold clamp_freq, FREQUENCY_MIN, FREQUENCY_MAX. destruct (type <? ST_SPAN), (Z.ltb_spec freq 600); cbn [andb]; repeat zcase; lia. }
  rewrite E. clear E. eapply same_range_trans; [apply update_frequencies_range|].
  match goal with |- same_range ?u _ => generalize u end. intros u. by destruct (bit_test _ _).
Qed.
End RangeLemmas.

Definition in_range {F} (s : vna F) : Prop :=
  FREQUENCY_MIN <= frequency0 s <= frequency1 s /\ frequency1 s <= FREQUENCY_MAX.

(** The middle of a symmetric range, as [get_sweep_frequency] computes it. *)
Lemma center_of_symmetric c h : 0 <= h <= c -> c + h < 2 ^ 32 ->
  u32 (Z.shiftr (c - h) 1 + Z.shiftr (c + h) 1 + Z.land (c - h) 1) = c.
Proof.
  intros Hh Hc. rewrite !Z.shiftr_div_pow2 by lia.
  pose proof (Z.land_ones (c - h) 1 ltac:(lia)) as E. change (Z.ones 1) with 1 in E. rewrite E.
  change (2 ^ 1) with 2. rewrite u32_small by lia. lia.
Qed.

Lemma if_ltb_min a b : (if a <? b then a else b) = Z.min a b.
Proof. zcase; lia. Qed.
Lemma if_ltb_max a b : (if a <? b then b else a) = Z.max a b.
Proof. zcase; lia. Qed.

(** The switch, one setting at a time. *)
Section SwitchLemmas.
Context {F : Type}.
Implicit Types s : vna F.

Lemma switch_start f s :
  frequency0 (set_sweep_switch ST_START f s) = f /\
  frequency1 (set_sweep_switch ST_START f s) = Z.max (frequency1 s) f.
Proof. split; [done|]. cbn. unfold frequency1. zcase; lia. Qed.

Lemma switch_stop f s :
  frequency1 (set_sweep_switch ST_STOP f s) = f /\
  frequency0 (set_sweep_switch ST_STOP f s) = Z.min (frequency0 s) f.
Proof. split; [done|]. cbn. unfold frequency0. zcase; lia. Qed.

Lemma switch_points type f s : sweep_points (set_sweep_switch type f s) = sweep_points s.
Proof. unfold set_sweep_switch. by repeat case_match. Qed.

Lemma switch_cw f s :
  frequency0 (set_sweep_switch ST_CW f s) = f /\ frequency1 (set_sweep_switch ST_CW f s) = f.
Proof. done. Qed.

Lemma switch_center c s : in_range s -> FREQUENCY_MIN <= c <= FREQUENCY_MAX ->
  exists h, 0 <= h <= c - FREQUENCY_MIN /\ h <= FREQUENCY_MAX - c /\
  frequency0 (set_sweep_switch ST_CENTER c s) = c - h /\
  frequency1 (set_sweep_switch ST_CENTER c s) = c + h.
Proof.
  intros [H0 H1] Hc. unfold FREQUENCY_MIN, FREQUENCY_MAX in *.
  pose proof (Z.shiftr_div_pow2 (u32 (frequency1 s - frequency0 s + 1)) 1 ltac:(lia)) as Hh.
  rewrite u32_small in Hh by lia. unfold frequency0, frequency1 in *. cbn. unfold FREQUENCY_MIN, FREQUENCY_MAX, frequency0, frequency1 in *. cbn.
  rewrite (u32_small (_frequency1 _ - _ + 1)), Hh by lia. change (2 ^ 1) with 2.
  rewrite !(u32_small (c - 600)), !(u32_small (2700000000 - c)) by lia.
  set (h := (_ / 2)). assert (0 <= h <= 1350000000) by (subst h; lia). clearbody h.
  rewrite !if_ltb_min. set (m := Z.min _ _). exists m. rewrite !u32_small by lia. lia.
Qed.

Lemma switch_span f s : in_range s -> 0 <= f <= FREQUENCY_MAX - FREQUENCY_MIN ->
  exists c, FREQUENCY_MIN + f / 2 <= c <= FREQUENCY_MAX - f / 2 /\
  frequency0 (set_sweep_switch ST_SPAN f s) = c - f / 2 /\
  frequency1 (set_sweep_switch ST_SPAN f s) = c + f / 2.
Proof.
  intros [H0 H1] Hf. unfold FREQUENCY_MIN, FREQUENCY_MAX in *.
  pose proof (Z.shiftr_div_pow2 f 1 ltac:(lia)) as Hh. change (2 ^ 1) with 2 in Hh.
  cbn. unfold FREQUENCY_MIN, FREQUENCY_MAX. rewrite Hh.
  rewrite (u32_small (600 + _)), (u32_small (2700000000 - _)) by lia.
  set (c := u32 (_ + _ + _)). clearbody c. rewrite (if_ltb_min (2700000000 - f / 2)), if_ltb_max.
  set (m := Z.min _ _). exists m. rewrite !u32_small by lia. lia.
Qed.
End SwitchLemmas.

(** Settle the conjuncts of one setting: the other settings are excluded by
    their number. *)
Ltac by_type :=
  unfold ST_START, ST_STOP, ST_CENTER, ST_SPAN, ST_CW, FREQUENCY_MIN, FREQUENCY_MAX in *;
  repeat match goal with |- _ /\ _ => split end; intros; lia.

(** C40: range settings: the five direct settings keep
    FREQUENCY_MIN <= start <= stop <= FREQUENCY_MAX and do what they say: START
    and STOP set their end to the clamped value and push the other end when
    they cross it; CENTER makes the clamped value the displayed center; SPAN
    gives a span of 2 (freq / 2); CW gives both ends the frequency.  The points
    are unchanged.  CW needs freq >= FREQUENCY_MIN and SPAN needs
    freq <= FREQUENCY_MAX - FREQUENCY_MIN: the code checks neither. *)
Theorem set_sweep_frequency_keeps_range {F} `{FloatOps F} (type freq : Z) (s : vna F) :
  in_range s -> 0 <= freq < 2 ^ 32 ->
  (0 <= type <= ST_CENTER \/ type = ST_SPAN /\ freq <= FREQUENCY_MAX - FREQUENCY_MIN \/
   type = ST_CW /\ FREQUENCY_MIN <= freq) ->
  let s' := set_sweep_frequency type freq s in
  in_range s' /\ sweep_points s' = sweep_points s /\
  (type = ST_START -> frequency0 s' = clamp_freq freq /\ frequency1 s' = Z.max (frequency1 s) (clamp_freq freq)) /\
  (type = ST_STOP -> frequency1 s' = clamp_freq freq /\ frequency0 s' = Z.min (frequency0 s) (clamp_freq freq)) /\
  (type = ST_CENTER -> get_sweep_frequency ST_CENTER s' = clamp_freq freq) /\
  (type = ST_SPAN -> get_sweep_frequency ST_SPAN s' = 2 * (freq / 2)) /\
  (type = ST_CW -> frequency0 s' = clamp_freq freq /\ frequency1 s' = clamp_freq freq).
Proof.
  intros [Hr0 Hr1] Hf Ht s'.
  assert (H56 : type <> ST_STEP /\ type <> ST_VAR) by (unfold ST_CENTER, ST_SPAN, ST_CW, ST_STEP, ST_VAR in *; lia).
  pose proof (set_sweep_frequency_range_of type freq s (proj1 H56) (proj2 H56)) as (E0 & E1 & E2 & _).
  fold s' in E0, E1, E2. rewrite switch_points in E2. clearbody s'. clear H56.
  assert (Hc : FREQUENCY_MIN <= clamp_freq freq <= FREQUENCY_MAX) by (unfold clamp_freq, FREQUENCY_MIN, FREQUENCY_MAX; lia).
  change (get_sweep_frequency ST_SPAN s') with (u32 (frequency1 s' - frequency0 s')).
  change (get_sweep_frequency ST_CENTER s') with
    (u32 (Z.shiftr (frequency0 s') 1 + Z.shiftr (frequency1 s') 1 + Z.land (frequency0 s') 1)).
  unfold in_range. set (c := clamp_freq freq) in *.
  assert (Hcw : FREQUENCY_MIN <= freq -> Z.min FREQUENCY_MAX freq = c) by (unfold c, clamp_freq, FREQUENCY_MIN, FREQUENCY_MAX; lia).
  clearbody c.
  destruct (Z.eq_dec type ST_START) as [->|N0]; [|destruct (Z.eq_dec type ST_STOP) as [->|N1];
    [|destruct (Z.eq_dec type ST_CENTER) as [->|N2]; [|destruct (Z.eq_dec type ST_SPAN) as [->|N3]]]].
  - destruct (switch_start c s) as [X0 X1]. change (ST_START <? ST_SPAN) with true in E0, E1. cbv match in E0, E1.
    rewrite X0 in E0. rewrite X1 in E1. by_type.
  - destruct (switch_stop c s) as [X0 X1]. change (ST_STOP <? ST_SPAN) with true in E0, E1. cbv match in E0, E1.
    rewrite X1 in E0. rewrite X0 in E1. by_type.
  - destruct (switch_center c s (conj Hr0 Hr1) Hc) as (h & Hh & Hh' & X0 & X1).
    change (ST_CENTER <? ST_SPAN) with true in E0, E1. cbv match in E0, E1. rewrite X0 in E0. rewrite X1 in E1.
    rewrite E0, E1, center_of_symmetric by (unfold FREQUENCY_MIN, FREQUENCY_MAX in *; lia). by_type.
  - assert (Hsp : freq <= FREQUENCY_MAX - FREQUENCY_MIN) by (unfold ST_CENTER, ST_SPAN, ST_CW in *; lia).
    change (ST_SPAN <? ST_SPAN) with false in E0, E1. cbv match in E0, E1.
    replace (Z.min FREQUENCY_MAX freq) with freq in E0, E1 by (unfold FREQUENCY_MIN, FREQUENCY_MAX in *; lia).
    destruct (switch_span freq s (conj Hr0 Hr1) ltac:(lia)) as (m & Hm & X0 & X1).
    rewrite X0 in E0. rewrite X1 in E1. rewrite E0, E1.
    replace (m + freq / 2 - (m - freq / 2)) with (2 * (freq / 2)) by lia.
    rewrite (u32_small (2 * (freq / 2))) by lia. by_type.
  - assert (type = ST_CW /\ FREQUENCY_MIN <= freq) as [-> Hcw'] by (unfold ST_START, ST_STOP, ST_CENTER, ST_SPAN, ST_CW in *; lia).
    change (ST_CW <? ST_SPAN) with false in E0, E1. cbv match in E0, E1. rewrite (Hcw Hcw') in E0, E1.
    destruct (switch_cw c s) as [X0 X1]. rewrite X0 in E0. rewrite X1 in E1. by_type.
Qed.

(** The step setting in start/stop mode: when the range it asks for fits,
    the start stays and the step read back is the one that was set. *)
Theorem set_sweep_step {F} `{FloatOps F} (freq : Z) (s : vna F) :
  in_range s -> FREQ_IS_CENTERSPAN s = false -> 2 <= sweep_points s <= SWEEP_POINTS_MAX -> 0 <= freq ->
  frequency0 s + freq * (sweep_points s - 1) <= FREQUENCY_MAX ->
  let s' := set_sweep_frequency ST_STEP freq s in
  in_range s' /\ frequency0 s' = frequency0 s /\ get_sweep_frequency ST_STEP s' = freq.
Proof.
  intros [Hr0 Hr1] Hm Hp Hf Hb s'. unfold FREQUENCY_MIN, FREQUENCY_MAX in *. set (n := sweep_points s - 1) in *.
  assert (Hfn : 0 <= freq * n) by (apply Z.mul_nonneg_nonneg; lia).
  assert (E : same_range (set_sweep_switch ST_STOP (freq * n + frequency0 s) s) s').
  { subst s'. unfold set_sweep_frequency. change (ST_STEP <? ST_SPAN) with false. change (ST_STEP =? ST_STEP) with true.
    cbn [andb]. cbv match. rewrite Hm. change (ST_STOP =? ST_STOP) with true. change (ST_STOP =? ST_VAR) with false.
    cbv match. fold n. rewrite (u32_small (freq * n)), u32_small by lia. unfold FREQUENCY_MAX.
    rewrite (proj2 (Z.ltb_ge 2700000000 _)) by lia.
    eapply same_range_trans; [apply update_frequencies_range|].
    match goal with |- same_range ?u _ => generalize u end. intros u. by destruct (bit_test _ _). }
  destruct E as (E0 & E1 & E2 & _). destruct (switch_stop (freq * n + frequency0 s) s) as [X1 X0].
  rewrite X0 in E0. rewrite X1 in E1. rewrite switch_points in E2.
  change (get_sweep_frequency ST_STEP s') with (u32 (frequency1 s' - frequency0 s') / (sweep_points s' - 1)).
  unfold in_range, FREQUENCY_MIN, FREQUENCY_MAX. rewrite E0, E1, E2. fold n.
  replace (Z.min (frequency0 s) (freq * n + frequency0 s)) with (frequency0 s) by lia.
  split; [lia|]. split; [done|]. replace (freq * n + frequency0 s - frequency0 s) with (freq * n) by lia.
  rewrite u32_small by lia. apply Z.div_mul. lia.
Qed.

(** What the range checks let through: a SPAN that does not fit around any
    center puts the start below FREQUENCY_MIN (at 0 for the largest), a CW
    frequency below FREQUENCY_MIN is taken as it is, and a STEP whose product
    wraps around 32 bits can put the stop (and with it the start) below
    FREQUENCY_MIN. *)
Theorem range_guard_gaps {F} `{FloatOps F} (freq : Z) (s : vna F) :
  in_range s -> 0 <= freq < 2 ^ 32 ->
  (FREQUENCY_MAX - FREQUENCY_MIN + 2 <= freq ->
     let s' := set_sweep_frequency ST_SPAN freq s in
     frequency0 s' = FREQUENCY_MAX - 2 * (Z.min FREQUENCY_MAX freq / 2) /\
     frequency0 s' < FREQUENCY_MIN) /\
  (freq < FREQUENCY_MIN ->
     let s' := set_sweep_frequency ST_CW freq s in frequency0 s' = freq /\ frequency1 s' = freq) /\
  (FREQ_IS_CENTERSPAN s = false -> sweep_points s = 401 -> frequency0 s = 600 ->
     let s' := set_sweep_frequency ST_STEP 10737418 s in frequency0 s' = 504 /\ frequency1 s' = 504).
Proof.
  intros [Hr0 Hr1] Hf. split; [|split].
  - intros Hg. cbv zeta.
    destruct (set_sweep_frequency_range_of ST_SPAN freq s ltac:(done) ltac:(done)) as (-> & _).
    change (ST_SPAN <? ST_SPAN) with false. cbv match. unfold FREQUENCY_MIN, FREQUENCY_MAX in *.
    set (f := Z.min 2700000000 freq). assert (Hf' : 2699999402 <= f <= 2700000000) by lia. clearbody f.
    pose proof (Z.shiftr_div_pow2 f 1 ltac:(lia)) as Hh. change (2 ^ 1) with 2 in Hh.
    cbn. unfold FREQUENCY_MIN, FREQUENCY_MAX. rewrite Hh.
    rewrite (u32_small (600 + _)), (u32_small (2700000000 - _)) by lia.
    set (c := u32 (_ + _ + _)). clearbody c. rewrite (if_ltb_min (2700000000 - f / 2)), if_ltb_max.
    rewrite u32_small by lia. lia.
  - intros Hg. cbv zeta.
    destruct (set_sweep_frequency_range_of ST_CW freq s ltac:(done) ltac:(done)) as (-> & -> & _).
    change (ST_CW <? ST_SPAN) with false. cbv match.
    rewrite (proj1 (switch_cw _ s)), (proj2 (switch_cw _ s)). unfold FREQUENCY_MIN, FREQUENCY_MAX in *. lia.
  - intros Hm Hp H0. cbv zeta.
    assert (E : same_range (set_sweep_switch ST_STOP 504 s) (set_sweep_frequency ST_STEP 10737418 s)).
    { unfold set_sweep_frequency. change (ST_STEP <? ST_SPAN) with false. change (ST_STEP =? ST_STEP) with true.
      cbn [andb]. cbv match. rewrite Hm, Hp, H0. change (ST_STOP =? ST_STOP) with true. change (ST_STOP =? ST_VAR) with false.
      cbv match. change (u32 (u32 (10737418 * (401 - 1)) + 600)) with 504.
      change (FREQUENCY_MAX <? 504) with false. cbv match.
      eapply same_range_trans; [apply update_frequencies_range|].
      match goal with |- same_range ?u _ => generalize u end. intros u. by destruct (bit_test _ _). }
    destruct E as (-> & -> & _). destruct (switch_stop 504 s) as [-> ->]. rewrite H0. split; reflexivity.
Qed.

(** ** The state after [update_frequencies] *)

(** The loop over the markers, as a map. *)
Definition refreshed {F} `{FloatOps F} (fstart fstop points : Z) (s : vna F) (mk : marker_t) : marker_t :=
  let idx := marker_new_index (F := F) fstart fstop points mk in
  if sweep_points s <=? u32 idx then mk
  else Marker (mk_enabled mk) (mk_reserved mk) idx (getFrequency idx s).

Definition same_table {F} (s s' : vna F) : Prop :=
  _f_start s' = _f_start s /\ _f_delta s' = _f_delta s /\ _f_error s' = _f_error s /\ _f_points s' = _f_points s.

Lemma same_table_freq {F} (s s' : vna F) idx : same_table s s' -> getFrequency idx s' = getFrequency idx s.
Proof. intros (E1 & E2 & E3 & E4). unfold getFrequency. by rewrite E1, E2, E3, E4. Qed.

Lemma set_marker_index_spec {F} m idx (s : vna F) :
  0 <= m < Z.of_nat (length (markers s)) ->
  same_table s (set_marker_index m idx s) /\
  markers (set_marker_index m idx s) =
    alter (fun mk => if sweep_points s <=? u32 idx then mk
                     else Marker (mk_enabled mk) (mk_reserved mk) idx (getFrequency idx s))
          (Z.to_nat m) (markers s).
Proof.
  intros Hm. unfold set_marker_index.
  destruct (Z.eqb_spec m MARKER_INVALID) as [->|_]; [unfold MARKER_INVALID in Hm; lia|]. cbn [orb].
  destruct (sweep_points s <=? u32 idx) eqn:E.
  { split; [done|]. symmetry. apply list_alter_id. intros mk. done. }
  assert (Hin : exists mk, markers s !! Z.to_nat m = Some mk) by (apply lookup_lt_is_Some; lia).
  destruct Hin as [mk Hmk].
  assert (Hat : mk_index (marker_at m (upd_marker m (set_mk_frequency (getFrequency idx s)) s)) = mk_index mk).
  { unfold marker_at, upd_marker, upd_props, markers. cbn. fold (markers s).
    erewrite nth_lookup_Some; [|rewrite list_lookup_alter, decide_True, Hmk by done; reflexivity]. done. }
  rewrite Hat. unfold upd_marker, upd_props, markers. cbn. fold (markers s).
  destruct (Z.eqb_spec (mk_index mk) idx) as [<-|Hne]; (split; [done|]); cbn; fold (markers s).
  - apply list_alter_ext; [|done]. intros mk' Hmk'. rewrite Hmk in Hmk'. injection Hmk' as <-. done.
  - by rewrite list_alter_alter_eq.
Qed.

Lemma update_marker_index_spec {F} `{FloatOps F} a b p (s : vna F) :
  length (markers s) = Z.to_nat MARKERS_MAX ->
  same_table s (update_marker_index a b p s) /\
  markers (update_marker_index a b p s) = map (refreshed a b p s) (markers s).
Proof.
  intros Hl. unfold update_marker_index.
  enough (P : let s' := for_range 0 MARKERS_MAX
      (fun m s => set_marker_index m (marker_new_index a b p (marker_at m s)) s) s in
      same_table s s' /\ same_range s s' /\
      markers s' = map (refreshed a b p s) (take (Z.to_nat MARKERS_MAX) (markers s)) ++ drop (Z.to_nat MARKERS_MAX) (markers s)).
  { destruct P as (P1 & _ & P2). split; [done|]. rewrite P2, <- Hl, drop_all, app_nil_r, firstn_all. done. }
  apply (for_range_ind (fun i s' => same_table s s' /\ same_range s s' /\
      markers s' = map (refreshed a b p s) (take (Z.to_nat i) (markers s)) ++ drop (Z.to_nat i) (markers s)));
    [unfold MARKERS_MAX; lia|done|].
  intros i s' Hi (T & R & M).
  destruct (lookup_lt_is_Some_2 (markers s) (Z.to_nat i) ltac:(unfold MARKERS_MAX in *; lia)) as [mk Hmk].
  pose proof (length_take_le (markers s) (Z.to_nat i) ltac:(unfold MARKERS_MAX in *; lia)) as Hlt.
  rewrite (drop_S _ _ _ Hmk) in M.
  assert (Hlen : length (markers s') = length (markers s)).
  { rewrite M, length_app, length_map, Hlt. cbn [length]. rewrite length_drop. unfold MARKERS_MAX in *. lia. }
  assert (Hat : marker_at i s' = mk).
  { unfold marker_at. rewrite M. erewrite nth_lookup_Some; [reflexivity|].
    rewrite lookup_app_r by (rewrite length_map; lia). rewrite length_map, Hlt, Nat.sub_diag. done. }
  rewrite Hat. set (idx := marker_new_index a b p mk).
  destruct (set_marker_index_spec i idx s' ltac:(unfold MARKERS_MAX in *; lia)) as [T' M'].
  split; [|split].
  - unfold same_table in *. intuition congruence.
  - eapply same_range_trans; [exact R|apply set_marker_index_range].
  - rewrite M', M. replace (Z.to_nat (i + 1)) with (S (Z.to_nat i)) by lia.
    rewrite alter_app_r_alt by (rewrite length_map; lia). rewrite length_map, Hlt, Nat.sub_diag. cbn [alter list_alter].
    rewrite (take_S_r _ _ _ Hmk), map_app, <- app_assoc. cbn [map app].
    rewrite (same_table_freq s s' idx T). destruct R as (_ & _ & -> & _). done.
Qed.

Lemma update_grid_table {F} a b (s : vna F) : same_table s (update_grid a b s) /\ markers (update_grid a b s) = markers s.
Proof. unfold update_grid. by destruct (_ =? _). Qed.

(** The last steps leave table and markers. *)
Lemma update_frequencies_shape {F} `{FloatOps F} (s : vna F) :
  length (markers s) = Z.to_nat MARKERS_MAX ->
  let s1 := set_frequencies (frequency0 s) (frequency1 s) (sweep_points s) s in
  same_table s1 (update_frequencies s) /\
  markers (update_frequencies s) = map (refreshed (frequency0 s) (frequency1 s) (sweep_points s) s1) (markers s) /\
  p_sweep (update_frequencies s) = 0 /\
  bit_test (cal_status (update_frequencies s)) CALSTAT_INTERPOLATED =
    needInterpolate (frequency0 s) (frequency1 s) (sweep_points s) (update_frequencies s).
Proof.
  intros Hl s1. destruct (update_marker_index_spec (frequency0 s) (frequency1 s) (sweep_points s) s1 Hl) as [T M].
  change (get_sweep_frequency ST_START s) with (frequency0 s) in *.
  unfold update_frequencies. cbv zeta.
  change (get_sweep_frequency ST_START s) with (frequency0 s). change (get_sweep_frequency ST_STOP s) with (frequency1 s).
  fold s1. change (sweep_points s1) with (sweep_points s).
  pose proof (update_marker_index_range (frequency0 s) (frequency1 s) (sweep_points s) s1) as (_ & _ & Rp & _).
  set (s2 := update_marker_index _ _ _ s1) in *.
  pose proof (update_grid_table (frequency0 s) (frequency1 s) s2) as [T' M'].
  pose proof (update_grid_range (frequency0 s) (frequency1 s) s2) as (_ & _ & Rp' & _).
  set (s3 := update_grid _ _ s2) in *. rewrite Rp', Rp. change (sweep_points s1) with (sweep_points s).
  assert (T3 : same_table s1 s3) by (unfold same_table in *; intuition congruence).
  assert (M3 : markers s3 = map (refreshed (frequency0 s) (frequency1 s) (sweep_points s) s1) (markers s)) by (rewrite M', M; reflexivity).
  clearbody s3. clear T T' M M' Rp Rp'.
  destruct (needInterpolate (frequency0 s) (frequency1 s) (sweep_points s) s3) eqn:E;
    (split; [exact T3|split; [exact M3|split; [reflexivity|]]]); (etrans; [|symmetry; exact E]);
    [apply (bit_test_set _ 9 9)|apply (bit_test_clr _ 9 9)]; lia.
Qed.

(** C14: What [update_frequencies] leaves, for a range of the instrument, 2 to 401 points
    and markers that are on a point of the sweep if they have no frequency yet: the
    first and the last point are start and stop, the calibration is flagged as
    interpolated exactly when it was made for another range or number of points, the
    sweep restarts at point 0, and, with exact truncation, each marker is on a point
    of the sweep and has its frequency: the point below its old frequency inside the
    range, the first point at or below the start, the last one at or above the stop,
    and the point it was on when it had no frequency. *)
Theorem update_frequencies_consistent {F} `{FloatOps F} {ET : ExactTrunc F} (s : vna F) :
  in_range s -> 2 <= sweep_points s <= SWEEP_POINTS_MAX -> length (markers s) = Z.to_nat MARKERS_MAX ->
  Forall (fun mk => mk_frequency mk = 0 -> 0 <= mk_index mk < sweep_points s) (markers s) ->
  let s' := update_frequencies s in
  let n := sweep_points s - 1 in
  getFrequency 0 s' = frequency0 s' /\ getFrequency n s' = frequency1 s' /\ p_sweep s' = 0 /\
  bit_test (cal_status s') CALSTAT_INTERPOLATED =
    needInterpolate (frequency0 s') (frequency1 s') (sweep_points s') s' /\
  Forall2 (fun mk mk' =>
    0 <= mk_index mk' < sweep_points s' /\ mk_frequency mk' = getFrequency (mk_index mk') s' /\
    mk_index mk' =
      if mk_frequency mk =? 0 then mk_index mk
      else if mk_frequency mk <=? frequency0 s then 0
      else if frequency1 s <=? mk_frequency mk then n
      else (mk_frequency mk - frequency0 s) * n / (frequency1 s - frequency0 s))
    (markers s) (markers s').
Proof.
  intros [Hr0 Hr1] Hp Hl Hm s' n. unfold FREQUENCY_MIN, FREQUENCY_MAX in *. pose proof Hp as Hp'. unfold SWEEP_POINTS_MAX in Hp'.
  pose proof (update_frequencies_shape s Hl) as (T & M & Hs & HI).
  pose proof (update_frequencies_range s) as (R0 & R1 & R2 & _). fold s' in T, M, Hs, HI, R0, R1, R2.
  set (s1 := set_frequencies _ _ _ s) in *. rewrite R0, R1, R2.
  rewrite (same_table_freq _ _ 0 T), (same_table_freq _ _ n T).
  split; [|split; [|split; [done|split; [done|]]]].
  1,2: subst s1; rewrite getFrequency_ideal by (first [done|lia]); unfold ideal_frequency; fold n.
  - rewrite Z.mul_0_r, Z.add_0_l, (Z.div_small (n / 2)); lia.
  - rewrite Z.div_add_l by lia. rewrite (Z.div_small (n / 2)); lia.
  - rewrite M. apply Forall2_fmap_r. apply Forall_Forall2_diag. eapply Forall_impl; [exact Hm|].
    intros mk Hmk. cbn beta. unfold refreshed. change (sweep_points s1) with (sweep_points s).
    set (f := mk_frequency mk) in *. set (a := frequency0 s) in *. set (b := frequency1 s) in *.
    assert (Hidx : 0 <= marker_new_index (F := F) a b (sweep_points s) mk < sweep_points s /\
              marker_new_index (F := F) a b (sweep_points s) mk =
                if f =? 0 then mk_index mk else if f <=? a then 0 else if b <=? f then n else (f - a) * n / (b - a)).
    { unfold marker_new_index. fold f n. destruct (Z.eqb_spec f 0); [split; [by apply Hmk|done]|].
      destruct (Z.leb_spec f a); [split; [lia|done]|]. destruct (Z.leb_spec b f); [split; [lia|done]|].
      rewrite (u32_small (f - a)), (u32_small (b - a)), et_trunc_ratio by lia.
      split; [|done]. split; [apply Z.div_pos; nia|].
      assert ((f - a) * n / (b - a) < n) by (apply Z.div_lt_upper_bound; nia). lia. }
    destruct Hidx as [Hi Hv]. unfold compose. cbv zeta beta. rewrite u32_small by lia.
    rewrite (proj2 (Z.leb_gt _ _)) by lia. cbn. by rewrite (same_table_freq _ _ _ T).
Qed.

(** ** Grid *)

Lemma grid_step_spec fuel : forall fspan,
  0 < fspan < 2 ^ 32 -> fspan < 40 * 10 ^ Z.of_nat fuel -> (fuel <= 9)%nat ->
  let g := grid_step fuel fspan (10 ^ Z.of_nat fuel) in
  (4 <= fspan -> 4 * g <= fspan < 10 * g) /\ (fspan < 4 -> g = 1).
Proof.
  induction fuel as [|fuel IH]; intros fspan Hf Hb H9; cbn zeta.
  - cbn [grid_step]. change (10 ^ Z.of_nat 0) with 1 in *. rewrite Z.div_1_r.
    change (4 * 5) with 20. change (4 * 2) with 8. change (1 * 5) with 5. change (1 * 2) with 2. change (4 * 1) with 4.
    change (u32 5) with 5. change (u32 2) with 2. repeat zcase; lia.
  - cbn [grid_step]. set (d := 10 ^ Z.of_nat (S fuel)) in *.
    assert (Hd : d = 10 * 10 ^ Z.of_nat fuel) by (subst d; rewrite Nat2Z.inj_succ, Z.pow_succ_r; lia).
    assert (Hd9 : d <= 10 ^ 9) by (subst d; apply Z.pow_le_mono_r; lia).
    assert (H0 : 0 < 10 ^ Z.of_nat fuel) by (apply Z.pow_pos_nonneg; lia).
    replace (d / 10) with (10 ^ Z.of_nat fuel) by (rewrite Hd, Z.mul_comm, Z.div_mul; lia).
    change (4 * 5) with 20. change (4 * 2) with 8. change (4 * 1) with 4.
    pose proof (Z.div_mod fspan d ltac:(lia)) as E. pose proof (Z.mod_pos_bound fspan d ltac:(lia)) as Hm.
    set (k := fspan / d) in *. clearbody k d.
    destruct (Z.leb_spec 20 k); [rewrite u32_small by nia; nia|].
    destruct (Z.leb_spec 8 k); [rewrite u32_small by nia; nia|].
    destruct (Z.leb_spec 4 k); [nia|].
    rewrite (proj2 (Z.eqb_neq _ 0)) by lia. apply (IH fspan); [done|nia|lia].
Qed.

(** The frequency grid: for a span of at least 4 Hz the step is chosen so
    that 4 to 9 whole steps fit in the span, and the offset of the first line
    and the line distance, in 1/128 pixel, are stored without loss in their 16
    bits; an empty span (CW) gives a zero distance. *)
Theorem grid_layout {F} (s : vna F) (fstart fstop : Z) :
  0 <= fstart <= fstop -> fstop < 2 ^ 32 ->
  let s' := update_grid fstart fstop s in
  let span := fstop - fstart in
  (span = 0 -> grid_width s' = 0 /\ grid_offset s' = 0) /\
  (4 <= span -> exists g, 4 * g <= span < 10 * g /\
     grid_width s' = g * (455 * 128) / span /\
     grid_offset s' = (fstart mod g) * (455 * 128) / span /\ grid_offset s' <= grid_width s').
Proof.
  intros Hs H32 s' span. subst s'. unfold update_grid. rewrite u32_small by lia. fold span.
  destruct (Z.eqb_spec span 0) as [E|E]; [split; [done|lia]|]. split; [lia|]. intros H4.
  destruct (grid_step_spec 9 span ltac:(lia) ltac:(lia) ltac:(lia)) as [Hg _]. specialize (Hg H4).
  change (10 ^ Z.of_nat 9) with 1000000000 in Hg. set (g := grid_step 9 span 1000000000) in *. clearbody g.
  change (Z.shiftl WIDTH GRID_BITS) with 58240. cbn. change (455 * 128) with 58240.
  pose proof (Z.mod_pos_bound fstart g ltac:(lia)) as Hm. set (o := fstart mod g) in *.
  rewrite !u64_small by lia.
  assert (Hw : 0 <= g * 58240 / span <= 14560).
  { split; [apply Z.div_pos; lia|]. assert (g * 58240 / span < 14561) by (apply Z.div_lt_upper_bound; lia). lia. }
  assert (Ho : 0 <= o * 58240 / span <= g * 58240 / span) by (split; [apply Z.div_pos|apply Z.div_le_mono]; lia).
  rewrite !u16_small by (clear E H4 Hg; lia). exists g. fold o. clearbody o. split; [done|]. split; [done|]. split; [done|lia].
Qed.

(** The bandwidth setting: the count kept is within the 9 bits of the
    setting, and for a request of 8 to 4000 Hz the resulting bandwidth is the
    request or the next available one above it. *)
Theorem bandwidth_setting {F} (f : Z) (s : vna F) :
  0 <= f < 65536 ->
  let s' := set_bandwidth (bandwidth_of_frequency f) s in
  0 <= _bandwidth (config s') <= 511 /\
  (MIN_BANDWIDTH <= f <= MAX_BANDWIDTH ->
     f <= get_bandwidth_frequency (_bandwidth (config s')) /\
     (forall bw, 0 <= bw -> f <= get_bandwidth_frequency bw -> bw <= _bandwidth (config s'))).
Proof.
  intros Hf s'. change (_bandwidth (config s')) with (Z.land (bandwidth_of_frequency f) (Z.ones 9)).
  rewrite land_mask by lia. change (2 ^ 9) with 512. split; [lia|].
  intros Hr. unfold bandwidth_of_frequency, get_bandwidth_frequency.
  change MIN_BANDWIDTH with 8 in *. change MAX_BANDWIDTH with 4000 in *.
  change (AUDIO_ADC_FREQ / AUDIO_SAMPLES_COUNT) with 4000.
  change ((AUDIO_ADC_FREQ + AUDIO_SAMPLES_COUNT / 2) / AUDIO_SAMPLES_COUNT) with 4000.
  rewrite (proj2 (Z.ltb_ge 4000 f)), (proj2 (Z.ltb_ge f 8)) by lia.
  assert (Hq : 1 <= 4000 / f <= 500).
  { split; [apply Z.div_le_lower_bound; lia|]. assert (4000 / f < 501) by (apply Z.div_lt_upper_bound; lia). lia. }
  rewrite u16_small, Z.mod_small by lia. replace (4000 / f - 1 + 1) with (4000 / f) by lia.
  pose proof (Z.div_mod 4000 f ltac:(lia)). pose proof (Z.mod_pos_bound 4000 f ltac:(lia)).
  split; [apply Z.div_le_lower_bound; nia|].
  intros bw Hbw Hle. pose proof (Z.div_mod 4000 (bw + 1) ltac:(lia)). pose proof (Z.mod_pos_bound 4000 (bw + 1) ltac:(lia)).
  enough (bw + 1 <= 4000 / f) by lia. apply Z.div_le_lower_bound; nia.
Qed.

(** ** The theorems at the power-on settings *)

Definition boot : vna Qcanon.Qc := upd_props load_default_properties power_on.

Lemma boot_range : in_range boot /\ sweep_points boot = 401.
Proof. split; [split; vm_compute; [split|]; discriminate|reflexivity]. Qed.

Lemma sweep_points_exact_witness :
  getFrequency 400 (set_frequencies 50000 900000000 401 boot) = 900000000.
Proof.
  exact (proj1 (proj2 (sweep_points_exact boot 50000 900000000 401 7
    ltac:(lia) ltac:(lia) ltac:(unfold SWEEP_POINTS_MAX; lia) ltac:(lia)))).
Defined.

Lemma freq_table_agrees_witness : nth (Z.to_nat 3) (freq_table 600 1000 21) 0 = 660.
Proof.
  rewrite (proj2 (freq_table_agrees boot 600 1000 21 3 ltac:(lia) ltac:(lia)
    ltac:(unfold SWEEP_POINTS_MAX; lia) ltac:(unfold SWEEP_POINTS_MAX; lia))). reflexivity.
Defined.

Lemma set_sweep_frequency_keeps_range_witness : in_range (set_sweep_frequency ST_SPAN 1000000 boot).
Proof.
  refine (proj1 (set_sweep_frequency_keeps_range ST_SPAN 1000000 boot (proj1 boot_range) _ _)); [lia|].
  right; left. split; [reflexivity|]. vm_compute. discriminate.
Defined.

Lemma set_sweep_step_witness : get_sweep_frequency ST_STEP (set_sweep_frequency ST_STEP 1000000 boot) = 1000000.
Proof.
  refine (proj2 (proj2 (set_sweep_step 1000000 boot (proj1 boot_range) eq_refl _ _ _))); [|lia|].
  - vm_compute. split; discriminate.
  - vm_compute. discriminate.
Defined.

Lemma range_guard_gaps_witness :
  frequency0 (set_sweep_frequency ST_SPAN 2700000000 boot) < FREQUENCY_MIN /\
  frequency1 (set_sweep_frequency ST_CW 10 boot) = 10.
Proof.
  split.
  - refine (proj2 (proj1 (range_guard_gaps 2700000000 boot (proj1 boot_range) _) _)); [lia|vm_compute; discriminate].
  - refine (proj2 (proj1 (proj2 (range_guard_gaps 10 boot (proj1 boot_range) _)) _)); [lia|reflexivity].
Defined.

Lemma update_frequencies_consistent_witness : getFrequency 400 (update_frequencies boot) = 900000000.
Proof.
  refine (proj1 (proj2 (update_frequencies_consistent boot (proj1 boot_range) _ eq_refl _))).
  - vm_compute. split; discriminate.
  - repeat (apply Forall_cons; split; [intros _; vm_compute; split; congruence|]). apply Forall_nil. exact I.
Defined.

Lemma grid_layout_witness : grid_width (update_grid 5 5 boot) = 0.
Proof. exact (proj1 (proj1 (grid_layout boot 5 5 ltac:(lia) ltac:(lia)) eq_refl)). Defined.

Lemma bandwidth_setting_witness : 0 <= _bandwidth (config (set_bandwidth (bandwidth_of_frequency 30) boot)) <= 511.
Proof. exact (proj1 (bandwidth_setting 30 boot ltac:(lia))). Defined.
