(* ===== verification/Calib.v ===== *)
(** * Calibration (main.c): error terms, correction, interpolation

    The measured standards are replaced in place by the terms of the error
    model ([cal_done]); a raw reading is corrected with the terms of its point
    ([apply_CH0_error_term], [apply_CH1_error_term]), taken from the calibrated
    points directly or by interpolation ([cal_interpolate]). *)

From S2P Require Import Prelude Num Cplx Synth Types Props Sweep.
From Stdlib Require Import Field.

(** ** The calibration array *)

Section Calib.
Context {F : Type} `{FloatOps F}.

(** The five values of point [i]. *)
Definition cal_point (i : Z) (s : vna F) : list (F * F) :=
  map (fun row => nth (Z.to_nat i) row (f0, f0)) (_cal_data (current_props s)).

Definition pt (c : list (F * F)) (t : nat) : F * F := nth t c (f0, f0).

Definition put_cal (term : nat) (i : Z) (v : F * F) : vna F -> vna F :=
  upd_props (fun p => set__cal_data (alter (fun row => <[Z.to_nat i := v]> row) term (_cal_data p)) p).

(** The loops over the points: the value of [term] at [i] from the values of
    point [i]. *)
Definition eterm_loop (term : nat) (g : list (F * F) -> F * F) (s : vna F) : vna F :=
  for_range 0 (sweep_points s) (fun i s => put_cal term i (g (cal_point i s)) s) s.

Definition clr_cal_status (m : Z) : vna F -> vna F :=
  upd_props (fun p => set__cal_status (bit_clr (_cal_status p) m) p).
Definition set_cal_status (m : Z) : vna F -> vna F :=
  upd_props (fun p => set__cal_status (bit_set (_cal_status p) m) p).

(** ** Error terms *)

Definition eterm_set (term : nat) (re im : F) : vna F -> vna F := eterm_loop term (fun _ => (re, im)).

Definition eterm_copy (dst src : nat) : vna F -> vna F :=
  upd_props (fun p => set__cal_data (<[dst := nth src (_cal_data p) []]> (_cal_data p)) p).

Local Open Scope float_scope.

Definition es_point (c : list (F * F)) : F * F :=
  let s11aor := f1 in
  let s11aoi := f0 in
  let s11or := fst (pt c CAL_OPEN) - fst (pt c ETERM_ED) in
  let s11oi := snd (pt c CAL_OPEN) - snd (pt c ETERM_ED) in
  let s11sr := fst (pt c CAL_SHORT) - fst (pt c ETERM_ED) in
  let s11si := snd (pt c CAL_SHORT) - snd (pt c ETERM_ED) in
  let numr := s11sr + s11or * s11aor - s11oi * s11aoi in
  let numi := s11si + s11oi * s11aor + s11or * s11aoi in
  let denomr := s11or - s11sr in
  let denomi := s11oi - s11si in
  let d := denomr * denomr + denomi * denomi in
  ((numr * denomr + numi * denomi) / d, (numi * denomr - numr * denomi) / d).

Definition eterm_calc_es (s : vna F) : vna F :=
  set_cal_status CALSTAT_ES (clr_cal_status CALSTAT_OPEN (eterm_loop ETERM_ES es_point s)).

Definition er_point (sign : Z) (c : list (F * F)) : F * F :=
  let s11sr := fst (pt c CAL_SHORT) - fst (pt c ETERM_ED) in
  let s11si := snd (pt c CAL_SHORT) - snd (pt c ETERM_ED) in
  let esr := fst (pt c ETERM_ES) in
  let esi := snd (pt c ETERM_ES) in
  let esr := if (0 <? sign)%Z then - esr else esr in
  let esi := if (0 <? sign)%Z then - esi else esi in
  let esr := f1 + esr in
  let err := esr * s11sr - esi * s11si in
  let eri := esr * s11si + esi * s11sr in
  ((if (sign <? 0)%Z then - err else err), (if (sign <? 0)%Z then - eri else eri)).

Definition eterm_calc_er (sign : Z) (s : vna F) : vna F :=
  set_cal_status CALSTAT_ER (clr_cal_status CALSTAT_SHORT (eterm_loop ETERM_ER (er_point sign) s)).

Definition et_point (c : list (F * F)) : F * F :=
  let etr := fst (pt c CAL_THRU) - fst (pt c CAL_ISOLN) in
  let eti := snd (pt c CAL_THRU) - snd (pt c CAL_ISOLN) in
  let sq := etr * etr + eti * eti in
  (etr / sq, - eti / sq).

Definition eterm_calc_et (s : vna F) : vna F :=
  set_cal_status CALSTAT_ET (clr_cal_status CALSTAT_THRU (eterm_loop ETERM_ET et_point s)).

(** ** Correction of a reading *)

Definition apply_CH0_error_term (data : F * F) (c : list (F * F)) : F * F :=
  let s11mr := fst data - fst (pt c ETERM_ED) in
  let s11mi := snd data - snd (pt c ETERM_ED) in
  let err := fst (pt c ETERM_ER) + s11mr * fst (pt c ETERM_ES) - s11mi * snd (pt c ETERM_ES) in
  let eri := snd (pt c ETERM_ER) + s11mr * snd (pt c ETERM_ES) + s11mi * fst (pt c ETERM_ES) in
  let sq := err * err + eri * eri in
  ((s11mr * err + s11mi * eri) / sq, (s11mi * err - s11mr * eri) / sq).

(** [d0] is [data[0..1]] (the corrected reflection), [d1] is [data[2..3]]. *)
Definition apply_CH1_error_term (d0 d1 : F * F) (c : list (F * F)) (s : vna F) : F * F :=
  let s21mr := fst d1 - fst (pt c ETERM_EX) in
  let s21mi := snd d1 - snd (pt c ETERM_EX) in
  let re := s21mr * fst (pt c ETERM_ET) - s21mi * snd (pt c ETERM_ET) in
  let im := s21mi * fst (pt c ETERM_ET) + s21mr * snd (pt c ETERM_ET) in
  if bit_test (cal_status s) CALSTAT_ENHANCED_RESPONSE then
    let esr := f1 - (fst (pt c ETERM_ES) * fst d0 - snd (pt c ETERM_ES) * snd d0) in
    let esi := f0 - (snd (pt c ETERM_ES) * fst d0 + fst (pt c ETERM_ES) * snd d0) in
    (esr * re - esi * im, esi * re + esr * im)
  else (re, im).

(** ** End of a calibration *)

Definition has (m : Z) (s : vna F) : bool := bit_test (cal_status s) m.

Definition cal_done (s : vna F) : vna F :=
  let s := if negb (has CALSTAT_LOAD s) then eterm_set ETERM_ED f0 f0 s else s in
  let s := if negb (has CALSTAT_ISOLN s) then eterm_set ETERM_EX f0 f0 s else s in
  let s :=
    if has CALSTAT_SHORT s && has CALSTAT_OPEN s then
      eterm_calc_er (-1) (eterm_calc_es s)
    else if has CALSTAT_OPEN s then
      let s := eterm_copy CAL_SHORT CAL_OPEN s in
      let s := clr_cal_status CALSTAT_OPEN s in
      let s := eterm_set ETERM_ES f0 f0 s in
      eterm_calc_er 1 s
    else if has CALSTAT_SHORT s then
      let s := eterm_set ETERM_ES f0 f0 s in
      eterm_calc_er (-1) s
    else s in
  let s := if has CALSTAT_THRU s then eterm_calc_et s else s in
  let s := if negb (has CALSTAT_ET s) then eterm_set ETERM_ET f1 f0 s else s in
  let s := if negb (has CALSTAT_ER s) then eterm_set ETERM_ER f1 f0 s else s in
  let s := if negb (has CALSTAT_ES s) then eterm_set ETERM_ES f0 f0 s else s in
  let s := set_cal_status CALSTAT_APPLY s in
  request_to_redraw (Z.lor REDRAW_BACKUP REDRAW_CAL_STATUS) (set_lastsaveid NO_SAVE_SLOT s).

(** ** Terms at a frequency *)

(** What [cal_interpolate] decides: copy a point, or interpolate between a
    point and the next with weight [k]. *)
Inductive cal_source :=
| CopyPoint (idx : Z)
| Interpolate (idx : Z) (k : F).

(** [None]: the harmonic level search leaves its table. *)
Definition cal_locate (idx f : Z) (s : vna F) : option cal_source :=
  let p := current_props s in
  let cf0 := _cal_frequency0 p in
  let cf1 := _cal_frequency1 p in
  let src_points := u16 (_cal_sweep_points p - 1) in
  if (0 <=? idx)%Z then Some (CopyPoint idx)
  else if (f <=? cf0)%Z then Some (CopyPoint 0)
  else if (cf1 <=? f)%Z then Some (CopyPoint src_points)
  else
    let span := u32 (cf1 - cf0) in
    let idx := s32 (u64 (u32 (f - cf0) * src_points) / span) in
    let v := u64 (span * idx + src_points / 2) in
    let src_f0 := u32 (cf0 + v / src_points) in
    let src_f1 := u32 (cf0 + u64 (v + span) / src_points) in
    let delta := u32 (src_f1 - src_f0) in
    if (f =? src_f0)%Z then Some (CopyPoint idx)
    else
      let k := if (delta =? 0)%Z then f0 else f_of_Z (u32 (f - src_f0)) / f_of_Z delta in
      let lvl x := si5351_get_harmonic_lvl x (load_gen s) in
      match lvl src_f0, lvl src_f1, lvl f with
      | Some hf0, Some hf1, Some hf =>
          if (hf0 =? hf1)%Z then Some (Interpolate idx k)
          else if (hf0 =? hf)%Z then
            (if (idx <? 1)%Z then Some (CopyPoint idx) else Some (Interpolate (idx - 1) (k + f1)))
          else
            (if (src_points <=? idx)%Z then Some (CopyPoint idx) else Some (Interpolate (idx + 1) (k - f1)))
      | _, _, _ => None
      end.

(** [cal_data[eterm][idx]] with C addressing: the rows follow each other, and
    an index past the end of a row reads the next one. *)
Definition cal_read (eterm : nat) (idx : Z) (s : vna F) : F * F :=
  nth (eterm * Z.to_nat SWEEP_POINTS_MAX + Z.to_nat idx) (List.concat (_cal_data (current_props s))) (f0, f0).

Definition lerp (k : F) (a b : F * F) : F * F :=
  (fst a + k * (fst b - fst a), snd a + k * (snd b - snd a)).

Definition cal_fetch (src : cal_source) (s : vna F) : list (F * F) :=
  map (fun eterm =>
    match src with
    | CopyPoint idx => cal_read eterm idx s
    | Interpolate idx k => lerp k (cal_read eterm idx s) (cal_read eterm (idx + 1)%Z s)
    end) (seq 0 (Z.to_nat CAL_TYPE_COUNT)).

Definition cal_interpolate (idx f : Z) (s : vna F) : option (list (F * F)) :=
  option_map (fun src => cal_fetch src s) (cal_locate idx f s).
End Calib.
Arguments cal_source F : clear implicits.

(** ** The loops, point by point *)

Section CalibLemmas.
Context {F : Type} `{FloatOps F}.
Implicit Types s : vna F.

(** Five rows of SWEEP_POINTS_MAX points. *)
Definition wf_cal s : Prop :=
  length (_cal_data (current_props s)) = Z.to_nat CAL_TYPE_COUNT /\
  Forall (fun row => length row = Z.to_nat SWEEP_POINTS_MAX) (_cal_data (current_props s)).

(** Everything but the calibration array and its status. *)
Definition same_but_cal s s' : Prop :=
  exists d st, s' = upd_props (fun p => set__cal_data d (set__cal_status st p)) s.

Lemma same_but_cal_trans a b c : same_but_cal a b -> same_but_cal b c -> same_but_cal a c.
Proof. intros (d & st & ->) (d' & st' & ->). exists d', st'. reflexivity. Qed.
Lemma same_but_cal_points a b : same_but_cal a b -> sweep_points b = sweep_points a.
Proof. by intros (d & st & ->). Qed.

Lemma cal_point_length i s : wf_cal s -> length (cal_point i s) = 5%nat.
Proof. intros [Hl _]. unfold cal_point. by rewrite length_map, Hl. Qed.

Lemma put_cal_wf term i v s : wf_cal s -> wf_cal (put_cal term i v s).
Proof.
  intros [Hl Hr]. split; cbn; [by rewrite length_alter|].
  apply Forall_alter; [done|]. intros row _ Hrow. by rewrite length_insert.
Qed.

Lemma put_cal_point term i j v s : wf_cal s -> 0 <= i < SWEEP_POINTS_MAX -> 0 <= j < SWEEP_POINTS_MAX ->
  cal_point j (put_cal term i v s) = if i =? j then <[term := v]> (cal_point j s) else cal_point j s.
Proof.
  intros [Hl Hr] Hi Hj. unfold cal_point. cbn. set (d := _cal_data (current_props s)) in *.
  apply list_eq. intros k. rewrite list_lookup_fmap, list_lookup_alter.
  destruct (decide (term = k)) as [<-|Hne].
  - destruct (d !! term) as [row|] eqn:E; cbn [fmap option_fmap option_map].
    + assert (Hlen : length row = Z.to_nat SWEEP_POINTS_MAX) by (by apply (Forall_lookup_1 _ _ _ _ Hr E)).
      rewrite nth_lookup. destruct (Z.eqb_spec i j) as [<-|Hij].
      * rewrite list_lookup_insert_eq by lia. rewrite list_lookup_insert_eq; [done|].
        rewrite length_map. by apply lookup_lt_Some in E.
      * rewrite list_lookup_insert_ne by lia. rewrite list_lookup_fmap, E. cbn. by rewrite nth_lookup.
    + assert (Hn : (map (fun row => nth (Z.to_nat j) row (f0, f0)) d) !! term = None) by (by rewrite list_lookup_fmap, E).
      destruct (i =? j); [|by rewrite Hn]. rewrite list_insert_ge; [by rewrite Hn|].
      rewrite length_map. by apply lookup_ge_None in E.
  - destruct (i =? j); [rewrite list_lookup_insert_ne by done|]; by rewrite list_lookup_fmap.
Qed.

Lemma eterm_loop_spec term g s : wf_cal s -> 0 <= sweep_points s <= SWEEP_POINTS_MAX ->
  same_but_cal s (eterm_loop term g s) /\ wf_cal (eterm_loop term g s) /\
  cal_status (eterm_loop term g s) = cal_status s /\
  forall j, 0 <= j < SWEEP_POINTS_MAX ->
  cal_point j (eterm_loop term g s) =
    if j <? sweep_points s then <[term := g (cal_point j s)]> (cal_point j s) else cal_point j s.
Proof.
  intros Hw Hp. unfold eterm_loop.
  apply (for_range_ind (fun n s' => same_but_cal s s' /\ wf_cal s' /\ cal_status s' = cal_status s /\
    forall j, 0 <= j < SWEEP_POINTS_MAX ->
    cal_point j s' = if j <? n then <[term := g (cal_point j s)]> (cal_point j s) else cal_point j s)); [lia| |].
  - split; [|split; [done|split; [done|]]].
    + exists (_cal_data (current_props s)), (cal_status s). by destruct s as [? []].
    + intros j Hj. by rewrite (proj2 (Z.ltb_ge j 0)) by lia.
  - intros i s' Hi (S & W & C & P). split; [|split; [by apply put_cal_wf|split; [done|]]].
    + destruct S as (d & st & ->). eexists _, st. reflexivity.
    + intros j Hj. rewrite put_cal_point by (done || lia). rewrite (P i), (P j) by lia.
      rewrite (proj2 (Z.ltb_ge i i)) by lia. destruct (Z.eqb_spec i j) as [<-|Hij].
      * by rewrite (proj2 (Z.ltb_ge i i)), (proj2 (Z.ltb_lt i (i + 1))) by lia.
      * by replace (j <? i + 1) with (j <? i) by (repeat zcase; lia).
Qed.
End CalibLemmas.

(** ** [cal_done] at one point

    The same steps on the status word and the five values of a point. *)
Section CalDone.
Context {F : Type} `{FloatOps F}.
Implicit Types s : vna F.

Definition pstate : Type := Z * list (F * F).
Definition p_has (m : Z) (x : pstate) : bool := bit_test (fst x) m.
Definition p_set (t : nat) (g : list (F * F) -> F * F) (x : pstate) : pstate := (fst x, <[t := g (snd x)]> (snd x)).
Definition p_flags (clr set : Z) (x : pstate) : pstate := (bit_set (bit_clr (fst x) clr) set, snd x).
Definition p_es (x : pstate) : pstate := p_flags CALSTAT_OPEN CALSTAT_ES (p_set ETERM_ES es_point x).
Definition p_er (sign : Z) (x : pstate) : pstate := p_flags CALSTAT_SHORT CALSTAT_ER (p_set ETERM_ER (er_point sign) x).
Definition p_et (x : pstate) : pstate := p_flags CALSTAT_THRU CALSTAT_ET (p_set ETERM_ET et_point x).
Definition p_default (flag : Z) (t : nat) (v : F * F) (x : pstate) : pstate :=
  if negb (p_has flag x) then p_set t (fun _ => v) x else x.

Definition p_reflect (x : pstate) : pstate :=
  if p_has CALSTAT_SHORT x && p_has CALSTAT_OPEN x then p_er (-1) (p_es x)
  else if p_has CALSTAT_OPEN x then
    let x := p_set CAL_SHORT (fun c => pt c CAL_OPEN) x in
    p_er 1 (p_set ETERM_ES (fun _ => (f0, f0)) (bit_clr (fst x) CALSTAT_OPEN, snd x))
  else if p_has CALSTAT_SHORT x then p_er (-1) (p_set ETERM_ES (fun _ => (f0, f0)) x)
  else x.

Definition cal_done_point (x : pstate) : pstate :=
  let x := p_default CALSTAT_LOAD ETERM_ED (f0, f0) x in
  let x := p_default CALSTAT_ISOLN ETERM_EX (f0, f0) x in
  let x := p_reflect x in
  let x := if p_has CALSTAT_THRU x then p_et x else x in
  let x := p_default CALSTAT_ET ETERM_ET (f1, f0) x in
  let x := p_default CALSTAT_ER ETERM_ER (f1, f0) x in
  let x := p_default CALSTAT_ES ETERM_ES (f0, f0) x in
  (bit_set (fst x) CALSTAT_APPLY, snd x).

(** [s] holds [x] at point [i]. *)
Definition holds (i : Z) s (x : pstate) : Prop :=
  wf_cal s /\ 0 <= i < sweep_points s /\ sweep_points s <= SWEEP_POINTS_MAX /\
  cal_status s = fst x /\ cal_point i s = snd x.

Lemma holds_loop i t g s x : holds i s x -> holds i (eterm_loop t g s) (p_set t g x).
Proof.
  intros (W & Hi & Hp & Hs & Hc). destruct (eterm_loop_spec t g s W ltac:(lia)) as (S & W' & C & P).
  pose proof (same_but_cal_points _ _ S) as E. split; [done|]. rewrite E. do 2 (split; [done|]).
  split; [by rewrite C|]. rewrite P by lia. rewrite (proj2 (Z.ltb_lt i _)) by lia. by rewrite Hc.
Qed.

Lemma holds_status i m m' s x : holds i s x ->
  holds i (set_cal_status m' (clr_cal_status m s)) (p_flags m m' x).
Proof. intros (W & Hi & Hp & Hs & Hc). repeat (split; [done|]). split; [cbn; unfold cal_status in Hs; by rewrite Hs|done]. Qed.

Lemma holds_clr i m s x : holds i s x -> holds i (clr_cal_status m s) (bit_clr (fst x) m, snd x).
Proof. intros (W & Hi & Hp & Hs & Hc). repeat (split; [done|]). split; [cbn; unfold cal_status in Hs; by rewrite Hs|done]. Qed.

Lemma holds_default i flag t re im s x : holds i s x ->
  holds i (if negb (has flag s) then eterm_set t re im s else s) (p_default flag t (re, im) x).
Proof.
  intros Hh. unfold p_default, p_has, has. pose proof Hh as (_ & _ & _ & -> & _).
  destruct (negb _); [by apply holds_loop|done].
Qed.

Lemma holds_copy i dst src s x : (dst < 5)%nat -> (src < 5)%nat ->
  holds i s x -> holds i (eterm_copy dst src s) (p_set dst (fun c => pt c src) x).
Proof.
  intros Hd Hsrc (W & Hi & Hp & Hs & Hc). destruct W as [Hl Hr].
  destruct (lookup_lt_is_Some_2 (_cal_data (current_props s)) src ltac:(rewrite Hl; unfold CAL_TYPE_COUNT; lia)) as [row Hrow].
  assert (E : nth src (_cal_data (current_props s)) [] = row) by (by apply nth_lookup_Some).
  split; [split; cbn; [by rewrite length_insert|]|].
  { apply Forall_insert; [done|]. rewrite E. exact (Forall_lookup_1 _ _ _ _ Hr Hrow). }
  do 3 (split; [done|]). unfold p_set. cbn [snd]. rewrite <- Hc. unfold cal_point. cbn.
  rewrite E, list_fmap_insert. f_equal. unfold pt. symmetry. apply nth_lookup_Some. by rewrite list_lookup_fmap, Hrow.
Qed.
#[local] Hint Resolve holds_loop holds_status holds_clr holds_default holds_copy : core.

Lemma holds_reflect i s x : holds i s x -> holds i
  (if has CALSTAT_SHORT s && has CALSTAT_OPEN s then eterm_calc_er (-1) (eterm_calc_es s)
   else if has CALSTAT_OPEN s then
     eterm_calc_er 1 (eterm_set ETERM_ES f0 f0 (clr_cal_status CALSTAT_OPEN (eterm_copy CAL_SHORT CAL_OPEN s)))
   else if has CALSTAT_SHORT s then eterm_calc_er (-1) (eterm_set ETERM_ES f0 f0 s) else s) (p_reflect x).
Proof.
  intros Hh. unfold p_reflect, p_has, has. pose proof Hh as (_ & _ & _ & -> & _).
  assert (H2 : (CAL_SHORT < 5 /\ CAL_OPEN < 5)%nat) by (unfold CAL_SHORT, CAL_OPEN; lia).
  destruct (bit_test _ CALSTAT_SHORT), (bit_test _ CALSTAT_OPEN); cbn [andb];
    unfold eterm_calc_er, eterm_calc_es, p_er, p_es, eterm_set; destruct H2; auto 8.
Qed.

Lemma holds_cal_done i s x : holds i s x -> holds i (cal_done s) (cal_done_point x).
Proof.
  intros Hh. unfold cal_done, cal_done_point.
  apply (holds_default i CALSTAT_LOAD ETERM_ED f0 f0) in Hh.
  apply (holds_default i CALSTAT_ISOLN ETERM_EX f0 f0) in Hh.
  apply holds_reflect in Hh. cbv zeta.
  match type of Hh with holds _ ?a ?b => set (s1 := a) in *; set (x1 := b) in *; clearbody s1 x1 end.
  assert (Ht : holds i (if has CALSTAT_THRU s1 then eterm_calc_et s1 else s1) (if p_has CALSTAT_THRU x1 then p_et x1 else x1)).
  { unfold p_has, has. pose proof Hh as (_ & _ & _ & -> & _). destruct (bit_test _ _); [|done].
    unfold eterm_calc_et, p_et. auto. }
  apply (holds_default i CALSTAT_ET ETERM_ET f1 f0) in Ht.
  apply (holds_default i CALSTAT_ER ETERM_ER f1 f0) in Ht.
  apply (holds_default i CALSTAT_ES ETERM_ES f0 f0) in Ht.
  match type of Ht with holds _ ?a ?b => set (s2 := a) in *; set (x2 := b) in *; clearbody s2 x2 end.
  destruct Ht as (W & Hi & Hp & Hs & Hc). repeat (split; [done|]).
  split; [cbn; unfold cal_status in Hs; by rewrite Hs|done].
Qed.
End CalDone.

(** Flag tests after flag updates. *)
Ltac cal_flags :=
  unfold p_has, p_et, p_er, p_es, p_flags, p_set; cbn [fst snd];
  change CALSTAT_LOAD with (2 ^ 0) in *; change CALSTAT_OPEN with (2 ^ 1) in *;
  change CALSTAT_SHORT with (2 ^ 2) in *; change CALSTAT_THRU with (2 ^ 3) in *;
  change CALSTAT_ISOLN with (2 ^ 4) in *; change CALSTAT_ES with (2 ^ 5) in *;
  change CALSTAT_ER with (2 ^ 6) in *; change CALSTAT_ET with (2 ^ 7) in *;
  change CALSTAT_APPLY with (2 ^ 8) in *; change CALSTAT_INTERPOLATED with (2 ^ 9) in *; change CALSTAT_ENHANCED_RESPONSE with (2 ^ 10) in *;
  repeat first [rewrite bit_test_set by lia | rewrite bit_test_clr by lia]; cbn [Z.eqb Pos.eqb negb andb orb].

(** ** The correction removes the error box

    An instrument reads a load of reflection [G] through an error box: the
    directivity [ed], the source match [es], the tracking [er], the leakage [ex]
    and the transmission tracking [et]. *)
Section ErrorBox.
Context {F : Type} `{EA : ExactArith F}.
Add Field errorbox_base : (ea_field (F := F)).
Add Field errorbox_field : (cplx_field (F := F)).
Implicit Types (s : vna F) (G T m : F * F).

Record error_box := ErrorBox { eb_ed : F * F; eb_es : F * F; eb_er : F * F; eb_et : F * F; eb_ex : F * F }.

(** [m] is what the reflection channel reads of [G]. *)
Definition reads_reflection (b : error_box) G m : Prop :=
  cmul (csub m (eb_ed b)) (csub c1 (cmul (eb_es b) G)) = cmul (eb_er b) G.
(** [m] is what the transmission channel reads of [T], with the mismatch of the
    source when [enhanced]. *)
Definition reads_transmission (b : error_box) (enhanced : bool) G T m : Prop :=
  (if enhanced then cmul (csub m (eb_ex b)) (csub c1 (cmul (eb_es b) G)) else csub m (eb_ex b)) = cmul (eb_et b) T.

Ltac cplx_pair :=
  cbv zeta; unfold cdiv, cinv, cdiv, cadd, csub, cmul, cneg, c1, c0, cnorm; cbn [fst snd];
  repeat match goal with x : (F * F)%type |- _ => destruct x end; cbn [fst snd];
  f_equal; first [ring | f_equal; ring].

Lemma es_point_eq c : es_point c =
  cdiv (cadd (csub (pt c CAL_SHORT) (pt c ETERM_ED)) (csub (pt c CAL_OPEN) (pt c ETERM_ED)))
       (csub (csub (pt c CAL_OPEN) (pt c ETERM_ED)) (csub (pt c CAL_SHORT) (pt c ETERM_ED))).
Proof. unfold es_point. cplx_pair. Qed.

Lemma er_point_short c : er_point (-1) c =
  cneg (cmul (cadd c1 (pt c ETERM_ES)) (csub (pt c CAL_SHORT) (pt c ETERM_ED))).
Proof. unfold er_point. cbn [Z.ltb Z.compare]. cplx_pair. Qed.

Lemma et_point_eq c : et_point c = cinv (csub (pt c CAL_THRU) (pt c CAL_ISOLN)).
Proof. unfold et_point. cplx_pair. Qed.

Lemma apply_CH0_eq m c : apply_CH0_error_term m c =
  cdiv (csub m (pt c ETERM_ED))
       (cadd (pt c ETERM_ER) (cmul (csub m (pt c ETERM_ED)) (pt c ETERM_ES))).
Proof. unfold apply_CH0_error_term. cplx_pair. Qed.

Lemma apply_CH1_eq g m c s : apply_CH1_error_term g m c s =
  let t := cmul (csub m (pt c ETERM_EX)) (pt c ETERM_ET) in
  if has CALSTAT_ENHANCED_RESPONSE s then cmul (csub c1 (cmul (pt c ETERM_ES) g)) t else t.
Proof. unfold apply_CH1_error_term, has. destruct (bit_test _ _); cplx_pair. Qed.

Definition perfect (b : error_box) : Prop := eb_er b <> c0 /\ eb_et b <> c0.

Lemma mismatch_neq0 b G m : eb_er b <> c0 -> reads_reflection b G m -> csub c1 (cmul (eb_es b) G) <> c0.
Proof.
  unfold reads_reflection. intros He Hr E. rewrite E in Hr. apply He.
  assert (Hz : cmul (eb_er b) G = c0) by (rewrite <- Hr; ring).
  transitivity (cadd (cmul (eb_er b) (csub c1 (cmul (eb_es b) G))) (cmul (eb_es b) (cmul (eb_er b) G))); [ring|].
  rewrite E, Hz. ring.
Qed.

(** Solving the bilinear relation for the load. *)
Lemma reflection_solved b G m : eb_er b <> c0 -> reads_reflection b G m ->
  cdiv (csub m (eb_ed b)) (cadd (eb_er b) (cmul (csub m (eb_ed b)) (eb_es b))) = G.
Proof.
  intros He Hr. pose proof (mismatch_neq0 b G m He Hr) as Hd.
  unfold reads_reflection in Hr. set (x := csub m (eb_ed b)) in *. set (q := csub c1 _) in *.
  assert (Hx : cmul (cadd (eb_er b) (cmul x (eb_es b))) q = eb_er b).
  { transitivity (cadd (cmul (eb_er b) q) (cmul (eb_es b) (cmul x q))); [ring|]. rewrite Hr. unfold q. ring. }
  assert (Hn : cadd (eb_er b) (cmul x (eb_es b)) <> c0).
  { intros E. rewrite E in Hx. apply He. rewrite <- Hx. ring. }
  assert (Hg : cmul G (cadd (eb_er b) (cmul x (eb_es b))) = x).
  { transitivity (cadd (cmul (eb_er b) G) (cmul x (cmul (eb_es b) G))); [ring|]. rewrite <- Hr. unfold q. ring. }
  rewrite <- Hg at 1. field. exact Hn.
Qed.

(** The terms [cal_done] derives from ideal open and short readings. *)
Lemma es_from_standards b o sh : eb_er b <> c0 ->
  reads_reflection b c1 o -> reads_reflection b (cneg c1) sh ->
  cdiv (cadd (csub sh (eb_ed b)) (csub o (eb_ed b))) (csub (csub o (eb_ed b)) (csub sh (eb_ed b))) = eb_es b.
Proof.
  intros He Ho Hs. pose proof (mismatch_neq0 _ _ _ He Ho) as Do. pose proof (mismatch_neq0 _ _ _ He Hs) as Ds.
  unfold reads_reflection in *. set (x := csub o _) in *. set (y := csub sh _) in *.
  assert (Ho' : csub c1 (eb_es b) <> c0) by (intros E; apply Do; rewrite <- E; ring).
  assert (Hs' : cadd c1 (eb_es b) <> c0) by (intros E; apply Ds; rewrite <- E; ring).
  assert (Ex : x = cdiv (eb_er b) (csub c1 (eb_es b))).
  { transitivity (cdiv (cmul x (csub c1 (cmul (eb_es b) c1))) (csub c1 (eb_es b))); [field; exact Ho'|].
    rewrite Ho. field. exact Ho'. }
  assert (Ey : y = cneg (cdiv (eb_er b) (cadd c1 (eb_es b)))).
  { transitivity (cdiv (cmul y (csub c1 (cmul (eb_es b) (cneg c1)))) (cadd c1 (eb_es b))); [field; exact Hs'|].
    rewrite Hs. field. exact Hs'. }
  rewrite Ex, Ey. field. split; [exact Hs'|split; [exact Ho'|]].
  change (csub (cmul (eb_er b) (cadd c1 (eb_es b))) (cmul (cneg (eb_er b)) (csub c1 (eb_es b))) <> c0).
  intros E. apply He. pose proof (ctwo_neq0 (F := F)) as H2.
  transitivity (cdiv (cadd (eb_er b) (eb_er b)) (cadd c1 c1)); [field; exact H2|].
  transitivity (cdiv c0 (cadd c1 c1)); [|field; exact H2]. f_equal. rewrite <- E. ring.
Qed.

Lemma er_from_short b sh : reads_reflection b (cneg c1) sh ->
  cneg (cmul (cadd c1 (eb_es b)) (csub sh (eb_ed b))) = eb_er b.
Proof.
  unfold reads_reflection. intros Hs.
  transitivity (cneg (cmul (csub sh (eb_ed b)) (csub c1 (cmul (eb_es b) (cneg c1))))); [ring|]. rewrite Hs. ring.
Qed.

Lemma load_reads_directivity b m : reads_reflection b c0 m -> m = eb_ed b.
Proof.
  unfold reads_reflection. intros Hl. transitivity (cadd (eb_ed b) (cmul (csub m (eb_ed b)) (csub c1 (cmul (eb_es b) c0)))); [ring|].
  rewrite Hl. ring.
Qed.

Lemma isolation_reads_leakage b e m : reads_transmission b e c0 c0 m -> m = eb_ex b.
Proof.
  unfold reads_transmission. intros Hi. transitivity (cadd (eb_ex b) (csub m (eb_ex b))); [ring|].
  destruct e; [transitivity (cadd (eb_ex b) (cmul (csub m (eb_ex b)) (csub c1 (cmul (eb_es b) c0)))); [ring|]|]; rewrite Hi; ring.
Qed.

Lemma thru_reads_tracking b e m : reads_transmission b e c0 c1 m -> csub m (eb_ex b) = eb_et b.
Proof.
  unfold reads_transmission. intros Ht. destruct e;
    [transitivity (cmul (csub m (eb_ex b)) (csub c1 (cmul (eb_es b) c0))); [ring|]|]; rewrite Ht; ring.
Qed.

(** The flags after a full set of standards. *)
Definition full_set (st : Z) : Prop :=
  bit_test st CALSTAT_LOAD = true /\ bit_test st CALSTAT_OPEN = true /\ bit_test st CALSTAT_SHORT = true /\
  bit_test st CALSTAT_THRU = true /\ bit_test st CALSTAT_ISOLN = true.

Lemma p_default_skip flag t (v : F * F) (x : pstate) : p_has flag x = true -> p_default flag t v x = x.
Proof. unfold p_default. by intros ->. Qed.

Lemma cal_done_point_full st ed o sh th ex : full_set st ->
  exists st', cal_done_point (st, [ed; o; sh; th; ex]) =
    (st', [ed; es_point [ed; o; sh; th; ex]; er_point (-1) [ed; es_point [ed; o; sh; th; ex]; sh; th; ex];
           et_point [ed; es_point [ed; o; sh; th; ex]; er_point (-1) [ed; es_point [ed; o; sh; th; ex]; sh; th; ex]; th; ex]; ex]) /\
    bit_test st' CALSTAT_ENHANCED_RESPONSE = bit_test st CALSTAT_ENHANCED_RESPONSE /\
    bit_test st' CALSTAT_INTERPOLATED = bit_test st CALSTAT_INTERPOLATED /\
    bit_test st' CALSTAT_APPLY = true.
Proof.
  intros (HL & HO & HS & HT & HI). unfold cal_done_point.
  rewrite (p_default_skip CALSTAT_LOAD) by done. cbv zeta. rewrite (p_default_skip CALSTAT_ISOLN) by done.
  assert (HR : p_reflect (st, [ed; o; sh; th; ex]) = p_er (-1) (p_es (st, [ed; o; sh; th; ex]))).
  { unfold p_reflect, p_has. cbn [fst snd]. by rewrite HS, HO. }
  rewrite HR. clear HR. set (x := p_er (-1) (p_es (st, [ed; o; sh; th; ex]))).
  assert (Hx : p_has CALSTAT_THRU x = true).
  { unfold x. by cal_flags. }
  rewrite Hx, (p_default_skip CALSTAT_ET), (p_default_skip CALSTAT_ER), (p_default_skip CALSTAT_ES) by (unfold x; by cal_flags).
  eexists. split; [reflexivity|].
  unfold x. split; [by cal_flags|split; by cal_flags].
Qed.

(** A point whose rows hold the five standards is corrected. *)
Lemma full_calibration_solved b s i enhanced ml mo ms mt mx G T m0 m1 :
  wf_cal s -> 0 <= i < sweep_points s -> sweep_points s <= SWEEP_POINTS_MAX ->
  full_set (cal_status s) -> has CALSTAT_ENHANCED_RESPONSE s = enhanced ->
  perfect b -> cal_point i s = [ml; mo; ms; mt; mx] ->
  reads_reflection b c0 ml -> reads_reflection b c1 mo -> reads_reflection b (cneg c1) ms ->
  reads_transmission b enhanced c0 c1 mt -> reads_transmission b enhanced c0 c0 mx ->
  reads_reflection b G m0 -> reads_transmission b enhanced G T m1 ->
  let c := cal_point i (cal_done s) in
  has CALSTAT_APPLY (cal_done s) = true /\
  has CALSTAT_INTERPOLATED (cal_done s) = has CALSTAT_INTERPOLATED s /\
  apply_CH0_error_term m0 c = G /\ apply_CH1_error_term G m1 c (cal_done s) = T.
Proof.
  intros W Hi Hp Hf He [Her Het] Hc Rl Ro Rs Rt Rx R0 R1 c.
  assert (Hh : holds i s (cal_status s, [ml; mo; ms; mt; mx])) by (repeat (split; [done|]); done).
  apply holds_cal_done in Hh as (_ & _ & _ & Hst & Hpt).
  destruct (cal_done_point_full _ ml mo ms mt mx Hf) as (st' & E & He' & Hip & Ha).
  rewrite E in Hst, Hpt. cbn [fst snd] in Hst, Hpt.
  apply load_reads_directivity in Rl as ->. apply isolation_reads_leakage in Rx as ->.
  rewrite es_point_eq, er_point_short, et_point_eq in Hpt. unfold pt in Hpt. cbn [nth ETERM_ED CAL_OPEN CAL_SHORT ETERM_ES CAL_THRU CAL_ISOLN] in Hpt.
  rewrite (es_from_standards b mo ms), (er_from_short b ms), (thru_reads_tracking b enhanced mt) in Hpt by done.
  unfold c. rewrite Hpt. split; [unfold has; by rewrite Hst|]. split; [unfold has; by rewrite Hst|]. split.
  - rewrite apply_CH0_eq. by apply reflection_solved.
  - rewrite apply_CH1_eq. unfold pt. cbn [nth ETERM_EX ETERM_ET ETERM_ES]. unfold has in *. rewrite Hst, He', He.
    pose proof (mismatch_neq0 _ _ _ Her R0) as Hd. unfold reads_transmission in R1. cbv zeta. destruct enhanced.
    + transitivity (cmul (cmul (csub m1 (eb_ex b)) (csub c1 (cmul (eb_es b) G))) (cinv (eb_et b))); [ring|].
      rewrite R1. field. exact Het.
    + rewrite R1. field. exact Het.
Qed.

(** C3: In exact arithmetic a full calibration removes the error box: if the five
    rows hold at a point the readings of an ideal load, open, short, thru and
    isolation through any error box with non-zero tracking terms, then after
    [cal_done] the correction of a reading returns the true reflection and the
    true transmission of whatever is connected, in both response modes. *)
Theorem full_calibration_corrects b s i enhanced ml mo ms mt mx G T m0 m1 :
  wf_cal s -> 0 <= i < sweep_points s -> sweep_points s <= SWEEP_POINTS_MAX ->
  full_set (cal_status s) -> has CALSTAT_ENHANCED_RESPONSE s = enhanced ->
  perfect b -> cal_point i s = [ml; mo; ms; mt; mx] ->
  reads_reflection b c0 ml -> reads_reflection b c1 mo -> reads_reflection b (cneg c1) ms ->
  reads_transmission b enhanced c0 c1 mt -> reads_transmission b enhanced c0 c0 mx ->
  reads_reflection b G m0 -> reads_transmission b enhanced G T m1 ->
  let c := cal_point i (cal_done s) in
  has CALSTAT_APPLY (cal_done s) = true /\
  apply_CH0_error_term m0 c = G /\ apply_CH1_error_term G m1 c (cal_done s) = T.
Proof.
  intros. destruct (full_calibration_solved b s i enhanced ml mo ms mt mx G T m0 m1) as (A & _ & R); try done.
Qed.
End ErrorBox.

(** ** Finishing a calibration twice *)

Section Settled.
Context {F : Type} `{FloatOps F}.
Implicit Types (x : pstate (F := F)) (v : F * F).

(** A row that is not measured or computed holds its default. *)
Definition settled_row (flag : Z) (t : nat) v x : Prop := p_has flag x = false -> pt (snd x) t = v.

Record settled x : Prop := {
  st_open : p_has CALSTAT_OPEN x = false;
  st_short : p_has CALSTAT_SHORT x = false;
  st_thru : p_has CALSTAT_THRU x = false;
  st_ed : settled_row CALSTAT_LOAD ETERM_ED (f0, f0) x;
  st_ex : settled_row CALSTAT_ISOLN ETERM_EX (f0, f0) x;
  st_et : settled_row CALSTAT_ET ETERM_ET (f1, f0) x;
  st_er : settled_row CALSTAT_ER ETERM_ER (f1, f0) x;
  st_es : settled_row CALSTAT_ES ETERM_ES (f0, f0) x }.

Lemma pt_set t t' g x : (t < length (snd x))%nat ->
  pt (snd (p_set t g x)) t' = if decide (t = t') then g (snd x) else pt (snd x) t'.
Proof.
  intros Ht. unfold pt, p_set. cbn [snd]. rewrite !nth_lookup. case_decide as E.
  - subst t'. by rewrite list_lookup_insert_eq.
  - by rewrite list_lookup_insert_ne.
Qed.

Lemma p_default_flags flag t v x : fst (p_default flag t v x) = fst x.
Proof. unfold p_default. by destruct (p_has flag x). Qed.
Lemma p_default_length flag t v x : length (snd (p_default flag t v x)) = length (snd x).
Proof. unfold p_default. destruct (negb _); [cbn; apply length_insert|done]. Qed.

Lemma p_default_settles flag t v x : (t < length (snd x))%nat -> settled_row flag t v (p_default flag t v x).
Proof.
  intros Ht. unfold settled_row, p_has. rewrite p_default_flags. intros E.
  unfold p_default, p_has. rewrite E. cbn [negb]. rewrite pt_set by done. by case_decide.
Qed.
Lemma p_default_keeps flag t v flag' t' v' x : t <> t' -> (t < length (snd x))%nat ->
  settled_row flag' t' v' x -> settled_row flag' t' v' (p_default flag t v x).
Proof.
  intros Hne Ht Hs. unfold settled_row, p_has. rewrite p_default_flags. intros E. specialize (Hs E).
  unfold p_default. destruct (negb _); [|done]. rewrite pt_set by done. by case_decide.
Qed.
(** A settled row is already what its default would write. *)
Lemma p_default_settled flag t v x : (t < length (snd x))%nat -> settled_row flag t v x -> p_default flag t v x = x.
Proof.
  intros Ht Hs. unfold p_default. destruct (p_has flag x) eqn:E; [done|]. cbn [negb].
  destruct x as [st c]. unfold p_set. cbn [fst snd] in *. f_equal. apply list_insert_id.
  rewrite <- (Hs E). unfold pt. cbn [snd]. rewrite nth_lookup.
  destruct (c !! t) eqn:Ec; [done|]. apply lookup_ge_None in Ec. lia.
Qed.

Lemma settled_done x : length (snd x) = 5%nat -> settled x -> p_has CALSTAT_APPLY x = true -> cal_done_point x = (bit_set (fst x) CALSTAT_APPLY, snd x).
Proof.
  intros Hl [Ho Hs Ht Hd Hx Het Her Hes] _. unfold cal_done_point.
  rewrite (p_default_settled CALSTAT_LOAD) by (done || rewrite Hl; unfold ETERM_ED; lia). cbv zeta.
  rewrite (p_default_settled CALSTAT_ISOLN) by (done || rewrite Hl; unfold ETERM_EX; lia).
  assert (Hr : p_reflect x = x) by (unfold p_reflect; by rewrite Hs, Ho).
  rewrite Hr, Ht, (p_default_settled CALSTAT_ET), (p_default_settled CALSTAT_ER), (p_default_settled CALSTAT_ES)
    by (done || rewrite Hl; unfold ETERM_ES, ETERM_ER, ETERM_ET; lia). done.
Qed.

Lemma settled_row_ext flag t v x y : snd y = snd x -> p_has flag y = p_has flag x ->
  settled_row flag t v x -> settled_row flag t v y.
Proof. unfold settled_row. intros -> ->. done. Qed.

(** What the reflection part of [cal_done] leaves alone, and what it consumes. *)
Lemma p_reflect_keeps x : length (snd x) = 5%nat ->
  p_has CALSTAT_OPEN (p_reflect x) = false /\ p_has CALSTAT_SHORT (p_reflect x) = false /\
  length (snd (p_reflect x)) = 5%nat /\
  (forall flag, flag = CALSTAT_LOAD \/ flag = CALSTAT_ISOLN -> p_has flag (p_reflect x) = p_has flag x) /\
  (forall t, t = ETERM_ED \/ t = ETERM_EX -> pt (snd (p_reflect x)) t = pt (snd x) t).
Proof.
  intros Hl. destruct x as [st c]. cbn [snd] in Hl. do 5 (destruct c as [|? c]; [done|]). destruct c; [|done].
  set (c := [_; _; _; _; _]). unfold p_reflect.
  destruct (p_has CALSTAT_SHORT (st, c)) eqn:Es, (p_has CALSTAT_OPEN (st, c)) eqn:Eo; cbn [andb];
    (split; [|split; [|split; [|split]]]); try done;
    try (intros flag [-> | ->]); try (intros t [-> | ->]); try done; unfold p_has in *; cbn [fst] in *;
    cal_flags; rewrite ?Es, ?Eo; done.
Qed.

Ltac term_bounds := unfold ETERM_ED, ETERM_ES, ETERM_ER, ETERM_ET, ETERM_EX in *; (lia || congruence).

Lemma p_et_keeps x : length (snd x) = 5%nat -> let y := if p_has CALSTAT_THRU x then p_et x else x in
  length (snd y) = 5%nat /\ p_has CALSTAT_THRU y = false /\
  (forall flag, In flag [CALSTAT_OPEN; CALSTAT_SHORT; CALSTAT_LOAD; CALSTAT_ISOLN] -> p_has flag y = p_has flag x) /\
  (forall t, t = ETERM_ED \/ t = ETERM_EX -> pt (snd y) t = pt (snd x) t).
Proof.
  intros Hl y. subst y. destruct x as [st c]. destruct (p_has CALSTAT_THRU (st, c)) eqn:E; [|done].
  unfold p_et. split; [cbn; by rewrite length_insert|]. split; [by cal_flags|]. split.
  - intros flag Hin. cbn in Hin. repeat destruct Hin as [<-|Hin]; [by cal_flags..|done].
  - intros t Ht. change (pt (snd (p_set ETERM_ET et_point (st, c))) t = pt c t). rewrite pt_set by (rewrite Hl; term_bounds). case_decide; [destruct Ht; term_bounds|done].
Qed.

Lemma cal_done_point_settled x : length (snd x) = 5%nat ->
  settled (cal_done_point x) /\ p_has CALSTAT_APPLY (cal_done_point x) = true /\ length (snd (cal_done_point x)) = 5%nat.
Proof.
  intros Hl. unfold cal_done_point. set (x1 := p_default CALSTAT_LOAD ETERM_ED (f0, f0) x).
  set (x2 := p_default CALSTAT_ISOLN ETERM_EX (f0, f0) x1).
  assert (L1 : length (snd x1) = 5%nat) by (unfold x1; by rewrite p_default_length).
  assert (L2 : length (snd x2) = 5%nat) by (unfold x2; by rewrite p_default_length).
  assert (D2 : settled_row CALSTAT_LOAD ETERM_ED (f0, f0) x2).
  { apply p_default_keeps; [term_bounds|term_bounds|]. apply p_default_settles. term_bounds. }
  assert (X2 : settled_row CALSTAT_ISOLN ETERM_EX (f0, f0) x2) by (apply p_default_settles; term_bounds).
  destruct (p_reflect_keeps x2 L2) as (O3 & S3 & L3 & F3 & R3). set (x3 := p_reflect x2) in *.
  destruct (p_et_keeps x3 L3) as (L4 & T4 & F4 & R4). set (x4 := if p_has CALSTAT_THRU x3 then _ else _) in *.
  assert (D4 : settled_row CALSTAT_LOAD ETERM_ED (f0, f0) x4).
  { unfold settled_row. rewrite F4, F3 by (cbn; auto). rewrite R4, R3 by auto. exact D2. }
  assert (X4 : settled_row CALSTAT_ISOLN ETERM_EX (f0, f0) x4).
  { unfold settled_row. rewrite F4, F3 by (cbn; auto). rewrite R4, R3 by auto. exact X2. }
  assert (O4 : p_has CALSTAT_OPEN x4 = false) by (rewrite F4 by (cbn; auto); exact O3).
  assert (S4 : p_has CALSTAT_SHORT x4 = false) by (rewrite F4 by (cbn; auto); exact S3).
  clearbody x4. clear - L4 T4 D4 X4 O4 S4. cbv zeta.
  set (x5 := p_default CALSTAT_ET ETERM_ET (f1, f0) x4). set (x6 := p_default CALSTAT_ER ETERM_ER (f1, f0) x5).
  set (x7 := p_default CALSTAT_ES ETERM_ES (f0, f0) x6).
  assert (L5 : length (snd x5) = 5%nat) by (unfold x5; by rewrite p_default_length).
  assert (L6 : length (snd x6) = 5%nat) by (unfold x6; by rewrite p_default_length).
  assert (L7 : length (snd x7) = 5%nat) by (unfold x7; by rewrite p_default_length).
  assert (F7 : fst x7 = fst x4) by (unfold x7, x6, x5; by rewrite !p_default_flags).
  assert (K : forall flag t v, t = ETERM_ED \/ t = ETERM_EX -> settled_row flag t v x4 -> settled_row flag t v x7).
  { intros flag t v Ht Hs. do 3 (apply p_default_keeps; [destruct Ht; term_bounds|term_bounds|]). exact Hs. }
  assert (Ket : settled_row CALSTAT_ET ETERM_ET (f1, f0) x7).
  { do 2 (apply p_default_keeps; [term_bounds|term_bounds|]). apply p_default_settles. term_bounds. }
  assert (Ker : settled_row CALSTAT_ER ETERM_ER (f1, f0) x7).
  { apply p_default_keeps; [term_bounds|term_bounds|]. apply p_default_settles. term_bounds. }
  assert (Kes : settled_row CALSTAT_ES ETERM_ES (f0, f0) x7) by (apply p_default_settles; term_bounds).
  apply (K CALSTAT_LOAD) in D4; [|auto]. apply (K CALSTAT_ISOLN) in X4; [|auto].
  unfold p_has in O4, S4, T4. rewrite <- F7 in O4, S4, T4. clearbody x7.
  split; [|split; [by cal_flags|done]].
  unfold settled_row, p_has in *. split; unfold settled_row; by cal_flags.
Qed.

(** Finishing a calibration consumes its standards and is idempotent: whatever
    standards were measured, after [cal_done] the flags of the raw open, short and
    thru readings are clear and the correction is enabled, and a second
    [cal_done] changes neither the status nor any of the five terms of a point. *)
Theorem cal_done_idempotent (s : vna F) i : wf_cal s -> 0 <= i < sweep_points s -> sweep_points s <= SWEEP_POINTS_MAX ->
  let s' := cal_done s in
  has CALSTAT_OPEN s' = false /\ has CALSTAT_SHORT s' = false /\ has CALSTAT_THRU s' = false /\
  has CALSTAT_APPLY s' = true /\
  cal_status (cal_done s') = cal_status s' /\ cal_point i (cal_done s') = cal_point i s'.
Proof.
  intros W Hi Hp s'. set (x := (cal_status s, cal_point i s)).
  assert (Hh : holds i s x) by (repeat (split; [done|]); done).
  apply holds_cal_done in Hh. fold s' in Hh. destruct (cal_done_point_settled x (cal_point_length i s W)) as (S & A & L).
  pose proof (settled_done _ L S A) as E. set (y := cal_done_point x) in *. clearbody y x.
  pose proof Hh as (_ & _ & _ & Hs & Hc). apply holds_cal_done in Hh as (_ & _ & _ & Hs' & Hc').
  rewrite Hs', Hc', Hs, Hc, E. unfold has. rewrite Hs. destruct S as [O Sh T _ _ _ _ _].
  repeat (split; [done|]). split; [|done]. apply (bit_set_id _ 8); [lia|exact A].
Qed.
End Settled.

(** ** Interpolating the terms *)

Section Locate.
Context {F : Type} `{FloatOps F}.
Implicit Types s : vna F.

(** A saved calibration range of [n] points. *)
Definition cal_range s : Prop :=
  0 <= _cal_frequency0 (current_props s) < _cal_frequency1 (current_props s) /\
  _cal_frequency1 (current_props s) < 2 ^ 32 /\
  2 <= _cal_sweep_points (current_props s) <= SWEEP_POINTS_MAX.

(** The frequency of calibrated point [i]. *)
Definition cal_freq s (i : Z) : Z :=
  ideal_frequency (_cal_frequency0 (current_props s)) (_cal_frequency1 (current_props s))
    (_cal_sweep_points (current_props s) - 1) i.

(** The calibrated point at or below [f]. *)
Definition cal_index s (f : Z) : Z :=
  (f - _cal_frequency0 (current_props s)) * (_cal_sweep_points (current_props s) - 1)
  / (_cal_frequency1 (current_props s) - _cal_frequency0 (current_props s)).

Lemma cal_freq_ends s : cal_range s ->
  cal_freq s 0 = _cal_frequency0 (current_props s) /\
  cal_freq s (_cal_sweep_points (current_props s) - 1) = _cal_frequency1 (current_props s).
Proof.
  unfold SWEEP_POINTS_MAX. intros (H0 & H1 & H2). unfold cal_freq, ideal_frequency.
  set (n := _ - 1) in *. split.
  - rewrite Z.mul_0_r, Z.add_0_l, (Z.div_small (n / 2)); lia.
  - rewrite Z.div_add_l by lia. rewrite (Z.div_small (n / 2)); lia.
Qed.

(** A rounded quotient lies between the integers around the exact one. *)
Lemma rounded_bracket x d n idx : 0 < n -> 0 < d -> 0 <= x ->
  idx = x * n / d ->
  (d * idx + n / 2) / n <= x < (d * idx + d + n / 2) / n + 1.
Proof.
  intros Hn Hd Hx ->. set (q := x * n / d).
  pose proof (Z.div_mod (x * n) d ltac:(lia)) as E. pose proof (Z.mod_pos_bound (x * n) d Hd) as M. fold q in E.
  pose proof (Z.div_mod n 2 ltac:(lia)) as E2. pose proof (Z.mod_pos_bound n 2 ltac:(lia)) as M2.
  set (h := n / 2) in *. set (r := (x * n) mod d) in *. set (r2 := n mod 2) in *. clearbody q r h r2.
  split.
  - enough ((d * q + h) / n < x + 1) by lia. apply Z.div_lt_upper_bound; nia.
  - assert (x <= (d * q + d + h) / n) by (apply Z.div_le_lower_bound; nia). lia.
Qed.

Lemma cal_index_bracket s f : cal_range s ->
  _cal_frequency0 (current_props s) < f < _cal_frequency1 (current_props s) ->
  0 <= cal_index s f < _cal_sweep_points (current_props s) - 1 /\
  cal_freq s (cal_index s f) <= f <= cal_freq s (cal_index s f + 1).
Proof.
  unfold SWEEP_POINTS_MAX. intros (H0 & H1 & H2) Hf. unfold cal_freq, ideal_frequency.
  set (a := _cal_frequency0 _) in *. set (b := _cal_frequency1 _) in *. set (n := _ - 1).
  pose proof (rounded_bracket (f - a) (b - a) n (cal_index s f) ltac:(lia) ltac:(lia) ltac:(lia) eq_refl) as B.
  split; [|rewrite Z.mul_add_distr_l, Z.mul_1_r; lia].
  unfold cal_index. fold a b n. split; [apply Z.div_pos; nia|]. apply Z.div_lt_upper_bound; nia.
Qed.

(** The 64-bit index arithmetic of [cal_interpolate] is exact. *)
Lemma cal_words s f : cal_range s ->
  _cal_frequency0 (current_props s) < f < _cal_frequency1 (current_props s) ->
  let p := current_props s in
  let span := u32 (_cal_frequency1 p - _cal_frequency0 p) in
  let sp := u16 (_cal_sweep_points p - 1) in
  sp = _cal_sweep_points p - 1 /\
  s32 (u64 (u32 (f - _cal_frequency0 p) * sp) / span) = cal_index s f /\
  u32 (_cal_frequency0 p + u64 (span * cal_index s f + sp / 2) / sp) = cal_freq s (cal_index s f) /\
  u32 (_cal_frequency0 p + u64 (u64 (span * cal_index s f + sp / 2) + span) / sp) = cal_freq s (cal_index s f + 1).
Proof.
  intros Hr Hf p. pose proof Hr as (H0 & H1 & H2). pose proof (cal_index_bracket s f Hr Hf) as [Hi _].
  unfold SWEEP_POINTS_MAX in H2. fold p in H0, H1, H2, Hf, Hi.
  set (a := _cal_frequency0 p) in *. set (b := _cal_frequency1 p) in *. set (n := _cal_sweep_points p - 1) in *.
  cbv zeta. rewrite (u32_small (b - a)) by lia. rewrite (u16_small n) by lia. split; [done|].
  rewrite (u32_small (f - a)) by lia. rewrite (u64_small ((f - a) * n)) by nia.
  unfold cal_index in *. fold p a b n in Hi |- *. set (i := (f - a) * n / (b - a)) in *.
  pose proof (Z.div_mod n 2 ltac:(lia)). pose proof (Z.mod_pos_bound n 2 ltac:(lia)).
  rewrite (u64_small ((b - a) * i + n / 2)) by nia. rewrite (u64_small (_ + (b - a))) by nia.
  pose proof (ideal_frequency_bounds a b n i ltac:(lia) ltac:(lia) ltac:(lia)) as B0.
  pose proof (ideal_frequency_bounds a b n (i + 1) ltac:(lia) ltac:(lia) ltac:(lia)) as B1.
  unfold cal_freq, ideal_frequency in *. fold p a b n.
  replace ((b - a) * i + n / 2 + (b - a)) with ((b - a) * (i + 1) + n / 2) by lia.
  split; [unfold s32; rewrite Z.mod_small; lia|]. split; apply u32_small; lia.
Qed.

Local Open Scope float_scope.
Definition lvl s (f : Z) : option Z := si5351_get_harmonic_lvl f (load_gen s).

(** What [cal_locate] computes inside the range; its upper limit test never
    succeeds. *)
Lemma cal_locate_inside s f idx : cal_range s -> (idx < 0)%Z ->
  (_cal_frequency0 (current_props s) < f < _cal_frequency1 (current_props s))%Z ->
  let i := cal_index s f in
  let k := f_of_Z (f - cal_freq s i) / f_of_Z (cal_freq s (i + 1) - cal_freq s i) in
  cal_locate idx f s =
  if (f =? cal_freq s i)%Z then Some (CopyPoint i) else
  match lvl s (cal_freq s i), lvl s (cal_freq s (i + 1)), lvl s f with
  | Some hf0, Some hf1, Some hf =>
      if (hf0 =? hf1)%Z then Some (Interpolate i k)
      else if (hf0 =? hf)%Z then
        (if (i <? 1)%Z then Some (CopyPoint i) else Some (Interpolate (i - 1) (k + f1)))
      else Some (Interpolate (i + 1) (k - f1))
  | _, _, _ => None
  end.
Proof.
  intros Hr Hidx Hf i k. pose proof (cal_words s f Hr Hf) as (W1 & W2 & W3 & W4).
  pose proof (cal_index_bracket s f Hr Hf) as [Hi Hb]. fold i in Hi, Hb.
  assert (H32 : (0 <= cal_freq s i /\ cal_freq s (i + 1) < 2 ^ 32)%Z).
  { destruct Hr as (R0 & R1 & R2). unfold SWEEP_POINTS_MAX in R2. unfold cal_freq. split.
    - pose proof (ideal_frequency_bounds (_cal_frequency0 (current_props s)) (_cal_frequency1 (current_props s))
        (_cal_sweep_points (current_props s) - 1) i ltac:(lia) ltac:(lia) ltac:(lia)). lia.
    - pose proof (ideal_frequency_bounds (_cal_frequency0 (current_props s)) (_cal_frequency1 (current_props s))
        (_cal_sweep_points (current_props s) - 1) (i + 1) ltac:(lia) ltac:(lia) ltac:(lia)). lia. }
  unfold cal_locate. cbv zeta. rewrite (proj2 (Z.leb_gt 0 idx)) by lia.
  rewrite (proj2 (Z.leb_gt f _)), (proj2 (Z.leb_gt _ f)) by lia.
  cbv zeta in W2, W3, W4. fold i in W2, W3, W4. rewrite W2, W3, W4.
  cbv zeta in W1. rewrite ?W1. rewrite (proj2 (Z.leb_gt _ i)) by lia. unfold lvl.
  destruct (Z.eqb_spec f (cal_freq s i)) as [|Hne]; [done|].
  rewrite !u32_small by lia. rewrite (proj2 (Z.eqb_neq (cal_freq s (i + 1) - cal_freq s i) 0)) by lia. reflexivity.
Qed.

(** The points the interpolation reads lie among the calibrated ones, with one
    exception.  For every frequency, a copied point is a calibrated point, and an
    interpolation reads two neighbouring calibrated points, except when the
    frequency falls between the last two points with a harmonic change below it:
    then it reads the point after the last (for 401 points, the first value of
    the next error term). *)
Theorem interpolation_reads s f idx : cal_range s -> (0 <= f < 2 ^ 32)%Z -> (idx < 0)%Z ->
  let n := _cal_sweep_points (current_props s) in
  match cal_locate idx f s with
  | Some (CopyPoint i) => (0 <= i < n)%Z
  | Some (Interpolate i _) => (0 <= i)%Z /\
      ((i + 1 < n)%Z \/
       (i + 1 = n /\ cal_index s f = n - 2 /\
        lvl s (cal_freq s (n - 2)) <> lvl s f /\
        lvl s (cal_freq s (n - 2)) <> lvl s (cal_freq s (n - 1)))%Z)
  | None => True
  end.
Proof.
  intros Hr Hf Hidx n. pose proof Hr as (R0 & R1 & R2). unfold SWEEP_POINTS_MAX in R2. fold n in R2.
  destruct (decide (_cal_frequency0 (current_props s) < f < _cal_frequency1 (current_props s))%Z) as [Hin|Hout].
  - rewrite cal_locate_inside by done. cbv zeta. pose proof (cal_index_bracket s f Hr Hin) as [Hi _]. fold n in Hi.
    destruct (_ =? _)%Z; [lia|].
    destruct (lvl s (cal_freq s (cal_index s f))) as [h0|] eqn:E0; [|done].
    destruct (lvl s (cal_freq s (cal_index s f + 1))) as [h1|] eqn:E1; [|done].
    destruct (lvl s f) as [h|] eqn:E2; [|done].
    destruct (Z.eqb_spec h0 h1); [lia|]. destruct (Z.eqb_spec h0 h); [destruct (Z.ltb_spec (cal_index s f) 1); lia|].
    split; [lia|]. destruct (decide (cal_index s f = n - 2)%Z) as [Ei|]; [right|left; lia].
    replace (n - 1)%Z with (cal_index s f + 1)%Z by lia. rewrite <- Ei, E0, E1. repeat split; [lia|congruence|congruence].
  - unfold cal_locate. rewrite (proj2 (Z.leb_gt 0 idx)) by lia.
    destruct (Z.leb_spec f (_cal_frequency0 (current_props s))); [lia|].
    rewrite (proj2 (Z.leb_le (_cal_frequency1 (current_props s)) f)) by lia.
    fold n. rewrite u16_small; lia.
Qed.

(** Row-major addressing. *)
Lemma nth_concat_rows {A} (n : nat) (rows : list (list A)) (t i : nat) (d : A) :
  Forall (fun row => length row = n) rows -> (t < length rows)%nat -> (i < n)%nat ->
  nth (t * n + i) (List.concat rows) d = nth i (nth t rows []) d.
Proof.
  intros Hr. revert t. induction Hr as [|row rows Hl _ IH]; intros t Ht Hi; cbn in Ht; [lia|].
  cbn [List.concat]. destruct t as [|t]; cbn [nth]; [rewrite app_nth1 by lia; done|].
  rewrite app_nth2 by lia. rewrite <- IH by lia. f_equal. lia.
Qed.

(** The flat read of an in-range index is the value of the row. *)
Lemma cal_read_row s t i : wf_cal s -> (0 <= i < SWEEP_POINTS_MAX)%Z -> (t < 5)%nat ->
  cal_read t i s = pt (cal_point i s) t.
Proof.
  intros [Hl Hrows] Hi Ht. unfold cal_read, cal_point, pt.
  rewrite (nth_concat_rows (Z.to_nat SWEEP_POINTS_MAX)) by (unfold CAL_TYPE_COUNT in *; lia || done).
  symmetry. rewrite nth_lookup, list_lookup_fmap.
  destruct (_ !! t) as [row|] eqn:E.
  - rewrite (nth_lookup_Some _ _ _ _ E). reflexivity.
  - apply lookup_ge_None in E. unfold CAL_TYPE_COUNT in Hl. lia.
Qed.
End Locate.

Section LocateExact.
Context {F : Type} `{EA : ExactArith F}.
Add Field locate_field : (ea_field (F := F)).
Local Open Scope float_scope.
Implicit Types s : vna F.

Lemma ea_of_Z_sub (a b : Z) : f_of_Z (a - b)%Z = (f_of_Z a - f_of_Z b : F).
Proof.
  transitivity (f_of_Z (a - b)%Z + f_of_Z b - f_of_Z b : F); [ring|].
  rewrite <- ea_of_Z_add. by replace (a - b + b)%Z with a by lia.
Qed.

Definition affine (A B : F * F) (f : Z) : F * F := (fst A + fst B * f_of_Z f, snd A + snd B * f_of_Z f).

Lemma lerp_affine A B (x0 x1 f : Z) : (x0 < x1)%Z ->
  lerp (f_of_Z (f - x0) / f_of_Z (x1 - x0)) (affine A B x0) (affine A B x1) = affine A B f.
Proof.
  intros Hx. assert (Hd : f_of_Z x1 - f_of_Z x0 <> (f0 : F)).
  { intros E. rewrite <- ea_of_Z_sub in E. apply (ea_of_Z_inj (F := F)) in E. lia. }
  rewrite !ea_of_Z_sub. unfold lerp, affine. cbn [fst snd]. f_equal; field; exact Hd.
Qed.

(** C19: In exact arithmetic, terms that vary linearly with frequency are interpolated
    exactly: if at every calibrated point each term is an affine function of the
    frequency of the point, then for every frequency of the calibrated range whose two
    neighbouring points share a harmonic, [cal_interpolate] succeeds and returns
    the value of the affine function at the frequency itself. *)
Theorem interpolation_affine s f (A B : nat -> F * F) : cal_range s -> wf_cal s ->
  (_cal_frequency0 (current_props s) <= f <= _cal_frequency1 (current_props s))%Z ->
  (forall i t, (0 <= i < _cal_sweep_points (current_props s))%Z -> (t < 5)%nat ->
     pt (cal_point i s) t = affine (A t) (B t) (cal_freq s i)) ->
  ((_cal_frequency0 (current_props s) < f < _cal_frequency1 (current_props s))%Z ->
   exists h h', lvl s (cal_freq s (cal_index s f)) = Some h /\
     lvl s (cal_freq s (cal_index s f + 1)) = Some h /\ lvl s f = Some h') ->
  exists c, cal_interpolate (-1) f s = Some c /\ forall t, (t < 5)%nat -> pt c t = affine (A t) (B t) f.
Proof.
  intros Hr Hw Hf Hpt HL. pose proof Hr as (R0 & R1 & R2). unfold SWEEP_POINTS_MAX in R2.
  set (n := _cal_sweep_points (current_props s)) in *.
  assert (Hread : forall i t, (0 <= i < n)%Z -> (t < 5)%nat -> cal_read t i s = affine (A t) (B t) (cal_freq s i)).
  { intros i t Hi Ht. rewrite cal_read_row by (try done; unfold SWEEP_POINTS_MAX; lia). by apply Hpt. }
  assert (Hfetch : forall src t, (t < 5)%nat -> pt (cal_fetch src s) t =
    match src with CopyPoint idx => cal_read t idx s | Interpolate idx k => lerp k (cal_read t idx s) (cal_read t (idx + 1) s) end).
  { intros src t Ht. unfold pt, cal_fetch. do 5 (destruct t as [|t]; [done|]). lia. }
  pose proof (cal_freq_ends s Hr) as [E0 E1]. fold n in E1.
  assert (Hcopy : forall i, (0 <= i < n)%Z -> cal_freq s i = f -> cal_locate (-1) f s = Some (CopyPoint i) ->
    exists c, cal_interpolate (-1) f s = Some c /\ forall t, (t < 5)%nat -> pt c t = affine (A t) (B t) f).
  { intros i Hi Ei Hl. unfold cal_interpolate. rewrite Hl. eexists. split; [reflexivity|].
    intros t Ht. rewrite Hfetch, Hread by done. by rewrite Ei. }
  destruct (decide (f = _cal_frequency0 (current_props s))) as [Ea|Ha].
  { apply (Hcopy 0%Z); [lia|congruence|]. unfold cal_locate. cbn [Z.leb Z.compare].
    by rewrite (proj2 (Z.leb_le f _)) by lia. }
  destruct (decide (f = _cal_frequency1 (current_props s))) as [Eb|Hb].
  { apply (Hcopy (n - 1)%Z); [lia|congruence|]. unfold cal_locate. cbn [Z.leb Z.compare].
    rewrite (proj2 (Z.leb_gt f _)), (proj2 (Z.leb_le _ f)) by lia. fold n. by rewrite u16_small by lia. }
  assert (Hin : (_cal_frequency0 (current_props s) < f < _cal_frequency1 (current_props s))%Z) by lia.
  destruct (HL Hin) as (h & h' & L0 & L1 & L2).
  pose proof (cal_index_bracket s f Hr Hin) as [Hi Hbr]. fold n in Hi.
  pose proof (cal_locate_inside s f (-1) Hr ltac:(lia) Hin) as Hl. cbv zeta in Hl.
  destruct (Z.eqb_spec f (cal_freq s (cal_index s f))) as [Ef|Hne].
  { apply (Hcopy (cal_index s f)); [lia|congruence|done]. }
  rewrite L0, L1, L2, Z.eqb_refl in Hl. unfold cal_interpolate. rewrite Hl. eexists. split; [reflexivity|].
  intros t Ht. rewrite Hfetch, !Hread by lia. apply lerp_affine. lia.
Qed.
End LocateExact.

(** ** A concrete calibration *)

Definition demo_box : @error_box Qcanon.Qc :=
  ErrorBox (f_lit 1 (-1), f0) (f0, f_lit 2 (-1)) (f1, f_lit 1 (-1)) (f_lit 5 (-1), f0) (f0, f_lit 1 (-2)).

(** The reading of a load through a box. *)
Definition box_reading (b : @error_box Qcanon.Qc) (G : Qcanon.Qc * Qcanon.Qc) : Qcanon.Qc * Qcanon.Qc :=
  cadd (eb_ed b) (cdiv (cmul (eb_er b) G) (csub c1 (cmul (eb_es b) G))).
Definition box_transmission (b : @error_box Qcanon.Qc) (G T : Qcanon.Qc * Qcanon.Qc) : Qcanon.Qc * Qcanon.Qc :=
  cadd (eb_ex b) (cdiv (cmul (eb_et b) T) (csub c1 (cmul (eb_es b) G))).
Definition demo_rows : list (Qcanon.Qc * Qcanon.Qc) :=
  [box_reading demo_box c0; box_reading demo_box c1; box_reading demo_box (cneg c1);
   box_transmission demo_box c0 c1; box_transmission demo_box c0 c0].

Definition cal_demo : vna Qcanon.Qc :=
  upd_props (fun p => set__cal_data (map (replicate 401) demo_rows) (set__cal_status 1055 p)) boot.
Definition demo_load : Qcanon.Qc * Qcanon.Qc := (f_lit 3 (-1), f_lit 4 (-1)).

Ltac qc_pair := apply pair_equal_spec; split; apply Qcanon.Qc_is_canon; vm_compute; reflexivity.
Ltac qc_neq := let E := fresh in intros E; apply (f_equal (fun x => QArith_base.Qnum (Qcanon.this (fst x)))) in E; vm_compute in E; discriminate.

Lemma cal_demo_wf : wf_cal cal_demo.
Proof. split; [reflexivity|]. apply Forall_map, Forall_true. intros x. apply length_replicate. Qed.

Lemma full_calibration_corrects_witness :
  let c := cal_point 7 (cal_done cal_demo) in
  has CALSTAT_APPLY (cal_done cal_demo) = true /\
  apply_CH0_error_term (box_reading demo_box demo_load) c = demo_load /\
  apply_CH1_error_term demo_load (box_transmission demo_box demo_load (c1 : Qcanon.Qc * Qcanon.Qc)) c (cal_done cal_demo) = c1.
Proof.
  apply (full_calibration_corrects demo_box cal_demo 7 true
    (box_reading demo_box c0) (box_reading demo_box c1) (box_reading demo_box (cneg c1))
    (box_transmission demo_box c0 c1) (box_transmission demo_box c0 c0));
  [exact cal_demo_wf|vm_compute; split; congruence|vm_compute; congruence|repeat split|reflexivity|split; qc_neq|reflexivity|unfold reads_reflection, reads_transmission; qc_pair ..].
Defined.

(** Power-on state with the first band table loaded. *)
Definition boot_tuned : vna Qcanon.Qc := set_gen (put_table (nth 0 band_tables []) (gen boot)) boot.

(** A calibration ending just above the harmonic threshold. *)
Definition cal_edge : vna Qcanon.Qc :=
  upd_props (fun p => set__cal_frequency0 100000000 (set__cal_frequency1 300100000 (set__cal_sweep_points 401 p))) boot_tuned.

Lemma interpolation_reads_witness :
  match cal_locate (-1) 300050000 cal_edge with
  | Some (Interpolate i _) => 0 <= i /\ i + 1 = 401
  | _ => False
  end.
Proof.
  assert (R : cal_range cal_edge) by (vm_compute; repeat split; congruence).
  pose proof (interpolation_reads cal_edge 300050000 (-1) R ltac:(lia) eq_refl) as T.
  destruct (cal_locate (-1) 300050000 cal_edge) as [[i|i k]|] eqn:E.
  - vm_compute in E. discriminate.
  - split; [exact (proj1 T)|]. vm_compute in E. injection E as <- _. reflexivity.
  - vm_compute in E. discriminate.
Defined.

(** Two calibrated points at 1 and 2 MHz, linear in between. *)
Definition demo_A (t : nat) : Qcanon.Qc * Qcanon.Qc := (f_of_Z (Z.of_nat t), f1).
Definition demo_B (t : nat) : Qcanon.Qc * Qcanon.Qc := (f1, f_of_Z (Z.of_nat t)).
Definition cal_line : vna Qcanon.Qc :=
  upd_props (fun p => set__cal_data
    (map (fun t => affine (demo_A t) (demo_B t) 1000000 :: affine (demo_A t) (demo_B t) 2000000 :: replicate 399 (f0, f0)) (seq 0 5))
    (set__cal_frequency0 1000000 (set__cal_frequency1 2000000 (set__cal_sweep_points 2 p)))) boot_tuned.

Lemma interpolation_affine_witness :
  exists c, cal_interpolate (-1) 1250000 cal_line = Some c /\
    forall t, (t < 5)%nat -> pt c t = affine (demo_A t) (demo_B t) 1250000.
Proof.
  apply (interpolation_affine cal_line 1250000 demo_A demo_B).
  - vm_compute; repeat split; congruence.
  - split; [reflexivity|]. apply Forall_map, Forall_true. intros t. cbn [length]. by rewrite length_replicate.
  - vm_compute; split; congruence.
  - intros i t Hi Ht. change (_cal_sweep_points (current_props cal_line)) with 2 in Hi.
    assert (i = 0 \/ i = 1) as [-> | ->] by lia; do 5 (destruct t as [|t]; [reflexivity|]); lia.
  - intros _. eexists _, _. vm_compute. auto.
Defined.

Lemma cal_done_idempotent_witness :
  has CALSTAT_APPLY (cal_done cal_demo) = true /\
  cal_point 400 (cal_done (cal_done cal_demo)) = cal_point 400 (cal_done cal_demo).
Proof.
  destruct (cal_done_idempotent cal_demo 400 cal_demo_wf) as (_ & _ & _ & A & _ & P);
    [vm_compute; split; congruence|vm_compute; congruence|]. split; [exact A|exact P].
Defined.
