(* ===== verification/Layout.v ===== *)
(** * Memory layouts of the saved structures (nanovna.h)

    [config_t] and [properties_t] are copied to and from flash as bytes.  A
    [layout] says how a value lies in little-endian memory; the layouts of the
    two structures are built field by field in the order of their declarations,
    padding included, and each is proved to read back what it writes. *)

From S2P Require Import Prelude Num Synth Types.
From Stdlib Require Import SpecFloat.

(** ** Bytes *)

Definition bytes_ok (b : list Z) : Prop := Forall (fun x => 0 <= x < 256) b.

(** The [n] bytes of [v], least significant first. *)
Fixpoint to_le (n : nat) (v : Z) : list Z :=
  match n with O => [] | S n => v mod 256 :: to_le n (v / 256) end.
Fixpoint of_le (n : nat) (b : list Z) : Z :=
  match n with O => 0 | S n => hd 0 b + 256 * of_le n (tl b) end.

Lemma to_le_length n v : length (to_le n v) = n.
Proof. revert v. induction n; intros v; cbn; [done|]. by rewrite IHn. Qed.
Lemma to_le_bytes n v : bytes_ok (to_le n v).
Proof. revert v. induction n as [|n IH]; intros v; cbn; constructor; [lia|apply IH]. Qed.

Lemma pow256_S n : 256 ^ Z.of_nat (S n) = 256 * 256 ^ Z.of_nat n.
Proof. rewrite Nat2Z.inj_succ, Z.pow_succ_r by lia. done. Qed.

Lemma of_le_to_le n v rest : of_le n (to_le n v ++ rest) = v mod 256 ^ Z.of_nat n.
Proof.
  revert v. induction n as [|n IH]; intros v; [cbn; by rewrite Z.mod_1_r|].
  cbn [to_le of_le app hd tl]. rewrite IH, pow256_S, Z.rem_mul_r; [done|lia|].
  apply Z.pow_pos_nonneg; lia.
Qed.

Lemma of_le_range n b : bytes_ok b -> 0 <= of_le n b < 256 ^ Z.of_nat n.
Proof.
  revert b. induction n as [|n IH]; intros b Hb; [cbn; lia|]. rewrite pow256_S. cbn [of_le].
  assert (0 <= hd 0 b < 256) by (destruct Hb; cbn; lia).
  assert (Ht : bytes_ok (tl b)) by (destruct Hb; [constructor|done]). specialize (IH _ Ht). lia.
Qed.

(** ** Layouts *)

Record layout (A : Type) := MkLayout {
  l_size : nat;
  l_put : A -> list Z;
  l_get : list Z -> A;
  l_ok : A -> Prop          (* the values the representation can hold *)
}.
Arguments MkLayout {A}.
Arguments l_size {A} _.
Arguments l_put {A} _ _.
Arguments l_get {A} _ _.
Arguments l_ok {A} _ _.

Class LayoutLaws {A} (l : layout A) : Prop := {
  ll_size : forall a, l_ok l a -> length (l_put l a) = l_size l;
  ll_bytes : forall a, bytes_ok (l_put l a);
  ll_get : forall a rest, l_ok l a -> l_get l (l_put l a ++ rest) = a;
  ll_ok : forall b, bytes_ok b -> l_ok l (l_get l b)
}.

Definition l_uint (n : nat) : layout Z :=
  MkLayout n (to_le n) (of_le n) (fun v => 0 <= v < 256 ^ Z.of_nat n).
Definition l_sint (n : nat) : layout Z :=
  MkLayout n (to_le n)
    (fun b => let v := of_le n b in if 256 ^ Z.of_nat n <=? 2 * v then v - 256 ^ Z.of_nat n else v)
    (fun v => - 256 ^ Z.of_nat n <= 2 * v < 256 ^ Z.of_nat n).
Definition l_bool : layout bool :=
  MkLayout 1 (fun v : bool => [if v then 1 else 0]) (fun b => negb (hd 0 b =? 0)) (fun _ => True).
Definition l_pad (n : nat) : layout unit := MkLayout n (fun _ : unit => repeat 0 n) (fun _ => tt) (fun _ => True).
Definition l_pair {A B} (l1 : layout A) (l2 : layout B) : layout (A * B) :=
  MkLayout (l_size l1 + l_size l2) (fun v => l_put l1 (fst v) ++ l_put l2 (snd v))
    (fun b => (l_get l1 b, l_get l2 (drop (l_size l1) b)))
    (fun v => l_ok l1 (fst v) /\ l_ok l2 (snd v)).

Fixpoint get_vec {A} (l : layout A) (n : nat) (b : list Z) : list A :=
  match n with O => [] | S n => l_get l b :: get_vec l n (drop (l_size l) b) end.
Definition l_vec {A} (n : nat) (l : layout A) : layout (list A) :=
  MkLayout (n * l_size l) (fun v => List.concat (map (l_put l) v)) (get_vec l n)
    (fun v => length v = n /\ Forall (l_ok l) v).

(** A record seen as the tuple of its fields. *)
Definition l_iso {A B} (l : layout A) (f : A -> B) (g : B -> A) : layout B :=
  MkLayout (l_size l) (fun v => l_put l (g v)) (fun b => f (l_get l b)) (fun v => l_ok l (g v)).

#[export] Instance l_uint_laws n : LayoutLaws (l_uint n).
Proof.
  split; cbn; intros.
  - apply to_le_length.
  - apply to_le_bytes.
  - rewrite of_le_to_le. by apply Z.mod_small.
  - by apply of_le_range.
Qed.

#[export] Instance l_sint_laws n : LayoutLaws (l_sint n).
Proof.
  assert (Hp : 0 < 256 ^ Z.of_nat n) by (apply Z.pow_pos_nonneg; lia).
  split; cbn; intros.
  - apply to_le_length.
  - apply to_le_bytes.
  - rewrite of_le_to_le. set (m := 256 ^ Z.of_nat n) in *. clearbody m.
    destruct (Z.ltb_spec a 0).
    + replace (a mod m) with (a + m) by (apply (Z.mod_unique_pos a m (-1)); lia). zcase; lia.
    + rewrite Z.mod_small by lia. zcase; lia.
  - pose proof (of_le_range n b H). zcase; lia.
Qed.

#[export] Instance l_bool_laws : LayoutLaws l_bool.
Proof. split; cbn; intros; try done. - repeat constructor; destruct a; lia. - by destruct a. Qed.

#[export] Instance l_pad_laws n : LayoutLaws (l_pad n).
Proof.
  split; cbn; intros; try done; [by rewrite repeat_length| |by destruct a].
  induction n; cbn; constructor; [lia|done].
Qed.

#[export] Instance l_pair_laws {A B} (l1 : layout A) (l2 : layout B) `{!LayoutLaws l1} `{!LayoutLaws l2} : LayoutLaws (l_pair l1 l2).
Proof.
  split; cbn.
  - intros [a b] [Ha Hb]. cbn in *. by rewrite length_app, !ll_size.
  - intros a. apply Forall_app_2; apply ll_bytes.
  - intros [a b] rest [Ha Hb]. cbn in *. rewrite <- app_assoc, ll_get by done. f_equal.
    rewrite drop_app_length' by (by rewrite ll_size). by apply ll_get.
  - intros b Hb. split; apply ll_ok; [done|by apply Forall_drop].
Qed.

#[export] Instance l_vec_laws {A} n (l : layout A) `{!LayoutLaws l} : LayoutLaws (l_vec n l).
Proof.
  split; cbn.
  - intros v [<- Hv]. induction Hv as [|x v Hx Hv IH]; cbn; [done|]. by rewrite length_app, ll_size, IH.
  - intros v. induction v as [|x v IH]; cbn; [constructor|]. apply Forall_app_2; [apply ll_bytes|done].
  - intros v rest [<- Hv]. induction Hv as [|x v Hx Hv IH]; cbn; [done|].
    rewrite <- app_assoc, ll_get by done. f_equal. by rewrite drop_app_length' by (by rewrite ll_size).
  - induction n as [|n IH]; intros b Hb; cbn; [done|].
    destruct (IH (drop (l_size l) b)) as [Hl Hf]; [by apply Forall_drop|]. split; [by rewrite Hl|].
    constructor; [by apply ll_ok|done].
Qed.

Lemma l_iso_laws {A B} (l : layout A) (f : A -> B) (g : B -> A) :
  LayoutLaws l -> (forall v, f (g v) = v) -> (forall v, g (f v) = v) -> LayoutLaws (l_iso l f g).
Proof.
  intros Hl Hfg Hgf. split; cbn.
  - intros a. apply ll_size.
  - intros a. apply ll_bytes.
  - intros a rest Ha. by rewrite ll_get.
  - intros b Hb. rewrite Hgf. by apply ll_ok.
Qed.

(** ** Floats are kept as their 32 bits *)

Definition f_stored {F} `{FloatBits F} (x : F) : Prop :=
  0 <= f_bits x < 2 ^ 32 /\ f_of_bits (f_bits x) = x.

(** Every word decodes to a value that is stored as it is. *)
Class FloatBitsLaws (F : Type) `{FloatBits F} : Prop := {
  fb_decoded : forall b, 0 <= b < 2 ^ 32 -> f_stored (f_of_bits (F := F) b)
}.

Lemma b32_bits_finite s m e : 8388608 <= Zpos m < 16777216 -> -150 < e < 105 ->
  b32_of_bits (b32_bits (S754_finite s m e)) = S754_finite s m e /\ 0 <= b32_bits (S754_finite s m e) < 2 ^ 32.
Proof.
  intros Hm He. cbn [b32_bits]. rewrite (proj2 (Z.ltb_ge (Zpos m) 8388608)) by lia.
  set (x := (if s then 2147483648 else 0) + ((e + 150) * 8388608 + (Zpos m - 8388608))).
  assert (Hx : (2147483648 <=? x) = s) by (subst x; destruct s; zcase; lia).
  assert (Hex : (x / 8388608) mod 256 = e + 150).
  { subst x. destruct s.
    - replace (_ + _) with (((e + 150) + 256) * 8388608 + (Zpos m - 8388608)) by lia.
      rewrite Z.div_add_l, (Z.div_small (Zpos m - 8388608)) by lia.
      symmetry. apply (Z.mod_unique_pos _ 256 1); lia.
    - rewrite Z.add_0_l, Z.div_add_l, (Z.div_small (Zpos m - 8388608)) by lia. rewrite Z.add_0_r. apply Z.mod_small. lia. }
  assert (Hmm : x mod 8388608 = Zpos m - 8388608).
  { symmetry. apply (Z.mod_unique_pos x 8388608 (e + 150 + if s then 256 else 0)); subst x; destruct s; lia. }
  split; [|subst x; destruct s; lia].
  unfold b32_of_bits. rewrite Hx, Hex, Hmm. rewrite !(proj2 (Z.eqb_neq _ _)) by lia.
  replace (Z.pos m - 8388608 + 8388608) with (Zpos m) by lia. cbn [Z.to_pos]. f_equal. lia.
Qed.

Lemma b32_bits_subnormal s m : Zpos m < 8388608 ->
  b32_of_bits (b32_bits (S754_finite s m (-149))) = S754_finite s m (-149) /\
  0 <= b32_bits (S754_finite s m (-149)) < 2 ^ 32.
Proof.
  intros Hm. cbn [b32_bits]. rewrite (proj2 (Z.ltb_lt (Zpos m) 8388608)) by lia.
  set (x := (if s then 2147483648 else 0) + Zpos m).
  assert (Hx : (2147483648 <=? x) = s) by (subst x; destruct s; zcase; lia).
  assert (Hex : (x / 8388608) mod 256 = 0).
  { subst x. destruct s; [|by rewrite Z.add_0_l, Z.div_small by lia].
    replace (2147483648 + Zpos m) with (256 * 8388608 + Zpos m) by lia.
    by rewrite Z.div_add_l, (Z.div_small (Zpos m)) by lia. }
  assert (Hmm : x mod 8388608 = Zpos m).
  { symmetry. apply (Z.mod_unique_pos x 8388608 (if s then 256 else 0)); subst x; destruct s; lia. }
  split; [|subst x; destruct s; lia].
  unfold b32_of_bits. rewrite Hx, Hex, Hmm. cbn [Z.eqb]. done.
Qed.

#[export] Instance binary32_bits_laws : FloatBitsLaws spec_float.
Proof.
  split. intros b Hb. unfold f_stored. cbn [f_bits f_of_bits binary32_bits]. unfold b32_of_bits at 1 2 4 5.
  set (s := 2147483648 <=? b). set (ex := (b / 8388608) mod 256). set (m := b mod 8388608).
  assert (0 <= ex < 256) by (apply Z.mod_pos_bound; lia). assert (0 <= m < 8388608) by (apply Z.mod_pos_bound; lia).
  clearbody s ex m. destruct (Z.eqb_spec ex 255); [|destruct (Z.eqb_spec ex 0)];
    [destruct (m =? 0); destruct s; vm_compute; repeat split; congruence| |].
  - destruct (Z.eqb_spec m 0); [destruct s; vm_compute; repeat split; congruence|].
    destruct (b32_bits_subnormal s (Z.to_pos m)) as [E R]; [rewrite Z2Pos.id by lia; lia|]. split; [exact R|exact E].
  - destruct (b32_bits_finite s (Z.to_pos (m + 8388608)) (ex - 150)) as [E R]; [rewrite Z2Pos.id by lia; lia|lia|].
    split; [exact R|exact E].
Qed.

(** ** The structures *)

Declare Scope layout_scope.
Delimit Scope layout_scope with L.
Notation "a ::: b" := (l_pair a b) (at level 60, right associativity) : layout_scope.
Local Open Scope layout_scope.

Definition l_u8 := l_uint 1.
Definition l_u16 := l_uint 2.
Definition l_u32 := l_uint 4.
Definition l_s8 := l_sint 1.
Definition l_s16 := l_sint 2.
Definition l_s32 := l_sint 4.

Definition l_marker : layout marker_t :=
  l_iso (l_bool ::: l_u8 ::: l_u16 ::: l_u32)
    (fun v => let '(en, (r, (i, f))) := v in Marker en r i f)
    (fun m => (mk_enabled m, (mk_reserved m, (mk_index m, mk_frequency m)))).

Section Structures.
Context {F : Type} `{FloatBits F}.

Definition l_float : layout F :=
  MkLayout 4 (fun x => to_le 4 (f_bits x)) (fun b => f_of_bits (of_le 4 b)) f_stored.

Definition l_trace : layout (trace_t F) :=
  l_iso (l_bool ::: l_u8 ::: l_u8 ::: l_u8 ::: l_float ::: l_float)
    (fun v => let '(en, (ty, (ch, (sm, (sc, rp))))) := v in Trace en ty ch sm sc rp)
    (fun t => (tr_enabled t, (tr_type t, (tr_channel t, (tr_smith_format t, (tr_scale t, tr_refpos t)))))).

(** [config_t] between its magic and its checksum. *)
Definition l_config : layout (config_t F) :=
  l_iso (l_u32 ::: l_s32 ::: l_vec 4 l_s16 ::: l_u16 ::: l_u16 ::: l_u16 ::: l_u16 ::: l_u8 ::: l_u8
         ::: l_vec 32 l_u16 ::: l_pad 2 ::: l_u32 ::: l_u32 ::: l_float ::: l_u8 ::: l_u8 ::: l_u8 ::: l_u8)
    (fun v => let '(thr, (off, (tc, (vm, (dac, (vb, (bw, (lm, (br, (pal, (_, (ser, (xt, (mr, (bm, (hr, (sm, rs))))))))))))))))) := v in
       Config thr off tc vm dac vb bw lm br pal ser xt mr bm hr sm rs)
    (fun c => (_harmonic_freq_threshold c, (_IF_freq c, (_touch_cal c, (_vna_mode c, (_dac_value c, (_vbat_offset c,
      (_bandwidth c, (_lever_mode c, (_brightness c, (_lcd_palette c, (tt, (_serial_speed c, (_xtal_freq c,
      (_measure_r c, (_band_mode c, (_ham_region c, (_marker_search_mode c, _config_reserved c)))))))))))))))))).

(** [properties_t] between its magic and its checksum. *)
Definition l_properties : layout (properties_t F) :=
  l_iso (l_u32 ::: l_u32 ::: l_u32 ::: l_u32 ::: l_u32 ::: l_u16 ::: l_u16 ::: l_s8 ::: l_s8 ::: l_s8
         ::: l_u8 ::: l_u8 ::: l_u8 ::: l_u16 ::: l_u16 ::: l_pad 2 ::: l_vec 4 l_trace ::: l_vec 8 l_marker
         ::: l_u8 ::: l_u8 ::: l_pad 2 ::: (l_float ::: l_float) ::: l_float ::: l_float ::: l_float ::: l_float
         ::: l_vec 7 l_u32 ::: l_vec 5 (l_vec 401 (l_float ::: l_float)))
    (fun v => let '(fa, (fb, (ca, (cb, (vf, (md, (sp, (ct, (am, (pm, (pw, (cp, (ms, (csp, (cs, (_, (tr, (mk, (rs, (vel,
                   (_, (ed, (vd, (so, (pz, (cl, (r1, cd))))))))))))))))))))))))))) := v in
       Properties fa fb ca cb vf md sp ct am pm pw cp ms csp cs tr mk rs vel ed vd so pz cl r1 cd)
    (fun p => (_frequency0 p, (_frequency1 p, (_cal_frequency0 p, (_cal_frequency1 p, (_var_freq p, (_mode p,
      (_sweep_points p, (_current_trace p, (_active_marker p, (_previous_marker p, (_power p, (_cal_power p, (_measure p,
      (_cal_sweep_points p, (_cal_status p, (tt, (_trace p, (_markers p, (_reserved p, (_velocity_factor p, (tt,
      (_electrical_delay p, (_var_delay p, (_s21_offset p, (_portz p, (_cal_load_r p, (_reserved1 p,
      _cal_data p)))))))))))))))))))))))))))).

#[export] Instance l_marker_laws : LayoutLaws l_marker.
Proof.
  apply l_iso_laws; [typeclasses eauto|by intros []|by intros (? & ? & ? & ?)].
Qed.

Context `{!FloatBitsLaws F}.

#[export] Instance l_float_laws : LayoutLaws l_float.
Proof.
  split; cbn -[to_le of_le].
  - intros a _. apply to_le_length.
  - intros a. apply to_le_bytes.
  - intros a rest [Hr E]. rewrite of_le_to_le, Z.mod_small by exact Hr. exact E.
  - intros b Hb. apply fb_decoded, (of_le_range 4 b Hb).
Qed.

#[export] Instance l_trace_laws : LayoutLaws l_trace.
Proof. apply l_iso_laws; [typeclasses eauto|by intros []|by intros (? & ? & ? & ? & ? & ?)]. Qed.

#[export] Instance l_config_laws : LayoutLaws l_config.
Proof.
  apply l_iso_laws; [typeclasses eauto|by intros []|].
  by intros (? & ? & ? & ? & ? & ? & ? & ? & ? & ? & [] & ? & ? & ? & ? & ? & ? & ?).
Qed.

#[export] Instance l_properties_laws : LayoutLaws l_properties.
Proof.
  apply l_iso_laws; [typeclasses eauto|by intros []|].
  by intros (? & ? & ? & ? & ? & ? & ? & ? & ? & ? & ? & ? & ? & ? & ? & [] & ? & ? & ? & ? & [] & ? & ? & ? & ? & ? & ? & ?).
Qed.

(** The sizes the compiler gives the structures, without magic and checksum. *)
Lemma struct_sizes : l_size l_config = (116 - 8)%nat /\ l_size l_properties = Z.to_nat (16252 - 8).
Proof. split; reflexivity. Qed.
End Structures.

#[global] Opaque l_config l_properties.
