(* ===== verification/Storage.v ===== *)
(** * Settings in flash (data_storage.c, flash.c)

    Configuration and calibration slots are saved as images (magic, structure,
    checksum) in the last pages of the flash; an abstract store of slots is
    refined by the flash operations. *)

From S2P Require Import Prelude Num Synth Types Props Sweep Layout.
From stdpp Require Import gmap.
Local Open Scope Z_scope.

(** ** The flash (flash.c)

    A half-word that is not in the map is erased.  Programming is the flash
    controller's: an erased half-word takes the value, any other one only takes
    zero. *)

Definition FLASH_START_ADDRESS : Z := 0x08000000.
Definition FLASH_TOTAL_SIZE : Z := 256 * 1024.
Definition FLASH_PAGESIZE : Z := 0x800.
Definition SAVE_CONFIG_SIZE : Z := 0x800.
Definition SAVE_PROP_CONFIG_SIZE : Z := 0x4000.
Definition SAVE_FULL_AREA_SIZE : Z := SAVE_CONFIG_SIZE + SAVEAREA_MAX * SAVE_PROP_CONFIG_SIZE.
Definition SAVE_CONFIG_ADDR : Z := FLASH_START_ADDRESS + FLASH_TOTAL_SIZE - SAVE_CONFIG_SIZE.
Definition SAVE_PROP_CONFIG_ADDR : Z := FLASH_START_ADDRESS + FLASH_TOTAL_SIZE - SAVE_FULL_AREA_SIZE.

Abbreviation flash := (gmap Z Z).
Definition hw (a : Z) (f : flash) : Z := default 65535 (f !! a).

Definition program_half_word (a v : Z) (f : flash) : flash :=
  if (hw a f =? 65535) || (v =? 0) then <[a := v]> f else f.

(** The page that holds the address. *)
Definition flash_erase_page0 (page_address : Z) (f : flash) : flash :=
  let page := page_address - page_address mod FLASH_PAGESIZE in
  for_range 0 (FLASH_PAGESIZE / 2) (fun i f => delete (page + 2 * i) f) f.

(** [None]: the fuel ran out. *)
Fixpoint erase_loop (fuel : nat) (page_address size : Z) (f : flash) : option flash :=
  match fuel with
  | O => None
  | S fuel =>
      if page_address <? size then
        erase_loop fuel (u32 (page_address + FLASH_PAGESIZE)) size (flash_erase_page0 page_address f)
      else Some f
  end.

Definition flash_erase_pages (page_address size : Z) (f : flash) : option flash :=
  erase_loop (Z.to_nat (size / FLASH_PAGESIZE + 2)) page_address (u32 (size + page_address)) f.

Definition flash_program_half_word_buffer (dst : Z) (data : list Z) (size : Z) (f : flash) : option flash :=
  match flash_erase_pages dst size f with
  | Some f => Some (for_range 0 (size / 2) (fun i f => program_half_word (dst + 2 * i) (nth (Z.to_nat i) data 0) f) f)
  | None => None
  end.

(** ** Images *)

Fixpoint halves (b : list Z) : list Z :=
  match b with
  | x :: y :: b => x + 256 * y :: halves b
  | _ => []
  end.
Fixpoint words32 (b : list Z) : list Z :=
  match b with
  | x :: y :: z :: w :: b => x + 256 * y + 65536 * z + 16777216 * w :: words32 b
  | _ => []
  end.

(** [n] bytes of memory at an even address. *)
Definition flash_bytes (a n : Z) (f : flash) : list Z :=
  flat_map (fun h => [h mod 256; h / 256]) (map (fun i => hw (a + 2 * i) f) (seqZ 0 (n / 2))).

Definition __ROR (v n : Z) : Z := u32 (Z.lor (Z.shiftr v n) (Z.shiftl v (32 - n))).
Definition checksum (p : list Z) : Z :=
  fold_left (fun value w => u32 (__ROR value 31 + w)) (words32 p) 0.

Definition image (magic : Z) (body : list Z) : list Z :=
  let b := to_le 4 magic ++ body in b ++ to_le 4 (checksum b).
Definition image_valid (magic : Z) (b : list Z) : bool :=
  (of_le 4 b =? magic) && (checksum (take (length b - 4) b) =? of_le 4 (drop (length b - 4) b)).

Definition config_size : Z := 116.
Definition properties_size : Z := 16252.
Definition calibration_slot_area (id : Z) : Z := SAVE_PROP_CONFIG_ADDR + id * SAVE_PROP_CONFIG_SIZE.

(** ** data_storage.c *)

Section DataStorage.
Context {F : Type} `{FloatOps F} `{FloatBits F}.

(** The instrument, the flash, the cache of verified slots and the backup
    registers. *)
Record store := Store {
  st_vna : vna F;
  st_flash : flash;
  checksum_ok : Z;
  st_backup : list Z }.

Definition upd_vna (g : vna F -> vna F) (s : store) : store := Store (g (st_vna s)) (st_flash s) (checksum_ok s) (st_backup s).
Definition set_flash (f : flash) (s : store) : store := Store (st_vna s) f (checksum_ok s) (st_backup s).
Definition set_checksum_ok (v : Z) (s : store) : store := Store (st_vna s) (st_flash s) v (st_backup s).
Definition set_backup (b : list Z) (s : store) : store := Store (st_vna s) (st_flash s) (checksum_ok s) b.

(** Each operation returns its C result; [None] is a flash loop without end. *)
Definition config_save (s : store) : option (Z * store) :=
  let img := image CONFIG_MAGIC (l_put l_config (config (st_vna s))) in
  match flash_program_half_word_buffer SAVE_CONFIG_ADDR (halves img) config_size (st_flash s) with
  | Some f => Some (0, set_flash f s)
  | None => None
  end.

Definition config_recall (s : store) : Z * store :=
  let src := flash_bytes SAVE_CONFIG_ADDR config_size (st_flash s) in
  if negb (image_valid CONFIG_MAGIC src) then (-1, s)
  else (0, upd_vna (set_config (l_get l_config (drop 4 src))) s).

Definition caldata_save (id : Z) (s : store) : option (Z * store) :=
  if SAVEAREA_MAX <=? id then Some (-1, s) else
  let img := image PROPERTIES_MAGIC (l_put l_properties (current_props (st_vna s))) in
  match flash_program_half_word_buffer (calibration_slot_area id) (halves img) properties_size (st_flash s) with
  | Some f => Some (0, upd_vna (set_lastsaveid id) (set_flash f s))
  | None => None
  end.

(** [None]: the null pointer. *)
Definition get_properties (id : Z) (s : store) : option (list Z) * store :=
  if SAVEAREA_MAX <=? id then (None, s) else
  let src := flash_bytes (calibration_slot_area id) properties_size (st_flash s) in
  if bit_test (checksum_ok s) (Z.shiftl 1 id) then (Some src, s)
  else if negb (image_valid PROPERTIES_MAGIC src) then (None, s)
  else (Some src, set_checksum_ok (u8 (bit_set (checksum_ok s) (Z.shiftl 1 id))) s).

Definition caldata_recall (id : Z) (s : store) : Z * store :=
  let s := upd_vna (set_lastsaveid NO_SAVE_SLOT) s in
  if id =? NO_SAVE_SLOT then (0, s) else
  match get_properties id s with
  | (None, s) => (1, s)
  | (Some src, s) =>
      (0, upd_vna (set_current_props (l_get l_properties (drop 4 src))) (upd_vna (set_lastsaveid id) s))
  end.

Definition clear_all_config_prop_data (s : store) : option store :=
  let s := set_checksum_ok 0 (upd_vna (set_lastsaveid NO_SAVE_SLOT) s) in
  match flash_erase_pages SAVE_PROP_CONFIG_ADDR SAVE_FULL_AREA_SIZE (st_flash s) with
  | Some f => Some (set_flash f s)
  | None => None
  end.
End DataStorage.
Arguments store F : clear implicits.

(** ** The flash operations *)

(** The end of the page that holds byte [e - 1]. *)
Definition page_end (e : Z) : Z := (e + 2047) / 2048 * 2048.

Lemma hw_delete a b f : hw a (delete b f) = if b =? a then 65535 else hw a f.
Proof.
  unfold hw. destruct (Z.eqb_spec b a) as [<-|Hne]; [by rewrite lookup_delete_eq|by rewrite lookup_delete_ne].
Qed.
Lemma hw_insert a b v f : hw a (<[b := v]> f) = if b =? a then v else hw a f.
Proof.
  unfold hw. destruct (Z.eqb_spec b a) as [<-|Hne]; [by rewrite lookup_insert_eq|by rewrite lookup_insert_ne].
Qed.

Lemma erase_page0_hw p a f : p mod 2048 = 0 -> a mod 2 = 0 ->
  hw a (flash_erase_page0 p f) = if (p <=? a) && (a <? p + 2048) then 65535 else hw a f.
Proof.
  intros Hp Ha. unfold flash_erase_page0, FLASH_PAGESIZE. rewrite Hp, Z.sub_0_r.
  change (2048 / 2) with 1024. replace (p + 2048) with (p + 2 * 1024) by lia.
  apply (for_range_ind (fun n f' => hw a f' = if (p <=? a) && (a <? p + 2 * n) then 65535 else hw a f)); [lia| |].
  - replace (_ && _) with false; [done|]. repeat zcase; cbn; lia.
  - intros i f' Hi E. rewrite hw_delete, E. repeat zcase; cbn; lia.
Qed.

Lemma erase_loop_hw fuel : forall p e f, p mod 2048 = 0 -> 0 <= p -> 0 <= e < 2 ^ 32 - 4096 -> p <= e + 2048 ->
  e - p < 2048 * (Z.of_nat fuel - 1) ->
  exists f', erase_loop fuel p e f = Some f' /\
    forall a, a mod 2 = 0 -> hw a f' = if (p <=? a) && (a <? page_end e) then 65535 else hw a f.
Proof.
  induction fuel as [|fuel IH]; intros p e f Hp H0 He Hpe Hf; [lia|]. cbn [erase_loop].
  unfold FLASH_PAGESIZE. destruct (Z.ltb_spec p e).
  - rewrite u32_small by lia. destruct (IH (p + 2048) e (flash_erase_page0 p f)) as (f' & -> & Hf'); [lia..|].
    exists f'. split; [done|]. intros a Ha. rewrite Hf', erase_page0_hw by done. unfold page_end.
    repeat zcase; cbn; lia.
  - exists f. split; [done|]. intros a Ha. replace (_ && _) with false; [done|]. unfold page_end.
    repeat zcase; cbn; lia.
Qed.

(** Erasing terminates and erases exactly the pages of the range. *)
Lemma flash_erase_pages_hw p size f : p mod 2048 = 0 -> 0 <= p -> 0 <= size -> p + size < 2 ^ 32 - 4096 ->
  exists f', flash_erase_pages p size f = Some f' /\
    forall a, a mod 2 = 0 -> hw a f' = if (p <=? a) && (a <? page_end (p + size)) then 65535 else hw a f.
Proof.
  intros Hp H0 Hs He. unfold flash_erase_pages, FLASH_PAGESIZE. rewrite u32_small by lia. rewrite (Z.add_comm size p).
  apply erase_loop_hw; lia.
Qed.

Definition halves_ok (d : list Z) : Prop := Forall (fun h => 0 <= h < 65536) d.

(** Programming a buffer terminates, writes the buffer and erases the rest of
    its pages. *)
Lemma flash_program_hw dst data size f : dst mod 2048 = 0 -> 0 <= dst -> 0 <= size -> dst + size < 2 ^ 32 - 4096 ->
  exists f', flash_program_half_word_buffer dst data size f = Some f' /\
    (forall i, 0 <= i < size / 2 -> hw (dst + 2 * i) f' = nth (Z.to_nat i) data 0) /\
    (forall a, a mod 2 = 0 -> a < dst \/ page_end (dst + size) <= a -> hw a f' = hw a f) /\
    (forall a, a mod 2 = 0 -> hw a f' = hw a f \/ hw a f' = 65535 \/ hw a f' ∈ 0 :: data).
Proof.
  intros Hd H0 Hs He. unfold flash_program_half_word_buffer.
  destruct (flash_erase_pages_hw dst size f Hd H0 Hs He) as (g & -> & Hg). eexists. split; [reflexivity|].
  set (n := size / 2). assert (Hn : 0 <= n) by (apply Z.div_pos; lia).
  assert (Hpe : dst + 2 * n <= page_end (dst + size)).
  { unfold page_end, n. clear -Hs. lia. }
  assert (I : forall a, a mod 2 = 0 ->
    hw a (for_range 0 n (fun i f => program_half_word (dst + 2 * i) (nth (Z.to_nat i) data 0) f) g)
    = if (dst <=? a) && (a <? dst + 2 * n) then nth (Z.to_nat ((a - dst) / 2)) data 0 else hw a g).
  { intros a Ha.
    apply (for_range_ind (fun k f' => (forall b, b mod 2 = 0 ->
      hw b f' = if (dst <=? b) && (b <? dst + 2 * k) then nth (Z.to_nat ((b - dst) / 2)) data 0 else hw b g))); [done| | |done].
    - intros b Hb. replace (_ && _) with false; [done|]. repeat zcase; cbn; lia.
    - intros i f' Hi E b Hb. unfold program_half_word. rewrite E by lia.
      replace ((dst <=? dst + 2 * i) && (dst + 2 * i <? dst + 2 * i)) with false by (repeat zcase; cbn; lia).
      rewrite Hg by lia. replace ((dst <=? dst + 2 * i) && (dst + 2 * i <? page_end (dst + size))) with true by (repeat zcase; cbn; lia).
      cbn [Z.eqb Pos.eqb orb]. rewrite hw_insert, E by done.
      destruct (Z.eqb_spec (dst + 2 * i) b) as [<-|Hne]; [|repeat zcase; cbn; lia].
      replace ((dst + 2 * i - dst) / 2) with i by lia. repeat zcase; cbn; lia. }
  split; [|split].
  - intros i Hi. rewrite I by lia. replace ((dst + 2 * i - dst) / 2) with i by lia. repeat zcase; cbn; lia.
  - intros a Ha Hout. rewrite I by done. replace (_ && _) with false by (repeat zcase; cbn; lia).
    rewrite Hg by done. replace (_ && _) with false; [done|]. repeat zcase; cbn; lia.
  - intros a Ha. rewrite I by done. destruct (_ && _).
    + right; right. rewrite nth_lookup. destruct (data !! _) eqn:E; cbn; [|apply list_elem_of_here].
      apply list_elem_of_further. by eapply list_elem_of_lookup_2.
    + rewrite Hg by done. destruct (_ && _); auto.
Qed.

(** ** Images in flash *)

Definition half_bytes (h : Z) : list Z := [h mod 256; h / 256].

Lemma halves_spec n b : length b = (2 * n)%nat -> bytes_ok b ->
  length (halves b) = n /\ halves_ok (halves b) /\ flat_map half_bytes (halves b) = b.
Proof.
  revert b. induction n as [|n IH]; intros b Hl Hb.
  - destruct b; [|done]. repeat split. constructor.
  - destruct b as [|x [|y b]]; cbn in Hl; [lia|lia|]. apply Forall_cons in Hb as [Hx Hb]. apply Forall_cons in Hb as [Hy Hb].
    destruct (IH b) as (L & O & E); [lia|done|]. cbn [halves length]. split; [by rewrite L|].
    split; [constructor; [lia|done]|]. cbn [flat_map]. rewrite E. unfold half_bytes. cbn [app].
    replace ((x + 256 * y) mod 256) with x by lia. by replace ((x + 256 * y) / 256) with y by lia.
Qed.

Definition flash_ok (f : flash) : Prop := forall a, a mod 2 = 0 -> 0 <= hw a f < 65536.

(** What programming a byte image leaves in flash. *)
Lemma program_read_back dst b n f : dst mod 2048 = 0 -> 0 <= dst -> dst + 2 * Z.of_nat n < 2 ^ 32 - 4096 ->
  length b = (2 * n)%nat -> bytes_ok b ->
  exists f', flash_program_half_word_buffer dst (halves b) (2 * Z.of_nat n) f = Some f' /\
    flash_bytes dst (2 * Z.of_nat n) f' = b /\
    (forall a, a mod 2 = 0 -> a < dst \/ page_end (dst + 2 * Z.of_nat n) <= a -> hw a f' = hw a f) /\
    (flash_ok f -> flash_ok f').
Proof.
  intros Hd H0 He Hl Hb. destruct (halves_spec n b Hl Hb) as (L & O & E).
  destruct (flash_program_hw dst (halves b) (2 * Z.of_nat n) f Hd H0 ltac:(lia) He) as (f' & -> & Hin & Hout & Hval).
  exists f'. split; [done|]. split; [|split; [exact Hout|]].
  2: { intros Hf a Ha. destruct (Hval a Ha) as [-> |[-> |Hv]]; [by apply Hf|lia|].
       apply elem_of_cons in Hv as [-> |Hv]; [lia|]. exact (proj1 (Forall_forall _ _) O _ Hv). }
  transitivity (flat_map half_bytes (halves b)); [|exact E]. unfold flash_bytes, half_bytes. f_equal.
  replace (2 * Z.of_nat n / 2) with (Z.of_nat n) in * by lia.
  apply list_eq. intros i. rewrite list_lookup_fmap.
  destruct (decide (i < n)%nat) as [Hi|Hi].
  - rewrite lookup_seqZ_lt by lia. cbn [fmap option_fmap option_map]. rewrite Hin by lia.
    rewrite Z.add_0_l, Nat2Z.id. destruct (halves b !! i) eqn:Eh; [f_equal; by apply nth_lookup_Some|].
    apply lookup_ge_None in Eh. lia.
  - rewrite lookup_seqZ_ge by lia. cbn. symmetry. apply lookup_ge_None. lia.
Qed.

(** Reads outside the touched pages do not change. *)
Lemma flash_bytes_frame a n f f' : a mod 2 = 0 ->
  (forall x, x mod 2 = 0 -> a <= x < a + n -> hw x f' = hw x f) -> flash_bytes a n f' = flash_bytes a n f.
Proof.
  intros Ha H. unfold flash_bytes. f_equal. apply map_ext_in. intros i Hi.
  apply list_elem_of_In, elem_of_seqZ in Hi. apply H; lia.
Qed.

Lemma flash_bytes_ok a n f : a mod 2 = 0 -> flash_ok f -> bytes_ok (flash_bytes a n f).
Proof.
  intros Ha Hf. unfold flash_bytes. apply Forall_flat_map. rewrite Forall_map. apply Forall_true. intros i.
  pose proof (Hf (a + 2 * i) ltac:(lia)). repeat constructor; lia.
Qed.
Lemma flash_bytes_length a n f : 0 <= n -> length (flash_bytes a (2 * n) f) = Z.to_nat (2 * n).
Proof.
  intros Hn. unfold flash_bytes. replace (2 * n / 2) with n by lia.
  assert (E : forall l : list Z, length (flat_map (fun h => [h mod 256; h / 256]) l) = (2 * length l)%nat).
  { induction l as [|h l IH]; cbn in *; lia. }
  rewrite E, length_map, length_seqZ. lia.
Qed.

(** *** Magic and checksum *)

Lemma checksum_range b : 0 <= checksum b < 2 ^ 32.
Proof.
  unfold checksum. generalize (words32 b) as l. intros l. destruct l as [|w l] using rev_ind; [cbn; lia|].
  rewrite fold_left_app. cbn [fold_left]. apply u32_range.
Qed.

Lemma image_length magic body : length (image magic body) = (length body + 8)%nat.
Proof. unfold image. rewrite !length_app, !to_le_length. lia. Qed.
Lemma image_bytes magic body : bytes_ok body -> bytes_ok (image magic body).
Proof. intros Hb. unfold image. repeat apply Forall_app_2; try apply to_le_bytes. done. Qed.

Lemma image_is_valid magic body : 0 <= magic < 2 ^ 32 -> image_valid magic (image magic body) = true.
Proof.
  intros Hm. unfold image_valid. rewrite image_length. unfold image.
  set (b := to_le 4 magic ++ body). assert (Hb : length b = (length body + 8 - 4)%nat) by (unfold b; rewrite length_app, to_le_length; lia).
  rewrite take_app_length', drop_app_length' by done.
  rewrite <- (app_nil_r (to_le 4 (checksum b))), of_le_to_le, (Z.mod_small (checksum b)) by apply checksum_range.
  unfold b at 1. rewrite <- app_assoc, of_le_to_le, Z.mod_small, !Z.eqb_refl by exact Hm. done.
Qed.

(** The structure inside an image. *)
Lemma image_body {A} (l : layout A) `{!LayoutLaws l} magic a : l_ok l a ->
  l_get l (drop 4 (image magic (l_put l a))) = a.
Proof.
  intros Ha. unfold image. rewrite <- app_assoc. rewrite drop_app_length' by (by rewrite to_le_length).
  by apply ll_get.
Qed.

(** *** The checksum detects a damaged word *)

Lemma ROR31_value v : 0 <= v < 2 ^ 32 -> __ROR v 31 = 2 * (v mod 2 ^ 31) + v / 2 ^ 31.
Proof.
  intros Hv. unfold __ROR. rewrite Z.shiftr_div_pow2, Z.shiftl_mul_pow2 by lia.
  change (32 - 31) with 1. rewrite Z.lor_comm, lor_add_pow2 by lia. change (2 ^ 1) with 2. unfold u32. lia.
Qed.

Lemma checksum_step_inj v v' w : 0 <= v < 2 ^ 32 -> 0 <= v' < 2 ^ 32 ->
  u32 (__ROR v 31 + w) = u32 (__ROR v' 31 + w) -> v = v'.
Proof. intros Hv Hv'. rewrite !ROR31_value by done. unfold u32. lia. Qed.

Definition checksum_loop (value : Z) (l : list Z) : Z := fold_left (fun value w => u32 (__ROR value 31 + w)) l value.

Lemma checksum_loop_inj l : forall v v', 0 <= v < 2 ^ 32 -> 0 <= v' < 2 ^ 32 ->
  checksum_loop v l = checksum_loop v' l -> v = v'.
Proof.
  induction l as [|w l IH]; intros v v' Hv Hv'; cbn; [done|]. intros E.
  apply IH in E; [|apply u32_range..]. by apply checksum_step_inj in E.
Qed.

Lemma checksum_loop_app l1 l2 v : checksum_loop v (l1 ++ l2) = checksum_loop (checksum_loop v l1) l2.
Proof. apply fold_left_app. Qed.

Lemma checksum_loop_range l v : 0 <= v < 2 ^ 32 -> 0 <= checksum_loop v l < 2 ^ 32.
Proof.
  revert v. induction l as [|w l IH]; intros v Hv; cbn; [done|]. apply IH, u32_range.
Qed.

Lemma words32_app b1 b2 n : length b1 = (4 * n)%nat -> words32 (b1 ++ b2) = words32 b1 ++ words32 b2.
Proof.
  revert b1. induction n as [|n IH]; intros b1 Hl; [by destruct b1|].
  destruct b1 as [|x [|y [|z [|w b1]]]]; cbn in Hl; try lia. cbn [app words32]. by rewrite IH by lia.
Qed.

Lemma of_le_inj n : forall w w', length w = n -> length w' = n -> bytes_ok w -> bytes_ok w' ->
  of_le n w = of_le n w' -> w = w'.
Proof.
  induction n as [|n IH]; intros w w' L L' B B' E; [by destruct w, w'|].
  destruct w as [|x w], w' as [|x' w']; try discriminate. cbn in L, L', E.
  apply Forall_cons in B as [Bx B]. apply Forall_cons in B' as [Bx' B'].
  assert (x = x' /\ of_le n w = of_le n w') as [-> E'] by lia. f_equal. apply IH; auto with lia.
Qed.

Lemma words32_word w : length w = 4%nat -> bytes_ok w -> words32 w = [of_le 4 w] /\ 0 <= of_le 4 w < 2 ^ 32.
Proof.
  intros L B. split; [|apply (of_le_range 4 w B)]. destruct w as [|x [|y [|z [|v [|]]]]]; try discriminate.
  cbn [words32 of_le hd tl]. f_equal. lia.
Qed.

(** The two parts of a valid image. *)
Lemma image_valid_sum magic b c : length c = 4%nat -> image_valid magic (b ++ c) = true -> checksum b = of_le 4 c.
Proof.
  intros L H. unfold image_valid in H. apply andb_true_iff in H as [_ H]. apply Z.eqb_eq in H.
  rewrite length_app, L, Nat.add_sub, take_app_length, drop_app_length in H. exact H.
Qed.

(** C32: A damaged word never passes: in a valid image made of whole words, replacing
    the four bytes of any one aligned word (the magic, the structure or the
    checksum itself) by any others makes the image invalid. *)
Theorem one_word_corruption (magic : Z) (pre w w' post : list Z) (m n : nat) :
  length pre = (4 * m)%nat -> length post = (4 * n)%nat -> length w = 4%nat -> length w' = 4%nat ->
  bytes_ok w -> bytes_ok w' -> w <> w' ->
  image_valid magic (pre ++ w ++ post) = true -> image_valid magic (pre ++ w' ++ post) = false.
Proof.
  intros Lp Lq Lw Lw' Bw Bw' Hne V. apply not_true_is_false. intros V'. apply Hne.
  apply (of_le_inj 4); try done. destruct n as [|n].
  - destruct post; [|done]. rewrite app_nil_r in V, V'. apply image_valid_sum in V, V'; congruence.
  - rewrite <- (take_drop (4 * n) post) in V, V'. set (q := take (4 * n) post) in *. set (c := drop (4 * n) post) in *.
    assert (Lc : length c = 4%nat) by (unfold c; rewrite length_drop; lia).
    rewrite !app_assoc in V, V'. apply image_valid_sum in V; [|done]. apply image_valid_sum in V'; [|done].
    rewrite <- V' in V. clear V'. revert V. unfold checksum. rewrite <- !app_assoc.
    destruct (words32_word w Lw Bw) as [Ew Rw]. destruct (words32_word w' Lw' Bw') as [Ew' Rw'].
    rewrite !(words32_app pre _ m), (words32_app w _ 1), (words32_app w' _ 1), Ew, Ew' by done.
    fold (checksum_loop 0 (words32 pre ++ [of_le 4 w] ++ words32 q)).
    fold (checksum_loop 0 (words32 pre ++ [of_le 4 w'] ++ words32 q)).
    rewrite !checksum_loop_app. intros E.
    pose proof (checksum_loop_range (words32 pre) 0 ltac:(lia)) as Rv. set (v := checksum_loop 0 (words32 pre)) in *.
    apply checksum_loop_inj in E; [|by apply checksum_loop_range..].
    cbn [checksum_loop fold_left] in E. pose proof (ROR31_value v Rv). revert E. unfold checksum_loop. cbn [fold_left]. unfold u32. lia.
Qed.

(** ** The abstract store

    What data_storage.c promises: a configuration that may be saved, seven slots
    each empty or holding properties, and no other effect of a save. *)

Section Refinement.
Context {F : Type} `{FloatOps F} `{FloatBitsLaws F}.
Implicit Types (s : store F) (f : flash).

Record astore := AStore {
  a_vna : vna F;
  a_config : option (config_t F);
  a_slots : gmap Z (properties_t F) }.

(** The operations a caller makes, between arbitrary changes of the settings. *)
Inductive storage_op :=
| ConfigSave | ConfigRecall
| CaldataSave (id : Z) | CaldataRecall (id : Z) | GetProperties (id : Z)
| ClearAll
| Edit (g : vna F -> vna F).

Inductive storage_result := RInt (r : Z) | RProps (p : option (properties_t F)).

Definition a_upd (g : vna F -> vna F) (a : astore) : astore := AStore (g (a_vna a)) (a_config a) (a_slots a).

Definition a_step (op : storage_op) (a : astore) : storage_result * astore :=
  match op with
  | ConfigSave => (RInt 0, AStore (a_vna a) (Some (config (a_vna a))) (a_slots a))
  | ConfigRecall =>
      match a_config a with
      | Some c => (RInt 0, a_upd (set_config c) a)
      | None => (RInt (-1), a)
      end
  | CaldataSave id =>
      if id <? SAVEAREA_MAX then
        (RInt 0, AStore (set_lastsaveid id (a_vna a)) (a_config a) (<[id := current_props (a_vna a)]> (a_slots a)))
      else (RInt (-1), a)
  | CaldataRecall id =>
      let a := a_upd (set_lastsaveid NO_SAVE_SLOT) a in
      if id =? NO_SAVE_SLOT then (RInt 0, a) else
      match a_slots a !! id with
      | Some p => (RInt 0, a_upd (set_current_props p) (a_upd (set_lastsaveid id) a))
      | None => (RInt 1, a)
      end
  | GetProperties id => (RProps (a_slots a !! id), a)
  | ClearAll => (RInt 0, AStore (set_lastsaveid NO_SAVE_SLOT (a_vna a)) None ∅)
  | Edit g => (RInt 0, a_upd g a)
  end.

Definition c_step (op : storage_op) (s : store F) : option (storage_result * store F) :=
  match op with
  | ConfigSave => option_map (fun x => (RInt (fst x), snd x)) (config_save s)
  | ConfigRecall => let x := config_recall s in Some (RInt (fst x), snd x)
  | CaldataSave id => option_map (fun x => (RInt (fst x), snd x)) (caldata_save id s)
  | CaldataRecall id => let x := caldata_recall id s in Some (RInt (fst x), snd x)
  | GetProperties id =>
      let x := get_properties id s in
      Some (RProps (option_map (fun src => l_get l_properties (drop 4 src)) (fst x)), snd x)
  | ClearAll => option_map (fun s => (RInt 0, s)) (clear_all_config_prop_data s)
  | Edit g => Some (RInt 0, upd_vna g s)
  end.

(** What the flash holds. *)
Definition stored_config f : option (config_t F) :=
  let src := flash_bytes SAVE_CONFIG_ADDR config_size f in
  if image_valid CONFIG_MAGIC src then Some (l_get l_config (drop 4 src)) else None.
Definition stored_slot f (id : Z) : option (properties_t F) :=
  let src := flash_bytes (calibration_slot_area id) properties_size f in
  if image_valid PROPERTIES_MAGIC src then Some (l_get l_properties (drop 4 src)) else None.

(** Settings that the saved structures can represent. *)
Definition storable (v : vna F) : Prop := l_ok l_config (config v) /\ l_ok l_properties (current_props v).

(** The cache only marks slots that hold a valid image. *)
Record store_ok s : Prop := {
  so_flash : flash_ok (st_flash s);
  so_ram : storable (st_vna s);
  so_bits : 0 <= checksum_ok s < 128;
  so_cache : forall id, 0 <= id < SAVEAREA_MAX -> Z.testbit (checksum_ok s) id = true ->
    is_Some (stored_slot (st_flash s) id) }.

Record refines s (a : astore) : Prop := {
  rf_vna : st_vna s = a_vna a;
  rf_config : stored_config (st_flash s) = a_config a;
  rf_slots : forall id, 0 <= id -> a_slots a !! id = if id <? SAVEAREA_MAX then stored_slot (st_flash s) id else None }.

Definition op_ok (op : storage_op) : Prop :=
  match op with
  | CaldataSave id | CaldataRecall id | GetProperties id => 0 <= id
  | Edit g => forall v, storable v -> storable (g v)
  | _ => True
  end.

(** *** Addresses *)

Lemma areas id : 0 <= id < SAVEAREA_MAX ->
  calibration_slot_area id mod 2048 = 0 /\ SAVE_PROP_CONFIG_ADDR <= calibration_slot_area id /\
  page_end (calibration_slot_area id + properties_size) = calibration_slot_area id + 0x4000 /\
  calibration_slot_area id + 0x4000 <= SAVE_CONFIG_ADDR.
Proof.
  unfold SAVEAREA_MAX. intros Hid. unfold calibration_slot_area, SAVE_CONFIG_ADDR, SAVE_PROP_CONFIG_ADDR,
    SAVE_FULL_AREA_SIZE, SAVE_PROP_CONFIG_SIZE, SAVE_CONFIG_SIZE, SAVEAREA_MAX, FLASH_START_ADDRESS, FLASH_TOTAL_SIZE,
    properties_size, page_end. lia.
Qed.

Lemma stored_slot_frame f f' id : 0 <= id < SAVEAREA_MAX ->
  (forall a, a mod 2 = 0 -> calibration_slot_area id <= a < calibration_slot_area id + 0x4000 -> hw a f' = hw a f) ->
  stored_slot f' id = stored_slot f id.
Proof.
  intros Hid E. unfold stored_slot. destruct (areas id Hid) as (Al & _).
  rewrite (flash_bytes_frame _ _ f f'); [done|lia|]. intros x Hx Hr. apply E; [done|]. unfold properties_size in Hr. lia.
Qed.
Lemma stored_config_frame f f' :
  (forall a, a mod 2 = 0 -> SAVE_CONFIG_ADDR <= a < SAVE_CONFIG_ADDR + 0x800 -> hw a f' = hw a f) ->
  stored_config f' = stored_config f.
Proof.
  intros E. unfold stored_config. rewrite (flash_bytes_frame _ _ f f'); [done|done|].
  intros x Hx Hr. apply E; [done|]. unfold config_size in Hr. lia.
Qed.

(** *** Saving writes one area *)

Lemma config_save_flash f (c : config_t F) : l_ok l_config c -> flash_ok f ->
  exists f', flash_program_half_word_buffer SAVE_CONFIG_ADDR (halves (image CONFIG_MAGIC (l_put l_config c))) config_size f = Some f' /\
    stored_config f' = Some c /\ flash_ok f' /\ forall id, 0 <= id < SAVEAREA_MAX -> stored_slot f' id = stored_slot f id.
Proof.
  intros Hc Hf. set (img := image CONFIG_MAGIC (l_put l_config c)).
  destruct (program_read_back SAVE_CONFIG_ADDR img 58 f) as (f' & E & R & Out & Ok); [done|done|done| | |].
  { unfold img. rewrite image_length, ll_size by done. reflexivity. }
  { apply image_bytes, ll_bytes. }
  change (2 * Z.of_nat 58) with config_size in E, R, Out.
  exists f'. split; [exact E|]. split; [|split; [by apply Ok|]].
  - unfold stored_config. rewrite R. unfold img. rewrite image_is_valid by (clear; unfold CONFIG_MAGIC; lia). rewrite (image_body l_config) by exact Hc. reflexivity.
  - intros id Hid. apply stored_slot_frame; [done|]. intros a Ha Hr. destruct (areas id Hid) as (_ & _ & _ & Hlt).
    apply Out; [done|]. left. lia.
Qed.

Lemma caldata_save_flash f id (p : properties_t F) : 0 <= id < SAVEAREA_MAX -> l_ok l_properties p -> flash_ok f ->
  exists f', flash_program_half_word_buffer (calibration_slot_area id) (halves (image PROPERTIES_MAGIC (l_put l_properties p))) properties_size f = Some f' /\
    stored_config f' = stored_config f /\ flash_ok f' /\
    forall id', 0 <= id' < SAVEAREA_MAX -> stored_slot f' id' = if id =? id' then Some p else stored_slot f id'.
Proof.
  intros Hid Hp Hf. destruct (areas id Hid) as (Al & Lo & Pe & Hi). set (img := image PROPERTIES_MAGIC (l_put l_properties p)).
  destruct (program_read_back (calibration_slot_area id) img (Z.to_nat 8126) f) as (f' & E & R & Out & Ok); [done| | | | |].
  { revert Lo. unfold SAVE_PROP_CONFIG_ADDR, SAVE_FULL_AREA_SIZE, FLASH_START_ADDRESS, FLASH_TOTAL_SIZE, SAVE_CONFIG_SIZE, SAVEAREA_MAX, SAVE_PROP_CONFIG_SIZE. lia. }
  { rewrite Z2Nat.id by lia. revert Hi. unfold SAVE_CONFIG_ADDR, FLASH_START_ADDRESS, FLASH_TOTAL_SIZE, SAVE_CONFIG_SIZE. lia. }
  { unfold img. rewrite image_length, ll_size by exact Hp. rewrite (proj2 struct_sizes). clear. lia. }
  { apply image_bytes, ll_bytes. }
  change (2 * Z.of_nat (Z.to_nat 8126)) with properties_size in E, R, Out. rewrite Pe in Out.
  exists f'. split; [exact E|]. split; [|split; [by apply Ok|]].
  - apply stored_config_frame. intros a Ha Hr. apply Out; [done|]. right. lia.
  - intros id' Hid'. destruct (Z.eqb_spec id id') as [<-|Hne].
    + unfold stored_slot. rewrite R. unfold img. rewrite image_is_valid by (clear; unfold PROPERTIES_MAGIC; lia). rewrite (image_body l_properties) by exact Hp. reflexivity.
    + apply stored_slot_frame; [done|]. intros a Ha Hr. apply Out; [done|].
      unfold calibration_slot_area, SAVE_PROP_CONFIG_SIZE in *. lia.
Qed.

(** *** Erasing forgets every image *)

Lemma erased_magic f a n : a mod 2 = 0 -> 4 <= n -> (forall x, x mod 2 = 0 -> a <= x < a + 4 -> hw x f = 65535) ->
  of_le 4 (flash_bytes a n f) = 4294967295.
Proof.
  intros Ha Hn Hx. unfold flash_bytes. rewrite seqZ_cons by lia. rewrite seqZ_cons by lia.
  cbn [map flat_map app of_le hd tl]. rewrite !Hx by lia. reflexivity.
Qed.

Lemma clear_flash f : exists f', flash_erase_pages SAVE_PROP_CONFIG_ADDR SAVE_FULL_AREA_SIZE f = Some f' /\
  (flash_ok f -> flash_ok f') /\ stored_config f' = None /\
  forall id, 0 <= id < SAVEAREA_MAX -> stored_slot f' id = None.
Proof.
  destruct (flash_erase_pages_hw SAVE_PROP_CONFIG_ADDR SAVE_FULL_AREA_SIZE f) as (f' & E & Hf); [done..|].
  exists f'. split; [exact E|].
  assert (He : forall a, a mod 2 = 0 -> SAVE_PROP_CONFIG_ADDR <= a < SAVE_CONFIG_ADDR + 0x800 -> hw a f' = 65535).
  { intros a Ha Hr. rewrite Hf by done. replace (page_end _) with (SAVE_CONFIG_ADDR + 0x800) by reflexivity.
    rewrite (proj2 (Z.leb_le _ _)), (proj2 (Z.ltb_lt _ _)) by lia. done. }
  split; [|split].
  - intros Ok a Ha. rewrite Hf by done. destruct (_ && _); [lia|by apply Ok].
  - unfold stored_config, image_valid. rewrite erased_magic; [done|done|done|]. intros x Hx Hr. apply He; [done|].
    revert Hr. unfold SAVE_PROP_CONFIG_ADDR, SAVE_CONFIG_ADDR, SAVE_FULL_AREA_SIZE, SAVE_CONFIG_SIZE, SAVEAREA_MAX, SAVE_PROP_CONFIG_SIZE. lia.
  - intros id Hid. destruct (areas id Hid) as (Al & Lo & _ & Hi). unfold stored_slot, image_valid.
    rewrite erased_magic; [done|lia|done|]. intros x Hx Hr. apply He; [done|]. lia.
Qed.

(** *** Reading through the cache *)

Lemma slot_flag id v : 0 <= id -> bit_test v (Z.shiftl 1 id) = Z.testbit v id.
Proof. intros Hid. rewrite Z.shiftl_1_l. by apply bit_test_pow2. Qed.

Lemma get_properties_spec id s : store_ok s -> 0 <= id ->
  let r := get_properties id s in
  option_map (fun src => l_get l_properties (drop 4 src)) (fst r) =
    (if id <? SAVEAREA_MAX then stored_slot (st_flash s) id else None) /\
  store_ok (snd r) /\ st_vna (snd r) = st_vna s /\ st_flash (snd r) = st_flash s.
Proof.
  intros [Of Or Ob Oc] Hid. unfold get_properties. rewrite (Z.leb_antisym id SAVEAREA_MAX).
  destruct (Z.ltb_spec id SAVEAREA_MAX) as [Hlt|Hge]; cbn [negb]; [|by split].
  rewrite slot_flag by done. cbv zeta. unfold SAVEAREA_MAX in Hlt.
  destruct (Z.testbit (checksum_ok s) id) eqn:Eb.
  - destruct (Oc id ltac:(unfold SAVEAREA_MAX; lia) Eb) as [p Hp]. split; [|by split].
    cbn [fst option_map]. unfold stored_slot in *. by destruct (image_valid _ _).
  - unfold stored_slot. destruct (image_valid _ _) eqn:Ev; cbn [negb fst snd]; [|by split].
    split; [done|]. split; [|done]. split; cbn; [done|done| |].
    + assert (0 <= bit_set (checksum_ok s) (Z.shiftl 1 id) < 128).
      { unfold bit_set. rewrite Z.shiftl_1_l. apply (lor_range _ _ 7); [lia|done|].
        split; [apply Z.pow_nonneg; lia|apply Z.pow_lt_mono_r; lia]. }
      rewrite u8_small; lia.
    + intros id' Hid' Ht. assert (Hb : Z.testbit (bit_set (checksum_ok s) (2 ^ id)) id' = true).
      { unfold u8 in Ht. rewrite Z.shiftl_1_l in Ht. change 256 with (2 ^ 8) in Ht. unfold SAVEAREA_MAX in Hid'.
        by rewrite Z.mod_pow2_bits_low in Ht by lia. }
      unfold bit_set in Hb. rewrite Z.lor_spec, Z.pow2_bits_eqb in Hb by done.
      destruct (Z.eqb_spec id id') as [<-|]; [unfold stored_slot; rewrite Ev; eauto|].
      rewrite orb_false_r in Hb. by apply Oc.
Qed.

(** *** The simulation *)

Lemma stored_config_ok f c : flash_ok f -> stored_config f = Some c -> l_ok l_config c.
Proof.
  unfold stored_config. intros Hf E. destruct (image_valid _ _); [|done]. apply (inj Some) in E as <-.
  apply ll_ok, Forall_drop, flash_bytes_ok; done.
Qed.
Lemma stored_slot_ok f id p : 0 <= id < SAVEAREA_MAX -> flash_ok f -> stored_slot f id = Some p -> l_ok l_properties p.
Proof.
  unfold stored_slot. intros Hid Hf E. destruct (image_valid _ _); [|done]. apply (inj Some) in E as <-.
  destruct (areas id Hid) as (Al & _). apply ll_ok, Forall_drop, flash_bytes_ok; [lia|done].
Qed.

Lemma store_ok_ram s v : store_ok s -> storable v -> store_ok (upd_vna (fun _ => v) s).
Proof. intros [Of Or Ob Oc] Hv. by split. Qed.

Lemma step_config s a op : op = ConfigSave \/ op = ConfigRecall -> store_ok s -> refines s a ->
  exists s', c_step op s = Some (fst (a_step op a), s') /\ store_ok s' /\ refines s' (snd (a_step op a)).
Proof.
  intros Hop Ok [Rv Rc Rs]. pose proof Ok as [Of Or Ob Oc]. destruct Hop as [-> | ->]; cbn [c_step a_step].
  - destruct (config_save_flash (st_flash s) (config (st_vna s)) (proj1 Or) Of) as (f' & E & C' & Of' & S').
    unfold config_save. rewrite E. eexists. split; [reflexivity|]. split.
    + split; cbn; [done|done|done|]. intros id Hid Hb. rewrite S' by done. by apply Oc.
    + split; cbn; [done|by rewrite C', Rv|]. intros id Hid. rewrite Rs by done. destruct (Z.ltb_spec id SAVEAREA_MAX); [|done].
      by rewrite S'.
  - unfold config_recall. rewrite <- Rc. unfold stored_config.
    destruct (image_valid CONFIG_MAGIC _) eqn:Ev; cbn [negb fst snd].
    + eexists. split; [reflexivity|]. split; [|split; cbn; [by rewrite Rv|done|done]].
      split; cbn; [done| |done|done]. split; cbn; [|exact (proj2 Or)].
      apply ll_ok, Forall_drop, flash_bytes_ok; done.
    + eexists. split; [reflexivity|]. split; [done|]. by split.
Qed.

Lemma step_save s a id : 0 <= id -> store_ok s -> refines s a ->
  exists s', c_step (CaldataSave id) s = Some (fst (a_step (CaldataSave id) a), s') /\ store_ok s' /\
    refines s' (snd (a_step (CaldataSave id) a)).
Proof.
  intros Hid Ok [Rv Rc Rs]. pose proof Ok as [Of Or Ob Oc]. cbn [c_step a_step]. unfold caldata_save.
  rewrite (Z.leb_antisym id SAVEAREA_MAX). destruct (Z.ltb_spec id SAVEAREA_MAX) as [Hlt|Hge]; cbn [negb].
  - destruct (caldata_save_flash (st_flash s) id (current_props (st_vna s)) ltac:(lia) (proj2 Or) Of) as (f' & E & C' & Of' & S').
    rewrite E. eexists. split; [reflexivity|]. split.
    + split; cbn; [done|done|done|]. intros id' Hid' Hb. rewrite S' by done. destruct (id =? id'); [eauto|by apply Oc].
    + split; cbn; [by rewrite Rv|by rewrite C'|]. intros id' Hid'. rewrite <- Rv.
      destruct (Z.ltb_spec id' SAVEAREA_MAX).
      * rewrite S' by lia. destruct (Z.eqb_spec id id') as [<-|Hne]; [by rewrite lookup_insert_eq|].
        rewrite lookup_insert_ne by done. rewrite Rs by done. by rewrite (proj2 (Z.ltb_lt id' _)).
      * rewrite lookup_insert_ne by lia. rewrite Rs by done. by rewrite (proj2 (Z.ltb_ge id' _)).
  - eexists. split; [reflexivity|]. split; [done|]. by split.
Qed.

Lemma step_recall s a id : 0 <= id -> store_ok s -> refines s a ->
  exists s', c_step (CaldataRecall id) s = Some (fst (a_step (CaldataRecall id) a), s') /\ store_ok s' /\
    refines s' (snd (a_step (CaldataRecall id) a)).
Proof.
  intros Hid Ok [Rv Rc Rs]. cbn [c_step a_step]. unfold caldata_recall.
  set (s1 := upd_vna (set_lastsaveid NO_SAVE_SLOT) s).
  assert (Ok1 : store_ok s1) by (by apply (store_ok_ram s (set_lastsaveid NO_SAVE_SLOT (st_vna s)) Ok), Ok).
  destruct (Z.eqb_spec id NO_SAVE_SLOT) as [->|Hne].
  { eexists. split; [reflexivity|]. split; [done|]. split; cbn; [by rewrite Rv|done|done]. }
  destruct (get_properties_spec id s1 Ok1 Hid) as (G & Ok2 & V2 & F2).
  cbn [a_upd a_slots]. rewrite (Rs id Hid). change (st_flash s1) with (st_flash s) in *. rewrite <- G.
  destruct (get_properties id s1) as [[src|] s2]; cbn [fst snd option_map] in *; (eexists; split; [reflexivity|]).
  - split.
    + pose proof Ok2 as [Of Or Ob Oc]. split; cbn; [done| |done|done]. split; cbn; [exact (proj1 Or)|].
      destruct (Z.ltb_spec id SAVEAREA_MAX); [|done]. eapply (stored_slot_ok (st_flash s) id); [lia| |by rewrite <- G].
      rewrite <- F2. exact Of.
    + split; cbn; [by rewrite V2, <- Rv|by rewrite F2|by rewrite F2].
  - split; [done|]. split; cbn; [by rewrite V2, <- Rv|by rewrite F2|by rewrite F2].
Qed.

Lemma storage_step s a op : op_ok op -> store_ok s -> refines s a ->
  exists s', c_step op s = Some (fst (a_step op a), s') /\ store_ok s' /\ refines s' (snd (a_step op a)).
Proof.
  intros Hop Ok R. destruct op as [| |id|id|id| |g]; cbn [op_ok] in Hop.
  - apply step_config; auto.
  - apply step_config; auto.
  - by apply step_save.
  - by apply step_recall.
  - destruct (get_properties_spec id s Ok Hop) as (G & Ok2 & V2 & F2). destruct R as [Rv Rc Rs].
    cbn [c_step a_step fst snd]. rewrite (Rs id Hop), <- G. eexists. split; [reflexivity|]. split; [done|].
    split; [by rewrite V2|by rewrite F2|by rewrite F2].
  - destruct R as [Rv Rc Rs]. destruct Ok as [Of Or Ob Oc]. cbn [c_step a_step fst snd]. unfold clear_all_config_prop_data.
    cbn [st_flash set_checksum_ok upd_vna]. destruct (clear_flash (st_flash s)) as (f' & -> & Of' & C' & S').
    eexists. split; [reflexivity|]. split.
    + split; cbn; [auto|done|lia|]. intros id _ Hb. by rewrite Z.bits_0 in Hb.
    + split; cbn; [by rewrite Rv|done|]. intros id Hid. rewrite lookup_empty. destruct (Z.ltb_spec id SAVEAREA_MAX); [|done].
      by rewrite S'.
  - destruct R as [Rv Rc Rs]. cbn [c_step a_step fst snd]. eexists. split; [reflexivity|]. split.
    + apply (store_ok_ram s (g (st_vna s)) Ok), Hop, Ok.
    + split; cbn; [by rewrite Rv|done|done].
Qed.

Fixpoint c_run (ops : list storage_op) (s : store F) : option (list storage_result * store F) :=
  match ops with
  | [] => Some ([], s)
  | op :: ops =>
      match c_step op s with
      | Some (r, s) => option_map (fun x => (r :: fst x, snd x)) (c_run ops s)
      | None => None
      end
  end.
Fixpoint a_run (ops : list storage_op) (a : astore) : list storage_result * astore :=
  match ops with
  | [] => ([], a)
  | op :: ops => let x := a_step op a in let y := a_run ops (snd x) in (fst x :: fst y, snd y)
  end.

(** C5: The flash code implements the abstract store: from any flash content, for
    every sequence of saves, recalls, lookups, erasures and changes of the
    settings, the operations terminate and return what the map of slots returns,
    the settings in memory are those of the abstract run, and the flash still
    holds the abstract slots and configuration (no operation touches another
    slot, and the cache of verified slots never hides a damaged one). *)
Theorem storage_refines (ops : list storage_op) s a :
  Forall op_ok ops -> store_ok s -> refines s a ->
  exists s', c_run ops s = Some (fst (a_run ops a), s') /\ store_ok s' /\ refines s' (snd (a_run ops a)).
Proof.
  intros Hops. revert s a. induction Hops as [|op ops Hop Hops IH]; intros s a Ok R; [by exists s|].
  cbn [c_run a_run]. destruct (storage_step s a op Hop Ok R) as (s1 & -> & Ok1 & R1).
  destruct (IH s1 _ Ok1 R1) as (s2 & -> & Ok2 & R2). by exists s2.
Qed.

(** C13: A saved slot survives a power cycle: whatever is in memory afterwards, with
    an empty cache, recalling the slot succeeds and brings back exactly the
    properties that were saved, while the other slots and the configuration are
    those from before the save. *)
Theorem caldata_roundtrip id s (v : vna F) bk : 0 <= id < SAVEAREA_MAX -> store_ok s -> storable v ->
  exists s', caldata_save id s = Some (0, s') /\
  let r := caldata_recall id (Store v (st_flash s') 0 bk) in
  fst r = 0 /\ current_props (st_vna (snd r)) = current_props (st_vna s) /\ lastsaveid (st_vna (snd r)) = id /\
  stored_config (st_flash s') = stored_config (st_flash s) /\
  forall id', 0 <= id' < SAVEAREA_MAX -> id' <> id -> stored_slot (st_flash s') id' = stored_slot (st_flash s) id'.
Proof.
  intros Hid [Of Or Ob Oc] Hv. unfold caldata_save. rewrite (proj2 (Z.leb_gt SAVEAREA_MAX id)) by lia.
  destruct (caldata_save_flash (st_flash s) id (current_props (st_vna s)) Hid (proj2 Or) Of) as (f' & -> & C' & Of' & S').
  eexists. split; [reflexivity|]. cbn [st_flash upd_vna set_flash]. cbv zeta.
  assert (Ok2 : store_ok (Store (set_lastsaveid NO_SAVE_SLOT v) f' 0 bk)).
  { split; cbn; [done|done|lia|]. intros i _ Hb. by rewrite Z.bits_0 in Hb. }
  destruct (get_properties_spec id _ Ok2 (proj1 Hid)) as (G & _ & V2 & F2). unfold caldata_recall.
  change (upd_vna (set_lastsaveid NO_SAVE_SLOT) (Store v f' 0 bk)) with (Store (set_lastsaveid NO_SAVE_SLOT v) f' 0 bk).
  rewrite (proj2 (Z.eqb_neq id NO_SAVE_SLOT)) by (unfold SAVEAREA_MAX, NO_SAVE_SLOT in *; lia).
  rewrite (proj2 (Z.ltb_lt id SAVEAREA_MAX)) in G by lia. cbn [st_flash] in G. rewrite (S' id Hid), Z.eqb_refl in G.
  destruct (get_properties id _) as [[src|] s2]; cbn [fst snd option_map] in *; [|done]. apply (inj Some) in G.
  split; [done|]. split; [exact G|]. split; [done|]. split; [done|]. intros id' Hid' Hne. rewrite S' by done.
  by rewrite (proj2 (Z.eqb_neq id id')) by lia.
Qed.
End Refinement.

(** ** The power-on settings over an erased flash *)

Definition boot_ieee : vna SpecFloat.spec_float := upd_props load_default_properties power_on.
Definition fresh_store : store SpecFloat.spec_float := Store boot_ieee ∅ 0 (repeat 0 5).

Lemma Forall_repeat {A} (P : A -> Prop) x n : P x -> Forall P (repeat x n).
Proof. intros Hx. induction n; cbn; by constructor. Qed.

Ltac in_range := vm_compute; repeat split; congruence.
Ltac all_in_range := repeat (apply Forall_cons; split; [in_range|]); constructor.

Lemma boot_ieee_storable : storable boot_ieee.
Proof.
  split.
  - with_strategy transparent [l_config] unfold l_config. cbn [l_iso l_ok l_pair fst snd].
    repeat split; try in_range; all_in_range.
  - with_strategy transparent [l_properties] unfold l_properties. cbn [l_iso l_ok l_pair fst snd].
    assert (E0 : f_stored (f0 : SpecFloat.spec_float)) by in_range.
    do 16 (split; [in_range|]). split; [split; [reflexivity|all_in_range]|].
    split; [split; [reflexivity|all_in_range]|]. do 2 (split; [in_range|]). split; [done|].
    do 5 (split; [in_range|]). split; [split; [reflexivity|all_in_range]|].
    split; [reflexivity|]. apply (Forall_repeat _ _ 5). split; [reflexivity|]. apply (Forall_repeat _ _ 401). by split.
Qed.

Lemma fresh_store_ok : store_ok fresh_store.
Proof.
  split; cbn; [|exact boot_ieee_storable|lia|].
  - intros a _. unfold hw. rewrite lookup_empty. cbn. lia.
  - intros id _ Hb. by rewrite Z.bits_0 in Hb.
Qed.

Lemma fresh_refines : refines fresh_store (AStore boot_ieee None ∅).
Proof.
  assert (E : forall x, hw x ∅ = 65535) by (intros x; unfold hw; by rewrite lookup_empty).
  split; cbn; [done| |].
  - unfold stored_config, image_valid. by rewrite erased_magic by done.
  - intros id Hid. rewrite lookup_empty. destruct (Z.ltb_spec id SAVEAREA_MAX); [|done].
    destruct (areas id ltac:(lia)) as (Al & _). unfold stored_slot, image_valid. by rewrite erased_magic by (done || lia).
Qed.

Definition demo_ops : list (storage_op (F := SpecFloat.spec_float)) :=
  [CaldataSave 3; ConfigSave; Edit (set_lastsaveid 1); CaldataRecall 3; GetProperties 5; CaldataSave 9; ClearAll; CaldataRecall 3].

Lemma storage_refines_witness : exists s' : store SpecFloat.spec_float,
  c_run demo_ops fresh_store = Some ([RInt 0; RInt 0; RInt 0; RInt 0; RProps None; RInt (-1); RInt 0; RInt 1], s').
Proof.
  destruct (storage_refines demo_ops fresh_store (AStore boot_ieee None ∅)) as (s' & E & _ & _).
  - repeat (apply Forall_cons; split; [cbn; try lia; try (intros v Hv; exact Hv)|]). constructor.
  - exact fresh_store_ok.
  - exact fresh_refines.
  - exists s'. exact E.
Defined.

Lemma caldata_roundtrip_witness : exists s', caldata_save 2 fresh_store = Some (0, s') /\
  current_props (st_vna (snd (caldata_recall 2 (Store boot_ieee (st_flash s') 0 [])))) = current_props boot_ieee.
Proof.
  destruct (caldata_roundtrip 2 fresh_store boot_ieee [] ltac:(unfold SAVEAREA_MAX; lia) fresh_store_ok boot_ieee_storable)
    as (s' & E & _ & P & _). exists s'. split; [exact E|exact P].
Defined.

Lemma one_word_corruption_witness :
  image_valid CONFIG_MAGIC (to_le 4 CONFIG_MAGIC ++ [1; 2; 3; 4] ++ to_le 4 (checksum (to_le 4 CONFIG_MAGIC ++ [1; 2; 3; 4]))) = true /\
  image_valid CONFIG_MAGIC (to_le 4 CONFIG_MAGIC ++ [1; 2; 7; 4] ++ to_le 4 (checksum (to_le 4 CONFIG_MAGIC ++ [1; 2; 3; 4]))) = false.
Proof.
  split; [reflexivity|]. eapply (one_word_corruption CONFIG_MAGIC _ [1; 2; 3; 4] [1; 2; 7; 4] _ 1 1);
    [reflexivity|reflexivity|reflexivity|reflexivity|repeat constructor; lia|repeat constructor; lia|discriminate|reflexivity].
Defined.
