(* ===== verification/Backup.v ===== *)
(** * Start-up and the backup registers (main.c)

    Five battery-backed words keep the sweep range, the bandwidth, the slot and
    the display settings over a power cycle; [load_settings] puts the stored
    configuration, the slot and these words together at start-up. *)

From S2P Require Import Prelude Num Synth Types Props Sweep Layout Storage.
From stdpp Require Import gmap.
Local Open Scope Z_scope.

(** ** The packed word [backup_0] *)

Record backup_0 := Backup0 { bk_points : Z; bk_bw : Z; bk_id : Z; bk_leveler : Z; bk_brightness : Z }.

(** Bit fields are allocated from the least significant bit; an assignment keeps
    the low bits of the value. *)
Definition backup_0_v (b : backup_0) : Z :=
  bk_points b mod 2 ^ 9 + 2 ^ 9 * (bk_bw b mod 2 ^ 9) + 2 ^ 18 * (bk_id b mod 2 ^ 4)
  + 2 ^ 22 * (bk_leveler b mod 2 ^ 3) + 2 ^ 25 * (bk_brightness b mod 2 ^ 7).
Definition backup_0_of (v : Z) : backup_0 :=
  Backup0 (v mod 2 ^ 9) (v / 2 ^ 9 mod 2 ^ 9) (v / 2 ^ 18 mod 2 ^ 4) (v / 2 ^ 22 mod 2 ^ 3) (v / 2 ^ 25 mod 2 ^ 7).

Lemma backup_0_fields b : backup_0_of (backup_0_v b) =
  Backup0 (bk_points b mod 2 ^ 9) (bk_bw b mod 2 ^ 9) (bk_id b mod 2 ^ 4) (bk_leveler b mod 2 ^ 3) (bk_brightness b mod 2 ^ 7).
Proof.
  unfold backup_0_of, backup_0_v. destruct b as [p w i l g]. cbn [bk_points bk_bw bk_id bk_leveler bk_brightness].
  pose proof (Z.mod_pos_bound p (2 ^ 9) ltac:(lia)). pose proof (Z.mod_pos_bound w (2 ^ 9) ltac:(lia)).
  pose proof (Z.mod_pos_bound i (2 ^ 4) ltac:(lia)). pose proof (Z.mod_pos_bound l (2 ^ 3) ltac:(lia)).
  pose proof (Z.mod_pos_bound g (2 ^ 7) ltac:(lia)).
  set (p' := p mod _) in *. set (w' := w mod _) in *. set (i' := i mod _) in *. set (l' := l mod _) in *. set (g' := g mod _) in *.
  clearbody p' w' i' l' g'. change (2 ^ 9) with 512 in *. change (2 ^ 18) with 262144. change (2 ^ 22) with 4194304.
  change (2 ^ 25) with 33554432. change (2 ^ 4) with 16 in *. change (2 ^ 3) with 8 in *. change (2 ^ 7) with 128 in *.
  f_equal; lia.
Qed.

Section Backup.
Context {F : Type} `{FloatOps F} `{FloatBits F}.
Implicit Types s : store F.

Definition get_backup_data32 (id : nat) s : Z := nth id (st_backup s) 0.
Definition set_backup_data32 (id : nat) (data : Z) s : store F := set_backup (<[id := data]> (st_backup s)) s.

Definition update_backup_data s : store F :=
  let v := st_vna s in
  let bk := Backup0 (sweep_points v) (_bandwidth (config v)) (lastsaveid v) (_lever_mode (config v)) (_brightness (config v)) in
  let s := set_backup_data32 0 (backup_0_v bk) s in
  let s := set_backup_data32 1 (frequency0 v) s in
  let s := set_backup_data32 2 (frequency1 v) s in
  let s := set_backup_data32 3 (_var_freq (current_props v)) s in
  set_backup_data32 4 (_vna_mode (config v)) s.

(** [load_settings] up to its call of [update_frequencies]. *)
Definition load_stored s : store F :=
  let s := upd_vna (upd_props load_default_properties) s in
  let '(r, s) := config_recall s in
    if (r =? 0) && VNA_MODE VNA_MODE_BACKUP (st_vna s) then
      let bk := backup_0_of (get_backup_data32 0 s) in
      if negb (get_backup_data32 0 s =? 0) then
        let '(ok, s) :=
          if bk_id bk <? SAVEAREA_MAX then
            let '(r, s) := caldata_recall (bk_id bk) s in (r =? 0, s)
          else (false, s) in
        let s :=
          if ok then
            upd_vna (upd_props (fun p =>
              set__var_freq (get_backup_data32 3 s) (set__frequency1 (get_backup_data32 2 s)
                (set__frequency0 (get_backup_data32 1 s) (set__sweep_points (bk_points bk) p))))) s
          else snd (caldata_recall 0 s) in
        let s := upd_vna (upd_config (fun c =>
          set__vna_mode (u16 (Z.lor (get_backup_data32 4 s) (Z.shiftl 1 VNA_MODE_BACKUP)))
            (set__lever_mode (bk_leveler bk) (set__brightness (bk_brightness bk) c)))) s in
        upd_vna (set_bandwidth (bk_bw bk)) s
      else snd (caldata_recall 0 s)
    else snd (caldata_recall 0 s).

(** [plot_set_measure_mode] is not modelled here. *)
Definition load_settings s : store F := upd_vna update_frequencies (load_stored s).

Definition load_properties (id : Z) s : Z * store F :=
  let '(r, s) := caldata_recall id s in (r, upd_vna update_frequencies s).
End Backup.

(** ** What [update_frequencies] leaves alone *)

Section Kept.
Context {F : Type} `{FloatOps F}.
Implicit Types v : vna F.

Definition kept v v' : Prop :=
  config v' = config v /\ lastsaveid v' = lastsaveid v /\ _var_freq (current_props v') = _var_freq (current_props v) /\
  _cal_data (current_props v') = _cal_data (current_props v).

Lemma kept_trans a b c : kept a b -> kept b c -> kept a c.
Proof. unfold kept. intuition congruence. Qed.

Lemma update_frequencies_kept v : kept v (update_frequencies v).
Proof.
  unfold update_frequencies. cbv zeta. set (s1 := set_frequencies _ _ _ v).
  assert (E1 : kept v s1) by done.
  assert (E2 : kept s1 (update_marker_index (get_sweep_frequency ST_START v) (get_sweep_frequency ST_STOP v) (sweep_points s1) s1)).
  { unfold update_marker_index.
    apply (for_range_ind (fun _ s' => kept s1 s')); [unfold MARKERS_MAX; lia|done|].
    intros i s' _ Hs. eapply kept_trans; [exact Hs|]. unfold set_marker_index. by repeat case_match. }
  set (s2 := update_marker_index _ _ _ s1) in *. clearbody s2.
  assert (E3 : kept s2 (update_grid (get_sweep_frequency ST_START v) (get_sweep_frequency ST_STOP v) s2)).
  { unfold update_grid. by destruct (_ =? _). }
  set (s3 := update_grid _ _ s2) in *. clearbody s3.
  eapply kept_trans; [exact (kept_trans _ _ _ E1 (kept_trans _ _ _ E2 E3))|]. by destruct (needInterpolate _ _ _ _).
Qed.
End Kept.

(** ** Restoring after a power cycle *)

Section Restore.
Context {F : Type} `{FloatOps F} `{FloatBits F}.
Implicit Types (s : store F) (v : vna F).

Lemma config_recall_stored s c : stored_config (st_flash s) = Some c -> config_recall s = (0, upd_vna (set_config c) s).
Proof.
  unfold config_recall, stored_config. intros E. destruct (image_valid _ _); [|done]. cbn [negb].
  by apply (inj Some) in E as <-.
Qed.

(** With an empty cache the slot is verified and copied. *)
Lemma caldata_recall_stored id s p : 0 <= id < SAVEAREA_MAX -> checksum_ok s = 0 -> stored_slot (st_flash s) id = Some p ->
  exists k, caldata_recall id s =
    (0, Store (set_current_props p (set_lastsaveid id (set_lastsaveid NO_SAVE_SLOT (st_vna s)))) (st_flash s) k (st_backup s)).
Proof.
  unfold stored_slot. intros Hid Hc E. unfold caldata_recall, get_properties. destruct (image_valid _ _) eqn:Ev; [|done].
  rewrite (proj2 (Z.eqb_neq id NO_SAVE_SLOT)) by (unfold SAVEAREA_MAX, NO_SAVE_SLOT in *; lia).
  rewrite (proj2 (Z.leb_gt SAVEAREA_MAX id)) by lia. cbn [checksum_ok upd_vna]. rewrite slot_flag, Hc, Z.bits_0 by lia.
  cbn [negb]. apply (inj Some) in E as <-. eexists. reflexivity.
Qed.

(** C27: A power cycle restores the session: if the settings were last backed up with
    their calibration slot and the stored configuration enabling the backup,
    then at the next start, with nothing left in memory, [load_settings] brings
    back the sweep range, the number of points, the bandwidth, the slot with its
    calibration data, the step, the brightness and the lever mode. *)
Theorem backup_restores s v' c p :
  let v := st_vna s in
  let off := Store v' (st_flash s) 0 (st_backup (update_backup_data s)) in
  let on := st_vna (load_settings off) in
  length (st_backup s) = 5%nat ->
  0 <= lastsaveid v < SAVEAREA_MAX -> 0 < sweep_points v < 512 -> 0 <= _bandwidth (config v) < 512 ->
  0 <= _lever_mode (config v) < 8 -> 0 <= _brightness (config v) < 128 -> 0 <= _vna_mode (config v) < 2 ^ 16 ->
  stored_config (st_flash s) = Some c -> bit_test (_vna_mode c) (2 ^ VNA_MODE_BACKUP) = true ->
  stored_slot (st_flash s) (lastsaveid v) = Some p ->
  frequency0 on = frequency0 v /\ frequency1 on = frequency1 v /\ sweep_points on = sweep_points v /\
  lastsaveid on = lastsaveid v /\ _var_freq (current_props on) = _var_freq (current_props v) /\
  _bandwidth (config on) = _bandwidth (config v) /\ _lever_mode (config on) = _lever_mode (config v) /\
  _brightness (config on) = _brightness (config v) /\
  _vna_mode (config on) = bit_set (_vna_mode (config v)) (2 ^ VNA_MODE_BACKUP) /\
  _cal_data (current_props on) = _cal_data p.
Proof.
  intros v off on Hl Hid Hp Hb Hlv Hbr Hm Hc Hbk Hs. unfold SAVEAREA_MAX in Hid.
  destruct (st_backup s) as [|b0 [|b1 [|b2 [|b3 [|b4 [|]]]]]] eqn:Eb; try discriminate. clear Hl.
  assert (EB : st_backup off = [backup_0_v (Backup0 (sweep_points v) (_bandwidth (config v)) (lastsaveid v) (_lever_mode (config v)) (_brightness (config v)));
    frequency0 v; frequency1 v; _var_freq (current_props v); _vna_mode (config v)]).
  { unfold off, update_backup_data, set_backup_data32. cbn [st_backup set_backup]. by rewrite Eb. }
  set (word := backup_0_v _) in EB.
  assert (Hw : backup_0_of word = Backup0 (sweep_points v) (_bandwidth (config v)) (lastsaveid v) (_lever_mode (config v)) (_brightness (config v))).
  { unfold word. rewrite backup_0_fields. cbn [bk_points bk_bw bk_id bk_leveler bk_brightness]. rewrite !Z.mod_small by lia. done. }
  assert (Hw0 : word <> 0).
  { intros E. rewrite E in Hw. apply (f_equal bk_points) in Hw. cbn in Hw. lia. }
  set (s1 := upd_vna (set_config c) (upd_vna (upd_props load_default_properties) off)).
  destruct (caldata_recall_stored (lastsaveid v) s1 p) as [k Hk]; [done|done|exact Hs|].
  assert (Ew : get_backup_data32 0 s1 = word) by (unfold get_backup_data32, s1; cbn [st_backup upd_vna]; by rewrite EB).
  set (v3 := st_vna (load_stored off)).
  assert (E3 : v3 = st_vna (load_stored off)) by done.
  unfold load_stored in E3. rewrite (config_recall_stored (upd_vna (upd_props load_default_properties) off) c Hc) in E3. fold s1 in E3.
  change (VNA_MODE VNA_MODE_BACKUP (st_vna s1)) with (bit_test (_vna_mode c) (2 ^ VNA_MODE_BACKUP)) in E3.
  rewrite Hbk, Ew, (proj2 (Z.eqb_neq word 0) Hw0), Hw in E3. cbn [Z.eqb andb negb bk_id bk_points bk_leveler bk_brightness bk_bw] in E3.
  rewrite (proj2 (Z.ltb_lt (lastsaveid v) SAVEAREA_MAX)) in E3 by (unfold SAVEAREA_MAX; lia). rewrite Hk in E3. cbn [Z.eqb] in E3.
  unfold get_backup_data32 in E3. cbn [st_backup upd_vna] in E3. unfold s1 in E3. cbn [st_backup upd_vna] in E3. rewrite EB in E3.
  cbn [nth] in E3. pose proof (update_frequencies_kept v3) as (K1 & K2 & K3 & K4).
  pose proof (update_frequencies_range v3) as (R1 & R2 & R3 & _).
  change (update_frequencies v3) with on in *. clearbody v3. rewrite K1, K2, K3, K4, R1, R2, R3. subst v3.
  cbn. repeat (split; [done|]). rewrite Z.shiftl_1_l.
  split; [rewrite (land_mask _ 9) by lia; by rewrite Z.mod_small by lia|]. repeat (split; [done|]). split; [|done].
  apply u16_small, (lor_range _ _ 16); [lia|done|unfold VNA_MODE_BACKUP; lia].
Qed.
End Restore.

(** ** A session on slot 2 *)

Definition session : vna SpecFloat.spec_float :=
  upd_config (set__vna_mode (2 ^ VNA_MODE_BACKUP)) (set_lastsaveid 2 (upd_props (set__frequency0 1000000) boot_ieee)).

Lemma session_storable : storable session.
Proof.
  destruct boot_ieee_storable as [Hc Hp]. split.
  - with_strategy transparent [l_config] unfold l_config in *. revert Hc. cbn [l_iso l_ok l_pair fst snd].
    intros (? & ? & ? & _ & Hc). do 3 (split; [assumption|]). split; [in_range|exact Hc].
  - with_strategy transparent [l_properties] unfold l_properties in *. revert Hp. cbn [l_iso l_ok l_pair fst snd].
    intros [_ Hp]. split; [in_range|exact Hp].
Qed.

Lemma backup_restores_witness : exists f : flash,
  let s := Store session f 0 (repeat 0 5) in
  let on := st_vna (load_settings (Store boot_ieee f 0 (st_backup (update_backup_data s)))) in
  frequency0 on = 1000000 /\ lastsaveid on = 2.
Proof.
  destruct session_storable as [Hc Hp].
  assert (Ok : flash_ok ∅) by exact (so_flash _ fresh_store_ok).
  destruct (config_save_flash ∅ (config session) Hc Ok) as (f1 & _ & C1 & Ok1 & _).
  destruct (caldata_save_flash f1 2 (current_props session) ltac:(unfold SAVEAREA_MAX; lia) Hp Ok1) as (f2 & _ & C2 & _ & S2).
  exists f2. intros s on.
  destruct (backup_restores s boot_ieee (config session) (current_props session)) as (E0 & _ & _ & E1 & _);
    [reflexivity|in_range|in_range|in_range|in_range|in_range|in_range| |reflexivity| |].
  - exact (eq_trans C2 C1).
  - exact (S2 2 ltac:(unfold SAVEAREA_MAX; lia)).
  - split; [exact E0|exact E1].
Defined.
