(* ===== verification/Measure.v ===== *)
(** * The sweep (main.c): measuring every point, collecting standards

    A sweep tunes the generator to each point, measures the two channels through
    the sampling interrupt, corrects the readings and stores them.  What happens
    outside is an argument: for each channel and point the clock and the DMA
    interrupts until the wait ends, and whether an operation is requested when
    the sweep looks. *)

From S2P Require Import Prelude Num Bus Codec Synth Cplx VnaMath Dsp Types Props Sweep Calib.

(** ** Masks *)

Definition SWEEP_CH0_MEASURE : Z := 1.
Definition SWEEP_CH1_MEASURE : Z := 2.
Definition SWEEP_APPLY_EDELAY_S11 : Z := 4.
Definition SWEEP_APPLY_EDELAY_S21 : Z := 8.
Definition SWEEP_APPLY_S21_OFFSET : Z := 16.
Definition SWEEP_APPLY_CALIBRATION : Z := 32.
Definition SWEEP_USE_INTERPOLATION : Z := 64.

Section Measure.
Context {F : Type} `{FloatOps F} `{FloatBits F}.

(** The instrument with its sampling interrupt. *)
Record bench := Bench { b_vna : vna F; b_sampler : sampler }.
Definition on_vna (g : vna F -> vna F) (b : bench) : bench := Bench (g (b_vna b)) (b_sampler b).

(** The channels each measure mode needs (the [option] column of [measure], plot.c). *)
Definition MESAURE_NONE : Z := 0.
Definition MESAURE_S11 : Z := 1.
Definition MESAURE_S21 : Z := 2.
Definition measure_option : list Z :=
  [ MESAURE_NONE; MESAURE_NONE; MESAURE_S21; MESAURE_S21; MESAURE_S21; MESAURE_S21;
    MESAURE_S11; MESAURE_S11; MESAURE_S11; MESAURE_S11; MESAURE_S21 ].
Definition MEASURE_END : Z := 11.
Definition plot_get_measure_channels (s : vna F) : Z := nth (Z.to_nat (_measure (current_props s))) measure_option 0.

Definition get_sweep_mask (s : vna F) : Z :=
  let ch_mask := Z.lor SWEEP_CH0_MEASURE SWEEP_CH1_MEASURE in
  let ch_mask := Z.lor ch_mask (plot_get_measure_channels s) in
  let ch_mask := if bit_test (cal_status s) CALSTAT_APPLY then bit_set ch_mask SWEEP_APPLY_CALIBRATION else ch_mask in
  let ch_mask := if bit_test (cal_status s) CALSTAT_INTERPOLATED then bit_set ch_mask SWEEP_USE_INTERPOLATION else ch_mask in
  let '(d0, d1) := _electrical_delay (current_props s) in
  let ch_mask := if fneqb d0 f0 then bit_set ch_mask SWEEP_APPLY_EDELAY_S11 else ch_mask in
  let ch_mask := if fneqb d1 f0 then bit_set ch_mask SWEEP_APPLY_EDELAY_S21 else ch_mask in
  if fneqb (_s21_offset (current_props s)) f0 then bit_set ch_mask SWEEP_APPLY_S21_OFFSET else ch_mask.

Local Open Scope float_scope.

Definition applyEDelay (w : F) (data : F * F) : F * F :=
  let '(s, c) := vna_sincosf w in
  let real := fst data in
  let imag := snd data in
  (real * c - imag * s, imag * c + real * s).

Definition applyOffset (data : F * F) (offset : F) : F * F := (fst data * offset, snd data * offset).

(** [logf(10.0f)] *)
Definition LN10 : F := f_lit 230258509299405 (-14).
Definition s21_gain (s : vna F) : F := vna_expf (_s21_offset (current_props s) * (LN10 / f_of_Z 20)).

Local Close Scope float_scope.

Definition put_measured (ch : nat) (p : Z) (v : F * F) : vna F -> vna F :=
  fun s => set_measured (alter (fun row => <[Z.to_nat p := v]> row) ch (measured s)) s.

(** ** One measurement *)

Variable sincos_tbl : list Z.
(** What the uninitialised array [data] of [sweep] happens to hold. *)
Variable stack : F * F.

(** [env ch p]: the clock when channel [ch] of point [p] is started, and the
    interrupts that follow. *)
Definition surroundings : Type := Z -> Z -> Z * list irq.

(** Select the channel, start, wait, take the ratio.  [None]: the interrupts end
    before the wait does. *)
Definition measure (env : surroundings) (ch p delay : Z) (b : bench) : option ((F * F) * bench) :=
  let s := b_vna b in
  let s := set_gen (emit (tlv320aic3204_select ch) (gen s)) s in
  let bandwidth := _bandwidth (config s) in
  let '(now, qs) := env ch p in
  let sm := run_irqs sincos_tbl bandwidth qs (DSP_START now delay bandwidth (b_sampler b)) in
  if wait_count sm =? 0 then Some (calculate_gamma (acc sm), Bench s sm) else None.

(** The local variables of [sweep] that live across points. *)
Record locals := Locals { l_st_delay : Z; l_data0 : F * F; l_data1 : F * F; l_cdata : list (F * F) }.

(** ** One point *)

Definition sweep_ch0 (env : surroundings) (mask p frequency idx delay : Z) (b : bench) (l : locals)
  : option (Z * bench * locals) :=
  if bit_test mask SWEEP_CH0_MEASURE then
    '(g, b) ← measure env 0 p (delay + l_st_delay l) b;
    if bit_test mask SWEEP_APPLY_CALIBRATION then
      c ← cal_interpolate idx frequency (b_vna b);
      Some (DELAY_CHANNEL_CHANGE, b, Locals (l_st_delay l) (apply_CH0_error_term g c) (l_data1 l) c)
    else Some (DELAY_CHANNEL_CHANGE, b, Locals (l_st_delay l) g (l_data1 l) (l_cdata l))
  else Some (delay, b, l).

Definition sweep_ch1 (env : surroundings) (mask p frequency idx delay : Z) (b : bench) (l : locals)
  : option (bench * locals) :=
  if bit_test mask SWEEP_CH1_MEASURE then
    '(g, b) ← measure env 1 p (delay + l_st_delay l) b;
    c ← (if bit_test mask SWEEP_APPLY_CALIBRATION && negb (bit_test mask SWEEP_CH0_MEASURE)
         then cal_interpolate idx frequency (b_vna b) else Some (l_cdata l));
    let d := (fneg (fst g), fneg (snd g)) in
    let d := if bit_test mask SWEEP_APPLY_CALIBRATION then apply_CH1_error_term (l_data0 l) d c (b_vna b) else d in
    Some (b, Locals (l_st_delay l) (l_data0 l) d c)
  else Some (b, l).

Definition store_point (mask p frequency : Z) (offset : F) (b : bench) (l : locals) : bench * locals :=
  if negb (p <? SWEEP_POINTS_MAX) then (b, l) else
  let '(e0, e1) := _electrical_delay (current_props (b_vna b)) in
  let '(b, l) :=
    if bit_test mask SWEEP_CH0_MEASURE then
      let d := if bit_test mask SWEEP_APPLY_EDELAY_S11 then applyEDelay (fmul e0 (f_of_Z frequency)) (l_data0 l) else l_data0 l in
      (on_vna (put_measured 0 p d) b, Locals (l_st_delay l) d (l_data1 l) (l_cdata l))
    else (b, l) in
  if bit_test mask SWEEP_CH1_MEASURE then
    let d := if bit_test mask SWEEP_APPLY_EDELAY_S21 then applyEDelay (fmul e1 (f_of_Z frequency)) (l_data1 l) else l_data1 l in
    let d := if bit_test mask SWEEP_APPLY_S21_OFFSET then applyOffset d offset else d in
    (on_vna (put_measured 1 p d) b, Locals (l_st_delay l) (l_data0 l) d (l_cdata l))
  else (b, l).

Definition sweep_point (env : surroundings) (mask : Z) (offset : F) (b : bench) (l : locals) : option (bench * locals) :=
  let p := p_sweep (b_vna b) in
  let frequency := getFrequency p (b_vna b) in
  '(b, delay) ← (if bit_test mask (Z.lor SWEEP_CH0_MEASURE SWEEP_CH1_MEASURE)
                 then option_map (fun x => (Bench (fst x) (b_sampler b), snd x)) (set_frequency frequency (b_vna b))
                 else Some (b, 0));
  let idx := if bit_test mask SWEEP_USE_INTERPOLATION then -1 else p in
  '(delay, b, l) ← sweep_ch0 env mask p frequency idx delay b l;
  '(b, l) ← sweep_ch1 env mask p frequency idx delay b l;
  Some (store_point mask p frequency offset b l).

(** ** The loop

    [requested p] is [operation_requested] after point [p].  The progress bar is
    not modelled. *)
Fixpoint sweep_loop (fuel : nat) (env : surroundings) (requested : Z -> bool) (break_on_operation : bool) (mask : Z)
  (offset : F) (b : bench) (l : locals) : option bench :=
  match fuel with
  | O => None
  | S fuel =>
      if p_sweep (b_vna b) <? sweep_points (b_vna b) then
        '(b, l) ← sweep_point env mask offset b l;
        if requested (p_sweep (b_vna b)) && break_on_operation then Some b
        else
          sweep_loop fuel env requested break_on_operation mask offset
            (on_vna (fun s => set_p_sweep (u16 (p_sweep s + 1)) s) b)
            (Locals 0 (l_data0 l) (l_data1 l) (l_cdata l))
      else Some b
  end.

Definition sweep (env : surroundings) (requested : Z -> bool) (break_on_operation : bool) (mask : Z) (b : bench)
  : option (bool * bench) :=
  let b := if (sweep_points (b_vna b) <=? p_sweep (b_vna b)) || negb break_on_operation then on_vna RESET_SWEEP b else b in
  if break_on_operation && (mask =? 0) then Some (false, b) else
  let l := Locals DELAY_SWEEP_START stack stack [] in
  let fuel := S (Z.to_nat (sweep_points (b_vna b) - p_sweep (b_vna b))) in
  b ← sweep_loop fuel env requested break_on_operation mask (s21_gain (b_vna b)) b l;
  Some (p_sweep (b_vna b) =? sweep_points (b_vna b), b).

(** ** Collecting a standard *)

(** [calibration_set]: flag to set, flags to clear, destination row, channel. *)
Definition calibration_set : list (Z * Z * nat * nat) :=
  [ (CALSTAT_LOAD, CALSTAT_APPLY, CAL_LOAD, 0%nat);
    (CALSTAT_OPEN, Z.lor (Z.lor CALSTAT_ES CALSTAT_ER) CALSTAT_APPLY, CAL_OPEN, 0%nat);
    (CALSTAT_SHORT, Z.lor (Z.lor CALSTAT_ES CALSTAT_ER) CALSTAT_APPLY, CAL_SHORT, 0%nat);
    (CALSTAT_THRU, Z.lor CALSTAT_ET CALSTAT_APPLY, CAL_THRU, 1%nat);
    (CALSTAT_ISOLN, CALSTAT_APPLY, CAL_ISOLN, 1%nat) ].

(** The old calibration is dropped when it was made for another range. *)
Definition cal_collect_begin (set_flag clr_flag : Z) (s : vna F) : vna F :=
  let s :=
    if needInterpolate (frequency0 s) (frequency1 s) (sweep_points s) s then
      upd_props (fun p => set__cal_sweep_points (_sweep_points p) (set__cal_frequency1 (_frequency1 p)
        (set__cal_frequency0 (_frequency0 p) (set__cal_status 0 p)))) s
    else s in
  let s := upd_props (fun p => set__cal_power (_power p) p) s in
  upd_props (fun p => set__cal_status (bit_set (bit_clr (_cal_status p) clr_flag) set_flag) p) s.

(** The averaging loops run [count - 1 = 0] times. *)
Definition cal_collect (env : surroundings) (requested : Z -> bool) (type : nat) (b : bench) : option bench :=
  match calibration_set !! type with
  | None => Some b
  | Some (set_flag, clr_flag, dst, src) =>
      let b := on_vna (cal_collect_begin set_flag clr_flag) b in
      let bw := u8 (_bandwidth (config (b_vna b))) in
      let b := if bw <? BANDWIDTH_100 then on_vna (upd_config (set__bandwidth BANDWIDTH_100)) b else b in
      let mask := if (src =? 0)%nat then SWEEP_CH0_MEASURE else SWEEP_CH1_MEASURE in
      '(_, b) ← sweep env requested false mask b;
      Some (on_vna (fun s =>
        let s := upd_props (fun p => set__cal_data (<[dst := nth src (measured s) []]> (_cal_data p)) p) s in
        request_to_redraw REDRAW_CAL_STATUS (upd_config (set__bandwidth bw) s)) b)
  end.
End Measure.

(** ** The generator through a sweep *)

Section Tuning.
Context {F : Type} `{FloatOps F}.
Implicit Types s : vna F.

(** The generator is set up for clock chip [m], at a drive the band table
    collision does not meet. *)
Definition ready (m : Z) s : Prop := good m (load_gen s) /\ 0 < _power (current_props s) < 256.

Lemma regs_codec ops g : Forall (fun o => match o with I2cWrite a _ => a = AIC3204_ADDR | SleepUs _ => True end) ops ->
  regs (emit ops g) = regs g.
Proof.
  intros Ho. unfold regs, emit. cbn [bus put_bus]. rewrite si_regs_app. generalize (si_regs (bus g)). intros r.
  revert r. induction Ho as [|o ops Ho _ IH]; intros r; cbn [fold_left]; [done|]. rewrite IH.
  destruct o as [a buf|us]; cbn [si_apply]; [subst a; reflexivity|done].
Qed.

Lemma good_regs m g g' : regs g' = regs g -> same_cfg g g' -> clk_cache g' = clk_cache g -> good m g -> good m g'.
Proof.
  intros Er (E1 & E2 & E3 & E4 & E5 & E6 & E7) Ec (T & (C & D & O) & B & P).
  split; [by apply (tuned_tables m g)|]. split; [|by rewrite E1, E2, E4].
  unfold synth_inv, cache_ok, dividers_ok, outputs_ok, band_at in *. rewrite Er, E1, E3, E4, E5, E6, Ec. auto.
Qed.

Lemma ready_select m ch s : ready m s -> ready m (set_gen (emit (tlv320aic3204_select ch) (gen s)) s).
Proof.
  intros [G P]. split; [|exact P]. eapply (good_regs m (load_gen s)); [| | |exact G]; [|by repeat split|done].
  change (load_gen (set_gen (emit (tlv320aic3204_select ch) (gen s)) s)) with (emit (tlv320aic3204_select ch) (load_gen s)).
  apply regs_codec. by repeat constructor.
Qed.

Lemma set_frequency_delay f d g g' dl : si5351_set_frequency f d g = Some (g', dl) -> 0 <= dl <= 200.
Proof.
  unfold si5351_set_frequency. destruct (f =? 0); [intros [= <- <-]; lia|].
  destruct (select_band f d g) as [[[b r] d']|]; [|done]. unfold set_frequency_in_band. cbv zeta.
  destruct (f =? _); [intros [= <- <-]; by vm_compute|]. unfold program_mode, band_end.
  destruct (bs_mode _); destruct (negb _); intros [= <- <-]; by vm_compute.
Qed.

(** Tuning succeeds and changes the generator only. *)
Lemma set_frequency_ready m f s : ready m s -> lowest_freq m <= f <= FREQUENCY_MAX ->
  exists g dl, set_frequency f s = Some (set_gen g s, dl) /\ 0 <= dl <= 200 /\ ready m (set_gen g s).
Proof.
  intros [G P] Hf. destruct (set_frequency_good m (load_gen s) f (_power (current_props s)) G Hf ltac:(lia) ltac:(left; lia))
    as (g & dl & E & G' & (T1 & T2 & T3 & T4) & _). cbn in T2, T3, T4.
  assert (Es : store_gen g s = set_gen g s).
  { unfold store_gen. rewrite T2, T3. destruct s as [[] ?]. reflexivity. }
  exists g, dl. unfold set_frequency. rewrite E, Es. split; [done|].
  split; [by apply (set_frequency_delay _ _ _ _ _ E)|]. split; [|exact P].
  assert (Eg : load_gen (set_gen g s) = g).
  { unfold load_gen. cbn. destruct g. cbn in *. congruence. }
  by rewrite Eg.
Qed.
End Tuning.

(** ** What one point stores *)

Section PointSpec.
Context {F : Type} `{FloatOps F} `{FloatBits F}.
Variable sincos_tbl : list Z.
Variable stack : F * F.
Variable env : surroundings.
Variable mask : Z.
Implicit Types (s : vna F) (b : bench (F := F)).

(** The surroundings deliver reading [g] for channel [ch] at point [p], for every
    delay the sweep may ask for and whatever the accumulators held. *)
Definition yields (bandwidth ch p : Z) (g : F * F) : Prop :=
  forall delay sm, 0 <= delay <= 400 ->
    let sm' := run_irqs sincos_tbl bandwidth (snd (env ch p)) (DSP_START (fst (env ch p)) delay bandwidth sm) in
    wait_count sm' = 0 /\ calculate_gamma (acc sm') = g.

Definition corrected0 (c : list (F * F)) (g : F * F) : F * F :=
  if bit_test mask SWEEP_CH0_MEASURE then
    (if bit_test mask SWEEP_APPLY_CALIBRATION then apply_CH0_error_term g c else g)
  else stack.
Definition corrected1 s (c : list (F * F)) (d0 g : F * F) : F * F :=
  let d := (fneg (fst g), fneg (snd g)) in
  if bit_test mask SWEEP_APPLY_CALIBRATION then apply_CH1_error_term d0 d c s else d.
Definition delayed0 s (p : Z) (d : F * F) : F * F :=
  if bit_test mask SWEEP_APPLY_EDELAY_S11
  then applyEDelay (fmul (fst (_electrical_delay (current_props s))) (f_of_Z (getFrequency p s))) d else d.
Definition delayed1 s (p : Z) (d : F * F) : F * F :=
  let d := if bit_test mask SWEEP_APPLY_EDELAY_S21
           then applyEDelay (fmul (snd (_electrical_delay (current_props s))) (f_of_Z (getFrequency p s))) d else d in
  if bit_test mask SWEEP_APPLY_S21_OFFSET then applyOffset d (s21_gain s) else d.

(** The stored values of a point, from its two readings and its terms. *)
Definition value0 s (c : list (F * F)) (p : Z) (g0 : F * F) : F * F := delayed0 s p (corrected0 c g0).
Definition value1 s (c : list (F * F)) (p : Z) (g0 g1 : F * F) : F * F := delayed1 s p (corrected1 s c (corrected0 c g0) g1).

Definition store_values s (c : list (F * F)) (p : Z) (g0 g1 : F * F) (v : vna F) : vna F :=
  let v := if bit_test mask SWEEP_CH0_MEASURE then put_measured 0 p (value0 s c p g0) v else v in
  if bit_test mask SWEEP_CH1_MEASURE then put_measured 1 p (value1 s c p g0 g1) v else v.

Definition cal_terms s (p : Z) : option (list (F * F)) :=
  if bit_test mask SWEEP_APPLY_CALIBRATION
  then cal_interpolate (if bit_test mask SWEEP_USE_INTERPOLATION then -1 else p) (getFrequency p s) s else Some [].

(** The state during a sweep that began in [s]. *)
Definition during s (v : vna F) : Prop :=
  exists g ms p, v = set_p_sweep p (set_measured ms (set_gen g s)).

Lemma cal_interpolate_during s v idx f : during s v -> band_s (gen v) = band_s (gen s) ->
  cal_interpolate idx f v = cal_interpolate idx f s.
Proof.
  intros (g & ms & p & ->) Eb. cbn in Eb. unfold cal_interpolate, cal_locate, load_gen, si5351_get_harmonic_lvl. cbn.
  rewrite Eb. reflexivity.
Qed.

Lemma during_gen s v g : during s v -> during s (set_gen g v).
Proof. intros (g' & ms & p & ->). by exists g, ms, p. Qed.

Lemma measure_yields s b ch p delay g : during s (b_vna b) -> 0 <= delay <= 400 ->
  yields (_bandwidth (config s)) ch p g ->
  exists sm, measure sincos_tbl env ch p delay b =
    Some (g, Bench (set_gen (emit (tlv320aic3204_select ch) (gen (b_vna b))) (b_vna b)) sm).
Proof.
  intros (g' & ms & q & E) Hd Hy. unfold measure. rewrite E. cbn [config set_gen set_measured set_p_sweep].
  destruct (Hy delay (b_sampler b) Hd) as [Hw Hg]. destruct (env ch p) as [now qs]. cbn [fst snd] in *.
  rewrite Hw, Hg. eexists. reflexivity.
Qed.

Lemma ready_band m s : ready m s -> band_tables !! Z.to_nat m = Some (band_s (gen s)).
Proof. intros [(T & _) _]. exact (tn_table _ _ T). Qed.

Lemma cal_interpolate_ready m s v idx f : during s v -> ready m s -> ready m v ->
  cal_interpolate idx f v = cal_interpolate idx f s.
Proof.
  intros D Rs Rv. apply cal_interpolate_during; [done|]. apply ready_band in Rs, Rv. congruence.
Qed.

Definition point_hyps m s b (l : locals (F := F)) (p : Z) (c : list (F * F)) (g0 g1 : F * F) : Prop :=
  during s (b_vna b) /\ ready m s /\ ready m (b_vna b) /\ 0 <= l_st_delay l <= 200 /\
  cal_terms s p = Some c /\
  (bit_test mask SWEEP_CH0_MEASURE = true -> yields (_bandwidth (config s)) 0 p g0) /\
  (bit_test mask SWEEP_CH1_MEASURE = true -> yields (_bandwidth (config s)) 1 p g1) /\
  (bit_test mask SWEEP_CH0_MEASURE = false -> l_data0 l = stack).

Definition ch0_idx (p : Z) : Z := if bit_test mask SWEEP_USE_INTERPOLATION then -1 else p.

Lemma sweep_ch0_spec m s b l p c g0 g1 delay : point_hyps m s b l p c g0 g1 -> 0 <= delay <= 200 ->
  exists g sm dl l', sweep_ch0 sincos_tbl env mask p (getFrequency p s) (ch0_idx p) delay b l =
    Some (dl, Bench (set_gen g (b_vna b)) sm, l') /\
    l_data0 l' = corrected0 c g0 /\ point_hyps m s (Bench (set_gen g (b_vna b)) sm) l' p c g0 g1 /\ 0 <= dl <= 200 /\
    (bit_test mask SWEEP_CH0_MEASURE = true -> bit_test mask SWEEP_APPLY_CALIBRATION = true -> l_cdata l' = c).
Proof.
  intros Hp Hd. pose proof Hp as (D & R0 & R & Hst & Hc & Y0 & Y1 & St). unfold sweep_ch0, corrected0.
  destruct (bit_test mask SWEEP_CH0_MEASURE) eqn:E0.
  - destruct (measure_yields s b 0 p (delay + l_st_delay l) g0 D ltac:(lia) (Y0 eq_refl)) as [sm ->]. cbn [mbind option_bind].
    set (g := emit _ _). pose proof (ready_select m 0 (b_vna b) R) as R'. fold g in R'.
    assert (D' : during s (set_gen g (b_vna b))) by (by apply during_gen).
    assert (Hdc : 0 <= DELAY_CHANNEL_CHANGE <= 200) by (by vm_compute).
    unfold cal_terms in Hc. destruct (bit_test mask SWEEP_APPLY_CALIBRATION) eqn:Ea.
    + cbn [b_vna]. rewrite (cal_interpolate_ready m s) by done. fold (ch0_idx p) in Hc. rewrite Hc. cbn [mbind option_bind].
      eexists g, sm, _, _. split; [reflexivity|]. repeat (split; [done|]). cbn. split; [|done].
      unfold point_hyps. rewrite E0. unfold cal_terms. rewrite Ea. fold (ch0_idx p). by repeat (split; [done|]).
    + eexists g, sm, _, _. split; [reflexivity|]. repeat (split; [done|]). split; [|done].
      unfold point_hyps. rewrite E0. unfold cal_terms. rewrite Ea. by repeat (split; [done|]).
  - exists (gen (b_vna b)), (b_sampler b), delay, l.
    assert (Eb : Bench (set_gen (gen (b_vna b)) (b_vna b)) (b_sampler b) = b) by (destruct b as [[] ?]; reflexivity).
    rewrite Eb. split; [done|]. split; [by apply St|]. by split.
Qed.

Lemma sweep_ch1_spec m s b l p c g0 g1 delay : point_hyps m s b l p c g0 g1 -> 0 <= delay <= 200 ->
  l_data0 l = corrected0 c g0 ->
  (bit_test mask SWEEP_CH0_MEASURE = true -> bit_test mask SWEEP_APPLY_CALIBRATION = true -> l_cdata l = c) ->
  exists g sm l', sweep_ch1 sincos_tbl env mask p (getFrequency p s) (ch0_idx p) delay b l =
    Some (Bench (set_gen g (b_vna b)) sm, l') /\ ready m (set_gen g (b_vna b)) /\
    l_data0 l' = corrected0 c g0 /\
    (bit_test mask SWEEP_CH1_MEASURE = true -> l_data1 l' = corrected1 s c (corrected0 c g0) g1).
Proof.
  intros Hp Hd E0 Ec. pose proof Hp as (D & R0 & R & Hst & Hc & Y0 & Y1 & St). unfold sweep_ch1, corrected1.
  destruct (bit_test mask SWEEP_CH1_MEASURE) eqn:E1.
  - destruct (measure_yields s b 1 p (delay + l_st_delay l) g1 D ltac:(lia) (Y1 eq_refl)) as [sm ->]. cbn [mbind option_bind].
    set (g := emit _ _). pose proof (ready_select m 1 (b_vna b) R) as R'. fold g in R'.
    assert (D' : during s (set_gen g (b_vna b))) by (by apply during_gen).
    assert (Ecal : (if bit_test mask SWEEP_APPLY_CALIBRATION && negb (bit_test mask SWEEP_CH0_MEASURE)
       then cal_interpolate (ch0_idx p) (getFrequency p s) (b_vna (Bench (set_gen g (b_vna b)) sm)) else Some (l_cdata l)) =
       Some (if bit_test mask SWEEP_APPLY_CALIBRATION then c else l_cdata l)).
    { unfold cal_terms in Hc. destruct (bit_test mask SWEEP_APPLY_CALIBRATION); cbn [andb]; [|done].
      destruct (bit_test mask SWEEP_CH0_MEASURE) eqn:Ez; cbn [negb]; [by rewrite Ec|].
      cbn [b_vna]. by rewrite (cal_interpolate_ready m s). }
    rewrite Ecal. cbn [mbind option_bind]. eexists g, sm, _. split; [reflexivity|]. split; [done|]. split; [exact E0|].
    intros _. cbn [l_data1]. rewrite E0. destruct (bit_test mask SWEEP_APPLY_CALIBRATION); [|done].
    unfold apply_CH1_error_term, cal_status. destruct D as (g' & ms & q & E). cbn [b_vna]. rewrite E. reflexivity.
  - exists (gen (b_vna b)), (b_sampler b), l.
    assert (Eb : Bench (set_gen (gen (b_vna b)) (b_vna b)) (b_sampler b) = b) by (destruct b as [[] ?]; reflexivity).
    rewrite Eb. split; [done|]. split; [|done]. by destruct b as [[] ?].
Qed.

(** One point of the sweep: tune, measure, correct, store. *)
Lemma sweep_point_spec m s b l p c g0 g1 :
  point_hyps m s b l p c g0 g1 -> p_sweep (b_vna b) = p -> 0 <= p < SWEEP_POINTS_MAX ->
  bit_test mask (Z.lor SWEEP_CH0_MEASURE SWEEP_CH1_MEASURE) = true ->
  lowest_freq m <= getFrequency p s <= FREQUENCY_MAX ->
  exists g sm l', sweep_point sincos_tbl env mask (s21_gain s) b l =
    Some (Bench (store_values s c p g0 g1 (set_gen g (b_vna b))) sm, l') /\
    ready m (set_gen g (b_vna b)) /\ (bit_test mask SWEEP_CH0_MEASURE = false -> l_data0 l' = stack).
Proof.
  intros Hp Ep Hpm Hm Hf. pose proof Hp as (D & R0 & R & Hst & Hc & Y0 & Y1 & St).
  unfold sweep_point. rewrite Ep, Hm. assert (Ef : getFrequency p (b_vna b) = getFrequency p s).
  { destruct D as (g' & ms & q & ->). reflexivity. }
  rewrite Ef. destruct (set_frequency_ready m _ _ R Hf) as (g & dl & -> & Hdl & R1). cbn [option_map fst snd mbind option_bind].
  assert (Hp1 : point_hyps m s (Bench (set_gen g (b_vna b)) (b_sampler b)) l p c g0 g1)
    by (repeat (split; [first [done | by apply during_gen]|]); done).
  fold (ch0_idx p).
  destruct (sweep_ch0_spec m s _ l p c g0 g1 dl Hp1 Hdl) as (g2 & sm2 & dl2 & l2 & -> & L2 & Hp2 & Hdl2 & C2).
  cbn [mbind option_bind]. pose proof Hp2 as (_ & _ & _ & _ & _ & _ & _ & St2).
  destruct (sweep_ch1_spec m s _ l2 p c g0 g1 dl2 Hp2 Hdl2 L2 C2) as (g3 & sm3 & l3 & -> & R3 & L3 & M3).
  cbn [mbind option_bind]. cbn [b_vna] in R3 |- *. change (set_gen g3 (set_gen g2 (set_gen g (b_vna b)))) with (set_gen g3 (b_vna b)) in *.
  set (st := store_point mask p (getFrequency p s) (s21_gain s) (Bench (set_gen g3 (b_vna b)) sm3) l3).
  exists g3, sm3, (snd st). split; [|split; [exact R3|]].
  - rewrite (surjective_pairing st) at 1. do 2 f_equal. unfold st, store_point. rewrite (proj2 (Z.ltb_lt p _)) by lia. cbn [negb b_vna]. rewrite L3.
    unfold store_values, value0, value1, delayed0, delayed1. destruct D as (g' & ms & q & E). rewrite E.
    change (_electrical_delay (current_props (set_gen g3 (set_p_sweep q (set_measured ms (set_gen g' s))))))
      with (_electrical_delay (current_props s)).
    destruct (_electrical_delay (current_props s)) as [e0 e1]. cbn [fst snd].
    destruct (bit_test mask SWEEP_CH0_MEASURE) eqn:B0; destruct (bit_test mask SWEEP_CH1_MEASURE) eqn:B1;
      cbn [on_vna b_vna b_sampler l_data1]; rewrite ?M3 by done; reflexivity.
  - intros B0. specialize (St2 B0). revert L3. unfold corrected0. rewrite B0. intros L3.
    unfold st, store_point. destruct (negb _); cbn [snd]; [done|]. destruct (_electrical_delay _) as [e0 e1]. rewrite B0.
    by destruct (bit_test mask SWEEP_CH1_MEASURE).
Qed.
End PointSpec.

(** ** The whole loop *)

Section LoopSpec.
Context {F : Type} `{FloatOps F} `{FloatBits F}.
Variable sincos_tbl : list Z.
Variable stack : F * F.
Variable env : surroundings.
Variable mask : Z.
Variable m : Z.
Variable s : vna F.
(** The readings of the two channels and the terms, point by point. *)
Variable G0 G1 : Z -> F * F.
Variable C : Z -> list (F * F).

Record sweep_hyps : Prop := {
  sh_points : 0 <= sweep_points s <= SWEEP_POINTS_MAX;
  sh_ready : ready m s;
  sh_mask : bit_test mask (Z.lor SWEEP_CH0_MEASURE SWEEP_CH1_MEASURE) = true;
  sh_freq : forall p, 0 <= p < sweep_points s -> lowest_freq m <= getFrequency p s <= FREQUENCY_MAX;
  sh_terms : forall p, 0 <= p < sweep_points s -> cal_terms mask s p = Some (C p);
  sh_read0 : bit_test mask SWEEP_CH0_MEASURE = true ->
    forall p, 0 <= p < sweep_points s -> yields sincos_tbl env (_bandwidth (config s)) 0 p (G0 p);
  sh_read1 : bit_test mask SWEEP_CH1_MEASURE = true ->
    forall p, 0 <= p < sweep_points s -> yields sincos_tbl env (_bandwidth (config s)) 1 p (G1 p) }.

Definition store_row (ms : list (list (F * F))) (p : Z) : list (list (F * F)) :=
  let ms := if bit_test mask SWEEP_CH0_MEASURE
            then alter (fun row => <[Z.to_nat p := value0 stack mask s (C p) p (G0 p)]> row) 0%nat ms else ms in
  if bit_test mask SWEEP_CH1_MEASURE
  then alter (fun row => <[Z.to_nat p := value1 stack mask s (C p) p (G0 p) (G1 p)]> row) 1%nat ms else ms.
(** Points [lo .. hi - 1] stored in [ms]. *)
Definition stored_rows (lo hi : Z) (ms : list (list (F * F))) : list (list (F * F)) :=
  for_range lo hi (fun p ms => store_row ms p) ms.

(** The state of a sweep that stands at point [p]. *)
Definition sweeping (g : synth) (ms : list (list (F * F))) (p : Z) : vna F := set_p_sweep p (set_measured ms (set_gen g s)).

Lemma sweep_loop_spec (Hs : sweep_hyps) fuel requested brk : forall g ms p sm l,
  ready m (sweeping g ms p) -> 0 <= p <= sweep_points s -> sweep_points s - p < Z.of_nat fuel ->
  0 <= l_st_delay l <= 200 -> (bit_test mask SWEEP_CH0_MEASURE = false -> l_data0 l = stack) ->
  exists g' sm' q, p <= q <= sweep_points s /\
    (forall i, p <= i < q -> requested i && brk = false) /\ (q < sweep_points s -> requested q && brk = true) /\
    sweep_loop sincos_tbl fuel env requested brk mask (s21_gain s) (Bench (sweeping g ms p) sm) l =
      Some (Bench (sweeping g' (stored_rows p (Z.min (sweep_points s) (q + 1)) ms) q) sm') /\
    ready m (sweeping g' (stored_rows p (Z.min (sweep_points s) (q + 1)) ms) q).
Proof.
  destruct Hs as [Hn R0 Hm Hf Ht Y0 Y1]. unfold SWEEP_POINTS_MAX in Hn.
  induction fuel as [|fuel IH]; intros g ms p sm l R Hp Hfuel Hst St; [lia|]. cbn [sweep_loop].
  change (p_sweep (b_vna (Bench (sweeping g ms p) sm))) with p.
  change (sweep_points (b_vna (Bench (sweeping g ms p) sm))) with (sweep_points s).
  destruct (Z.ltb_spec p (sweep_points s)) as [Hlt|Hge].
  2: { exists g, sm, p. split; [lia|]. split; [lia|]. split; [lia|]. unfold stored_rows. rewrite for_range_empty by lia. by split. }
  assert (PH : point_hyps sincos_tbl stack env mask m s (Bench (sweeping g ms p) sm) l p (C p) (G0 p) (G1 p)).
  { split; [by exists g, ms, p|]. repeat (split; [first [done | by apply Ht; lia]|]).
    split; [intros E; apply Y0; [done|lia]|]. split; [intros E; apply Y1; [done|lia]|done]. }
  destruct (sweep_point_spec _ _ _ _ _ _ _ l p (C p) (G0 p) (G1 p) PH eq_refl) as (g1 & sm1 & l1 & -> & R1 & St1);
    [unfold SWEEP_POINTS_MAX; lia|done|apply Hf; lia|].
  cbn [mbind option_bind].
  assert (Es : store_values stack mask s (C p) p (G0 p) (G1 p) (set_gen g1 (b_vna (Bench (sweeping g ms p) sm)))
               = sweeping g1 (store_row ms p) p).
  { unfold store_values, store_row, put_measured. destruct (bit_test mask SWEEP_CH0_MEASURE), (bit_test mask SWEEP_CH1_MEASURE); reflexivity. }
  rewrite Es. change (p_sweep (b_vna (Bench (sweeping g1 (store_row ms p) p) sm1))) with p.
  assert (Erow : stored_rows p (p + 1) ms = store_row ms p).
  { unfold stored_rows. rewrite for_range_step by lia. by rewrite for_range_empty by lia. }
  destruct (requested p && brk) eqn:Ereq.
  - exists g1, sm1, p. split; [lia|]. split; [lia|]. split; [done|]. rewrite Z.min_r by lia. rewrite Erow. split; [done|]. exact R1.
  - assert (En : on_vna (fun s => set_p_sweep (u16 (p_sweep s + 1)) s) (Bench (sweeping g1 (store_row ms p) p) sm1)
                 = Bench (sweeping g1 (store_row ms p) (p + 1)) sm1).
    { unfold on_vna. cbn [b_vna b_sampler]. change (p_sweep (sweeping g1 (store_row ms p) p)) with p. by rewrite u16_small by lia. }
    rewrite En. clear En.
    destruct (IH g1 (store_row ms p) (p + 1) sm1 (Locals 0 (l_data0 l1) (l_data1 l1) (l_cdata l1)))
      as (g' & sm' & q & Hq & Hno & Hyes & E & R'); [exact R1|lia|lia|cbn; lia|done|].
    assert (Erows : stored_rows p (Z.min (sweep_points s) (q + 1)) ms =
                    stored_rows (p + 1) (Z.min (sweep_points s) (q + 1)) (store_row ms p)).
    { unfold stored_rows. by rewrite for_range_step by lia. }
    exists g', sm', q. rewrite Erows. split; [lia|]. split; [|done]. intros i Hi. destruct (Z.eq_dec i p) as [->|]; [done|]. apply Hno. lia.
Qed.
End LoopSpec.

(** ** Reading the arrays back *)

Section Rows.
Context {F : Type} `{FloatOps F}.

Definition wf_rows (ms : list (list (F * F))) : Prop :=
  length ms = 2%nat /\ Forall (fun row => length row = Z.to_nat SWEEP_POINTS_MAX) ms.
Definition reading (ms : list (list (F * F))) (ch : nat) (i : Z) : F * F := nth (Z.to_nat i) (nth ch ms []) (f0, f0).

Lemma put_row_wf ch p v ms : wf_rows ms -> wf_rows (alter (fun row => <[Z.to_nat p := v]> row) ch ms).
Proof.
  intros [Hl Hr]. split; [by rewrite length_alter|]. apply Forall_alter; [done|]. intros row _ Hrow. by rewrite length_insert.
Qed.

Lemma put_row_reading ch p v ms ch' i : wf_rows ms -> (ch < 2)%nat -> 0 <= p < SWEEP_POINTS_MAX -> 0 <= i ->
  reading (alter (fun row => <[Z.to_nat p := v]> row) ch ms) ch' i =
  if decide (ch = ch' /\ p = i) then v else reading ms ch' i.
Proof.
  intros [Hl Hr] Hch Hp Hi. unfold reading. rewrite !(nth_lookup _ ch'), list_lookup_alter.
  destruct (lookup_lt_is_Some_2 ms ch ltac:(lia)) as [row Hrow]. pose proof (Forall_lookup_1 _ _ _ _ Hr Hrow) as Hlen.
  destruct (decide (ch = ch')) as [<-|Hne].
  - rewrite Hrow. cbn [fmap option_fmap option_map from_option id].
    rewrite !nth_lookup. destruct (decide (p = i)) as [<-|Hpi].
    + rewrite list_lookup_insert_eq by (cbn in Hlen; lia). by rewrite decide_True by done.
    + rewrite list_lookup_insert_ne by lia. rewrite decide_False by tauto. done.
  - rewrite decide_False by tauto. done.
Qed.
End Rows.

Section SweepTheorem.
Context {F : Type} `{FloatOps F} `{FloatBits F}.
Variable sincos_tbl : list Z.
Variable stack : F * F.

Lemma stored_rows_spec mask (s : vna F) G0 G1 C lo hi ms : wf_rows ms -> 0 <= lo -> hi <= SWEEP_POINTS_MAX -> lo <= hi ->
  let ms' := stored_rows stack mask s G0 G1 C lo hi ms in
  wf_rows ms' /\ forall i, 0 <= i ->
  reading ms' 0 i = (if bit_test mask SWEEP_CH0_MEASURE && ((lo <=? i) && (i <? hi)) then value0 stack mask s (C i) i (G0 i) else reading ms 0 i) /\
  reading ms' 1 i = (if bit_test mask SWEEP_CH1_MEASURE && ((lo <=? i) && (i <? hi)) then value1 stack mask s (C i) i (G0 i) (G1 i) else reading ms 1 i).
Proof.
  intros W Hlo Hhi Hle. unfold stored_rows.
  apply (for_range_ind (fun n ms' => wf_rows ms' /\ forall i, 0 <= i ->
    reading ms' 0 i = (if bit_test mask SWEEP_CH0_MEASURE && ((lo <=? i) && (i <? n)) then value0 stack mask s (C i) i (G0 i) else reading ms 0 i) /\
    reading ms' 1 i = (if bit_test mask SWEEP_CH1_MEASURE && ((lo <=? i) && (i <? n)) then value1 stack mask s (C i) i (G0 i) (G1 i) else reading ms 1 i))); [done| |].
  - split; [done|]. intros i Hi. replace ((lo <=? i) && (i <? lo)) with false by (repeat zcase; cbn; lia). by rewrite !andb_false_r.
  - intros p ms' Hp [W' E]. unfold store_row.
    set (b0 := bit_test mask SWEEP_CH0_MEASURE) in *. set (b1 := bit_test mask SWEEP_CH1_MEASURE) in *.
    set (m0 := if b0 then _ else ms').
    assert (W0 : wf_rows m0) by (unfold m0; destruct b0; [by apply put_row_wf|done]).
    split; [destruct b1; [by apply put_row_wf|done]|]. intros i Hi. destruct (E i Hi) as [E0 E1].
    assert (R0 : reading m0 0 i = if b0 && ((lo <=? i) && (i <? p + 1)) then value0 stack mask s (C i) i (G0 i) else reading ms 0 i).
    { unfold m0. destruct b0; cbn [andb] in *; [|done]. rewrite put_row_reading by (done || lia). rewrite E0.
      destruct (decide (0%nat = 0%nat /\ p = i)) as [[_ <-]|Hn]; repeat zcase; cbn; try done; lia. }
    assert (R1 : reading m0 1 i = reading ms' 1 i).
    { unfold m0. destruct b0; [|done]. rewrite put_row_reading by (done || lia). by rewrite decide_False by lia. }
    split.
    + destruct b1; [|done]. rewrite put_row_reading by (done || lia). by rewrite decide_False by lia.
    + destruct b1; cbn [andb] in *; [|by rewrite R1]. rewrite put_row_reading by (done || lia). rewrite R1, E1.
      destruct (decide (1%nat = 1%nat /\ p = i)) as [[_ <-]|Hn]; repeat zcase; cbn; try done; lia.
Qed.

(** Where a sweep starts. *)
Definition sweep_start (brk : bool) (s : vna F) : Z :=
  if (sweep_points s <=? p_sweep s) || negb brk then 0 else p_sweep s.

Lemma sweep_run env requested brk mask m (s : vna F) G0 G1 C sm :
  sweep_hyps sincos_tbl env mask m s G0 G1 C -> wf_rows (measured s) -> 0 <= p_sweep s ->
  let p := sweep_start brk s in
  exists q b, p <= q <= sweep_points s /\
    (forall i, p <= i < q -> requested i && brk = false) /\ (q < sweep_points s -> requested q && brk = true) /\
    sweep sincos_tbl stack env requested brk mask (Bench s sm) = Some (q =? sweep_points s, b) /\
    p_sweep (b_vna b) = q /\ config (b_vna b) = config s /\ current_props (b_vna b) = current_props s /\
    during s (b_vna b) /\ ready m (b_vna b) /\ wf_rows (measured (b_vna b)) /\
    forall i, 0 <= i < sweep_points s ->
      let now := (p <=? i) && (i <? q + 1) in
      reading (measured (b_vna b)) 0 i =
        (if bit_test mask SWEEP_CH0_MEASURE && now then value0 stack mask s (C i) i (G0 i) else reading (measured s) 0 i) /\
      reading (measured (b_vna b)) 1 i =
        (if bit_test mask SWEEP_CH1_MEASURE && now then value1 stack mask s (C i) i (G0 i) (G1 i) else reading (measured s) 1 i).
Proof.
  intros Hs W Hps p. pose proof Hs as [Hn R Hm _ _ _ _].
  assert (Hp : 0 <= p <= sweep_points s).
  { unfold p, sweep_start. destruct (Z.leb_spec (sweep_points s) (p_sweep s)); cbn [orb]; [lia|]. destruct brk; cbn [negb]; lia. }
  assert (Hmask : mask <> 0) by (intros ->; discriminate).
  unfold sweep. cbn [b_vna]. fold (sweep_start brk s).
  assert (Eb : (if (sweep_points s <=? p_sweep s) || negb brk then on_vna RESET_SWEEP (Bench s sm) else Bench s sm)
               = Bench (sweeping s (gen s) (measured s) p) sm).
  { unfold p, sweep_start, on_vna, RESET_SWEEP. destruct (_ || _); cbn [b_vna b_sampler]; destruct s; reflexivity. }
  rewrite Eb, (proj2 (Z.eqb_neq mask 0) Hmask), andb_false_r. cbn [b_vna].
  change (sweep_points (sweeping s (gen s) (measured s) p)) with (sweep_points s).
  change (p_sweep (sweeping s (gen s) (measured s) p)) with p. change (s21_gain (sweeping s (gen s) (measured s) p)) with (s21_gain s).
  assert (R' : ready m (sweeping s (gen s) (measured s) p)) by (destruct s; exact R).
  destruct (sweep_loop_spec sincos_tbl stack env mask m s G0 G1 C Hs (S (Z.to_nat (sweep_points s - p))) requested brk
    (gen s) (measured s) p sm (Locals DELAY_SWEEP_START stack stack []) R' Hp) as (g' & sm' & q & Hq & Hno & Hyes & E & R2);
    [lia|by vm_compute|done|].
  rewrite E. cbn [mbind option_bind]. set (ms' := stored_rows _ _ _ _ _ _ _ _ _) in *.
  exists q, (Bench (sweeping s g' ms' q) sm'). split; [lia|]. do 2 (split; [done|]). split; [reflexivity|].
  do 3 (split; [reflexivity|]). split; [by exists g', ms', q|]. split; [exact R2|].
  destruct (stored_rows_spec mask s G0 G1 C p (Z.min (sweep_points s) (q + 1)) (measured s) W) as [W' Hr]; [lia|lia|lia|].
  split; [exact W'|]. intros i Hi. destruct (Hr i ltac:(lia)) as [E0 E1]. cbv zeta. change (measured (b_vna _)) with ms'.
  fold ms' in E0, E1. rewrite E0, E1. replace (i <? Z.min (sweep_points s) (q + 1)) with (i <? q + 1) by (repeat zcase; lia). done.
Qed.

(** C2: A sweep terminates and does what it is for.  When the generator is set up,
    the interrupts keep coming and the terms are found at every point, [sweep]
    ends at the first point (from where the last call stopped, or from 0) after
    which a requested operation is honoured, or after the last point, and only
    then reports completion; the points passed hold their two readings
    corrected, delayed and offset, every other stored value, the settings and
    the configuration are untouched. *)
Theorem sweep_measures env requested brk mask m (s : vna F) G0 G1 C sm :
  sweep_hyps sincos_tbl env mask m s G0 G1 C -> wf_rows (measured s) -> 0 <= p_sweep s ->
  let p := sweep_start brk s in
  exists q b, p <= q <= sweep_points s /\
    (forall i, p <= i < q -> requested i && brk = false) /\ (q < sweep_points s -> requested q && brk = true) /\
    sweep sincos_tbl stack env requested brk mask (Bench s sm) = Some (q =? sweep_points s, b) /\
    p_sweep (b_vna b) = q /\ config (b_vna b) = config s /\ current_props (b_vna b) = current_props s /\
    during s (b_vna b) /\ ready m (b_vna b) /\ wf_rows (measured (b_vna b)) /\
    forall i, 0 <= i < sweep_points s ->
      let now := (p <=? i) && (i <? q + 1) in
      reading (measured (b_vna b)) 0 i =
        (if bit_test mask SWEEP_CH0_MEASURE && now then value0 stack mask s (C i) i (G0 i) else reading (measured s) 0 i) /\
      reading (measured (b_vna b)) 1 i =
        (if bit_test mask SWEEP_CH1_MEASURE && now then value1 stack mask s (C i) i (G0 i) (G1 i) else reading (measured s) 1 i).
Proof. intros Hs W Hps. exact (sweep_run env requested brk mask m s G0 G1 C sm Hs W Hps). Qed.
End SweepTheorem.

(** ** Readings from the interrupts *)

(** When the interrupts that follow a start all come after the longest delay and
    are enough for the bandwidth, the measurement ends with the ratio of the
    correlation sums of the buffers after the first. *)
Lemma yields_of_interrupts {F} `{FloatOps F} tbl (env : surroundings) bw ch p now qs :
  env ch p = (now, qs) -> samples tbl -> 0 <= bw < 512 -> Forall (fun q => samples (rx_buffer q)) qs ->
  Forall (fun q => forall delay, 0 <= delay <= 400 -> live (u32 (now + delay)) q = true) qs ->
  bw + 2 <= Z.of_nat (length qs) ->
  yields tbl env bw ch p (calculate_gamma (F := F) (half_sums tbl (take (Z.to_nat (bw + 1)) (drop 1 qs)))).
Proof.
  intros E Ht Hbw Hq Hl Hn delay sm Hd. rewrite E. cbn [fst snd].
  destruct (window_sums tbl bw now delay sm qs Ht Hbw Hq) as [_ W]. cbv zeta in W.
  assert (Ef : List.filter (live (u32 (now + delay))) qs = qs).
  { clear -Hl Hd. induction Hl as [|q qs Hq _ IH]; [done|]. cbn [List.filter]. rewrite (Hq delay Hd). by f_equal. }
  rewrite Ef in W. destruct (W Hn) as [W0 W1]. by rewrite W0, W1.
Qed.

(** ** Collecting one standard *)

Section Collect.
Context {F : Type} `{FloatOps F} `{FloatBits F}.
Variable sincos_tbl : list Z.
Variable stack : F * F.
Variable m : Z.
Implicit Types s : vna F.

(** A range set up for measuring. *)
Record measurable s : Prop := {
  me_points : 0 < sweep_points s <= SWEEP_POINTS_MAX;
  me_ready : ready m s;
  me_freq : forall p, 0 <= p < sweep_points s -> lowest_freq m <= getFrequency p s <= FREQUENCY_MAX;
  me_rows : wf_rows (measured s);
  me_cal : wf_cal s;
  me_start : 0 <= p_sweep s }.

(** The bandwidth standards are measured with. *)
Definition cal_bandwidth (bw : Z) : Z := if u8 bw <? BANDWIDTH_100 then BANDWIDTH_100 else bw.

Definition status_before s : Z :=
  if needInterpolate (frequency0 s) (frequency1 s) (sweep_points s) s then 0 else cal_status s.

(** What the end of a collection keeps of the settings. *)
Definition same_range_cal s s' : Prop :=
  sweep_points s' = sweep_points s /\ frequency0 s' = frequency0 s /\ frequency1 s' = frequency1 s /\
  (forall i, getFrequency i s' = getFrequency i s) /\ config s' = set__bandwidth (u8 (_bandwidth (config s))) (config s) /\
  _electrical_delay (current_props s') = _electrical_delay (current_props s) /\
  _s21_offset (current_props s') = _s21_offset (current_props s).

Lemma single_channel_mask (src : nat) : (src < 2)%nat ->
  let mask := if (src =? 0)%nat then SWEEP_CH0_MEASURE else SWEEP_CH1_MEASURE in
  bit_test mask (Z.lor SWEEP_CH0_MEASURE SWEEP_CH1_MEASURE) = true /\ bit_test mask SWEEP_APPLY_CALIBRATION = false /\
  bit_test mask SWEEP_APPLY_EDELAY_S11 = false /\ bit_test mask SWEEP_APPLY_EDELAY_S21 = false /\
  bit_test mask SWEEP_APPLY_S21_OFFSET = false /\
  bit_test mask SWEEP_CH0_MEASURE = (src =? 0)%nat /\ bit_test mask SWEEP_CH1_MEASURE = negb (src =? 0)%nat.
Proof. intros Hs. assert (src = 0 \/ src = 1)%nat as [-> | ->] by lia; repeat split. Qed.

Lemma cal_collect_spec env requested type set_flag clr_flag dst src s sm (G : Z -> F * F) :
  calibration_set !! type = Some (set_flag, clr_flag, dst, src) -> measurable s ->
  (forall p, 0 <= p < sweep_points s -> yields sincos_tbl env (cal_bandwidth (_bandwidth (config s))) (Z.of_nat src) p (G p)) ->
  exists b, cal_collect sincos_tbl stack env requested type (Bench s sm) = Some b /\ let s' := b_vna b in
    measurable s' /\ same_range_cal s s' /\
    needInterpolate (frequency0 s') (frequency1 s') (sweep_points s') s' = false /\
    cal_status s' = bit_set (bit_clr (status_before s) clr_flag) set_flag /\
    forall i, 0 <= i < sweep_points s ->
      cal_point i s' = <[dst := if (src =? 0)%nat then G i else (fneg (fst (G i)), fneg (snd (G i)))]> (cal_point i s).
Proof.
  intros Ht [Hn R Hf W Wc Hps] Hy. unfold cal_collect. rewrite Ht.
  assert (Hsrc : (src < 2)%nat /\ (dst < 5)%nat).
  { do 5 (destruct type as [|type]; [injection Ht as <- <- <- <-; unfold CAL_LOAD, CAL_OPEN, CAL_SHORT, CAL_THRU, CAL_ISOLN; lia|]). done. }
  destruct (single_channel_mask src (proj1 Hsrc)) as (M & Ma & M1 & M2 & M3 & M4 & M5).
  set (mask := if (src =? 0)%nat then _ else _) in *. set (s1 := cal_collect_begin set_flag clr_flag s).
  set (s2 := if u8 (_bandwidth (config s)) <? BANDWIDTH_100 then upd_config (set__bandwidth BANDWIDTH_100) s1 else s1).
  assert (C1 : config s1 = config s) by (unfold s1, cal_collect_begin; by destruct (needInterpolate _ _ _ _)).
  assert (E2 : (if u8 (_bandwidth (config (b_vna (on_vna (cal_collect_begin set_flag clr_flag) (Bench s sm))))) <? BANDWIDTH_100
                then on_vna (upd_config (set__bandwidth BANDWIDTH_100)) (on_vna (cal_collect_begin set_flag clr_flag) (Bench s sm))
                else on_vna (cal_collect_begin set_flag clr_flag) (Bench s sm)) = Bench s2 sm).
  { unfold s2, on_vna. cbn [b_vna b_sampler]. fold s1. rewrite C1. by destruct (_ <? _). }
  rewrite E2. cbn [b_vna on_vna]. fold s1. rewrite C1. clear E2.
  assert (Eq2 : sweep_points s2 = sweep_points s /\ frequency0 s2 = frequency0 s /\ frequency1 s2 = frequency1 s /\
    (forall i, getFrequency i s2 = getFrequency i s) /\ _bandwidth (config s2) = cal_bandwidth (_bandwidth (config s)) /\
    measured s2 = measured s /\ p_sweep s2 = p_sweep s /\
    (_electrical_delay (current_props s2) = _electrical_delay (current_props s) /\ _s21_offset (current_props s2) = _s21_offset (current_props s)) /\ _cal_data (current_props s2) = _cal_data (current_props s) /\
    set__bandwidth (u8 (_bandwidth (config s))) (config s2) = set__bandwidth (u8 (_bandwidth (config s))) (config s) /\
    needInterpolate (frequency0 s2) (frequency1 s2) (sweep_points s2) s2 = false /\
    cal_status s2 = bit_set (bit_clr (status_before s) clr_flag) set_flag).
  { unfold s2, cal_bandwidth, status_before. unfold s1, cal_collect_begin.
    destruct (needInterpolate _ _ _ s) eqn:En; destruct (u8 _ <? _); repeat split; try exact En;
      unfold needInterpolate; cbn; by rewrite !Z.eqb_refl. }
  destruct Eq2 as (P2 & F02 & F12 & Fr2 & B2 & Ms2 & Ps2 & Dl2 & Cd2 & Cf2 & N2 & St2).
  assert (R2 : ready m s2).
  { clear -R. unfold s2, s1, cal_collect_begin. destruct (needInterpolate _ _ _ _), (u8 _ <? _); exact R. }
  assert (Hs : sweep_hyps sincos_tbl env mask m s2 G G (fun _ => [])).
  { split; try done.
    - rewrite P2. lia.
    - rewrite P2. intros p Hp. rewrite Fr2. by apply Hf.
    - intros p Hp. unfold cal_terms. by rewrite Ma.
    - rewrite P2, B2, M4. intros E p Hp. apply Nat.eqb_eq in E. specialize (Hy p Hp). by rewrite E in Hy.
    - rewrite P2, B2, M5. intros E p Hp. apply negb_true_iff, Nat.eqb_neq in E. specialize (Hy p Hp).
      by replace (Z.of_nat src) with 1 in Hy by lia. }
  rewrite <- Ms2 in W. rewrite <- Ps2 in Hps.
  destruct (sweep_run sincos_tbl stack env requested false mask m s2 G G (fun _ => []) sm Hs W Hps)
    as (q & b & Hq & _ & Hstop & -> & Eps & Ec & Ep & D & R3 & W3 & Hr).
  cbn [mbind option_bind].
  assert (Sw0 : sweep_start false s2 = 0) by (unfold sweep_start; by rewrite orb_true_r).
  assert (Hqe : q = sweep_points s).
  { rewrite P2 in *. destruct (Z.lt_ge_cases q (sweep_points s)) as [Hlt|]; [|lia].
    specialize (Hstop Hlt). by rewrite andb_false_r in Hstop. }
  set (s3 := b_vna b) in *.
  eexists. split; [reflexivity|]. unfold on_vna. cbn [b_vna]. fold s3.
  set (s4 := request_to_redraw _ _).
  assert (Pf : current_props s4 = set__cal_data (<[dst:=nth src (measured s3) []]> (_cal_data (current_props s2))) (current_props s2))
    by (unfold s4; rewrite <- Ep; reflexivity).
  assert (Fr4 : forall i, getFrequency i s4 = getFrequency i s).
  { intros i. rewrite <- Fr2. destruct D as (g & ms & p & E). unfold s4. rewrite E. reflexivity. }
  assert (E4 : sweep_points s4 = sweep_points s /\ frequency0 s4 = frequency0 s /\ frequency1 s4 = frequency1 s /\
    config s4 = set__bandwidth (u8 (_bandwidth (config s))) (config s) /\
    needInterpolate (frequency0 s4) (frequency1 s4) (sweep_points s4) s4 = false /\ cal_status s4 = cal_status s2).
  { unfold sweep_points, frequency0, frequency1, needInterpolate, cal_status in *. rewrite Pf. cbn. repeat (split; [assumption|]).
    split; [|by split]. rewrite <- Cf2, <- Ec. reflexivity. }
  destruct E4 as (P4 & F04 & F14 & Cf4 & N4 & St4).
  split; [|split; [unfold same_range_cal; rewrite Pf; destruct Dl2; by repeat (split; [assumption|])|split; [exact N4|split; [by rewrite St4|]]]].
  - split; rewrite ?P4; try done.
    + intros p Hp. rewrite Fr4. by apply Hf.
    + unfold wf_cal in *. rewrite Pf. cbn [_cal_data set__cal_data]. rewrite Cd2, length_insert. destruct Wc as [L Wc]. split; [done|].
      apply Forall_insert; [done|]. destruct W3 as [Lm W3]. rewrite Forall_forall in W3. apply W3.
      apply list_elem_of_In, nth_In. lia.
    + change (p_sweep s4) with (p_sweep s3). lia.
  - intros i Hi. unfold cal_point. rewrite Pf. cbn [_cal_data set__cal_data]. rewrite Cd2, list_fmap_insert. f_equal.
    rewrite P2 in Hr. specialize (Hr i Hi). rewrite Sw0, Hqe in Hr. cbv zeta in Hr.
    replace ((0 <=? i) && (i <? sweep_points s + 1)) with true in Hr by (repeat zcase; cbn; lia).
    unfold value0, value1, delayed0, delayed1, corrected0, corrected1 in Hr. rewrite Ma, M1, M2, M3, M4, M5 in Hr.
    unfold reading in Hr. assert (src = 0 \/ src = 1)%nat as [-> | ->] by lia; tauto.
Qed.
End Collect.

(** ** One standard *)

Section Standard.
Context {F : Type} `{FloatOps F} `{FloatBits F}.
Implicit Types s : vna F.

(** C26: Collecting one standard measures its channel at every point and stores the
    readings (negated on the transmission channel) in its row, leaving the other
    rows; its flag is set and the flags of the terms it outdates are cleared; a
    calibration of another range is dropped first.  The range and every
    configuration field are kept but one: the bandwidth setting, held in an 8-bit
    variable meanwhile, comes back reduced modulo 256. *)
Theorem cal_collect_effect (tbl : list Z) (stack : F * F) m env requested type set_flag clr_flag dst src s sm (G : Z -> F * F) :
  calibration_set !! type = Some (set_flag, clr_flag, dst, src) -> measurable m s -> 0 <= _bandwidth (config s) < 512 ->
  (forall p, 0 <= p < sweep_points s -> yields tbl env (cal_bandwidth (_bandwidth (config s))) (Z.of_nat src) p (G p)) ->
  exists b, cal_collect tbl stack env requested type (Bench s sm) = Some b /\ let s' := b_vna b in
    measurable m s' /\ sweep_points s' = sweep_points s /\ frequency0 s' = frequency0 s /\ frequency1 s' = frequency1 s /\
    config s' = set__bandwidth (_bandwidth (config s')) (config s) /\
    _bandwidth (config s') = (if _bandwidth (config s) <? 256 then _bandwidth (config s) else _bandwidth (config s) - 256) /\
    cal_status s' = bit_set (bit_clr (status_before s) clr_flag) set_flag /\
    forall i, 0 <= i < sweep_points s ->
      cal_point i s' = <[dst := if (src =? 0)%nat then G i else (fneg (fst (G i)), fneg (snd (G i)))]> (cal_point i s).
Proof.
  intros Ht M Hb Hy. destruct (cal_collect_spec tbl stack m env requested type set_flag clr_flag dst src s sm G Ht M Hy)
    as (b & E & M' & (R1 & R2 & R3 & _ & R5 & _) & _ & St & Cp).
  exists b. split; [done|]. cbv zeta. repeat (split; [done|]). rewrite R5. split; [done|]. cbn [_bandwidth set__bandwidth].
  split; [|by split]. unfold u8. repeat zcase; lia.
Qed.
End Standard.
