(* ===== verification/Calibrate.v ===== *)
(** * Calibrating and measuring: the composition (main.c)

    [calibrate] runs [cal_collect] for a list of standards and then [cal_done],
    as the CAL menu and the [cal] command do; the theorem carries the readings of
    the standards through the stored rows, the error terms, the mask of the next
    sweep and the correction to the values that sweep stores. *)

From S2P Require Import Prelude Num Bus Codec Synth Cplx VnaMath Dsp Types Props Sweep Calib Measure.

(** ** A list of standards *)

Section Collecting.
Context {F : Type} `{FloatOps F} `{FloatBits F}.
Variable sincos_tbl : list Z.
Variable stack : F * F.
Implicit Types s : vna F.

(** Each standard is collected in surroundings of its own. *)
Fixpoint collect_seq (steps : list (nat * surroundings)) (requested : Z -> bool) (b : bench (F := F)) : option bench :=
  match steps with
  | [] => Some b
  | (type, env) :: steps => b ← cal_collect sincos_tbl stack env requested type b; collect_seq steps requested b
  end.
Definition calibrate (steps : list (nat * surroundings)) (requested : Z -> bool) (b : bench (F := F)) : option bench :=
  option_map (on_vna cal_done) (collect_seq steps requested b).

Definition channel_of (type : nat) : nat := if (type <? 3)%nat then 0%nat else 1%nat.
Definition flag_of (type : nat) : Z := nth type [CALSTAT_LOAD; CALSTAT_OPEN; CALSTAT_SHORT; CALSTAT_THRU; CALSTAT_ISOLN] 0.

Variable m : Z.
(** The reading of standard [type] at point [i]. *)
Variable G : nat -> Z -> F * F.

Definition cal_value (type : nat) (i : Z) : F * F :=
  if (channel_of type =? 0)%nat then G type i else (fneg (fst (G type i)), fneg (snd (G type i))).

Definition step_reads s (step : nat * surroundings) : Prop :=
  (fst step < 5)%nat /\
  forall p, 0 <= p < sweep_points s ->
    yields sincos_tbl (snd step) (cal_bandwidth (_bandwidth (config s))) (Z.of_nat (channel_of (fst step))) p (G (fst step) p).

(** The set and cleared flags of a standard, and what they leave. *)
Lemma calibration_set_flags type : (type < 5)%nat ->
  exists clr, calibration_set !! type = Some (flag_of type, clr, type, channel_of type) /\
  forall st, let st' := bit_set (bit_clr st clr) (flag_of type) in
    bit_test st' CALSTAT_ENHANCED_RESPONSE = bit_test st CALSTAT_ENHANCED_RESPONSE /\
    bit_test st' CALSTAT_INTERPOLATED = bit_test st CALSTAT_INTERPOLATED /\
    forall t, (t < 5)%nat -> bit_test st' (flag_of t) = Nat.eqb t type || bit_test st (flag_of t).
Proof.
  intros Ht. do 5 (destruct type as [|type]; [
    eexists; split; [reflexivity|]; intros st; cbv zeta; cbn [flag_of nth];
    repeat split; [exact (bit_test_update _ _ _ 10 ltac:(lia)) | exact (bit_test_update _ _ _ 9 ltac:(lia)) | intros t Hl;
      do 5 (destruct t as [|t]; [
        first [exact (bit_test_update _ _ _ 0 ltac:(lia)) | exact (bit_test_update _ _ _ 1 ltac:(lia)) | exact (bit_test_update _ _ _ 2 ltac:(lia))
              | exact (bit_test_update _ _ _ 3 ltac:(lia)) | exact (bit_test_update _ _ _ 4 ltac:(lia))] |]); lia] |]).
  lia.
Qed.

(** The interpolation flag is up to date ([update_frequencies] leaves it so). *)
Definition range_consistent s : Prop :=
  bit_test (cal_status s) CALSTAT_INTERPOLATED = needInterpolate (frequency0 s) (frequency1 s) (sweep_points s) s.

(** What has happened between [s] and [s'] when the standards [done] were collected. *)
Record progress (done : list nat) s s' : Prop := {
  pr_measurable : measurable m s';
  pr_range : same_range_cal s s';
  pr_need : done <> [] -> needInterpolate (frequency0 s') (frequency1 s') (sweep_points s') s' = false;
  pr_enhanced : bit_test (status_before s') CALSTAT_ENHANCED_RESPONSE = bit_test (status_before s) CALSTAT_ENHANCED_RESPONSE;
  pr_direct : bit_test (status_before s') CALSTAT_INTERPOLATED = false;
  pr_flags : forall t, In t done -> (t < 5)%nat /\ bit_test (status_before s') (flag_of t) = true;
  pr_rows : forall t i, In t done -> 0 <= i < sweep_points s -> cal_point i s' !! t = Some (cal_value t i) }.

Lemma same_range_cal_refl s : 0 <= _bandwidth (config s) < 256 -> same_range_cal s s.
Proof.
  intros Hb. repeat (split; [done|]). split; [|done]. rewrite u8_small by lia. by destruct (config s).
Qed.

Lemma same_range_cal_trans s1 s2 s3 : same_range_cal s1 s2 -> same_range_cal s2 s3 -> same_range_cal s1 s3.
Proof.
  intros (A1 & A2 & A3 & A4 & A5 & A6 & A7) (B1 & B2 & B3 & B4 & B5 & B6 & B7). unfold same_range_cal.
  rewrite B1, B2, B3, B5, B6, B7. repeat (split; [done|]). split; [intros i; by rewrite B4|]. split; [|done].
  rewrite A5. cbn [_bandwidth set__bandwidth]. rewrite (u8_small (u8 _)) by (unfold u8; lia). by destruct (config s1).
Qed.

Lemma progress_nil s : measurable m s -> range_consistent s -> 0 <= _bandwidth (config s) < 256 -> progress [] s s.
Proof.
  intros M R Hb. split; try done; [by apply same_range_cal_refl|].
  unfold status_before, range_consistent in *. destruct (needInterpolate _ _ _ _); [done|exact R].
Qed.

Lemma progress_step done s s' sm env requested type : progress done s s' -> 0 <= _bandwidth (config s) < 256 ->
  step_reads s (type, env) ->
  exists b, cal_collect sincos_tbl stack env requested type (Bench s' sm) = Some b /\ progress (type :: done) s (b_vna b).
Proof.
  intros [M R _ E D Fl Rw] Hb [Ht Hy]. cbn [fst snd] in Ht, Hy.
  destruct (calibration_set_flags type Ht) as (clr & Hset & Hst).
  pose proof R as (R1 & R2 & R3 & R4 & R5 & R6).
  assert (Hbw : _bandwidth (config s') = _bandwidth (config s)) by (rewrite R5; cbn; by rewrite u8_small by lia).
  destruct (cal_collect_spec sincos_tbl stack m env requested type _ _ _ _ s' sm (G type) Hset M) as (b & -> & M' & R' & N' & St' & C').
  { rewrite R1, Hbw. exact Hy. }
  exists b. split; [done|]. destruct (Hst (status_before s')) as (H1 & H2 & H3). rewrite <- St' in H1, H2, H3.
  assert (Sb : status_before (b_vna b) = cal_status (b_vna b)) by (unfold status_before; by rewrite N').
  split; rewrite ?Sb; try done; [by eapply same_range_cal_trans|congruence|congruence| |].
  - intros t [<-|Hin]; [split; [done|]; by rewrite H3, Nat.eqb_refl|]. destruct (Fl t Hin) as [Hl Hf]. split; [done|].
    by rewrite H3, Hf, orb_true_r.
  - intros t i Hin Hi. rewrite C' by (by rewrite R1).
    assert (Hlen : length (cal_point i s') = 5%nat) by (apply cal_point_length; apply M).
    destruct (decide (t = type)) as [->|Hne].
    + rewrite list_lookup_insert_eq by lia. reflexivity.
    + rewrite list_lookup_insert_ne by congruence. destruct Hin as [->|Hin]; [done|]. by apply Rw.
Qed.

Lemma collect_seq_spec requested s steps : 0 <= _bandwidth (config s) < 256 -> Forall (step_reads s) steps ->
  forall done s' sm, progress done s s' ->
  exists b, collect_seq steps requested (Bench s' sm) = Some b /\ progress (rev (map fst steps) ++ done) s (b_vna b).
Proof.
  intros Hb Hst. induction Hst as [|[type env] steps Hs _ IH]; intros done s' sm P; cbn [collect_seq map rev].
  - by exists (Bench s' sm).
  - destruct (progress_step done s s' sm env requested type P Hb Hs) as ([s2 sm2] & -> & P2). cbn [mbind option_bind b_vna] in *.
    destruct (IH _ _ sm2 P2) as (b & -> & P3). exists b. split; [done|]. by rewrite <- app_assoc.
Qed.
End Collecting.

(** ** After [cal_done] *)

Section Finishing.
Context {F : Type} `{FloatOps F}.
Implicit Types s : vna F.

(** [cal_done] changes the rows, the status, the save slot and the redraw flags. *)
Lemma same_if s0 (c : bool) x y : same_but_cal s0 x -> same_but_cal s0 y -> same_but_cal s0 (if c then x else y).
Proof. by destruct c. Qed.
Lemma same_rows s0 s d st : same_but_cal s0 s -> same_but_cal s0 (upd_props (fun p => set__cal_data (d p) (set__cal_status (st p) p)) s).
Proof. intros (d' & st' & ->). eexists _, _. reflexivity. Qed.
Lemma same_clr s0 s k : same_but_cal s0 s -> same_but_cal s0 (clr_cal_status k s).
Proof. intros (d & st & ->). eexists d, _. reflexivity. Qed.
Lemma same_set s0 s k : same_but_cal s0 s -> same_but_cal s0 (set_cal_status k s).
Proof. intros (d & st & ->). eexists d, _. reflexivity. Qed.
Lemma same_copy s0 s dst src : same_but_cal s0 s -> same_but_cal s0 (eterm_copy dst src s).
Proof. intros (d & st & ->). eexists _, st. reflexivity. Qed.
Lemma same_loop s0 s t g : same_but_cal s0 s -> same_but_cal s0 (eterm_loop t g s).
Proof.
  intros Hs. unfold eterm_loop. destruct (Z.le_gt_cases 0 (sweep_points s)).
  - apply (for_range_ind (fun _ s' => same_but_cal s0 s')); [done|done|]. intros i s' _ (d & st & ->). eexists _, st. reflexivity.
  - by rewrite for_range_empty by lia.
Qed.
#[local] Hint Resolve same_clr same_set same_copy same_loop : core.

Lemma cal_done_same s : exists s1, same_but_cal s s1 /\
  cal_done s = request_to_redraw (Z.lor REDRAW_BACKUP REDRAW_CAL_STATUS) (set_lastsaveid NO_SAVE_SLOT s1).
Proof.
  assert (Hs : same_but_cal s s) by (exists (_cal_data (current_props s)), (_cal_status (current_props s)); by destruct s as [? []]).
  unfold cal_done. cbv zeta.
  set (s1 := if negb (has CALSTAT_LOAD s) then _ else s).
  assert (H1 : same_but_cal s s1) by (apply same_if; unfold eterm_set; auto). clearbody s1.
  set (s2 := if negb (has CALSTAT_ISOLN s1) then _ else s1).
  assert (H2 : same_but_cal s s2) by (apply same_if; unfold eterm_set; auto). clearbody s2.
  set (s3 := if has CALSTAT_SHORT s2 && has CALSTAT_OPEN s2 then _ else _).
  assert (H3 : same_but_cal s s3) by (repeat apply same_if; unfold eterm_calc_er, eterm_calc_es, eterm_set; auto 8). clearbody s3.
  set (s4 := if has CALSTAT_THRU s3 then _ else s3).
  assert (H4 : same_but_cal s s4) by (apply same_if; unfold eterm_calc_et; auto). clearbody s4.
  set (s5 := if negb (has CALSTAT_ET s4) then _ else s4).
  assert (H5 : same_but_cal s s5) by (apply same_if; unfold eterm_set; auto). clearbody s5.
  set (s6 := if negb (has CALSTAT_ER s5) then _ else s5).
  assert (H6 : same_but_cal s s6) by (apply same_if; unfold eterm_set; auto). clearbody s6.
  set (s7 := if negb (has CALSTAT_ES s6) then _ else s6).
  assert (H7 : same_but_cal s s7) by (apply same_if; unfold eterm_set; auto). clearbody s7.
  exists (set_cal_status CALSTAT_APPLY s7). auto.
Qed.

(** A finished calibration can be measured with, point by point. *)
Lemma cal_done_ready m s : measurable m s -> let s' := cal_done s in
  measurable m s' /\ sweep_points s' = sweep_points s /\ config s' = config s /\ (forall i, getFrequency i s' = getFrequency i s) /\
  _electrical_delay (current_props s') = _electrical_delay (current_props s) /\ _s21_offset (current_props s') = _s21_offset (current_props s).
Proof.
  intros [Hn R Hf W Wc Hps] s'.
  assert (Wc' : wf_cal s').
  { assert (Hh : holds 0 s (cal_status s, cal_point 0 s)) by (repeat (split; [first [done|lia]|]); done).
    by apply holds_cal_done in Hh as (Wc' & _). }
  destruct (cal_done_same s) as (s1 & (d & st & ->) & E). fold s' in E. clearbody s'. subst s'.
  split; [|by repeat split]. by split.
Qed.

(** With neither delay nor offset the mask asks for both channels, corrected. *)
Lemma measure_channels_range s : 0 <= plot_get_measure_channels s < 3.
Proof.
  unfold plot_get_measure_channels, measure_option, MESAURE_NONE, MESAURE_S11, MESAURE_S21. generalize (Z.to_nat (_measure (current_props s))). intros n.
  do 11 (destruct n as [|n]; [cbn; lia|]). destruct n; cbn; lia.
Qed.

Lemma direct_sweep_mask s :
  bit_test (cal_status s) CALSTAT_APPLY = true -> bit_test (cal_status s) CALSTAT_INTERPOLATED = false ->
  (let '(d0, d1) := _electrical_delay (current_props s) in fneqb d0 f0 = false /\ fneqb d1 f0 = false) ->
  fneqb (_s21_offset (current_props s)) f0 = false ->
  get_sweep_mask s = Z.lor (Z.lor SWEEP_CH0_MEASURE SWEEP_CH1_MEASURE) SWEEP_APPLY_CALIBRATION.
Proof.
  intros Ha Hi Hd Ho. unfold get_sweep_mask. rewrite Ha, Hi, Ho. destruct (_electrical_delay _) as [d0 d1].
  destruct Hd as [-> ->]. pose proof (measure_channels_range s) as Hc. set (channels := plot_get_measure_channels s) in *. clearbody channels.
  assert (channels = 0 \/ channels = 1 \/ channels = 2) as [-> | [-> | ->]] by lia; reflexivity.
Qed.

(** The terms of a calibrated point are its rows. *)
Lemma cal_fetch_point i s : wf_cal s -> 0 <= i < SWEEP_POINTS_MAX -> cal_fetch (CopyPoint i) s = cal_point i s.
Proof.
  intros W Hi. pose proof (cal_point_length i s W) as Hl. unfold cal_fetch.
  change (seq 0 (Z.to_nat CAL_TYPE_COUNT)) with [0; 1; 2; 3; 4]%nat. cbn [map].
  rewrite !(cal_read_row s _ i) by (done || lia). unfold pt.
  destruct (cal_point i s) as [|? [|? [|? [|? [|? [|? ?]]]]]]; done.
Qed.
End Finishing.

(** ** From the standards to the device under test *)

Section EndToEnd.
Context {F : Type} `{EA : ExactArith F} `{FloatBits F}.
Variable sincos_tbl : list Z.
Variable stack : F * F.
Variable m : Z.
Implicit Types s : vna F.

(** The readings [G] are those of the five ideal standards through the box of
    each point. *)
Definition standards_of (box : Z -> error_box (F := F)) (enhanced : bool) (n : Z) (G : nat -> Z -> F * F) : Prop :=
  forall i, 0 <= i < n -> perfect (box i) /\
    reads_reflection (box i) c0 (cal_value G 0 i) /\ reads_reflection (box i) c1 (cal_value G 1 i) /\
    reads_reflection (box i) (cneg c1) (cal_value G 2 i) /\
    reads_transmission (box i) enhanced c0 c1 (cal_value G 3 i) /\ reads_transmission (box i) enhanced c0 c0 (cal_value G 4 i).

(** The readings [M0], [M1] are those of a device of reflection [R] and
    transmission [T]. *)
Definition device_reads (box : Z -> error_box (F := F)) (enhanced : bool) (n : Z) (R T M0 M1 : Z -> F * F) : Prop :=
  forall i, 0 <= i < n ->
    reads_reflection (box i) (R i) (M0 i) /\ reads_transmission (box i) enhanced (R i) (T i) (fneg (fst (M1 i)), fneg (snd (M1 i))).

Definition no_delay s : Prop :=
  (let '(d0, d1) := _electrical_delay (current_props s) in fneqb d0 f0 = false /\ fneqb d1 f0 = false) /\
  fneqb (_s21_offset (current_props s)) f0 = false.

(** What a calibration leaves: every point corrects the readings through its box. *)
Definition calibrated (box : Z -> error_box (F := F)) (enhanced : bool) s : Prop :=
  bit_test (cal_status s) CALSTAT_APPLY = true /\ bit_test (cal_status s) CALSTAT_INTERPOLATED = false /\
  forall i R T m0 m1, 0 <= i < sweep_points s ->
    reads_reflection (box i) R m0 -> reads_transmission (box i) enhanced R T m1 ->
    apply_CH0_error_term m0 (cal_point i s) = R /\ apply_CH1_error_term R m1 (cal_point i s) s = T.

Lemma calibrate_spec box s sm steps requested (G : nat -> Z -> F * F) :
  measurable m s -> range_consistent s -> 0 <= _bandwidth (config s) < 256 ->
  Forall (step_reads sincos_tbl G s) steps -> (forall t, (t < 5)%nat -> In t (map fst steps)) ->
  let enhanced := bit_test (status_before s) CALSTAT_ENHANCED_RESPONSE in
  standards_of box enhanced (sweep_points s) G ->
  exists b, calibrate sincos_tbl stack steps requested (Bench s sm) = Some b /\
    measurable m (b_vna b) /\ same_range_cal s (b_vna b) /\ calibrated box enhanced (b_vna b).
Proof.
  intros M Rc Hb Hst Hall enhanced Hstd.
  destruct (collect_seq_spec sincos_tbl stack m G requested s steps Hb Hst [] s sm (progress_nil m G s M Rc Hb)) as ([s1 sm1] & E & P).
  unfold calibrate. rewrite E. eexists. split; [reflexivity|]. unfold on_vna. cbn [b_vna b_sampler] in *.
  destruct P as [M1 R1 Hneed He Hd Hfl Hrw]. destruct (cal_done_ready m s1 M1) as (M2 & P2 & C2 & F2 & D2 & O2).
  assert (Hin : forall t, (t < 5)%nat -> In t (rev (map fst steps) ++ [])) by (intros t Ht; rewrite app_nil_r, <- in_rev; auto).
  assert (Sb : status_before s1 = cal_status s1).
  { unfold status_before. rewrite Hneed; [done|]. intros En. specialize (Hin 0%nat ltac:(lia)). by rewrite En in Hin. }
  rewrite Sb in *. pose proof R1 as (Pn & _).
  assert (Hfull : full_set (cal_status s1)).
  { repeat split; [apply (Hfl 0%nat)|apply (Hfl 1%nat)|apply (Hfl 2%nat)|apply (Hfl 3%nat)|apply (Hfl 4%nat)]; apply Hin; lia. }
  assert (Hpt : forall i, 0 <= i < sweep_points s -> cal_point i s1 = [cal_value G 0 i; cal_value G 1 i; cal_value G 2 i; cal_value G 3 i; cal_value G 4 i]).
  { intros i Hi. apply list_eq. intros t. destruct (Nat.lt_ge_cases t 5) as [Hlt|Hge].
    - rewrite (Hrw t i (Hin t Hlt) Hi). do 5 (destruct t as [|t]; [reflexivity|]). lia.
    - rewrite !lookup_ge_None_2; [done|cbn; lia|]. rewrite cal_point_length by apply M1. lia. }
  split; [done|]. split; [|].
  { destruct R1 as (A1 & A2 & A3 & A4 & A5 & A6 & A7). destruct (cal_done_same s1) as (s2 & (d & st & ->) & Es). rewrite Es.
    repeat (split; [first [assumption | intros i; apply A4]|]). done. }
  assert (Hpoint : forall i R T m0 m1, 0 <= i < sweep_points s ->
    reads_reflection (box i) R m0 -> reads_transmission (box i) enhanced R T m1 ->
    has CALSTAT_APPLY (cal_done s1) = true /\ has CALSTAT_INTERPOLATED (cal_done s1) = has CALSTAT_INTERPOLATED s1 /\
    apply_CH0_error_term m0 (cal_point i (cal_done s1)) = R /\
    apply_CH1_error_term R m1 (cal_point i (cal_done s1)) (cal_done s1) = T).
  { intros i R T m0 m1 Hi R0 T0. destruct (Hstd i Hi) as (Hp & S0 & S1 & S2 & S3 & S4).
    apply (full_calibration_solved (box i) s1 i enhanced (cal_value G 0 i) (cal_value G 1 i) (cal_value G 2 i) (cal_value G 3 i) (cal_value G 4 i));
      try done; [apply M1|lia|rewrite Pn; apply M|by apply Hpt]. }
  assert (Hz : 0 <= 0 < sweep_points s) by (destruct M; lia). destruct (Hstd 0 Hz) as (Hp0 & S0 & _ & _ & S3 & _).
  destruct (Hpoint 0 c0 c1 _ _ Hz S0 S3) as (Ha & Hi & _).
  split; [exact Ha|]. split; [unfold has in Hi; by rewrite Hi|].
  intros i R T m0 m1 Hi'. rewrite P2, Pn in Hi'. intros R0 T0. by apply (Hpoint i).
Qed.

(** C1: Calibrating makes the instrument read true, in exact arithmetic.  From any
    consistent setting with a working generator, a bandwidth code below 256 and
    neither electrical delays nor an S21 offset, collect the five standards in any
    order (repeats allowed) and finish; if at every point the readings are those of
    ideal standards through some error box, then the configuration (bandwidth
    included), the number of points, start, stop and the frequency of every point are
    those of before, and the next sweep, run with the mask the firmware computes,
    completes and stores at every point the true reflection and the true
    transmission of the device, whatever the device, in both response modes. *)
Theorem calibrated_measurement box s sm steps requested (G : nat -> Z -> F * F) :
  measurable m s -> range_consistent s -> 0 <= _bandwidth (config s) < 256 -> no_delay s ->
  Forall (step_reads sincos_tbl G s) steps -> (forall t, (t < 5)%nat -> In t (map fst steps)) ->
  let enhanced := bit_test (status_before s) CALSTAT_ENHANCED_RESPONSE in
  standards_of box enhanced (sweep_points s) G ->
  exists b, calibrate sincos_tbl stack steps requested (Bench s sm) = Some b /\ config (b_vna b) = config s /\
    (sweep_points (b_vna b) = sweep_points s /\ frequency0 (b_vna b) = frequency0 s /\ frequency1 (b_vna b) = frequency1 s /\
      forall i, getFrequency i (b_vna b) = getFrequency i s) /\
    forall env requested' R T M0 M1,
    (forall p, 0 <= p < sweep_points s -> yields sincos_tbl env (_bandwidth (config s)) 0 p (M0 p)) ->
    (forall p, 0 <= p < sweep_points s -> yields sincos_tbl env (_bandwidth (config s)) 1 p (M1 p)) ->
    device_reads box enhanced (sweep_points s) R T M0 M1 ->
    exists b', sweep sincos_tbl stack env requested' false (get_sweep_mask (b_vna b)) b = Some (true, b') /\
      forall p, 0 <= p < sweep_points s ->
        reading (measured (b_vna b')) 0 p = R p /\ reading (measured (b_vna b')) 1 p = T p.
Proof.
  intros M Rc Hb [Hd Ho] Hst Hall enhanced Hstd.
  destruct (calibrate_spec box s sm steps requested G M Rc Hb Hst Hall Hstd) as ([s1 sm1] & -> & M1 & R1 & Ha & Hi & Hc).
  cbn [b_vna] in *. destruct R1 as (P1 & F0 & F1 & Fi & C1 & D1 & O1).
  assert (Cf : config s1 = config s) by (rewrite C1, u8_small by lia; by destruct (config s)).
  eexists. split; [reflexivity|]. cbn [b_vna]. split; [done|]. split; [by repeat split|]. intros env requested' R T M0 M1' Y0 Y1 Hdev.
  rewrite direct_sweep_mask by (rewrite ?D1, ?O1; done). set (mask := Z.lor _ _).
  destruct M1 as [Hn Rd Hf W Wc Hps]. rewrite P1 in *.
  assert (Hs : sweep_hyps sincos_tbl env mask m s1 M0 M1' (fun p => cal_point p s1)).
  { split; rewrite ?P1, ?Cf; try done; [lia|]. intros p Hp. unfold cal_terms, cal_interpolate, cal_locate.
    change (bit_test mask SWEEP_APPLY_CALIBRATION) with true. change (bit_test mask SWEEP_USE_INTERPOLATION) with false. cbv zeta iota.
    rewrite (proj2 (Z.leb_le 0 p)) by lia. cbn [option_map]. by rewrite cal_fetch_point by (done || lia). }
  destruct (sweep_run sincos_tbl stack env requested' false mask m s1 M0 M1' _ sm1 Hs W Hps)
    as (q & b' & Hq & _ & Hstop & -> & _ & _ & _ & _ & _ & _ & Hr).
  assert (Sw0 : sweep_start false s1 = 0) by (unfold sweep_start; by rewrite orb_true_r).
  assert (Hqe : q = sweep_points s1).
  { destruct (Z.lt_ge_cases q (sweep_points s1)) as [Hlt|]; [|lia]. specialize (Hstop Hlt). by rewrite andb_false_r in Hstop. }
  exists b'. split; [by rewrite Hqe, Z.eqb_refl|]. intros p Hp. rewrite P1 in *. specialize (Hr p Hp). rewrite Sw0, Hqe in Hr. cbv zeta in Hr.
  replace ((0 <=? p) && (p <? sweep_points s + 1)) with true in Hr by (repeat zcase; cbn; lia).
  destruct (Hdev p Hp) as [Rp Tp]. destruct (Hc p (R p) (T p) (M0 p) _ Hp Rp Tp) as [E0 E1].
  change (bit_test mask SWEEP_CH0_MEASURE) with true in Hr. change (bit_test mask SWEEP_CH1_MEASURE) with true in Hr. cbn [andb] in Hr.
  destruct Hr as [-> ->]. change (value0 stack mask s1 (cal_point p s1) p (M0 p)) with (apply_CH0_error_term (M0 p) (cal_point p s1)).
  change (value1 stack mask s1 (cal_point p s1) p (M0 p) (M1' p)) with
    (apply_CH1_error_term (apply_CH0_error_term (M0 p) (cal_point p s1)) (fneg (fst (M1' p)), fneg (snd (M1' p))) (cal_point p s1) s1).
  by rewrite E0, E1.
Qed.
End EndToEnd.

(** ** A bench to try it on *)

Definition desk_gen : synth :=
  from_option id (synth_reset XTALFREQ FREQUENCY_THRESHOLD FREQUENCY_OFFSET)
    (si5351_init 0 (synth_reset XTALFREQ FREQUENCY_THRESHOLD FREQUENCY_OFFSET)).
(** Power-on settings, generator started. *)
Definition desk : vna Qcanon.Qc := set_gen desk_gen (update_frequencies boot).

Definition flat_table : list Z := repeat 7 96.
(** Interrupts with a constant ratio of [r / 100]. *)
Definition held (r : Z) : irq := Irq 1000 false (concat (repeat [100; r] 48)).
Definition steady (r0 r1 : Z) : surroundings := fun ch _ => (0, replicate 512 (held (if ch =? 0 then r0 else r1))).

Lemma desk_ready : ready 0 desk.
Proof.
  split; [|vm_compute; split; congruence].
  destruct (si5351_init_good 0 XTALFREQ FREQUENCY_THRESHOLD FREQUENCY_OFFSET) as (g & E & G & _);
    [lia|vm_compute; split; congruence|vm_compute; split; congruence|vm_compute; split; congruence|].
  assert (Eg : load_gen desk = desk_gen) by (vm_compute; reflexivity).
  rewrite Eg. unfold desk_gen. by rewrite E.
Qed.

Definition steady_gamma (r n : Z) : Qcanon.Qc * Qcanon.Qc := calculate_gamma (half_sums flat_table (replicate (Z.to_nat n) (held r))).

Lemma held_samples r : int16 r -> samples (rx_buffer (held r)).
Proof. intros Hr. unfold held. cbn [rx_buffer repeat concat app]. repeat (constructor; [first [exact Hr | split; lia]|]). constructor. Qed.

Lemma steady_yields r0 r1 bw ch p : 0 <= bw <= 510 -> int16 r0 -> int16 r1 ->
  yields (F := Qcanon.Qc) flat_table (steady r0 r1) bw ch p (steady_gamma (if ch =? 0 then r0 else r1) (bw + 1)).
Proof.
  intros Hb H0 H1. set (r := if ch =? 0 then r0 else r1). assert (Hr : int16 r) by (unfold r; by destruct (ch =? 0)).
  assert (E : take (Z.to_nat (bw + 1)) (drop 1 (replicate 512 (held r))) = replicate (Z.to_nat (bw + 1)) (held r)).
  { change (drop 1 (replicate 512 (held r))) with (replicate 511 (held r)). rewrite take_replicate. f_equal. lia. }
  unfold steady_gamma. rewrite <- E.
  apply (yields_of_interrupts flat_table (steady r0 r1) bw ch p 0); [reflexivity|apply samples_repeat; split; lia|lia| | |].
  - apply Forall_replicate. by apply held_samples.
  - apply Forall_replicate. intros delay Hd. unfold live, held. cbn [irq_now].
    rewrite u32_small by lia. unfold s32. rewrite (Z.mod_small (1000 - (0 + delay) + _)) by lia. apply negb_true_iff, Z.ltb_ge. lia.
  - rewrite length_replicate. lia.
Qed.

Lemma desk_frequencies p : 0 <= p < 401 -> 800 <= getFrequency p desk <= FREQUENCY_MAX.
Proof.
  intros Hp.
  assert (A : forallb (fun k => (800 <=? getFrequency (Z.of_nat k) desk) && (getFrequency (Z.of_nat k) desk <=? FREQUENCY_MAX)) (seq 0 401) = true)
    by (vm_compute; reflexivity).
  rewrite forallb_forall in A. specialize (A (Z.to_nat p) ltac:(apply in_seq; lia)). rewrite Z2Nat.id in A by lia. lia.
Qed.

Lemma desk_points : sweep_points desk = 401.
Proof. vm_compute. reflexivity. Qed.
Lemma rows_of_length {A} (n : nat) (rows : list (list A)) :
  forallb (fun row => Nat.eqb (length row) n) rows = true -> Forall (fun row => length row = n) rows.
Proof. induction rows as [|row rows IH]; cbn; [constructor|]. intros [E1 E2]%andb_prop. constructor; [by apply Nat.eqb_eq|auto]. Qed.
Lemma desk_rows : wf_rows (measured desk).
Proof. split; [vm_compute; reflexivity|]. apply rows_of_length. vm_compute. reflexivity. Qed.
Lemma desk_cal : wf_cal desk.
Proof. split; [vm_compute; reflexivity|]. apply rows_of_length. vm_compute. reflexivity. Qed.
Lemma desk_response : bit_test (status_before desk) CALSTAT_ENHANCED_RESPONSE = false.
Proof. vm_compute. reflexivity. Qed.
Lemma desk_bandwidth : _bandwidth (config desk) = 3.
Proof. vm_compute. reflexivity. Qed.

Lemma desk_measurable : measurable 0 desk.
Proof.
  split; rewrite ?desk_points; [unfold SWEEP_POINTS_MAX; lia|exact desk_ready|exact desk_frequencies|exact desk_rows|exact desk_cal|].
  vm_compute. congruence.
Qed.

(** An instrument with some directivity and tracking loss; the transmission
    channel reads inverted. *)
Definition desk_box (_ : Z) : error_box (F := Qcanon.Qc) :=
  ErrorBox (f_lit 1 (-1), f0) c0 (f_lit 5 (-1), f0) (f_lit 5 (-1), f0) c0.
Definition desk_steps : list (nat * surroundings) :=
  [(CAL_OPEN, steady 60 0); (CAL_SHORT, steady (-40) 0); (CAL_LOAD, steady 10 0); (CAL_ISOLN, steady 0 0); (CAL_THRU, steady 0 (-50))].
Definition desk_reading (type : nat) (_ : Z) : Qcanon.Qc * Qcanon.Qc := steady_gamma (nth type [10; 60; -40; -50; 0] 0) 40.

Lemma desk_step type r0 r1 : (type < 5)%nat -> int16 r0 -> int16 r1 ->
  (if (channel_of type =? 0)%nat then r0 else r1) = nth type [10; 60; -40; -50; 0] 0 ->
  step_reads flat_table desk_reading desk (type, steady r0 r1).
Proof.
  intros Ht H0 H1 E. split; [exact Ht|]. cbn [fst snd]. intros p _.
  rewrite desk_bandwidth. change (cal_bandwidth 3) with 39.
  unfold desk_reading. rewrite <- E. replace (if (channel_of type =? 0)%nat then r0 else r1)
    with (if Z.of_nat (channel_of type) =? 0 then r0 else r1) by (unfold channel_of; by destruct (type <? 3)%nat).
  change 40 with (39 + 1). apply steady_yields; [lia|done|done].
Qed.

Ltac desk_eq := unfold reads_reflection, reads_transmission; apply pair_equal_spec; split; apply Qcanon.Qc_is_canon; vm_compute; reflexivity.

Lemma calibrated_measurement_witness :
  exists b b', calibrate flat_table (f0, f0) desk_steps (fun _ => true) (Bench desk (Sampler 0 0 accs_zero)) = Some b /\
    sweep flat_table (f0, f0) (steady 35 (-25)) (fun _ => true) false (get_sweep_mask (b_vna b)) b = Some (true, b') /\
    forall p, 0 <= p < 401 -> reading (measured (b_vna b')) 0 p = (f_lit 5 (-1), f0) /\ reading (measured (b_vna b')) 1 p = (f_lit 5 (-1), f0).
Proof.
  assert (H5 : standards_of desk_box false 401 desk_reading).
  { intros i _. split; [split; qc_neq|]. repeat split; desk_eq. }
  destruct (calibrated_measurement flat_table (f0, f0) 0 desk_box desk (Sampler 0 0 accs_zero) desk_steps (fun _ => true) desk_reading)
    as (b & E & _ & _ & Hm).
  - exact desk_measurable.
  - vm_compute. reflexivity.
  - vm_compute. split; congruence.
  - vm_compute. repeat split.
  - repeat (apply Forall_cons; split; [apply desk_step; [cbv; lia|split; lia|split; lia|reflexivity]|]). constructor.
  - intros t Ht. do 5 (destruct t as [|t]; [cbn; tauto|]). lia.
  - rewrite desk_points, desk_response. exact H5.
  - destruct (Hm (steady 35 (-25)) (fun _ => true) (fun _ => (f_lit 5 (-1), f0)) (fun _ => (f_lit 5 (-1), f0))
      (fun _ => steady_gamma 35 4) (fun _ => steady_gamma (-25) 4)) as (b' & E' & R).
    + intros p _. rewrite desk_bandwidth. apply (steady_yields 35 (-25) 3 0 p); split; lia.
    + intros p _. rewrite desk_bandwidth. apply (steady_yields 35 (-25) 3 1 p); split; lia.
    + rewrite desk_points, desk_response. intros i _. split; desk_eq.
    + exists b, b'. split; [exact E|]. split; [exact E'|]. rewrite desk_points in R. exact R.
Defined.

Lemma stops_at_100 q : 0 <= q <= 401 -> (forall i, 0 <= i < q -> (i =? 100) && true = false) ->
  (q < 401 -> (q =? 100) && true = true) -> q = 100.
Proof.
  intros Hq Hno Hyes. destruct (Z.lt_trichotomy q 100) as [Hl|[He|Hg]]; [|done|].
  - specialize (Hyes ltac:(lia)). lia.
  - specialize (Hno 100 ltac:(lia)). discriminate.
Qed.

Lemma sweep_measures_witness :
  exists b, sweep flat_table (f0, f0) (steady 35 (-25)) (fun p => p =? 100) true 3 (Bench desk (Sampler 0 0 accs_zero)) = Some (false, b) /\
    p_sweep (b_vna b) = 100.
Proof.
  destruct (sweep_measures flat_table (f0, f0) (steady 35 (-25)) (fun p => p =? 100) true 3 0 desk
    (fun _ => steady_gamma 35 4) (fun _ => steady_gamma (-25) 4) (fun _ => []) (Sampler 0 0 accs_zero))
    as (q & b & Hq & Hno & Hyes & E & Ep & _).
  - split; [vm_compute; split; congruence|exact desk_ready|reflexivity|rewrite desk_points; exact desk_frequencies|reflexivity| |]; intros _ p _; rewrite desk_bandwidth.
    + apply (steady_yields 35 (-25) 3 0 p); split; lia.
    + apply (steady_yields 35 (-25) 3 1 p); split; lia.
  - exact desk_rows.
  - vm_compute. congruence.
  - assert (Es : sweep_start true desk = 0) by (vm_compute; reflexivity). rewrite Es, desk_points in *. clear Es.
    rewrite (stops_at_100 q Hq Hno Hyes) in E, Ep.
    change (100 =? 401) with false in E. exists b. split; [exact E|exact Ep].
Defined.

(** At the narrowest filter the bandwidth is 399 and comes back as 143. *)
Definition desk_narrow : vna Qcanon.Qc := upd_config (set__bandwidth 399) desk.

Lemma measurable_bandwidth {F} `{FloatOps F} m (s : vna F) k : measurable m s -> measurable m (upd_config (set__bandwidth k) s).
Proof. intros [M1 M2 M3 M4 M5 M6]. by split. Qed.

Lemma cal_collect_effect_witness :
  exists b, cal_collect flat_table (f0, f0) (steady 60 0) (fun _ => false) CAL_OPEN (Bench desk_narrow (Sampler 0 0 accs_zero)) = Some b /\
    _bandwidth (config (b_vna b)) = 143.
Proof.
  assert (E : sweep_points desk_narrow = 401) by (vm_compute; reflexivity).
  assert (Eb : _bandwidth (config desk_narrow) = 399) by (vm_compute; reflexivity).
  destruct (cal_collect_effect (F := Qcanon.Qc) flat_table (f0, f0) 0 (steady 60 0) (fun _ => false) CAL_OPEN
    CALSTAT_OPEN (Z.lor (Z.lor CALSTAT_ES CALSTAT_ER) CALSTAT_APPLY) CAL_OPEN 0 desk_narrow (Sampler 0 0 accs_zero) (fun _ => steady_gamma 60 400))
    as (b & Ec & _ & _ & _ & _ & _ & Hbw & _).
  - reflexivity.
  - exact (measurable_bandwidth 0 desk 399 desk_measurable).
  - rewrite Eb. lia.
  - intros p _. rewrite Eb. change (cal_bandwidth 399) with 399. apply (steady_yields 60 0 399 0 p); [lia|split; lia|split; lia].
  - rewrite Eb in Hbw. exists b. split; [exact Ec|exact Hbw].
Defined.
