(* ===== verification/Process.v ===== *)
(** * After the sweep (main.c): smoothing and the time domain

    A completed sweep is smoothed in place ([measurementDataSmooth]) and, in the
    time domain mode, windowed and transformed ([transform_domain]). *)

From S2P Require Import Prelude Num VnaMath Fft Types Props Sweep Calib Measure.
From Stdlib Require Import Field.
Local Open Scope Z_scope.

Definition FFT_SIZE : Z := 512.

Section Process.
Context {F : Type} `{FloatOps F} `{FloatBits F}.
Implicit Types (s : vna F) (row : list (F * F)).

(** ** Smoothing *)

Local Open Scope float_scope.

Definition arifmetic_mean (v0 v1 v2 : F) : F := (v0 + f_of_Z 2 * v1 + v2) / f_of_Z 4.
Definition geometry_mean (v0 v1 v2 : F) : F :=
  let v := vna_cbrtf (vna_fabsf (v0 * v1 * v2)) in
  if (v0 + v1 + v2 <? f0)%F then - v else v.

Local Close Scope float_scope.

(** The loop over [j], with [prev] the point before as it was. *)
Definition smooth_pass (smooth_func : F -> F -> F -> F) (n : Z) row : list (F * F) :=
  snd (for_range 1 (n - 1) (fun j '(prev, row) =>
    let old := point_at row j in
    let next := point_at row (j + 1) in
    (old, put_point j (smooth_func (fst prev) (fst old) (fst next), smooth_func (snd prev) (snd old) (snd next)) row))
    (point_at row 0, row)).

Definition smooth_func_of s : F -> F -> F -> F := if VNA_MODE VNA_MODE_SMOOTH s then arifmetic_mean else geometry_mean.

Definition smooth_row s row : list (F * F) :=
  for_range 0 (Z.shiftl 1 (smooth_factor s - 1)) (fun _ row => smooth_pass (smooth_func_of s) (sweep_points s) row) row.

Definition measurementDataSmooth (ch_mask : Z) (s : vna F) : vna F :=
  for_range 0 2 (fun ch s =>
    if bit_test (Z.shiftr ch_mask ch) 1 then set_measured (alter (smooth_row s) (Z.to_nat ch) (measured s)) s else s) s.

(** ** Time domain *)

Local Open Scope float_scope.

(** [besseli0_k]: 1 / (n!)^2 for n = 2 .. 12, as the literals of the table. *)
Definition besseli0_k : list F :=
  [ f_lit 25000000000000000 (-17); f_lit 27777777777777777777777777777778 (-33);
    f_lit 17361111111111111111111111111111 (-34); f_lit 69444444444444444444444444444444 (-36);
    f_lit 19290123456790123456790123456790 (-37); f_lit 39367598891408415217939027462837 (-39);
    f_lit 61511873267825648778029730410683 (-41); f_lit 75940584281266233059295963469979 (-43);
    f_lit 75940584281266233059295963469979 (-45); f_lit 62760813455591528148178482206594 (-47);
    f_lit 43583898233049950301902163754579 (-49) ].
Definition BESSEL_SIZE : Z := 12.

(** [do .. while (i--)] from [i = BESSEL_SIZE - 3] down to 0. *)
Definition bessel_I0_ext (z : F) : F :=
  let k i := nth (Z.to_nat i) besseli0_k f0 in
  let ret := fold_left (fun ret i => ffma ret z (k i)) (rev (seqZ 0 (BESSEL_SIZE - 2))) (k (BESSEL_SIZE - 2)%Z) in
  z * (z * ret + f1) + f1.

Definition kaiser_window_ext (k n beta : Z) : F :=
  if (beta =? 0)%Z then f1 else
  let n := u32 (n - 1) in
  let k := u32 (k * u32 (n - k) * beta * beta) in
  let n := u32 (n * n) in
  bessel_I0_ext (f_of_Z k / f_of_Z n).

Local Close Scope float_scope.

Definition domain_func s : Z := Z.land (props_mode s) TD_FUNC.
Definition domain_window s : Z := Z.land (props_mode s) TD_WINDOW.
Definition is_lowpass s : bool := (domain_func s =? TD_FUNC_LOWPASS_IMPULSE) || (domain_func s =? TD_FUNC_LOWPASS_STEP).
Definition td_offset s : Z := if is_lowpass s then sweep_points s else 0.
Definition td_beta s : Z :=
  if domain_window s =? TD_WINDOW_NORMAL then 6 else if domain_window s =? TD_WINDOW_MAXIMUM then 13 else 0.

(** The static variables of [transform_domain]. *)
Record td_state := TdState { window_scale : F; td_cache : Z }.

(** The scale of the current mode and number of points. *)
Definition fresh_scale s : F :=
  let n := sweep_points s in
  let scale :=
    if domain_func s =? TD_FUNC_LOWPASS_STEP then fmul (f_of_Z FFT_SIZE) (bessel_I0_ext (fdiv (f_of_Z (td_beta s * td_beta s)) (f_of_Z 4)))
    else
      let sum := for_range 0 n (fun i acc => fadd acc (kaiser_window_ext (i + td_offset s) (u16 (n + td_offset s)) (td_beta s))) f0 in
      if domain_func s =? TD_FUNC_LOWPASS_IMPULSE then fmul sum (f_of_Z 2) else sum in
  fdiv f1 scale.

Definition td_check s : Z := u16 (Z.lor (Z.land (props_mode s) (Z.lor TD_WINDOW TD_FUNC)) (Z.shiftl (sweep_points s) 5)).

Definition update_scale s (t : td_state) : td_state :=
  if negb (td_cache t =? td_check s) then TdState (fresh_scale s) (td_check s) else t.

(** One channel: window, padding, mirror, inverse transform, step. *)
Definition windowed s (scale : F) row : list (F * F) :=
  map (fun i =>
    if i <? sweep_points s then
      let w := fmul (kaiser_window_ext (i + td_offset s) (u16 (sweep_points s + td_offset s)) (td_beta s)) scale in
      (fmul (fst (point_at row i)) w, fmul (snd (point_at row i)) w)
    else (f0, f0)) (seqZ 0 FFT_SIZE).

Definition mirrored (n : Z) (tmp : list (F * F)) : list (F * F) :=
  for_range 1 n (fun i tmp => put_point (FFT_SIZE - i) (fst (point_at tmp i), fneg (snd (point_at tmp i))) tmp) tmp.

Definition drop_imaginary (n : Z) (tmp : list (F * F)) : list (F * F) :=
  for_range 0 n (fun i tmp => put_point i (fst (point_at tmp i), f0) tmp) tmp.

Definition running_sum (n : Z) (tmp : list (F * F)) : list (F * F) :=
  for_range 1 n (fun i tmp => put_point i (fadd (fst (point_at tmp i)) (fst (point_at tmp (i - 1))), snd (point_at tmp i)) tmp) tmp.

Definition transform_row s (scale : F) row : list (F * F) :=
  let n := sweep_points s in
  let tmp := windowed s scale row in
  let tmp := if is_lowpass s then mirrored n tmp else tmp in
  let tmp := fft tmp true in
  let tmp :=
    if is_lowpass s then
      let tmp := drop_imaginary n tmp in
      if domain_func s =? TD_FUNC_LOWPASS_STEP then running_sum n tmp else tmp
    else tmp in
  for_range 0 n (fun i row => put_point i (point_at tmp i) row) row.

Definition transform_domain (ch_mask : Z) (t : td_state) (s : vna F) : td_state * vna F :=
  let t := update_scale s t in
  (t, for_range 0 2 (fun ch s =>
        if bit_test (Z.shiftr ch_mask ch) 1
        then set_measured (alter (transform_row s (window_scale t)) (Z.to_nat ch) (measured s)) s else s) s).
End Process.

(** ** Smoothing is a convolution *)

Section Smoothing.
Context {F : Type} `{FloatOps F} `{FloatBits F}.
Implicit Types (s : vna F) (row : list (F * F)).

(** Every inner point from the old values of its neighbours. *)
Definition stencil (f : F -> F -> F -> F) row (i : Z) : F * F :=
  (f (fst (point_at row (i - 1))) (fst (point_at row i)) (fst (point_at row (i + 1))),
   f (snd (point_at row (i - 1))) (snd (point_at row i)) (snd (point_at row (i + 1)))).
Definition stencil_row (f : F -> F -> F -> F) (n : Z) row : list (F * F) :=
  map (fun i => if (1 <=? i) && (i <? n - 1) then stencil f row i else point_at row i) (seqZ 0 (Z.of_nat (length row))).

Lemma point_map_seqZ (g : Z -> F * F) n i : 0 <= i < n -> point_at (map g (seqZ 0 n)) i = g i.
Proof.
  intros Hi. unfold point_at. apply nth_lookup_Some. rewrite list_lookup_fmap, lookup_seqZ_lt by lia. cbn. f_equal. f_equal. lia.
Qed.

(** Rows with the same points are the same. *)
Lemma row_ext (a b : list (F * F)) : length a = length b ->
  (forall i, 0 <= i < Z.of_nat (length a) -> point_at a i = point_at b i) -> a = b.
Proof.
  intros Hl Hp. apply (nth_ext _ _ (f0, f0) (f0, f0)); [done|]. intros n Hn.
  specialize (Hp (Z.of_nat n) ltac:(lia)). unfold point_at in Hp. by rewrite Nat2Z.id in Hp.
Qed.

Lemma smooth_pass_stencil f n row : n <= Z.of_nat (length row) -> smooth_pass f n row = stencil_row f n row.
Proof.
  intros Hn. unfold smooth_pass. set (body := fun j '(prev, row0) => _).
  destruct (Z.le_gt_cases 1 (n - 1)) as [Hle|Hgt].
  - assert (G : let st := for_range 1 (n - 1) body (point_at row 0, row) in
        fst st = point_at row (n - 2) /\ length (snd st) = length row /\ forall i, 0 <= i < Z.of_nat (length row) ->
        point_at (snd st) i = if (1 <=? i) && (i <? n - 1) then stencil f row i else point_at row i).
    { cbv zeta. replace (n - 2) with (n - 1 - 1) by lia.
      apply (for_range_ind (fun m (st : (F * F) * list (F * F)) => fst st = point_at row (m - 1) /\ length (snd st) = length row /\
        forall i, 0 <= i < Z.of_nat (length row) ->
        point_at (snd st) i = if (1 <=? i) && (i <? m) then stencil f row i else point_at row i)); [done| |].
      - split; [done|]. split; [done|]. intros i Hi. cbn [snd]. by replace ((1 <=? i) && (i <? 1)) with false by (repeat zcase; cbn; lia).
      - intros j [prev r] Hj (Ep & El & Er). cbn [fst snd] in *. subst prev. unfold body. cbn [fst snd].
        split; [|split; [by rewrite put_point_length|]].
        + rewrite Er by lia. rewrite (proj2 (Z.ltb_ge j j)) by lia. rewrite andb_false_r. by replace (j + 1 - 1) with j by lia.
        + intros i Hi. destruct (Z.eq_dec i j) as [->|Hne].
          * rewrite point_put_eq by lia. rewrite !Er by lia.
            rewrite (proj2 (Z.ltb_ge j j)), (proj2 (Z.ltb_ge (j + 1) j)) by lia. rewrite !andb_false_r.
            rewrite (proj2 (Z.leb_le 1 j)), (proj2 (Z.ltb_lt j (j + 1))) by lia. reflexivity.
          * rewrite point_put_ne by lia. rewrite Er by lia. by replace (i <? j + 1) with (i <? j) by (repeat zcase; lia). }
    destruct G as (_ & Gl & Gp). apply row_ext; [unfold stencil_row; by rewrite length_map, length_seqZ, Nat2Z.id|].
    intros i Hi. rewrite Gl in Hi. rewrite Gp by done. unfold stencil_row. by rewrite point_map_seqZ by lia.
  - rewrite for_range_empty by lia. cbn [snd]. apply row_ext; [unfold stencil_row; by rewrite length_map, length_seqZ, Nat2Z.id|].
    intros i Hi. unfold stencil_row. rewrite point_map_seqZ by lia.
    by replace ((1 <=? i) && (i <? n - 1)) with false by (repeat zcase; cbn; lia).
Qed.

Lemma stencil_row_length f n row : length (stencil_row f n row) = length row.
Proof. unfold stencil_row. by rewrite length_map, length_seqZ, Nat2Z.id. Qed.

Lemma iter_stencil_length f n row k : length (Nat.iter k (stencil_row f n) row) = length row.
Proof. induction k as [|k IH]; cbn; [done|]. by rewrite stencil_row_length. Qed.

Lemma smooth_row_iter s row : sweep_points s <= Z.of_nat (length row) -> 1 <= smooth_factor s ->
  smooth_row s row = Nat.iter (Z.to_nat (2 ^ (smooth_factor s - 1))) (stencil_row (smooth_func_of s) (sweep_points s)) row.
Proof.
  intros Hn Hk. unfold smooth_row. rewrite Z.shiftl_1_l.
  apply (for_range_ind (fun m x => x = Nat.iter (Z.to_nat m) (stencil_row (smooth_func_of s) (sweep_points s)) row)); [lia|done|].
  intros m x Hm ->. replace (Z.to_nat (m + 1)) with (S (Z.to_nat m)) by lia. cbn [Nat.iter].
  apply smooth_pass_stencil. by rewrite iter_stencil_length.
Qed.

(** Both channels are processed on their own. *)
Lemma each_channel (g : vna F -> list (F * F) -> list (F * F)) mask s : length (measured s) = 2%nat ->
  (forall ms, g (set_measured ms s) = g s) ->
  for_range 0 2 (fun ch s => if bit_test (Z.shiftr mask ch) 1 then set_measured (alter (g s) (Z.to_nat ch) (measured s)) s else s) s =
  set_measured [if Z.testbit mask 0 then g s (nth 0 (measured s) []) else nth 0 (measured s) [];
                if Z.testbit mask 1 then g s (nth 1 (measured s) []) else nth 1 (measured s) []] s.
Proof.
  intros Hl Hg.
  assert (Hb : forall ch, 0 <= ch -> bit_test (Z.shiftr mask ch) 1 = Z.testbit mask ch).
  { intros ch Hch. change 1 with (2 ^ 0). by rewrite bit_test_pow2, Z.shiftr_spec by lia. }
  rewrite for_range_step, for_range_step, for_range_empty by lia. change (0 + 1) with 1. rewrite (Hb 0), (Hb 1) by lia.
  destruct (measured s) as [|r0 [|r1 [|? ?]]] eqn:E; try done.
  destruct (Z.testbit mask 0), (Z.testbit mask 1); cbn [measured set_measured]; rewrite ?E, ?Hg; try done.
  destruct s. cbn in *. by subst.
Qed.

Lemma smoothing_run mask s : wf_rows (measured s) -> sweep_points s <= SWEEP_POINTS_MAX -> 1 <= smooth_factor s <= 8 ->
  let turns := Z.to_nat (2 ^ (smooth_factor s - 1)) in
  let smoothed ch := if Z.testbit mask (Z.of_nat ch) then Nat.iter turns (stencil_row (smooth_func_of s) (sweep_points s)) else id in
  measurementDataSmooth mask s = set_measured [smoothed 0%nat (nth 0 (measured s) []); smoothed 1%nat (nth 1 (measured s) [])] s.
Proof.
  intros [Hl Hr] Hn Hk turns smoothed. unfold measurementDataSmooth. rewrite (each_channel smooth_row mask s Hl) by (intros ms; reflexivity).
  assert (Hrow : forall ch, (ch < 2)%nat -> smooth_row s (nth ch (measured s) []) =
    Nat.iter turns (stencil_row (smooth_func_of s) (sweep_points s)) (nth ch (measured s) [])).
  { intros ch Hch. apply smooth_row_iter; [|lia]. destruct (lookup_lt_is_Some_2 (measured s) ch ltac:(lia)) as [row Hrow].
    rewrite (nth_lookup_Some _ _ _ _ Hrow), (Forall_lookup_1 _ _ _ _ Hr Hrow). unfold SWEEP_POINTS_MAX in *. lia. }
  rewrite !Hrow by lia. unfold smoothed. change (Z.of_nat 0) with 0. change (Z.of_nat 1) with 1. destruct (Z.testbit mask 0), (Z.testbit mask 1); reflexivity.
Qed.

(** C39: Smoothing is repeated convolution: with a smoothing factor k, every row of
    the mask becomes the 2^(k-1)-fold application of a three-point stencil to the
    row as it was (the in-place loop never reads a value it has overwritten), the
    first and the last point of the sweep, the points beyond it, the other rows
    and the rest of the state are kept. *)
Theorem smoothing_convolves mask s : wf_rows (measured s) -> sweep_points s <= SWEEP_POINTS_MAX -> 1 <= smooth_factor s <= 8 ->
  let turns := Z.to_nat (2 ^ (smooth_factor s - 1)) in
  let smoothed ch := if Z.testbit mask (Z.of_nat ch) then Nat.iter turns (stencil_row (smooth_func_of s) (sweep_points s)) else id in
  measurementDataSmooth mask s = set_measured [smoothed 0%nat (nth 0 (measured s) []); smoothed 1%nat (nth 1 (measured s) [])] s.
Proof. exact (smoothing_run mask s). Qed.
End Smoothing.

Section SmoothLines.
Context {F : Type} `{EA : ExactArith F} `{FloatBits F}.
Add Field smooth_field : (ea_field (F := F)).
Implicit Types (s : vna F).
Local Open Scope float_scope.

Lemma mean_of_line (a b : F) : arifmetic_mean (a - b) a (a + b) = a.
Proof.
  unfold arifmetic_mean. assert (E4 : f_of_Z 4 <> (f0 : F)).
  { intros E. apply (ea_of_Z_inj (F := F)) in E. lia. }
  assert (E2 : f_of_Z 4 = f_of_Z 2 * f_of_Z 2 :> F) by (rewrite <- ea_of_Z_mul; done).
  assert (E1 : f_of_Z 2 = f1 + f1 :> F) by (unfold f1; rewrite <- ea_of_Z_add; done).
  rewrite E2, E1 in E4 |- *. field. exact E4.
Qed.

Lemma line_neighbours (a b : F) (i : Z) :
  a + b * f_of_Z (i - 1)%Z = a + b * f_of_Z i - b /\ a + b * f_of_Z (i + 1)%Z = a + b * f_of_Z i + b.
Proof.
  assert (E : forall j, f_of_Z (j + 1)%Z = f_of_Z j + f1 :> F) by (intros j; by rewrite ea_of_Z_add).
  split; [|rewrite E; ring]. pose proof (E (i - 1)%Z) as Ei. replace (i - 1 + 1)%Z with i in Ei by lia. rewrite Ei. ring.
Qed.

(** The first [n] points lie on a line. *)
Definition on_line (n : Z) (row : list (F * F)) : Prop :=
  exists A B, forall i, (0 <= i < n)%Z -> point_at row i = affine A B i.

Lemma stencil_keeps_line n row : (n <= Z.of_nat (length row))%Z -> on_line n row -> stencil_row arifmetic_mean n row = row.
Proof.
  intros Hn (A & B & HL). apply row_ext; [by rewrite stencil_row_length|]. rewrite stencil_row_length. intros i Hi.
  unfold stencil_row. rewrite point_map_seqZ by lia. destruct (Z.leb_spec 1 i), (Z.ltb_spec i (n - 1)); cbn [andb]; try done.
  unfold stencil. rewrite !HL by lia. unfold affine. cbn [fst snd].
  destruct (line_neighbours (fst A) (fst B) i) as [-> ->]. destruct (line_neighbours (snd A) (snd B) i) as [-> ->].
  by rewrite !mean_of_line.
Qed.

(** In exact arithmetic the arithmetic-mean smoothing changes nothing on rows
    that are linear in the point number, at any smoothing factor: it adds no bias
    and no delay, the ends of the sweep included. *)
Theorem smoothing_keeps_lines mask s : wf_rows (measured s) -> (sweep_points s <= SWEEP_POINTS_MAX)%Z -> (1 <= smooth_factor s <= 8)%Z ->
  VNA_MODE VNA_MODE_SMOOTH s = true ->
  (forall ch, (ch < 2)%nat -> on_line (sweep_points s) (nth ch (measured s) [])) ->
  measurementDataSmooth mask s = s.
Proof.
  intros W Hn Hk Hm HL. rewrite (smoothing_run mask s W Hn Hk). unfold smooth_func_of. rewrite Hm. pose proof W as [Hl Hr].
  assert (Hrow : forall ch k, (ch < 2)%nat -> Nat.iter k (stencil_row arifmetic_mean (sweep_points s)) (nth ch (measured s) []) = nth ch (measured s) []).
  { intros ch k Hch. induction k as [|k IH]; [done|]. rewrite Nat.iter_succ, IH. apply stencil_keeps_line; [|by apply HL].
    destruct (lookup_lt_is_Some_2 (measured s) ch ltac:(lia)) as [row Hrow].
    rewrite (nth_lookup_Some _ _ _ _ Hrow), (Forall_lookup_1 _ _ _ _ Hr Hrow). unfold SWEEP_POINTS_MAX in *. lia. }
  assert (E : [nth 0 (measured s) []; nth 1 (measured s) []] = measured s).
  { destruct (measured s) as [|r0 [|r1 [|? ?]]]; done. }
  replace (set_measured _ s) with (set_measured [nth 0 (measured s) []; nth 1 (measured s) []] s).
  - rewrite E. by destruct s.
  - f_equal. change (Z.of_nat 0) with 0%Z. change (Z.of_nat 1) with 1%Z.
    destruct (Z.testbit mask 0), (Z.testbit mask 1); rewrite ?Hrow by lia; reflexivity.
Qed.
End SmoothLines.

(** ** The time domain *)

Section TimeDomain.
Context {F : Type} `{FloatOps F} `{FloatBits F}.
Implicit Types (s : vna F) (row tmp : list (F * F)) (t : td_state (F := F)).

Lemma windowed_length s k row : length (windowed s k row) = 512%nat.
Proof. unfold windowed. by rewrite length_map, length_seqZ. Qed.

(** Copying the first [n] points back. *)
Lemma copied_points n tmp row i : n <= Z.of_nat (length row) -> 0 <= i < n ->
  point_at (for_range 0 n (fun i row => put_point i (point_at tmp i) row) row) i = point_at tmp i.
Proof.
  intros Hl Hi.
  assert (G : length (for_range 0 n (fun i row => put_point i (point_at tmp i) row) row) = length row /\
    forall p, 0 <= p < n -> point_at (for_range 0 n (fun i row => put_point i (point_at tmp i) row) row) p = point_at tmp p).
  { apply (for_range_ind (fun m x => length x = length row /\ forall p, 0 <= p < m -> point_at x p = point_at tmp p)); [lia| |].
    - split; [done|]. intros p Hp. lia.
    - intros m x Hm [Lx Px]. split; [by rewrite put_point_length|]. intros p Hp. destruct (Z.eq_dec p m) as [->|Hne].
      + by rewrite point_put_eq by lia.
      + rewrite point_put_ne by lia. apply Px. lia. }
  by apply G.
Qed.

(** Two buffers that agree below [FFT_SIZE / 2 + 1] agree everywhere once
    mirrored over more points than that. *)
Lemma mirrored_forgets n (a b : list (F * F)) : length a = 512%nat -> length b = 512%nat -> 257 <= n <= 512 ->
  (forall p, 0 <= p <= 256 -> point_at a p = point_at b p) -> mirrored n a = mirrored n b.
Proof.
  intros La Lb Hn Hab. unfold mirrored. set (body := fun i tmp => _).
  assert (G : length (for_range 1 n body a) = 512%nat /\ length (for_range 1 n body b) = 512%nat /\
    forall p, 0 <= p < 512 -> p <= 256 \/ 512 - n < p -> point_at (for_range 1 n body a) p = point_at (for_range 1 n body b) p).
  { apply (for_range_ind2 (fun m x y => length x = 512%nat /\ length y = 512%nat /\
      forall p, 0 <= p < 512 -> p <= 256 \/ 512 - m < p -> point_at x p = point_at y p)); [lia| |].
    - split; [done|]. split; [done|]. intros p Hp Hor. apply Hab. lia.
    - intros m x y Hm (Lx & Ly & Hxy). unfold body. change FFT_SIZE with 512. rewrite !put_point_length. split; [done|]. split; [done|].
      intros p Hp Hor. destruct (Z.eq_dec p (512 - m)) as [->|Hne].
      + rewrite !point_put_eq by lia. by rewrite Hxy by lia.
      + rewrite !point_put_ne by lia. apply Hxy; lia. }
  destruct G as (G1 & G2 & G3). apply row_ext; [congruence|]. intros i Hi. apply G3; lia.
Qed.

(** In the low-pass modes a sweep of more than 257 points loses its upper part:
    the mirrored half of the spectrum is written over the points above 256, so the
    time response does not depend on any measured value there. *)
Theorem lowpass_ignores_high_points s k (a b : list (F * F)) :
  is_lowpass s = true -> 257 < sweep_points s <= SWEEP_POINTS_MAX ->
  Z.of_nat (length a) = SWEEP_POINTS_MAX -> Z.of_nat (length b) = SWEEP_POINTS_MAX ->
  (forall p, 0 <= p <= 256 -> point_at a p = point_at b p) ->
  forall i, 0 <= i < sweep_points s -> point_at (transform_row s k a) i = point_at (transform_row s k b) i.
Proof.
  intros Hlp Hn La Lb Hab i Hi. unfold SWEEP_POINTS_MAX in *. unfold transform_row. rewrite Hlp.
  assert (E : mirrored (sweep_points s) (windowed s k a) = mirrored (sweep_points s) (windowed s k b)).
  { apply mirrored_forgets; [apply windowed_length|apply windowed_length|lia|]. intros p Hp. unfold windowed.
    rewrite !point_map_seqZ by (unfold FFT_SIZE; lia). by rewrite Hab by lia. }
  rewrite E. rewrite !copied_points by lia. reflexivity.
Qed.

(** ** What the transform computes *)

Lemma update_points (g : Z -> F * F -> F * F) n tmp : n <= Z.of_nat (length tmp) ->
  let r := for_range 0 n (fun i tmp => put_point i (g i (point_at tmp i)) tmp) tmp in
  length r = length tmp /\ forall i, 0 <= i -> point_at r i = if i <? n then g i (point_at tmp i) else point_at tmp i.
Proof.
  intros Hn. cbv zeta. destruct (Z.le_gt_cases 0 n) as [Hle|Hgt].
  - apply (for_range_ind (fun m r => length r = length tmp /\
      forall i, 0 <= i -> point_at r i = if i <? m then g i (point_at tmp i) else point_at tmp i)); [done| |].
    + split; [done|]. intros i Hi. by rewrite (proj2 (Z.ltb_ge i 0)) by lia.
    + intros m r Hm [Lr Pr]. split; [by rewrite put_point_length|]. intros i Hi. destruct (Z.eq_dec i m) as [->|Hne].
      * rewrite point_put_eq by lia. rewrite Pr by lia. rewrite (proj2 (Z.ltb_ge m m)) by lia. by rewrite (proj2 (Z.ltb_lt m (m + 1))) by lia.
      * rewrite point_put_ne by lia. rewrite Pr by lia. by replace (i <? m + 1) with (i <? m) by (repeat zcase; lia).
  - rewrite for_range_empty by lia. split; [done|]. intros i Hi. by rewrite (proj2 (Z.ltb_ge i n)) by lia.
Qed.

(** The sum of [g 0 .. g i], as accumulated from the left. *)
Fixpoint partial_sum (g : Z -> F) (i : nat) : F :=
  match i with
  | O => g 0
  | S i => fadd (g (Z.of_nat (S i))) (partial_sum g i)
  end.

Lemma partial_sum_ext (g g' : Z -> F) m : (forall j, 0 <= j <= Z.of_nat m -> g j = g' j) -> partial_sum g m = partial_sum g' m.
Proof.
  induction m as [|m IH]; intros E; cbn [partial_sum]; [by apply E|]. rewrite E by lia. f_equal. apply IH. intros j Hj. apply E. lia.
Qed.

Lemma running_sum_points n tmp : n <= Z.of_nat (length tmp) -> forall i, 0 <= i < n ->
  point_at (running_sum n tmp) i = (partial_sum (fun j => fst (point_at tmp j)) (Z.to_nat i), snd (point_at tmp i)).
Proof.
  intros Hn i Hi. unfold running_sum.
  assert (G : length (for_range 1 n (fun i tmp => put_point i (fadd (fst (point_at tmp i)) (fst (point_at tmp (i - 1))), snd (point_at tmp i)) tmp) tmp) = length tmp /\
    forall j, 0 <= j -> point_at (for_range 1 n (fun i tmp => put_point i (fadd (fst (point_at tmp i)) (fst (point_at tmp (i - 1))), snd (point_at tmp i)) tmp) tmp) j =
      if j <? n then (partial_sum (fun j => fst (point_at tmp j)) (Z.to_nat j), snd (point_at tmp j)) else point_at tmp j).
  { apply (for_range_ind (fun m r => length r = length tmp /\ forall j, 0 <= j -> point_at r j =
      if j <? m then (partial_sum (fun j => fst (point_at tmp j)) (Z.to_nat j), snd (point_at tmp j)) else point_at tmp j)); [lia| |].
    - split; [done|]. intros j Hj. destruct (Z.ltb_spec j 1); [|done]. assert (j = 0) as -> by lia. apply surjective_pairing.
    - intros m r Hm [Lr Pr]. split; [by rewrite put_point_length|]. intros j Hj. destruct (Z.eq_dec j m) as [->|Hne].
      + rewrite point_put_eq by lia. rewrite !Pr by lia. rewrite (proj2 (Z.ltb_ge m m)), (proj2 (Z.ltb_lt (m - 1) m)), (proj2 (Z.ltb_lt m (m + 1))) by lia.
        cbn [fst]. replace (Z.to_nat m) with (S (Z.to_nat (m - 1))) by lia. cbn [partial_sum].
        by replace (Z.of_nat (S (Z.to_nat (m - 1)))) with m by lia.
      + rewrite point_put_ne by lia. rewrite Pr by lia. by replace (j <? m + 1) with (j <? m) by (repeat zcase; lia). }
  destruct G as [_ G]. rewrite G by lia. by rewrite (proj2 (Z.ltb_lt i n)) by lia.
Qed.

Lemma mirrored_length n tmp : length (mirrored n tmp) = length tmp.
Proof.
  unfold mirrored. destruct (Z.le_gt_cases 1 n); [|by rewrite for_range_empty by lia].
  apply (for_range_ind (fun _ r => length r = length tmp)); [done|done|]. intros i r _ Hr. by rewrite put_point_length.
Qed.

(** The buffer the transform is applied to. *)
Definition spectrum s (k : F) row : list (F * F) :=
  if is_lowpass s then mirrored (sweep_points s) (windowed s k row) else windowed s k row.

(** C35: The time response is the inverse transform of the windowed sweep: at every
    point of the sweep the new value is the recursive inverse transform of the
    padded (in the low-pass modes, mirrored) buffer; its real part alone in the
    low-pass impulse mode, and the running sum of the real parts in the low-pass
    step mode. *)
Theorem transform_is_inverse_dft s k row i : 0 <= i < sweep_points s -> sweep_points s <= SWEEP_POINTS_MAX ->
  Z.of_nat (length row) = SWEEP_POINTS_MAX ->
  let response j := dit true (spectrum s k row) 9 0 j in
  point_at (transform_row s k row) i =
    if is_lowpass s then
      (if domain_func s =? TD_FUNC_LOWPASS_STEP then partial_sum (fun j => fst (response j)) (Z.to_nat i) else fst (response i), f0)
    else response i.
Proof.
  intros Hi Hn Hl response. unfold SWEEP_POINTS_MAX in *. unfold transform_row.
  assert (Ls : length (spectrum s k row) = 512%nat).
  { unfold spectrum. destruct (is_lowpass s); rewrite ?mirrored_length; apply windowed_length. }
  fold (spectrum s k row). destruct (fft_points true (spectrum s k row) Ls) as [Lf Pf].
  change (forall j, 0 <= j < 512 -> point_at (fft (spectrum s k row) true) j = response j) in Pf. clearbody response.
  rewrite copied_points by lia. set (r := fft (spectrum s k row) true) in *. clearbody r.
  destruct (is_lowpass s); [|by apply Pf; lia].
  unfold drop_imaginary.
  destruct (update_points (fun _ v => (fst v, f0)) (sweep_points s) r ltac:(lia)) as [Ld Pd]. cbv zeta in Ld, Pd.
  set (d := for_range 0 (sweep_points s) _ r) in *. clearbody d.
  assert (Pd' : forall j, 0 <= j < sweep_points s -> point_at d j = (fst (response j), f0)).
  { intros j Hj. rewrite Pd by lia. rewrite (proj2 (Z.ltb_lt j _)) by lia. by rewrite Pf by lia. }
  destruct (domain_func s =? TD_FUNC_LOWPASS_STEP); [|by apply Pd'].
  rewrite running_sum_points by lia. rewrite Pd' by lia. cbn [snd]. f_equal.
  apply partial_sum_ext. intros j Hj. rewrite Pd' by (clear -Hi Hj; lia). reflexivity.
Qed.
End TimeDomain.

(** ** The cached window scale *)

Section Cache.
Context {F : Type} `{FloatOps F} `{FloatBits F}.
Implicit Types (s : vna F) (t : td_state (F := F)).

Lemma mode_bits_small x : 0 <= Z.land x 30 < 32.
Proof.
  split; [apply Z.land_nonneg; lia|]. change 30 with (Z.land 30 (Z.ones 5)). rewrite Z.land_assoc, Z.land_ones by lia.
  apply Z.mod_pos_bound. lia.
Qed.

Lemma td_check_value s : 0 < sweep_points s <= SWEEP_POINTS_MAX ->
  td_check s = sweep_points s * 32 + Z.land (props_mode s) 30.
Proof.
  intros Hn. unfold SWEEP_POINTS_MAX in Hn. unfold td_check. change (Z.lor TD_WINDOW TD_FUNC) with 30.
  pose proof (mode_bits_small (props_mode s)) as Hr.
  rewrite Z.lor_comm, Z.shiftl_mul_pow2, lor_add_pow2 by lia. change (2 ^ 5) with 32 in *. apply u16_small. lia.
Qed.

(** The key of the cache determines everything the scale depends on. *)
Lemma td_check_inj s s' : 0 < sweep_points s <= SWEEP_POINTS_MAX -> 0 < sweep_points s' <= SWEEP_POINTS_MAX ->
  td_check s = td_check s' -> fresh_scale s = fresh_scale s' :> F.
Proof.
  intros Hn Hn' E. rewrite !td_check_value in E by done.
  pose proof (mode_bits_small (props_mode s)). pose proof (mode_bits_small (props_mode s')).
  assert (En : sweep_points s = sweep_points s') by lia. assert (Em : Z.land (props_mode s) 30 = Z.land (props_mode s') 30) by lia.
  assert (Ef : domain_func s = domain_func s').
  { unfold domain_func, TD_FUNC. change 6 with (Z.land 30 6). by rewrite !Z.land_assoc, Em. }
  assert (Ew : domain_window s = domain_window s').
  { unfold domain_window, TD_WINDOW. change 24 with (Z.land 30 24). by rewrite !Z.land_assoc, Em. }
  unfold fresh_scale, td_offset, td_beta, is_lowpass. by rewrite En, Ef, Ew.
Qed.

(** Nothing cached yet, or the scale of the settings with the cached key. *)
Definition td_sound t : Prop :=
  forall s, 0 < sweep_points s <= SWEEP_POINTS_MAX -> td_cache t = td_check s -> window_scale t = fresh_scale s.

Definition td_reset : td_state := TdState f0 0.

Lemma td_reset_sound : td_sound td_reset.
Proof. intros s Hn E. cbn in E. rewrite td_check_value in E by done. pose proof (Z.land_nonneg (props_mode s) 30). lia. Qed.

Lemma update_scale_sound s t : 0 < sweep_points s <= SWEEP_POINTS_MAX -> td_sound t ->
  td_sound (update_scale s t) /\ window_scale (update_scale s t) = fresh_scale s.
Proof.
  intros Hn Ht. unfold update_scale. destruct (Z.eqb_spec (td_cache t) (td_check s)) as [E|Hne]; cbn [negb].
  - split; [done|]. by apply Ht.
  - split; [|done]. intros s' Hn' E. cbn in E. by apply td_check_inj.
Qed.

(** Transforms made before this one, in any settings. *)
Definition transforms (earlier : list (Z * vna F)) (t : td_state) : td_state :=
  fold_left (fun t '(mask, s) => fst (transform_domain mask t s)) earlier t.

Lemma transforms_sound earlier : Forall (fun '(_, s) => 0 < sweep_points s <= SWEEP_POINTS_MAX) earlier ->
  forall t, td_sound t -> td_sound (transforms earlier t).
Proof.
  induction 1 as [|[mask s] earlier Hs _ IH]; intros t Ht; [done|]. cbn. apply IH.
  exact (proj1 (update_scale_sound s t Hs Ht)).
Qed.

(** The cached scale is never stale: after any transforms in any settings since
    power-on (function, window and number of points changed at will), a transform
    treats every requested row with the scale computed afresh for the present
    settings, and changes nothing else. *)
Theorem transform_cache_sound earlier mask s : Forall (fun '(_, s) => 0 < sweep_points s <= SWEEP_POINTS_MAX) earlier ->
  0 < sweep_points s <= SWEEP_POINTS_MAX -> wf_rows (measured s) ->
  let transformed ch := if Z.testbit mask (Z.of_nat ch) then transform_row s (fresh_scale s) else id in
  snd (transform_domain mask (transforms earlier td_reset) s) =
    set_measured [transformed 0%nat (nth 0 (measured s) []); transformed 1%nat (nth 1 (measured s) [])] s.
Proof.
  intros He Hn [Hl _] transformed. unfold transform_domain. cbn [snd].
  destruct (update_scale_sound s _ Hn (transforms_sound earlier He _ td_reset_sound)) as [_ E]. rewrite E.
  rewrite (each_channel (fun s' => transform_row s' (fresh_scale s)) mask s Hl) by (intros ms; reflexivity).
  unfold transformed. change (Z.of_nat 0) with 0. change (Z.of_nat 1) with 1.
  destruct (Z.testbit mask 0), (Z.testbit mask 1); reflexivity.
Qed.
End Cache.

(** ** The theorems at concrete settings *)

Definition smooth_boot : vna Qcanon.Qc := upd_config (set__vna_mode 2) (put_smooth_factor 3 boot).

Lemma boot_rows_ok (s : vna Qcanon.Qc) : measured s = measured boot -> wf_rows (measured s).
Proof.
  intros ->. split; [reflexivity|]. apply Forall_forall. intros row Hrow.
  assert (E : forallb (fun row => Nat.eqb (length row) 401) (measured boot) = true) by (vm_compute; reflexivity).
  rewrite forallb_forall in E. apply Nat.eqb_eq. apply E. by apply list_elem_of_In.
Qed.

Lemma smoothing_convolves_witness :
  exists row0 row1, measurementDataSmooth 1 smooth_boot = set_measured [row0; row1] smooth_boot /\ row1 = nth 1 (measured smooth_boot) [].
Proof.
  eexists _, _. split; [|reflexivity].
  refine (smoothing_convolves 1 smooth_boot (boot_rows_ok smooth_boot eq_refl) _ _); [vm_compute; congruence|vm_compute; split; congruence].
Defined.

Lemma smoothing_keeps_lines_witness : measurementDataSmooth 3 smooth_boot = smooth_boot.
Proof.
  apply (smoothing_keeps_lines 3 smooth_boot (boot_rows_ok smooth_boot eq_refl)).
  - vm_compute. congruence.
  - vm_compute. split; congruence.
  - reflexivity.
  - intros ch Hch. exists (f0, f0), (f0, f0). intros i Hi. change (sweep_points smooth_boot) with 401 in Hi.
    assert (E : forallb (fun i => let v := point_at (nth ch (measured smooth_boot) []) i in feqb (fst v) f0 && feqb (snd v) f0) (seqZ 0 401) = true).
    { do 2 (destruct ch as [|ch]; [vm_compute; reflexivity|]). lia. }
    rewrite forallb_forall in E. specialize (E i ltac:(apply list_elem_of_In, elem_of_seqZ; lia)). cbv zeta in E.
    apply andb_prop in E as [E1 E2]. apply (ea_feqb (F := Qcanon.Qc)) in E1, E2.
    destruct (point_at _ i) as [x y]. cbn [fst snd] in *. subst. unfold affine. cbn [fst snd]. f_equal; cbn; ring.
Defined.

Definition lowpass_boot : vna Qcanon.Qc := upd_props (set__mode (Z.lor DOMAIN_TIME TD_FUNC_LOWPASS_STEP)) boot.
Definition row_a : list (Qcanon.Qc * Qcanon.Qc) := replicate 401 (f1, f0).
Definition row_b : list (Qcanon.Qc * Qcanon.Qc) := put_point 300 (f0, f1) row_a.

Lemma lowpass_ignores_high_points_witness :
  point_at row_a 300 <> point_at row_b 300 /\
  point_at (transform_row lowpass_boot f1 row_a) 5 = point_at (transform_row lowpass_boot f1 row_b) 5.
Proof.
  split; [qc_neq|].
  apply (lowpass_ignores_high_points lowpass_boot f1 row_a row_b); [reflexivity|vm_compute; split; congruence|reflexivity|reflexivity| |].
  - intros p Hp. symmetry. apply point_put_ne; lia.
  - change (sweep_points lowpass_boot) with 401. lia.
Defined.

Lemma transform_is_inverse_dft_witness :
  snd (point_at (transform_row lowpass_boot f1 row_a) 7) = f0.
Proof.
  assert (Hi : 0 <= 7 < sweep_points lowpass_boot) by (vm_compute; split; congruence).
  assert (Hn : sweep_points lowpass_boot <= SWEEP_POINTS_MAX) by (vm_compute; congruence).
  pose proof (transform_is_inverse_dft lowpass_boot f1 row_a 7 Hi Hn eq_refl) as E. cbv zeta in E.
  assert (El : is_lowpass lowpass_boot = true) by (vm_compute; reflexivity). rewrite El in E.
  generalize dependent (transform_row lowpass_boot f1 row_a). intros r E. rewrite E. cbn [snd]. reflexivity.
Defined.

Lemma transform_cache_sound_witness :
  exists row0, snd (transform_domain 1 (transforms [(3, boot); (1, lowpass_boot)] td_reset) lowpass_boot) =
    set_measured [row0; nth 1 (measured lowpass_boot) []] lowpass_boot.
Proof.
  assert (He : Forall (fun '(_, s) => 0 < sweep_points s <= SWEEP_POINTS_MAX) [(3, boot); (1, lowpass_boot)])
    by (repeat constructor; vm_compute; congruence).
  assert (Hn : 0 < sweep_points lowpass_boot <= SWEEP_POINTS_MAX) by (vm_compute; split; congruence).
  pose proof (transform_cache_sound [(3, boot); (1, lowpass_boot)] 1 lowpass_boot He Hn (boot_rows_ok lowpass_boot eq_refl)) as E.
  cbv zeta in E. change (Z.testbit 1 (Z.of_nat 1)) with false in E.
  exists ((if Z.testbit 1 (Z.of_nat 0) then transform_row lowpass_boot (fresh_scale lowpass_boot) else id) (nth 0 (measured lowpass_boot) [])).
  exact E.
Defined.
