(* ===== verification/Loop.v ===== *)
(** * The sweep thread (main.c, [Thread1])

    One iteration of the main loop: a sweep that a request can interrupt or, in
    pause, the muting of the generator; then pending shell commands, the user
    interface, and the processing of a completed sweep.  What commands and user
    interface do to the instrument is an argument; drawing is not modelled. *)

From S2P Require Import Prelude Num Bus Codec Synth Cplx VnaMath Dsp Types Props Sweep Calib Measure Calibrate Process.
Local Open Scope Z_scope.

Section Thread.
Context {F : Type} `{FloatOps F} `{FloatBits F}.
Variable sincos_tbl : list Z.
Variable stack : F * F.
Implicit Types s v : vna F.

(** The instrument with the static variables of [Thread1] and of
    [transform_domain]. *)
Record sweep_thread := Thread { t_bench : bench (F := F); output_muted : bool; t_td : td_state (F := F) }.

(** What the outside does during an iteration. *)
Record iteration := Iteration {
  it_env : surroundings;
  it_requested : Z -> bool;
  it_shell : list (bench (F := F) -> bench (F := F));
  it_ui : bench (F := F) -> bench (F := F) }.

Definition on_gen (f : synth -> synth) s : vna F := store_gen (f (load_gen s)) s.

(** Sweep or pause: whether the sweep completed, the bench, [output_muted]. *)
Definition thread_measure (it : iteration) (muted : bool) (b : bench) : option (bool * bench * bool) :=
  let mask := get_sweep_mask (b_vna b) in
  if bit_test (sweep_mode (b_vna b)) (Z.lor SWEEP_ENABLE SWEEP_ONCE) then
    let b := if muted then on_vna (on_gen si5351_enable_output) b else b in
    '(completed, b) ← sweep sincos_tbl stack (it_env it) (it_requested it) true mask b;
    Some (completed, on_vna (fun s => set_sweep_mode (bit_clr (sweep_mode s) SWEEP_ONCE) s) b, false)
  else
    let mute := VNA_MODE VNA_MODE_MUTE_PAUSE (b_vna b) in
    let b := if Bool.eqb mute muted then b
             else on_vna (on_gen (if mute then si5351_disable_output else si5351_enable_output)) b in
    Some (false, b, mute).

Definition run_ui (it : iteration) (b : bench) : bench :=
  let b := on_vna (fun s => set_sweep_mode (bit_set (sweep_mode s) SWEEP_UI_MODE) s) b in
  on_vna (fun s => set_sweep_mode (bit_clr (sweep_mode s) SWEEP_UI_MODE) s) (it_ui it b).

(** [mask] is the mask of the sweep, taken before it. *)
Definition process_completed (mask : Z) (td : td_state (F := F)) (s : vna F) : td_state (F := F) * vna F :=
  let s := if smooth_factor s =? 0 then s else measurementDataSmooth mask s in
  let '(td, s) := if Z.land (props_mode s) DOMAIN_MODE =? DOMAIN_TIME then transform_domain mask td s else (td, s) in
  (td, request_to_redraw REDRAW_PLOT s).

Definition thread_step (it : iteration) (t : sweep_thread) : option sweep_thread :=
  let mask := get_sweep_mask (b_vna (t_bench t)) in
  match thread_measure it (output_muted t) (t_bench t) with
  | None => None
  | Some (completed, b, muted) =>
  let b := fold_left (fun b command => command b) (it_shell it) b in
  let b := run_ui it b in
  let processed := process_completed mask (t_td t) (b_vna b) in
  let td := if completed then fst processed else t_td t in
  let b := if completed then Bench (snd processed) (b_sampler b) else b in
  Some (Thread (on_vna (request_to_redraw REDRAW_BATTERY) b) muted td)
  end.

Definition run_thread (its : list iteration) (t : sweep_thread) : option sweep_thread :=
  fold_left (fun t it => t ← t; thread_step it t) its (Some t).
End Thread.

(** ** Settings the user interface leaves alone *)

Section Setup.
Context {F : Type} `{FloatOps F} `{FloatBits F}.
Implicit Types s v : vna F.

(** Everything a sweep depends on, the generator aside. *)
Definition setup s : config_t F * properties_t F * (Z * Z * Z * Z) * Z :=
  (config s, current_props s, (_f_start s, _f_delta s, _f_error s, _f_points s), smooth_factor s).

Lemma setup_config s v : setup v = setup s -> config v = config s.
Proof. by intros [= E _ _ _]. Qed.
Lemma setup_props s v : setup v = setup s -> current_props v = current_props s.
Proof. by intros [= _ E _ _]. Qed.
Lemma setup_frequency s v i : setup v = setup s -> getFrequency i v = getFrequency i s.
Proof. intros [= _ _ E1 E2 E3 E4 _]. unfold getFrequency. by rewrite E1, E2, E3, E4. Qed.
Lemma setup_points s v : setup v = setup s -> sweep_points v = sweep_points s.
Proof. intros E. unfold sweep_points. by rewrite (setup_props s v). Qed.

Lemma setup_interpolate m s v idx f : setup v = setup s -> ready m s -> ready m v ->
  cal_interpolate idx f v = cal_interpolate idx f s.
Proof.
  intros E Rs Rv. pose proof (setup_props s v E) as Ep. pose proof (setup_config s v E) as Ec. apply ready_band in Rs, Rv.
  assert (Eb : band_s (gen v) = band_s (gen s)) by congruence.
  unfold cal_interpolate, cal_locate, cal_fetch, cal_read, load_gen, si5351_get_harmonic_lvl. cbn. by rewrite Eb, Ec, Ep.
Qed.

Lemma setup_mask s v : setup v = setup s -> get_sweep_mask v = get_sweep_mask s.
Proof. intros E. unfold get_sweep_mask, plot_get_measure_channels, cal_status. by rewrite (setup_props s v E). Qed.

Lemma setup_hyps tbl env mask m s v G0 G1 C : setup v = setup s -> ready m v ->
  sweep_hyps tbl env mask m s G0 G1 C -> sweep_hyps tbl env mask m v G0 G1 C.
Proof.
  intros E Rv [Hn Rs Hm Hf Ht H0' H1']. pose proof (setup_points s v E) as En. pose proof (setup_config s v E) as Ec.
  split; rewrite ?En, ?Ec; try done.
  - intros p Hp. rewrite (setup_frequency s v) by done. by apply Hf.
  - intros p Hp. specialize (Ht p Hp). unfold cal_terms in *. rewrite (setup_frequency s v), (setup_interpolate m s v) by done. exact Ht.
Qed.

Lemma setup_value0 stack mask s v c p g : setup v = setup s -> value0 stack mask v c p g = value0 stack mask s c p g.
Proof. intros E. unfold value0, delayed0. by rewrite (setup_props s v E), (setup_frequency s v p E). Qed.
Lemma setup_value1 stack mask s v c p g0 g1 : setup v = setup s -> value1 stack mask v c p g0 g1 = value1 stack mask s c p g0 g1.
Proof.
  intros E. unfold value1, delayed1, corrected1, apply_CH1_error_term, s21_gain, cal_status.
  by rewrite (setup_props s v E), (setup_frequency s v p E).
Qed.

Lemma during_setup s v : during s v -> setup v = setup s.
Proof. by intros (g & ms & p & ->). Qed.

(** Both channels are always asked for. *)
Lemma mask_channels s :
  bit_test (get_sweep_mask s) SWEEP_CH0_MEASURE = true /\ bit_test (get_sweep_mask s) SWEEP_CH1_MEASURE = true /\
  bit_test (get_sweep_mask s) (Z.lor SWEEP_CH0_MEASURE SWEEP_CH1_MEASURE) = true.
Proof.
  assert (E : exists x, get_sweep_mask s = Z.lor 3 x).
  { unfold get_sweep_mask. change (Z.lor SWEEP_CH0_MEASURE SWEEP_CH1_MEASURE) with 3. destruct (_electrical_delay _) as [d0 d1].
    repeat match goal with |- context [if ?c then _ else _] => destruct c end; unfold bit_set; rewrite <- ?Z.lor_assoc; by eexists. }
  destruct E as [x ->].
  assert (Hb : forall k, 0 <= k -> Z.testbit 3 k = true -> forall w, Z.testbit w k = true -> bit_test (Z.lor 3 x) w = true).
  { intros k Hk H3 w Hw. unfold bit_test. apply negb_true_iff, Z.eqb_neq. intros E0.
    assert (Ht : Z.testbit (Z.land (Z.lor 3 x) w) k = false) by (rewrite E0; apply Z.bits_0).
    rewrite Z.land_spec, Z.lor_spec, H3, Hw in Ht. discriminate. }
  split; [by apply (Hb 0)|]. split; [by apply (Hb 1)|by apply (Hb 0)].
Qed.
End Setup.

(** ** Processing and the rows *)

Section Rows.
Context {F : Type} `{FloatOps F} `{FloatBits F}.
Implicit Types v : vna F.

Lemma each_row_keeps (g : vna F -> list (F * F) -> list (F * F)) mask v : (forall s row, length (g s row) = length row) -> wf_rows (measured v) ->
  exists ms, wf_rows ms /\
    for_range 0 2 (fun ch s => if bit_test (Z.shiftr mask ch) 1 then set_measured (alter (g s) (Z.to_nat ch) (measured s)) s else s) v = set_measured ms v.
Proof.
  intros Hg W. apply (for_range_ind (fun _ s => exists ms, wf_rows ms /\ s = set_measured ms v)); [lia| |].
  - exists (measured v). split; [done|]. by destruct v.
  - intros i s _ (ms & Wms & ->). destruct (bit_test _ 1); [|by exists ms]. eexists. split; [|reflexivity].
    destruct Wms as [Hl Hr]. split; [by rewrite length_alter|]. apply Forall_alter; [done|]. intros row _ Hrow. cbn. by rewrite Hg.
Qed.
Lemma put_points_length (g : list (F * F) -> Z -> F * F) n (row : list (F * F)) : 0 <= n ->
  length (for_range 0 n (fun i row => put_point i (g row i) row) row) = length row.
Proof. intros Hn. apply (for_range_ind (fun _ r => length r = length row)); [done|done|]. intros i r _ <-. unfold put_point. apply length_insert. Qed.
Lemma smooth_pass_length f n (row : list (F * F)) : length (smooth_pass f n row) = length row.
Proof.
  unfold smooth_pass. destruct (Z.le_gt_cases 1 (n - 1)) as [Hn|Hn]; [|by rewrite for_range_empty by lia].
  apply (for_range_ind (fun _ st => length (snd st) = length row)); [done|done|]. intros i [prev r] _ E. cbn in *. unfold put_point. by rewrite length_insert.
Qed.
Lemma smooth_row_length (s : vna F) row : length (smooth_row s row) = length row.
Proof.
  unfold smooth_row. assert (Hn : 0 <= Z.shiftl 1 (smooth_factor s - 1)) by (apply Z.shiftl_nonneg; lia).
  apply (for_range_ind (fun _ r => length r = length row)); [done|done|]. intros i r _ <-. apply smooth_pass_length.
Qed.
Lemma transform_row_length k (s : vna F) row : length (transform_row s k row) = length row.
Proof.
  unfold transform_row. cbv zeta. match goal with |- context [for_range 0 _ (fun i r => put_point i (point_at ?x i) r) row] => generalize x end. intros tmp.
  destruct (Z.le_gt_cases 0 (sweep_points s)) as [Hn|Hn]; [|by rewrite for_range_empty by lia]. exact (put_points_length (fun _ i => point_at tmp i) (sweep_points s) row Hn).
Qed.

Lemma process_rows mask td v : wf_rows (measured v) ->
  exists ms, wf_rows ms /\ snd (process_completed mask td v) = request_to_redraw REDRAW_PLOT (set_measured ms v).
Proof.
  intros W. unfold process_completed.
  assert (S : exists ms, wf_rows ms /\ (if smooth_factor v =? 0 then v else measurementDataSmooth mask v) = set_measured ms v).
  { destruct (smooth_factor v =? 0); [exists (measured v); split; [done|by destruct v]|]. apply each_row_keeps; [apply smooth_row_length|exact W]. }
  destruct S as (ms & Wms & ->). destruct (_ =? DOMAIN_TIME); [|by exists ms].
  unfold transform_domain. cbn [fst snd].
  destruct (each_row_keeps (fun s => transform_row s (window_scale (update_scale (set_measured ms v) td))) mask (set_measured ms v)
    (transform_row_length _) Wms) as (ms' & Wms' & E).
  exists ms'. split; [done|]. rewrite E. reflexivity.
Qed.
End Rows.

(** ** Interrupted sweeps *)

Section Interrupted.
Context {F : Type} `{FloatOps F} `{FloatBits F}.
Variable sincos_tbl : list Z.
Variable stack : F * F.
Variable m : Z.
(** The settings, with the readings and the terms of every point. *)
Variable s : vna F.
Variable G0 G1 : Z -> F * F.
Variable C : Z -> list (F * F).
Implicit Types (v : vna F) (b : bench (F := F)).

Definition loop_mask : Z := get_sweep_mask s.

(** The point holds its corrected readings. *)
Definition point_done v (i : Z) : Prop :=
  reading (measured v) 0 i = value0 stack loop_mask s (C i) i (G0 i) /\
  reading (measured v) 1 i = value1 stack loop_mask s (C i) i (G0 i) (G1 i).

(** Between iterations: in a sweep that is not complete the points before the current
    one are done. *)
Record resumable v : Prop := {
  rs_setup : setup v = setup s;
  rs_ready : ready m v;
  rs_rows : wf_rows (measured v);
  rs_point : 0 <= p_sweep v;
  rs_enabled : bit_test (sweep_mode v) SWEEP_ENABLE = true;
  rs_done : p_sweep v < sweep_points s -> forall i, 0 <= i < p_sweep v -> point_done v i }.

(** A command or a user action that leaves the measurement alone. *)
Definition quiet (act : bench (F := F) -> bench (F := F)) : Prop :=
  forall b, resumable (b_vna b) -> let v := b_vna b in let v' := b_vna (act b) in
  resumable v' /\ p_sweep v' = p_sweep v /\ measured v' = measured v.

Definition quiet_iteration (it : iteration (F := F)) : Prop :=
  Forall quiet (it_shell it) /\ quiet (it_ui it) /\
  forall p, 0 <= p < sweep_points s ->
    yields sincos_tbl (it_env it) (_bandwidth (config s)) 0 p (G0 p) /\ yields sincos_tbl (it_env it) (_bandwidth (config s)) 1 p (G1 p).

Definition never_requested (it : iteration (F := F)) : Prop := forall p, it_requested it p = false.

(** Changes of the mode flags other than ENABLE, and redraw requests. *)
Lemma resumable_ext v v' : setup v' = setup v -> gen v' = gen v -> measured v' = measured v -> p_sweep v' = p_sweep v ->
  bit_test (sweep_mode v') SWEEP_ENABLE = bit_test (sweep_mode v) SWEEP_ENABLE -> resumable v -> resumable v'.
Proof.
  intros Es Eg Em Ep Ef [S R W P En D]. split; rewrite ?Em, ?Ep, ?Ef; try done; try congruence.
  - unfold ready, load_gen in *. by rewrite Eg, (setup_config v v' Es), (setup_props v v' Es).
  - intros Hp i Hi. unfold point_done. rewrite Em. by apply D.
Qed.

Hypothesis Hpoints : 0 <= sweep_points s <= SWEEP_POINTS_MAX.
Hypothesis Hready : ready m s.
Hypothesis Hfreq : forall p, 0 <= p < sweep_points s -> lowest_freq m <= getFrequency p s <= FREQUENCY_MAX.
Hypothesis Hterms : forall p, 0 <= p < sweep_points s -> cal_terms loop_mask s p = Some (C p).

Lemma loop_hyps it v : quiet_iteration it -> resumable v -> sweep_hyps sincos_tbl (it_env it) loop_mask m v G0 G1 C.
Proof.
  intros (_ & _ & Y) [S R _ _ _ _]. apply (setup_hyps _ _ _ _ s); [done|done|].
  split; try done; [exact (proj2 (proj2 (mask_channels s)))| |]; intros _ p Hp; by apply Y.
Qed.

(** One sweep of the thread: it stops at the first request or at the end, and the
    points before its end are done. *)
Lemma loop_sweep it v sm : quiet_iteration it -> resumable v ->
  exists q b, sweep_start true v <= q <= sweep_points s /\ (q < sweep_points s -> it_requested it q = true) /\
    sweep sincos_tbl stack (it_env it) (it_requested it) true loop_mask (Bench v sm) = Some (q =? sweep_points s, b) /\
    p_sweep (b_vna b) = q /\ resumable (b_vna b) /\ forall i, 0 <= i < q -> point_done (b_vna b) i.
Proof.
  intros Q Rv. pose proof (loop_hyps it v Q Rv) as Hs. destruct Rv as [S R W P En D].
  destruct (sweep_run sincos_tbl stack (it_env it) (it_requested it) true loop_mask m v G0 G1 C sm Hs W P)
    as (q & b & Hq & _ & Hstop & E & Ep & _ & _ & Du & R2 & W2 & Hr).
  rewrite (setup_points s v S) in *. exists q, b. split; [done|]. split; [intros Hlt; specialize (Hstop Hlt); by rewrite andb_true_r in Hstop|].
  split; [exact E|]. split; [exact Ep|]. destruct (mask_channels s) as (M0 & M1 & _). fold loop_mask in M0, M1.
  assert (Hdone : forall i, 0 <= i < q -> point_done (b_vna b) i).
  { intros i Hi. specialize (Hr i ltac:(lia)). rewrite M0, M1 in Hr. cbv zeta in Hr. cbn [andb] in Hr.
    rewrite (proj2 (Z.ltb_lt i (q + 1))), andb_true_r in Hr by lia. unfold point_done.
    rewrite (setup_value0 stack loop_mask s v), (setup_value1 stack loop_mask s v) in Hr by done.
    destruct (Z.leb_spec (sweep_start true v) i); [exact Hr|]. destruct Hr as [-> ->].
    unfold sweep_start in *. destruct (Z.leb_spec (sweep_points v) (p_sweep v)); cbn [orb negb] in *; [lia|].
    rewrite (setup_points s v S) in *. apply D; lia. }
  split; [|exact Hdone]. split; try done.
  - rewrite <- S. by apply during_setup.
  - rewrite Ep. assert (0 <= sweep_start true v) by (unfold sweep_start; destruct (_ || _); lia). lia.
  - destruct Du as (g & ms & p & ->). exact En.
  - intros _. rewrite Ep. exact Hdone.
Qed.

Lemma mode_keeps v f : resumable v -> bit_test (f (sweep_mode v)) SWEEP_ENABLE = true -> resumable (set_sweep_mode (f (sweep_mode v)) v).
Proof. intros R E. apply (resumable_ext v); try done. cbn. by rewrite E, (rs_enabled v R). Qed.

Lemma quiet_shell acts : Forall quiet acts -> forall b, resumable (b_vna b) ->
  let b' := fold_left (fun b act => act b) acts b in resumable (b_vna b') /\ p_sweep (b_vna b') = p_sweep (b_vna b) /\ measured (b_vna b') = measured (b_vna b).
Proof.
  induction 1 as [|act acts Ha _ IH]; intros b R; cbn [fold_left]; [done|].
  destruct (Ha b R) as (R1 & P1 & M1). destruct (IH (act b) R1) as (R2 & P2 & M2). by rewrite P2, M2, P1, M1.
Qed.

Lemma enable_kept x k : 1 <= k -> bit_test x SWEEP_ENABLE = true ->
  bit_test (bit_clr x (2 ^ k)) SWEEP_ENABLE = true /\ bit_test (bit_set x (2 ^ k)) SWEEP_ENABLE = true.
Proof.
  intros Hk E. change SWEEP_ENABLE with (2 ^ 0) in *. rewrite bit_test_clr, bit_test_set, E, (proj2 (Z.eqb_neq k 0)) by lia. done.
Qed.

Lemma quiet_ui it b : quiet (it_ui it) -> resumable (b_vna b) ->
  resumable (b_vna (run_ui it b)) /\ p_sweep (b_vna (run_ui it b)) = p_sweep (b_vna b) /\ measured (b_vna (run_ui it b)) = measured (b_vna b).
Proof.
  intros Qu R. unfold run_ui. set (b3 := on_vna (fun s => set_sweep_mode (bit_set (sweep_mode s) SWEEP_UI_MODE) s) b).
  assert (R3 : resumable (b_vna b3)).
  { apply (mode_keeps (b_vna b) (fun x => bit_set x SWEEP_UI_MODE)); [done|]. apply (enable_kept _ 7); [lia|]. apply R. }
  destruct (Qu b3 R3) as (R4 & P4 & M4). split; [|split; [exact P4|exact M4]].
  apply (mode_keeps (b_vna (it_ui it b3)) (fun x => bit_clr x SWEEP_UI_MODE)); [done|]. apply (enable_kept _ 7); [lia|]. apply R4.
Qed.

(** Processing replaces the readings of a completed sweep and nothing else. *)
Lemma process_keeps td v : resumable v -> exists ms, wf_rows ms /\
  snd (process_completed loop_mask td v) = request_to_redraw REDRAW_PLOT (set_measured ms v).
Proof. intros R. apply process_rows, R. Qed.
Lemma resumable_processed v ms v' : wf_rows ms -> resumable v -> p_sweep v = sweep_points s ->
  v' = request_to_redraw REDRAW_BATTERY (request_to_redraw REDRAW_PLOT (set_measured ms v)) -> resumable v'.
Proof.
  intros W R P ->. destruct R as [S Rd _ P0 En _]. split; try done. intros Hlt. exfalso. change (p_sweep v < sweep_points s) in Hlt. lia.
Qed.
Lemma process_plain td v : setup v = setup s -> smooth_factor s = 0 -> Z.land (props_mode s) DOMAIN_MODE = DOMAIN_FREQ ->
  process_completed loop_mask td v = (td, request_to_redraw REDRAW_PLOT v).
Proof.
  intros S Hs Hd. unfold process_completed.
  assert (Es : smooth_factor v = 0) by (unfold setup in S; congruence). rewrite Es. cbn [Z.eqb].
  unfold props_mode. rewrite (setup_props s v S). fold (props_mode s). rewrite Hd. reflexivity.
Qed.

(** One iteration of the thread: a sweep that was not requested to stop is complete,
    and what is left are its readings, processed. *)
Definition finished (t' : sweep_thread (F := F)) : Prop :=
  p_sweep (b_vna (t_bench t')) = sweep_points s /\
  exists td v, setup v = setup s /\ (forall i, 0 <= i < sweep_points s -> point_done v i) /\
    t_td t' = fst (process_completed loop_mask td v) /\
    measured (b_vna (t_bench t')) = measured (snd (process_completed loop_mask td v)).

Lemma thread_step_resumes it (t : sweep_thread (F := F)) : quiet_iteration it -> output_muted t = false ->
  resumable (b_vna (t_bench t)) ->
  exists t', thread_step sincos_tbl stack it t = Some t' /\ output_muted t' = false /\ resumable (b_vna (t_bench t')) /\
    (never_requested it -> finished t').
Proof.
  intros Q Em Rv. destruct t as [[v sm] mut td]. cbn [t_bench b_vna output_muted] in *. subst mut.
  destruct (loop_sweep it v sm Q Rv) as (q & b & Hq & Hstop & E & Ep & R1 & Hdone).
  assert (Emask : get_sweep_mask v = loop_mask) by (apply setup_mask, Rv).
  assert (Een : bit_test (sweep_mode v) (Z.lor SWEEP_ENABLE SWEEP_ONCE) = true).
  { pose proof (rs_enabled v Rv) as En. revert En. unfold bit_test. rewrite Z.land_lor_distr_r, !negb_true_iff, !Z.eqb_neq.
    intros Hn E0. apply Hn. by apply Z.lor_eq_0_iff in E0 as [E0 _]. }
  unfold thread_step, thread_measure. cbn [t_bench b_vna output_muted t_td]. rewrite Een, Emask, E. cbn [mbind option_bind].
  destruct Q as (Qs & Qu & _).
  set (b1 := on_vna (fun s => set_sweep_mode (bit_clr (sweep_mode s) SWEEP_ONCE) s) b).
  assert (R2 : resumable (b_vna b1)).
  { apply (mode_keeps (b_vna b) (fun x => bit_clr x SWEEP_ONCE)); [done|]. apply (enable_kept _ 1); [lia|]. apply R1. }
  destruct (quiet_shell (it_shell it) Qs b1 R2) as (R3 & P3 & M3). cbv zeta in R3, P3, M3. set (b2 := fold_left _ (it_shell it) b1) in *.
  destruct (quiet_ui it b2 Qu R3) as (R4 & P4 & M4). set (b4 := run_ui it b2) in *.
  assert (P : p_sweep (b_vna b4) = q) by (rewrite P4, P3; exact Ep).
  assert (M : measured (b_vna b4) = measured (b_vna b)) by (rewrite M4, M3; reflexivity).
  clearbody b4. clear P4 M4 b2 R3 P3 M3 b1 R2 E Ep.
  pose proof (process_keeps td _ R4) as (ms & Wms & Eproc).
  eexists. split; [reflexivity|]. split; [reflexivity|]. cbn [t_bench]. split.
  - destruct (Z.eqb_spec q (sweep_points s)) as [Eq|]; [|by apply (resumable_ext (b_vna b4))].
    apply (resumable_processed (b_vna b4) ms _ Wms R4); [by rewrite P, Eq|]. cbn [on_vna b_vna b_sampler]. by rewrite Eproc.
  - intros Hn. assert (Hqe : q = sweep_points s).
    { destruct (Z.lt_ge_cases q (sweep_points s)) as [Hlt|]; [|lia]. specialize (Hstop Hlt). by rewrite Hn in Hstop. }
    rewrite Hqe, Z.eqb_refl. unfold finished. cbn [t_bench t_td on_vna b_vna b_sampler]. split.
    + rewrite <- Hqe, <- P. by rewrite Eproc.
    + exists td, (b_vna b4). split; [apply R4|]. split; [|done]. intros i Hi. unfold point_done. rewrite M. apply Hdone. lia.
Qed.

Lemma run_thread_resumes its : Forall quiet_iteration its -> forall t : sweep_thread (F := F),
  output_muted t = false -> resumable (b_vna (t_bench t)) ->
  exists t', run_thread sincos_tbl stack its t = Some t' /\ output_muted t' = false /\ resumable (b_vna (t_bench t')).
Proof.
  unfold run_thread. induction 1 as [|it its Hq _ IH]; intros t Em R; cbn [fold_left]; [by exists t|].
  destruct (thread_step_resumes it t Hq Em R) as (t1 & E1 & Em1 & R1 & _). cbn [mbind option_bind]. rewrite E1. by apply IH.
Qed.

(** C6: However often the user interrupts it, a sweep gets done: with a ready generator,
    frequencies it covers, correction terms for every point and codec readings that
    arrive, sweeping enabled and the output not muted, from a state where the points
    before the current one of an incomplete sweep are measured, after any iterations
    of the thread with interruptions anywhere and actions that leave the measurement
    (settings, generator, data, current point) alone, one iteration without a request
    completes: what is
    stored is the result of processing (smoothing, time domain) a sweep in which every
    point of both channels has its corrected reading, as one uninterrupted sweep has
    it; with smoothing off in the frequency domain it is those readings. *)
Theorem interrupted_sweep_completes its it (t : sweep_thread (F := F)) :
  Forall quiet_iteration its -> quiet_iteration it -> never_requested it -> output_muted t = false -> resumable (b_vna (t_bench t)) ->
  exists t' td v, run_thread sincos_tbl stack (its ++ [it]) t = Some t' /\ output_muted t' = false /\
    p_sweep (b_vna (t_bench t')) = sweep_points s /\ setup (b_vna (t_bench t')) = setup s /\
    setup v = setup s /\ (forall i, 0 <= i < sweep_points s -> point_done v i) /\
    measured (b_vna (t_bench t')) = measured (snd (process_completed loop_mask td v)) /\
    (smooth_factor s = 0 -> Z.land (props_mode s) DOMAIN_MODE = DOMAIN_FREQ ->
      forall i, 0 <= i < sweep_points s -> point_done (b_vna (t_bench t')) i).
Proof.
  intros Qs Q Hn Em R. destruct (run_thread_resumes its Qs t Em R) as (t1 & E1 & Em1 & R1).
  destruct (thread_step_resumes it t1 Q Em1 R1) as (t' & E & Em' & R' & P). destruct (P Hn) as (Ep & td & v & Sv & Dv & _ & Mv).
  exists t', td, v. unfold run_thread in *. rewrite fold_left_app, E1. split; [exact E|]. do 2 (split; [done|]). split; [apply R'|].
  do 3 (split; [done|]). intros Hs Hd i Hi. unfold point_done. rewrite Mv. by rewrite (process_plain td v Sv Hs Hd); apply Dv.
Qed.
End Interrupted.

(** ** On the bench *)

Definition desk_iteration (requested : Z -> bool) : iteration (F := Qcanon.Qc) := Iteration (steady 35 (-25)) requested [] id.

Lemma desk_iteration_quiet requested : quiet_iteration flat_table (f0, f0) 0 desk (fun _ => steady_gamma 35 4) (fun _ => steady_gamma (-25) 4) (fun _ => []) (desk_iteration requested).
Proof.
  split; [constructor|]. split; [intros b R; exact (conj R (conj eq_refl eq_refl))|]. intros p _. rewrite desk_bandwidth. split.
  - apply (steady_yields 35 (-25) 3 0 p); split; lia.
  - apply (steady_yields 35 (-25) 3 1 p); split; lia.
Qed.

Lemma interrupted_sweep_completes_witness :
  exists t', run_thread flat_table (f0, f0)
      ([desk_iteration (fun p => p =? 100); desk_iteration (fun p => p =? 7); desk_iteration (fun p => p =? 399)] ++ [desk_iteration (fun _ => false)])
      (Thread (Bench desk (Sampler 0 0 accs_zero)) false td_reset) = Some t' /\ p_sweep (b_vna (t_bench t')) = 401.
Proof.
  assert (Em : loop_mask desk = 3) by (vm_compute; reflexivity).
  destruct (interrupted_sweep_completes (F := Qcanon.Qc) flat_table (f0, f0) 0 desk (fun _ => steady_gamma 35 4) (fun _ => steady_gamma (-25) 4) (fun _ => []))
    with (its := [desk_iteration (fun p => p =? 100); desk_iteration (fun p => p =? 7); desk_iteration (fun p => p =? 399)])
      (it := desk_iteration (fun _ => false)) (t := Thread (Bench desk (Sampler 0 0 accs_zero)) false (td_reset (F := Qcanon.Qc)))
    as (t' & td & v & E & _ & P & _).
  - rewrite desk_points. vm_compute. split; congruence.
  - exact desk_ready.
  - rewrite desk_points. exact desk_frequencies.
  - intros p _. rewrite Em. reflexivity.
  - repeat (constructor; [apply desk_iteration_quiet|]). constructor.
  - apply desk_iteration_quiet.
  - intros p. reflexivity.
  - reflexivity.
  - cbn [t_bench b_vna]. assert (Ep : p_sweep desk = 0) by (vm_compute; reflexivity).
    split; [reflexivity|exact desk_ready|exact desk_rows|rewrite Ep; lia|vm_compute; reflexivity|]. intros _ i Hi. rewrite Ep in Hi. lia.
  - exists t'. split; [exact E|]. rewrite P. exact desk_points.
Defined.
