(* ===== verification/Shell.v ===== *)
(** * The shell (main.c, and [apply_VNA_mode] of ui.c)

    The command line: [VNAShell_readLine], [VNAShell_parceLine],
    [VNAShell_executeLine], the scripts of [VNAShell_executeCMDLine], the command
    table of the build with its flags, and the commands that act on the instrument.
    A command that needs the sweep thread is left in [shell_function] and run there
    ([run_shell_function], in [Thread1]).

    The commands allowed in scripts are all modelled.  Of the others, those that talk to
    other devices (screen capture, touch, SD card, clock, memory dump) and the texts of
    [info] and [version] are a parameter: a function from the arguments and the console
    to the console.  What the battery and the serial port answer is a parameter too.

    A line runs the command it names, with the rest of it as arguments
    ([line_runs_command]); a script has the effect the console has
    ([script_is_console]); a line that names no command or has too many arguments is
    reported and changes nothing ([refused_line_reports]).  [sweep] sets what it then
    reports ([sweep_command_reports]); [scan_bin] sends what it measures
    ([scan_bin_sends]). *)

From S2P Require Import Prelude Num Common Colour Printf Synth Dsp Types Props Sweep Calib Layout Storage Backup Measure Calibrate.

Definition VNA_SHELL_MAX_ARGUMENTS : Z := 4.
Definition VNA_SHELL_MAX_LENGTH : Z := 64.
Definition VNA_SHELL_NEWLINE : list Z := [13; 10].
Definition OP_CONSOLE : Z := 4.
Definition MAX_PALETTE : Z := 32.
Definition line_of (s : string) : list Z := cstr s ++ VNA_SHELL_NEWLINE.

(** ** The command table *)

Inductive command :=
  | Cmd_scan | Cmd_scan_bin | Cmd_data | Cmd_frequencies | Cmd_freq | Cmd_sweep | Cmd_power | Cmd_offset | Cmd_bandwidth
  | Cmd_time | Cmd_sd_list | Cmd_sd_read | Cmd_sd_delete | Cmd_saveconfig | Cmd_clearconfig | Cmd_dump | Cmd_touchcal
  | Cmd_touchtest | Cmd_pause | Cmd_resume | Cmd_msg | Cmd_cal | Cmd_save | Cmd_recall | Cmd_trace | Cmd_marker
  | Cmd_edelay | Cmd_s21offset | Cmd_capture | Cmd_measure | Cmd_refresh | Cmd_touch | Cmd_release | Cmd_vbat | Cmd_tcxo
  | Cmd_reset | Cmd_smooth | Cmd_config | Cmd_usart_cfg | Cmd_usart | Cmd_vbat_offset | Cmd_transform | Cmd_threshold
  | Cmd_help | Cmd_info | Cmd_version | Cmd_idn | Cmd_color.
#[export] Instance command_eq_dec : EqDecision command.
Proof. solve_decision. Defined.

Definition CMD_WAIT_MUTEX : Z := 1.
Definition CMD_BREAK_SWEEP : Z := 2.
Definition CMD_RUN_IN_UI : Z := 4.
Definition CMD_RUN_IN_LOAD : Z := 8.

Record VNAShellCommand := ShellCommand { sc_name : list Z; sc_function : command; sc_flags : Z }.
Definition entry (name : string) (c : command) (flags : Z) : VNAShellCommand := ShellCommand (cstr name) c flags.
Definition ON_SWEEP : Z := Z.lor CMD_WAIT_MUTEX CMD_BREAK_SWEEP.
Definition ON_SWEEP_UI : Z := Z.lor ON_SWEEP CMD_RUN_IN_UI.
Definition ON_SWEEP_ALL : Z := Z.lor ON_SWEEP_UI CMD_RUN_IN_LOAD.

Definition commands : list VNAShellCommand := [
  entry "scan" Cmd_scan ON_SWEEP; entry "scan_bin" Cmd_scan_bin ON_SWEEP; entry "data" Cmd_data 0;
  entry "frequencies" Cmd_frequencies 0; entry "freq" Cmd_freq ON_SWEEP_ALL; entry "sweep" Cmd_sweep ON_SWEEP_ALL;
  entry "power" Cmd_power CMD_RUN_IN_LOAD; entry "offset" Cmd_offset (Z.lor CMD_WAIT_MUTEX (Z.lor CMD_RUN_IN_UI CMD_RUN_IN_LOAD));
  entry "bandwidth" Cmd_bandwidth CMD_RUN_IN_LOAD; entry "time" Cmd_time CMD_RUN_IN_UI;
  entry "sd_list" Cmd_sd_list ON_SWEEP_UI; entry "sd_read" Cmd_sd_read ON_SWEEP_UI; entry "sd_delete" Cmd_sd_delete ON_SWEEP_UI;
  entry "saveconfig" Cmd_saveconfig CMD_RUN_IN_LOAD; entry "clearconfig" Cmd_clearconfig CMD_RUN_IN_LOAD; entry "dump" Cmd_dump ON_SWEEP;
  entry "touchcal" Cmd_touchcal ON_SWEEP; entry "touchtest" Cmd_touchtest ON_SWEEP;
  entry "pause" Cmd_pause (Z.lor CMD_BREAK_SWEEP (Z.lor CMD_RUN_IN_UI CMD_RUN_IN_LOAD)); entry "resume" Cmd_resume ON_SWEEP_ALL;
  entry "msg" Cmd_msg (Z.lor ON_SWEEP CMD_RUN_IN_LOAD); entry "cal" Cmd_cal CMD_WAIT_MUTEX; entry "save" Cmd_save CMD_RUN_IN_LOAD;
  entry "recall" Cmd_recall ON_SWEEP_ALL; entry "trace" Cmd_trace CMD_RUN_IN_LOAD; entry "marker" Cmd_marker CMD_RUN_IN_LOAD;
  entry "edelay" Cmd_edelay CMD_RUN_IN_LOAD; entry "s21offset" Cmd_s21offset CMD_RUN_IN_LOAD; entry "capture" Cmd_capture ON_SWEEP_UI;
  entry "measure" Cmd_measure ON_SWEEP_ALL; entry "refresh" Cmd_refresh ON_SWEEP_UI; entry "touch" Cmd_touch ON_SWEEP_UI;
  entry "release" Cmd_release ON_SWEEP_UI; entry "vbat" Cmd_vbat CMD_RUN_IN_LOAD; entry "tcxo" Cmd_tcxo CMD_RUN_IN_LOAD;
  entry "reset" Cmd_reset (Z.lor ON_SWEEP CMD_RUN_IN_LOAD); entry "smooth" Cmd_smooth ON_SWEEP_ALL; entry "config" Cmd_config ON_SWEEP_ALL;
  entry "usart_cfg" Cmd_usart_cfg ON_SWEEP_ALL; entry "usart" Cmd_usart ON_SWEEP_ALL; entry "vbat_offset" Cmd_vbat_offset CMD_RUN_IN_LOAD;
  entry "transform" Cmd_transform CMD_RUN_IN_LOAD; entry "threshold" Cmd_threshold CMD_RUN_IN_LOAD; entry "help" Cmd_help 0;
  entry "info" Cmd_info 0; entry "version" Cmd_version 0; entry "*IDN?" Cmd_idn 0; entry "*idn?" Cmd_idn 0; entry "color" Cmd_color CMD_RUN_IN_LOAD ].

(** [get_str_index(scp->sc_name, shell_args[0]) == 0]: the word typed is the list. *)
Definition find_command (word : list Z) : option VNAShellCommand :=
  snd <$> list_find (fun c => get_str_index (sc_name c) word = 0) commands.

Section Shell.
Context {F : Type} `{FloatOps F} `{FloatBits F}.

(** ** The console *)

(** Beside the instrument and its storage: the sampler, [data_update] of plot.c, and
    what has been sent on the serial port by [usart]. *)
Record rig := Rig { rg_sampler : sampler; rg_data_update : Z; rg_serial : list Z }.
Definition put_sampler (sm : sampler) (g : rig) : rig := Rig sm (rg_data_update g) (rg_serial g).

(** The instrument with its storage, the rig, whether [shell_stream] is set, and what
    the host has been sent. *)
Record console := Console { con_store : store F; con_rig : rig; con_stream : bool; con_out : list Z }.
Implicit Types (c : console).

Definition con_vna c : vna F := st_vna (con_store c).
Definition con_sampler c : sampler := rg_sampler (con_rig c).
Definition put_store (s : store F) c : console := Console s (con_rig c) (con_stream c) (con_out c).
Definition put_stream (b : bool) c : console := Console (con_store c) (con_rig c) b (con_out c).
Definition put_rig (g : rig) c : console := Console (con_store c) g (con_stream c) (con_out c).
Definition put_out (d : list Z) c : console := Console (con_store c) (con_rig c) (con_stream c) (con_out c ++ d).
(** What [shell_printf] does with its text: nothing without a stream. *)
Definition emit (d : list Z) c : console := if con_stream c then put_out d c else c.
(** [shell_write] has no such check: without a stream it calls through a null pointer. *)
Definition shell_write (d : list Z) c : option console := if con_stream c then Some (put_out d c) else None.
Definition upd_con (g : vna F -> vna F) c : console := put_store (upd_vna g (con_store c)) c.

Definition VNA_MODE_SEPARATOR : Z := 8.
Definition DIGIT_SEPARATOR (s : vna F) : Z := if VNA_MODE VNA_MODE_SEPARATOR s then 44 else 46.

(** A command gives [None] when it does not return: a directive the arguments do not
    fit, a write without a stream, a reset. *)
Definition shell_printf (fmt : list Z) (args : list (parg F)) c : option console :=
  if con_stream c then out ← chvprintf (DIGIT_SEPARATOR (con_vna c)) fmt args; Some (emit out c) else Some c.

Definition argv (args : list (list Z)) (i : nat) : list Z := nth i args [].
Definition aint (z : Z) : parg F := AInt z.
Definition astr (s : list Z) : parg F := AStr (Some s).

(** [for (i = 0; ...) shell_printf(...)] *)
Fixpoint print_all (l : list (list Z * list (parg F))) c : option console :=
  match l with
  | [] => Some c
  | (fmt, args) :: l => c ← shell_printf fmt args c; print_all l c
  end.

(** ** Commands *)

Definition cmd_pause (args : list (list Z)) c : option console := Some (upd_con pause_sweep c).
Definition cmd_resume (args : list (list Z)) c : option console :=
  Some (upd_con resume_sweep (upd_con update_frequencies c)).

Definition USAGE : list Z := line_of "usage: %s" ++ line_of "current: %u".

Definition cmd_smooth (args : list (list Z)) c : option console :=
  if negb (length args =? 1)%nat then shell_printf USAGE [astr (cstr "smooth {0-8}"); aint (smooth_factor (con_vna c))] c
  else Some (upd_con (set_smooth_factor (u8 (my_atoui (argv args 0)))) c).

(** [vna_mode_data[].update_flag] (ui.c). *)
Definition vna_mode_flags : list Z :=
  [REDRAW_BACKUP; REDRAW_BACKUP; REDRAW_BACKUP; REDRAW_BACKUP; Z.lor REDRAW_BACKUP REDRAW_AREA; Z.lor REDRAW_BACKUP REDRAW_AREA;
   REDRAW_BACKUP; Z.lor REDRAW_BACKUP REDRAW_ALL; Z.lor REDRAW_BACKUP (Z.lor REDRAW_MARKER REDRAW_FREQUENCY);
   REDRAW_BACKUP; REDRAW_BACKUP; REDRAW_BACKUP; REDRAW_BACKUP].
Definition VNA_MODE_CONNECTION : Z := 2.
Definition VNA_MODE_TIFF : Z := 9.
Definition VNA_MODE_PNG : Z := 10.

(** Resetting the console selects the stream again; flipping the display is not modelled. *)
Definition apply_VNA_mode (idx operation : Z) c : console :=
  let m := Z.shiftl 1 idx in
  let old := _vna_mode (config (con_vna c)) in
  let new := u16 (if operation =? 0 then bit_clr old m else if operation =? 1 then bit_set old m else Z.lxor old m) in
  let c := upd_con (upd_config (set__vna_mode new)) c in
  if old =? new then c else
  let c := upd_con (request_to_redraw (nth (Z.to_nat idx) vna_mode_flags 0)) c in
  if idx =? VNA_MODE_CONNECTION then put_stream true c else c.

Definition cmd_mode_list : list Z := cstr "auto|avg|connection|mode|grid|dot|bk|flip|separator|tif".
Definition cmd_config (args : list (list Z)) c : option console :=
  let idx := get_str_index (argv args 0) cmd_mode_list in
  if (length args =? 2)%nat && (0 <=? idx) then Some (apply_VNA_mode idx (my_atoui (argv args 1)) c)
  else shell_printf (line_of "usage: config {%s} [0|1]") [astr cmd_mode_list] c.

Definition cmd_offset (args : list (list Z)) c : option console :=
  if negb (length args =? 1)%nat then shell_printf USAGE [astr (cstr "offset {frequency offset(Hz)}"); aint (_IF_freq (config (con_vna c)))] c
  else Some (upd_con (on_synth (si5351_set_frequency_offset (my_atoi (argv args 0)))) c).

Definition cmd_tcxo (args : list (list Z)) c : option console :=
  if negb (length args =? 1)%nat then shell_printf USAGE [astr (cstr "tcxo {TCXO frequency(Hz)}"); aint (_xtal_freq (config (con_vna c)))] c
  else Some (upd_con (on_synth (si5351_set_tcxo (my_atoui (argv args 0)))) c).

Definition cmd_freq (args : list (list Z)) c : option console :=
  if negb (length args =? 1)%nat then shell_printf (line_of "usage: freq {frequency(Hz)}") [] c
  else
    let freq := my_atoui (argv args 0) in
    '(s, _) ← set_frequency freq (pause_sweep (con_vna c));
    Some (upd_con (fun _ => s) c).

Definition cmd_power (args : list (list Z)) c : option console :=
  if negb (length args =? 1)%nat then
    shell_printf (line_of "usage: power {0-3}|{255 - auto}" ++ line_of "power: %d") [aint (_power (current_props (con_vna c)))] c
  else s ← set_power (u8 (my_atoi (argv args 0))) (con_vna c); Some (upd_con (fun _ => s) c).

Definition cmd_threshold (args : list (list Z)) c : option console :=
  if negb (length args =? 1)%nat then
    shell_printf USAGE [astr (cstr "threshold {frequency in harmonic mode}"); aint (_harmonic_freq_threshold (config (con_vna c)))] c
  else Some (upd_con (upd_config (set__harmonic_freq_threshold (my_atoui (argv args 0)))) c).

Definition cmd_saveconfig (args : list (list Z)) c : option console :=
  '(_, s) ← config_save (con_store c); shell_printf (line_of "Config saved") [] (put_store s c).

Definition cmd_clearconfig (args : list (list Z)) c : option console :=
  if negb (length args =? 1)%nat then shell_printf (line_of "usage: clearconfig {protection key}") [] c
  else if negb (get_str_index (argv args 0) (cstr "1234") =? 0) then shell_printf (line_of "Key unmatched.") [] c
  else
    s ← clear_all_config_prop_data (con_store c);
    shell_printf (line_of "Config and all cal data cleared." ++
      line_of "Do reset manually to take effect. Then do touch cal and save.") [] (put_store s c).

Definition pair_line (p : F * F) : list Z * list (parg F) := (line_of "%f %f", [AFloat (fst p); AFloat (snd p)]).
Definition cmd_data (args : list (list Z)) c : option console :=
  let sel := if (length args =? 1)%nat then my_atoi (argv args 0) else 0 in
  if (sel <? 0) || (7 <=? sel) then shell_printf (line_of "usage: data [array]") [] c else
  let s := con_vna c in
  let array := if sel <? 2 then nth (Z.to_nat sel) (measured s) [] else nth (Z.to_nat (sel - 2)) (_cal_data (current_props s)) [] in
  print_all (map (fun i => pair_line (nth (Z.to_nat i) array (f0, f0))) (seqZ 0 (sweep_points s))) c.

Definition cmd_frequencies (args : list (list Z)) c : option console :=
  let s := con_vna c in
  print_all (map (fun i => (line_of "%u", [aint (getFrequency i s)])) (seqZ 0 (sweep_points s))) c.

Definition cmd_bandwidth (args : list (list Z)) c : option console :=
  let c :=
    if (length args =? 1)%nat then upd_con (set_bandwidth (u16 (my_atoui (argv args 0)))) c
    else if (length args =? 2)%nat then upd_con (set_bandwidth (bandwidth_of_frequency (u16 (my_atoui (argv args 0))))) c
    else c in
  let bw := _bandwidth (config (con_vna c)) in
  shell_printf (line_of "bandwidth %d (%uHz)") [aint bw; aint (get_bandwidth_frequency bw)] c.

Definition sweep_cmd : list Z := cstr "start|stop|center|span|cw|step|var".
Definition cmd_sweep (args : list (list Z)) c : option console :=
  let usage := shell_printf (line_of "usage: sweep {start(Hz)} [stop(Hz)] [points]" ++ [9] ++ line_of "sweep {%s} {freq(Hz)}") [astr sweep_cmd] c in
  let argc := length args in
  if (argc =? 0)%nat then
    let s := con_vna c in
    shell_printf (line_of "%u %u %d") [aint (get_sweep_frequency ST_START s); aint (get_sweep_frequency ST_STOP s); aint (sweep_points s)] c
  else if (3 <? argc)%nat then usage else
  let value0 := if (1 <=? argc)%nat then my_atoui (argv args 0) else 0 in
  let value1 := if (2 <=? argc)%nat then my_atoui (argv args 1) else 0 in
  let value2 := if (3 <=? argc)%nat then my_atoui (argv args 2) else 0 in
  if (argc =? 2)%nat && (value0 =? 0) then
    let type := get_str_index (argv args 0) sweep_cmd in
    if type =? -1 then usage else Some (upd_con (set_sweep_frequency type value1) c)
  else
    let c := if value0 =? 0 then c else upd_con (set_sweep_frequency ST_START value0) c in
    let c := if value1 =? 0 then c else upd_con (set_sweep_frequency ST_STOP value1) c in
    Some (if value2 =? 0 then c else upd_con (set_sweep_points (u16 value2)) c).

(** What the outside does while a standard is collected. *)
Context (sincos_tbl : list Z) (stack : F * F) (env : surroundings) (requested : Z -> bool).
Definition con_collect (type : nat) c : option console :=
  b ← cal_collect sincos_tbl stack env requested type (Bench (con_vna c) (con_sampler c));
  Some (Console (upd_vna (fun _ => b_vna b) (con_store c)) (put_sampler (b_sampler b) (con_rig c)) (con_stream c) (con_out c)).

(** *** scan *)

Definition SCAN_MASK_OUT_FREQ : Z := 1.
Definition SCAN_MASK_OUT_DATA0 : Z := 2.
Definition SCAN_MASK_OUT_DATA1 : Z := 4.
Definition SCAN_MASK_NO_CALIBRATION : Z := 8.
Definition SCAN_MASK_NO_EDELAY : Z := 16.
Definition SCAN_MASK_NO_S21OFFS : Z := 32.
Definition SCAN_MASK_BINARY : Z := 128.

(** [sweep_ch]; [base] are the channels asked for. *)
Definition scan_channels (base mask start stop : Z) (s : vna F) : Z :=
  let ch := base in
  let ch := if bit_test (cal_status s) CALSTAT_APPLY && negb (bit_test mask SCAN_MASK_NO_CALIBRATION) then bit_set ch SWEEP_APPLY_CALIBRATION else ch in
  let '(d0, d1) := _electrical_delay (current_props s) in
  let ch := if fneqb d0 f0 && negb (bit_test mask SCAN_MASK_NO_EDELAY) then bit_set ch SWEEP_APPLY_EDELAY_S11 else ch in
  let ch := if fneqb d1 f0 && negb (bit_test mask SCAN_MASK_NO_EDELAY) then bit_set ch SWEEP_APPLY_EDELAY_S21 else ch in
  let ch := if fneqb (_s21_offset (current_props s)) f0 && negb (bit_test mask SCAN_MASK_NO_S21OFFS) then bit_set ch SWEEP_APPLY_S21_OFFSET else ch in
  if needInterpolate start stop (sweep_points s) s then bit_set ch SWEEP_USE_INTERPOLATION else ch.

Definition con_sweep (mask : Z) c : option console :=
  '(_, b) ← sweep sincos_tbl stack env requested false mask (Bench (con_vna c) (con_sampler c));
  Some (Console (upd_vna (fun _ => b_vna b) (con_store c)) (put_sampler (b_sampler b) (con_rig c)) (con_stream c) (con_out c)).

Definition measured_at (ch : nat) (i : Z) (s : vna F) : F * F := nth (Z.to_nat i) (nth ch (measured s) []) (f0, f0).
Definition value_bytes (v : F * F) : list Z := to_le 4 (f_bits (fst v)) ++ to_le 4 (f_bits (snd v)).
Definition scan_record (mask freq : Z) (v0 v1 : F * F) : list Z :=
  (if bit_test mask SCAN_MASK_OUT_FREQ then to_le 4 freq else []) ++
  (if bit_test mask SCAN_MASK_OUT_DATA0 then value_bytes v0 else []) ++
  (if bit_test mask SCAN_MASK_OUT_DATA1 then value_bytes v1 else []).
Definition scan_binary (mask points : Z) (s : vna F) : list Z :=
  to_le 2 mask ++ to_le 2 points ++
  concat (map (fun i => scan_record mask (getFrequency i s) (measured_at 0 i s) (measured_at 1 i s)) (seqZ 0 points)).
Definition scan_lines (mask i : Z) (s : vna F) : list (list Z * list (parg F)) :=
  (if bit_test mask SCAN_MASK_OUT_FREQ then [(cstr "%u ", [aint (getFrequency i s)])] else []) ++
  (if bit_test mask SCAN_MASK_OUT_DATA0 then [(cstr "%f %f ", [AFloat (fst (measured_at 0 i s)); AFloat (snd (measured_at 0 i s))])] else []) ++
  (if bit_test mask SCAN_MASK_OUT_DATA1 then [(cstr "%f %f ", [AFloat (fst (measured_at 1 i s)); AFloat (snd (measured_at 1 i s))])] else []) ++
  [(VNA_SHELL_NEWLINE, [])].

Definition set_binary (b : bool) (s : vna F) : vna F :=
  set_sweep_mode ((if b then bit_set else bit_clr) (sweep_mode s) SWEEP_BINARY) s.

Definition cmd_scan (args : list (list Z)) c : option console :=
  let argc := length args in
  if (argc <? 2)%nat || (4 <? argc)%nat then shell_printf (line_of "usage: scan {start(Hz)} {stop(Hz)} [points] [outmask]") [] c else
  let start := my_atoui (argv args 0) in
  let stop := my_atoui (argv args 1) in
  if (start =? 0) || (stop =? 0) || (stop <? start) then shell_printf (line_of "frequency range is invalid") [] c else
  let points := if (3 <=? argc)%nat then u16 (my_atoui (argv args 2)) else sweep_points (con_vna c) in
  if (3 <=? argc)%nat && ((points =? 0) || (SWEEP_POINTS_MAX <? points)) then shell_printf (line_of "sweep points exceeds range 401") [] c else
  let c := upd_con (upd_props (set__sweep_points points)) c in
  let mask := u16 (my_atoui (argv args 3)) in
  let mask := if (argc =? 4)%nat then (if bit_test (sweep_mode (con_vna c)) SWEEP_BINARY then bit_set mask SCAN_MASK_BINARY else mask) else 0 in
  let base := if (argc =? 4)%nat then Z.land (Z.shiftr mask 1) 3 else Z.lor SWEEP_CH0_MEASURE SWEEP_CH1_MEASURE in
  let c := upd_con (set_binary false) c in
  let sweep_ch := scan_channels base mask start stop (con_vna c) in
  let c := upd_con (set_frequencies start stop points) c in
  c ← (if bit_test sweep_ch (Z.lor SWEEP_CH0_MEASURE SWEEP_CH1_MEASURE) then con_sweep sweep_ch c else Some c);
  let c := upd_con pause_sweep c in
  if mask =? 0 then Some c
  else if bit_test mask SCAN_MASK_BINARY then shell_write (scan_binary mask points (con_vna c)) c
  else print_all (concat (map (fun i => scan_lines mask i (con_vna c)) (seqZ 0 points))) c.

Definition cmd_scan_bin (args : list (list Z)) c : option console :=
  c ← cmd_scan args (upd_con (set_binary true) c); Some (upd_con (set_binary false) c).

Definition cal_items : list (list Z) := map cstr ["load"; "open"; "short"; "thru"; "isoln"; "Es"; "Er"; "Et"; "cal'ed"]%string.
Definition cmd_cal_list : list Z := cstr "load|open|short|thru|isoln|done|on|off|reset".
Definition upd_cal_status (g : Z -> Z) : vna F -> vna F := upd_props (fun p => set__cal_status (g (_cal_status p)) p).
Definition cmd_cal (args : list (list Z)) c : option console :=
  if (length args =? 0)%nat then
    c ← print_all (map (fun i => (cstr "%s ", [astr (nth (Z.to_nat i) cal_items [])]))
          (filter (fun i => bit_test (cal_status (con_vna c)) (Z.shiftl 1 i) = true) (seqZ 0 9))) c;
    shell_printf VNA_SHELL_NEWLINE [] c
  else
    let c := upd_con (request_to_redraw REDRAW_CAL_STATUS) c in
    let i := get_str_index (argv args 0) cmd_cal_list in
    if (0 <=? i) && (i <=? 4) then con_collect (Z.to_nat i) c
    else if i =? 5 then Some (upd_con cal_done c)
    else if i =? 6 then Some (upd_con (upd_cal_status (fun s => bit_set s CALSTAT_APPLY)) c)
    else if i =? 7 then Some (upd_con (upd_cal_status (fun s => bit_clr s CALSTAT_APPLY)) c)
    else if i =? 8 then Some (upd_con (upd_cal_status (fun _ => 0)) c)
    else shell_printf (line_of "usage: cal [%s]") [astr cmd_cal_list] c.

Definition cmd_save (args : list (list Z)) c : option console :=
  let id := my_atoui (argv args 0) in
  if (length args =? 1)%nat && (id <? SAVEAREA_MAX) then
    '(_, s) ← caldata_save id (con_store c); Some (upd_con (request_to_redraw REDRAW_CAL_STATUS) (put_store s c))
  else shell_printf (line_of "usage: %s 0..%d") [astr (cstr "save"); aint (SAVEAREA_MAX - 1)] c.

Definition cmd_recall (args : list (list Z)) c : option console :=
  let id := my_atoui (argv args 0) in
  if (length args =? 1)%nat && (id <? SAVEAREA_MAX) then
    let '(r, s) := load_properties id (con_store c) in
    if r =? 0 then Some (put_store s c) else shell_printf (line_of "Err, default load") [] (put_store s c)
  else shell_printf (line_of "usage: %s 0..%d") [astr (cstr "recall"); aint (SAVEAREA_MAX - 1)] c.

Definition cmd_type_list : list Z :=
  cstr "logmag|phase|delay|smith|polar|linear|swr|real|imag|r|x|z|zp|g|b|y|rp|xp|cs|ls|cp|lp|q|rser|xser|zser|rsh|xsh|zsh|q21|swrant".
Definition cmd_marker_smith : list Z := cstr "lin|log|ri|rx|rlc|gb|glc|rpxp|rplc|rxsh|rlcsh|rxser|rlcser".
Definition cmd_scale_ref_list : list Z := cstr "scale|refpos".
Definition trace_words (t : Z) (s : vna F) : list (parg F) :=
  [aint t; astr (cstr (ti_name (F:=F) (trace_info (tr_type (trace_at t s)))));
   astr (cstr (if Z.land (tr_channel (trace_at t s)) 1 =? 0 then "S11" else "S21"))].

Definition cmd_trace (args : list (list Z)) c : option console :=
  let s := con_vna c in
  let argc := length args in
  let usage := shell_printf (line_of "trace {0|1|2|3|all} [%s] [src]" ++ line_of "trace {0|1|2|3} [%s]" ++ line_of "trace {0|1|2|3} {%s} {value}")
    [astr cmd_type_list; astr cmd_marker_smith; astr cmd_scale_ref_list] c in
  if (argc =? 0)%nat then
    print_all (map (fun t => (line_of "%d %s %s %f %f", trace_words t s ++ [AFloat (tr_scale (trace_at t s)); AFloat (tr_refpos (trace_at t s))]))
      (filter (fun t => tr_enabled (trace_at t s) = true) (seqZ 0 TRACES_MAX))) c
  else if (get_str_index (argv args 0) (cstr "all") =? 0) && (1 <? argc)%nat && (get_str_index (argv args 1) (cstr "off") =? 0) then
    Some (upd_con (for_range 0 TRACES_MAX (fun t => set_trace_enable t false)) c)
  else
  let t := u32 (my_atoi (argv args 0)) in
  if TRACES_MAX <=? t then usage
  else if (argc =? 1)%nat then shell_printf (line_of "%d %s %s") (trace_words t s) c
  else if get_str_index (argv args 1) (cstr "off") =? 0 then Some (upd_con (set_trace_enable t false) c) else
  let type := get_str_index (argv args 1) cmd_type_list in
  if 0 <=? type then
    let src := if (2 <? argc)%nat then my_atoi (argv args 2) else tr_channel (trace_at t s) in
    if (2 <? argc)%nat && (1 <? u32 src) then usage
    else Some (upd_con (fun s => set_trace_enable t true (set_trace_type t type src s)) c)
  else
  let format := get_str_index (argv args 1) cmd_marker_smith in
  if 0 <=? format then Some (upd_con (upd_trace t (set_tr_smith_format format)) c)
  else if (3 <=? argc)%nat then
    let i := get_str_index (argv args 1) cmd_scale_ref_list in
    if i =? 0 then Some (upd_con (set_trace_scale t (my_atof (argv args 2))) c)
    else if i =? 1 then Some (upd_con (set_trace_refpos t (my_atof (argv args 2))) c)
    else usage
  else Some c.

(** With a channel and a value it is the channel name that is converted (main.c:2300). *)
Definition cmd_edelay (args : list (list Z)) c : option console :=
  let usage ch :=
    let '(d0, d1) := _electrical_delay (current_props (con_vna c)) in
    shell_printf (line_of "%f") [AFloat (fmul (if ch =? 0 then d0 else d1) (fdiv f1 (f_lit 1 (-12))))] c in
  if (length args =? 0)%nat then usage 0 else
  let idx := get_str_index (argv args 0) (cstr "s11|s21") in
  if negb (idx =? -1) && negb (length args =? 2)%nat then usage idx else
  let ch := if idx =? -1 then 0 else idx in
  Some (upd_con (set_electrical_delay ch (fmul (my_atof (argv args 0)) (f_lit 1 (-12)))) c).

Definition cmd_s21offset (args : list (list Z)) c : option console :=
  if negb (length args =? 1)%nat then shell_printf (line_of "%f") [AFloat (_s21_offset (current_props (con_vna c)))] c
  else Some (upd_con (set_s21_offset (my_atof (argv args 0))) c).

Definition marker_words (t : Z) (s : vna F) : list Z * list (parg F) :=
  (line_of "%d %d %u", [aint (t + 1); aint (mk_index (marker_at t s)); aint (mk_frequency (marker_at t s))]).
Definition set_active_marker (t : Z) : vna F -> vna F := upd_props (set__active_marker t).
Definition cmd_marker_list : list Z := cstr "on|off".
Definition cmd_marker (args : list (list Z)) c : option console :=
  let argc := length args in
  if (argc =? 0)%nat then
    print_all (map (fun t => marker_words t (con_vna c)) (filter (fun t => mk_enabled (marker_at t (con_vna c)) = true) (seqZ 0 MARKERS_MAX))) c
  else
  let c := upd_con (request_to_redraw (Z.lor REDRAW_MARKER REDRAW_AREA)) c in
  let enable := get_str_index (argv args 0) cmd_marker_list in
  if 0 <=? enable then
    Some (upd_con (fun s => for_range 0 MARKERS_MAX (fun t => upd_marker t (set_mk_enabled (enable =? 0)))
      (set_active_marker (if enable =? 1 then MARKER_INVALID else 0) s)) c)
  else
  let t := s32 (my_atoi (argv args 0) - 1) in
  if (t <? 0) || (MARKERS_MAX <=? t) then
    shell_printf (line_of "marker [n] [%s|{index}]") [astr cmd_marker_list] c
  else if (argc =? 1)%nat then
    let '(fmt, w) := marker_words t (con_vna c) in
    c ← shell_printf fmt w c;
    Some (upd_con (fun s => upd_marker t (set_mk_enabled true) (set_active_marker t s)) c)
  else
  let i := get_str_index (argv args 1) cmd_marker_list in
  if i =? 0 then Some (upd_con (fun s => set_active_marker t (upd_marker t (set_mk_enabled true) s)) c)
  else if i =? 1 then
    Some (upd_con (fun s =>
      let s := upd_marker t (set_mk_enabled false) s in
      if _active_marker (current_props s) =? t then set_active_marker MARKER_INVALID s else s) c)
  else
    let index := my_atoi (argv args 1) in
    Some (upd_con (fun s => set_active_marker t (set_marker_index t index (upd_marker t (set_mk_enabled true) s))) c).

Definition upd_mode (g : Z -> Z) : vna F -> vna F := upd_props (fun p => set__mode (g (_mode p)) p).
Definition set_domain_mode (mode : Z) (s : vna F) : vna F :=
  if Z.land (props_mode s) DOMAIN_MODE =? mode then s else
  let s := upd_mode (fun m => Z.lor (bit_clr m DOMAIN_MODE) (Z.land mode DOMAIN_MODE)) s in
  upd_config (set__lever_mode LM_MARKER) (request_to_redraw (Z.lor REDRAW_FREQUENCY REDRAW_MARKER) s).
Definition set_timedomain_func (func : Z) : vna F -> vna F := upd_mode (fun m => Z.lor (bit_clr m TD_FUNC) func).
Definition set_timedomain_window (func : Z) : vna F -> vna F := upd_mode (fun m => Z.lor (bit_clr m TD_WINDOW) func).

Definition cmd_transform_list : list Z := cstr "on|off|impulse|step|bandpass|minimum|normal|maximum".
Definition transform_option (i : Z) : option (vna F -> vna F) :=
  if i =? 0 then Some (set_domain_mode DOMAIN_TIME)
  else if i =? 1 then Some (set_domain_mode DOMAIN_FREQ)
  else if i =? 2 then Some (set_timedomain_func TD_FUNC_LOWPASS_IMPULSE)
  else if i =? 3 then Some (set_timedomain_func TD_FUNC_LOWPASS_STEP)
  else if i =? 4 then Some (set_timedomain_func TD_FUNC_BANDPASS)
  else if i =? 5 then Some (set_timedomain_window TD_WINDOW_MINIMUM)
  else if i =? 6 then Some (set_timedomain_window TD_WINDOW_NORMAL)
  else if i =? 7 then Some (set_timedomain_window TD_WINDOW_MAXIMUM)
  else None.
Definition transform_usage c : option console := shell_printf (line_of "usage: transform {%s} [...]") [astr cmd_transform_list] c.
Fixpoint transform_options (args : list (list Z)) c : option console :=
  match args with
  | [] => Some c
  | a :: args =>
      match transform_option (get_str_index a cmd_transform_list) with
      | Some g => transform_options args (upd_con g c)
      | None => transform_usage c
      end
  end.
Definition cmd_transform (args : list (list Z)) c : option console :=
  if (length args =? 0)%nat then transform_usage c else transform_options args c.

Definition cmd_vbat_offset (args : list (list Z)) c : option console :=
  if negb (length args =? 1)%nat then shell_printf (line_of "%d") [aint (_vbat_offset (config (con_vna c)))] c
  else Some (upd_con (upd_config (set__vbat_offset (u16 (my_atoi (argv args 0))))) c).

Definition RGBHEX (hex : Z) : Z :=
  Z.lor (Z.lor (Z.lor (Z.shiftl (Z.land hex 0x1c00) 3) (Z.shiftl (Z.land hex 0xf8) 5))
    (Z.shiftr (Z.land hex 0xf80000) 16)) (Z.shiftr (Z.land hex 0xe000) 13).
Definition cmd_color (args : list (list Z)) c : option console :=
  if negb (length args =? 2)%nat then
    c ← shell_printf (line_of "usage: color {id} {rgb24}") [] c;
    print_all (map (fun i => (line_of " %2d: 0x%06x", [aint i; aint (HEXRGB (nth (Z.to_nat i) (_lcd_palette (config (con_vna c))) 0))]))
      (seqZ 0 MAX_PALETTE)) c
  else
  let i := u16 (my_atoui (argv args 0)) in
  if MAX_PALETTE <=? i then Some c else
  let color := u16 (RGBHEX (my_atoui (argv args 1))) in
  Some (upd_con (fun s => request_to_redraw REDRAW_ALL (upd_config (fun g => set__lcd_palette (<[Z.to_nat i := color]> (_lcd_palette g)) g) s)) c).

Definition cmd_help (args : list (list Z)) c : option console :=
  c ← shell_printf (cstr "Commands:") [] c;
  c ← print_all (map (fun e => (cstr " %s", [astr (sc_name e)])) commands) c;
  shell_printf VNA_SHELL_NEWLINE [] c.

(** [plot_set_measure_mode] (plot.c) *)
Definition plot_set_measure_mode (mode : Z) c : console :=
  if MEASURE_END <=? mode then c
  else upd_con (fun s => request_to_redraw REDRAW_AREA (upd_props (set__measure mode) s))
    (put_rig (Rig (con_sampler c) 0xFF (rg_serial (con_rig c))) c).
Definition cmd_measure_list : list Z := cstr "none|lc|lcshunt|lcseries|xtal|filter|cable|resonance".
Definition cmd_measure (args : list (list Z)) c : option console :=
  let idx := get_str_index (argv args 0) cmd_measure_list in
  if (length args =? 1)%nat && (0 <=? idx) then Some (plot_set_measure_mode (u8 idx) c)
  else shell_printf (line_of "usage: measure {%s}") [astr cmd_measure_list] c.

(** [ui_message_box]: the box is drawn and waited for, which is not modelled. *)
Definition ui_message_box (header text : option (list Z)) (delay : Z) (s : vna F) : vna F :=
  let s := if header is Some _ then request_to_redraw REDRAW_AREA s else s in
  if text is Some _ then request_to_redraw REDRAW_AREA s else s.
Definition cmd_msg (args : list (list Z)) c : option console :=
  if (length args =? 0)%nat then shell_printf (line_of "usage: msg delay [text] [header]") [] c
  else Some (upd_con (ui_message_box (args !! 2%nat) (args !! 1%nat) (my_atoui (argv args 0))) c).

(** The processor restarts, in the boot loader with the argument [dfu]: the command does
    not return. *)
Definition cmd_reset (args : list (list Z)) c : option console :=
  let dfu := (length args =? 1)%nat && (get_str_index (argv args 0) (cstr "dfu") =? 0) in
  _ ← shell_printf (if dfu then line_of "Performing reset to DFU mode" else line_of "Performing reset") [] c; None.

(** What the ADC has measured of the battery in mV ([vbat_raw], adc_v3.c), and what the
    serial port answers to a text in a number of milliseconds. *)
Record devices := Devices { dv_vbat_raw : Z; dv_answer : list Z -> Z -> list Z }.
Context (dev : devices).

Definition adc_vbat_read (s : vna F) : Z :=
  let raw := dv_vbat_raw dev in if raw <? 100 then -1 else s16 (raw + _vbat_offset (config s)).
Definition cmd_vbat (args : list (list Z)) c : option console := shell_printf (line_of "%d mV") [aint (adc_vbat_read (con_vna c))] c.

(** [shell_update_speed]; the baud rate of the port itself is not modelled. *)
Definition cmd_usart_cfg (args : list (list Z)) c : option console :=
  if negb (length args =? 1)%nat then shell_printf (line_of "Serial: %u baud") [aint (_serial_speed (config (con_vna c)))] c
  else
    let speed := my_atoui (argv args 0) in
    Some (upd_con (upd_config (set__serial_speed (if speed <? 300 then 300 else speed))) c).
(** The answer goes to the USB stream, also from a script. *)
Definition cmd_usart (args : list (list Z)) c : option console :=
  let argc := length args in
  if (argc =? 0)%nat || (2 <? argc)%nat || VNA_MODE VNA_MODE_CONNECTION (con_vna c) then Some c else
  let time := if (argc =? 2)%nat then my_atoui (argv args 1) else 200 in
  let sent := argv args 0 ++ VNA_SHELL_NEWLINE in
  let g := con_rig c in
  Some (put_out (dv_answer dev sent time) (put_rig (Rig (rg_sampler g) (rg_data_update g) (rg_serial g ++ sent)) c)).

(** The commands that are not modelled. *)
Context (other : command -> list (list Z) -> console -> option console).
Definition run_command (f : command) : list (list Z) -> console -> option console :=
  match f with
  | Cmd_scan => cmd_scan | Cmd_scan_bin => cmd_scan_bin | Cmd_data => cmd_data | Cmd_frequencies => cmd_frequencies | Cmd_freq => cmd_freq | Cmd_sweep => cmd_sweep
  | Cmd_power => cmd_power | Cmd_offset => cmd_offset | Cmd_bandwidth => cmd_bandwidth | Cmd_saveconfig => cmd_saveconfig
  | Cmd_clearconfig => cmd_clearconfig | Cmd_pause => cmd_pause | Cmd_resume => cmd_resume | Cmd_cal => cmd_cal
  | Cmd_save => cmd_save | Cmd_recall => cmd_recall | Cmd_trace => cmd_trace | Cmd_marker => cmd_marker
  | Cmd_edelay => cmd_edelay | Cmd_s21offset => cmd_s21offset | Cmd_tcxo => cmd_tcxo | Cmd_smooth => cmd_smooth
  | Cmd_config => cmd_config | Cmd_vbat_offset => cmd_vbat_offset | Cmd_transform => cmd_transform
  | Cmd_threshold => cmd_threshold | Cmd_help => cmd_help | Cmd_color => cmd_color | Cmd_measure => cmd_measure | Cmd_msg => cmd_msg
  | Cmd_reset => cmd_reset | Cmd_vbat => cmd_vbat | Cmd_usart_cfg => cmd_usart_cfg | Cmd_usart => cmd_usart
  | f => other f
  end.

(** ** Lines *)

(** [shell_line], [shell_args] as offsets into it ([None]: a pointer that is null or
    into another buffer), [shell_nargs], [shell_function], [operation_requested]. *)
Record shell := Shell {
  sh_con : console; sh_line : list Z; sh_args : list (option nat); sh_nargs : Z; sh_function : option command; sh_operation : Z }.
Definition put_con c (h : shell) : shell := Shell c (sh_line h) (sh_args h) (sh_nargs h) (sh_function h) (sh_operation h).
Definition put_line (l : list Z) (h : shell) : shell := Shell (sh_con h) l (sh_args h) (sh_nargs h) (sh_function h) (sh_operation h).
Definition put_args (a : list (option nat)) (n : Z) (h : shell) : shell := Shell (sh_con h) (sh_line h) a n (sh_function h) (sh_operation h).
Definition put_function (f : option command) (h : shell) : shell := Shell (sh_con h) (sh_line h) (sh_args h) (sh_nargs h) f (sh_operation h).
Definition put_operation (v : Z) (h : shell) : shell := Shell (sh_con h) (sh_line h) (sh_args h) (sh_nargs h) (sh_function h) v.

(** What a stray pointer of [shell_args] points to. *)
Context (elsewhere : list Z).
Definition arg_string (line : list Z) (p : option nat) : list Z := match p with Some a => string_at line a | None => elsewhere end.

Definition ARGS_COUNT : Z := VNA_SHELL_MAX_ARGUMENTS + 1.
(** The entry found, the arguments behind the name, the line with its separators
    replaced, the offsets of the words and their number. *)
Definition VNAShell_parceLine (line : list Z) c : option (option VNAShellCommand * list Z * list nat * Z * console) :=
  let '(line, offs, n) := parse_line line ARGS_COUNT in
  if ARGS_COUNT <? n then
    c ← shell_printf (line_of "too many arguments, max 4") [] c; Some (None, line, offs, n, c)
  else Some (if 0 <? n then find_command (string_at line (nth 0 offs 0%nat)) else None, line, offs, n, c).

(** [scp->sc_function(shell_nargs - 1, &shell_args[1])] *)
Definition command_args (line : list Z) (ptrs : list (option nat)) (n : Z) : list (list Z) :=
  map (arg_string line) (take (Z.to_nat (n - 1)) (drop 1 ptrs)).

Definition new_args (stays : nat -> option nat) (offs : list nat) (old : list (option nat)) : list (option nat) :=
  map stays offs ++ drop (length offs) old.

Definition VNAShell_executeLine (h : shell) : option shell :=
  '(scp, line, offs, n, c) ← VNAShell_parceLine (sh_line h) (sh_con h);
  let h := put_con c (put_line line (put_args (new_args Some offs (sh_args h)) n h)) in
  match scp with
  | Some e =>
      let ui := bit_test (sc_flags e) CMD_RUN_IN_UI && bit_test (sweep_mode (con_vna c)) SWEEP_UI_MODE in
      let h := if bit_test (sc_flags e) CMD_BREAK_SWEEP then put_operation (bit_set (sh_operation h) OP_CONSOLE) h else h in
      if bit_test (sc_flags e) CMD_WAIT_MUTEX && negb ui then Some (put_function (Some (sc_function e)) h)
      else c ← run_command (sc_function e) (command_args (sh_line h) (sh_args h) n) (sh_con h); Some (put_con c h)
  | None =>
      let word := arg_string (sh_line h) (nth 0 (sh_args h) None) in
      if peek word =? 0 then Some h
      else c ← shell_printf (line_of "%s?") [astr word] c; Some (put_con c h)
  end.

(** [while (shell_function) {...}] in the sweep thread. *)
Definition run_shell_function (h : shell) : option shell :=
  match sh_function h with
  | None => Some h
  | Some f => c ← run_command f (command_args (sh_line h) (sh_args h) (sh_nargs h)) (sh_con h); Some (put_function None (put_con c h))
  end.

(** A line of a script; [stays] is [Some] for a line in [shell_line]. *)
Definition script_line (stays : nat -> option nat) (line : list Z) (h : shell) : option (list Z * shell) :=
  '(scp, line, offs, n, c) ← VNAShell_parceLine line (sh_con h);
  let h := put_con c (put_args (new_args stays offs (sh_args h)) n h) in
  match scp with
  | Some e =>
      if bit_test (sc_flags e) CMD_RUN_IN_LOAD then
        c ← run_command (sc_function e) (map (string_at line) (drop 1 offs)) c; Some (line, put_con c h)
      else Some (line, h)
  | None => Some (line, h)
  end.
Definition VNAShell_executeCMDLine (line : list Z) (h : shell) : option (list Z * shell) :=
  '(line, h) ← script_line (fun _ => None) line (put_con (put_stream false (sh_con h)) h);
  Some (line, put_con (put_stream true (sh_con h)) h).

(** The typed bytes, until Enter or until the stream ends ([false]). *)
Definition backspace : list Z := [8; 32; 8; 0].
Fixpoint VNAShell_readLine (input line : list Z) (j : nat) c : option (bool * list Z * list Z * console) :=
  match input with
  | [] => Some (false, line, [], c)
  | b :: input =>
      if (b =? 8) || (b =? 127) then
        if (0 <? j)%nat then c ← shell_write backspace c; VNAShell_readLine input line (j - 1) c else VNAShell_readLine input line j c
      else if b =? 13 then
        c ← shell_printf VNA_SHELL_NEWLINE [] c; Some (true, <[j := 0]> line, input, c)
      else if (b <? 32) || (VNA_SHELL_MAX_LENGTH - 1 <=? Z.of_nat j) then VNAShell_readLine input line j c
      else c ← shell_write [b] c; VNAShell_readLine input (<[j := b]> line) (S j) c
  end.

(** After the prompt is printed: a line is read and executed, and a command left for
    the sweep thread is run there. *)
Definition shell_prompt (input : list Z) (h : shell) : option (list Z * shell) :=
  '(ok, line, rest, c) ← VNAShell_readLine input (sh_line h) 0 (sh_con h);
  let h := put_con c (put_line line h) in
  if ok : bool then
    h ← VNAShell_executeLine h; h ← run_shell_function h; Some (rest, h)
  else Some (rest, h).

(** ** Scripts *)

(** One byte of config.ini ([sd_card_load_config]); [j] is the length of the line. *)
Definition load_config_byte (st : option (shell * nat)) (b : Z) : option (shell * nat) :=
  '(h, j) ← st;
  if b =? 13 then
    '(line, h) ← script_line Some (<[j := 0]> (sh_line h)) h; Some (put_line line h, O)
  else if (b <? 32) || (VNA_SHELL_MAX_LENGTH - 1 <=? Z.of_nat j) then Some (h, j)
  else Some (put_line (<[j := b]> (sh_line h)) h, S j).
(** [chunks] are the blocks [f_read] returns, [None] when the file does not open. *)
Definition sd_card_load_config (chunks : option (list (list Z))) (h : shell) : option (bool * shell) :=
  match chunks with
  | None => Some (false, h)
  | Some l =>
      '(h, _) ← fold_left load_config_byte (concat l) (Some (put_con (put_stream false (sh_con h)) h, O));
      Some (true, put_con (put_stream true (sh_con h)) h)
  end.

(** One byte of a script file ([load_cmd] of ui.c), with a line buffer of its own. *)
Definition CMD_LINE_SIZE : Z := 128.
Definition load_cmd_byte (st : option (list Z * shell * nat)) (b : Z) : option (list Z * shell * nat) :=
  '(line, h, j) ← st;
  if b =? 13 then '(line, h) ← VNAShell_executeCMDLine (<[j := 0]> line) h; Some (line, h, O)
  else if (b <? 32) || (CMD_LINE_SIZE <=? Z.of_nat j) then Some (line, h, j)
  else Some (<[j := b]> line, h, S j).
Definition load_cmd (line : list Z) (chunks : list (list Z)) (h : shell) : option shell :=
  '(_, h, _) ← fold_left load_cmd_byte (concat chunks) (Some (line, h, O)); Some h.
End Shell.

(** ** Lines in a buffer *)

Lemma strpbrk_nul s t brk : strpbrk (s ++ 0 :: t) brk = strpbrk s brk.
Proof. induction s as [|c s IH]; cbn; [done|]. destruct (c =? 0); [done|]. destruct (bool_decide _); [done|]. by rewrite IH. Qed.
Lemma strpbrk_le s brk : (strpbrk s brk <= length s)%nat.
Proof. induction s as [|c s IH]; cbn; [lia|]. destruct (c =? 0); [lia|]. destruct (bool_decide _); lia. Qed.
Lemma ch_at_nul l t i : (i <= length l)%nat -> ch_at (l ++ 0 :: t) i = ch_at l i.
Proof.
  intros Hi. unfold ch_at. destruct (decide (i = length l)) as [->|].
  - by rewrite nth_middle, nth_overflow by lia.
  - apply app_nth1. lia.
Qed.

(** What follows the end of the string does not matter. *)
Lemma parse_line_loop_nul t max fuel : forall fuel' l lp args n, (lp <= length l)%nat -> (length l - lp < fuel)%nat -> (length l - lp < fuel')%nat ->
  let '(l', a', n') := parse_line_loop fuel' l lp args n max in
  parse_line_loop fuel (l ++ 0 :: t) lp args n max = (l' ++ 0 :: t, a', n') /\ length l' = length l.
Proof.
  induction fuel as [|fuel IH]; intros fuel' l lp args n Hlp Hf Hf'; [lia|]. destruct fuel' as [|fuel']; [lia|].
  cbn [parse_line_loop]. rewrite ch_at_nul by lia. destruct (Z.eqb_spec (ch_at l lp) 0) as [|Hc]; [done|].
  assert (Hlt : (lp < length l)%nat).
  { destruct (Nat.lt_ge_cases lp (length l)); [done|]. destruct Hc. unfold ch_at. by apply nth_overflow. }
  destruct (negb (ch_at l lp =? 32) && negb (ch_at l lp =? 9)).
  - set (q := if ch_at l lp =? 34 then (S lp, [34]) else (lp, [32; 9])). destruct q as [lp1 brk] eqn:Eq.
    assert (Hlp1 : (lp <= lp1 <= length l)%nat) by (subst q; destruct (ch_at l lp =? 34); injection Eq as <- <-; lia).
    assert (Es : strpbrk (drop lp1 (l ++ 0 :: t)) brk = strpbrk (drop lp1 l) brk) by (rewrite drop_app_le by lia; apply strpbrk_nul).
    rewrite Es. pose proof (strpbrk_le (drop lp1 l) brk) as Hk. rewrite length_drop in Hk.
    set (lp2 := (lp1 + strpbrk (drop lp1 l) brk)%nat) in *. assert (Hlp2 : (lp1 <= lp2 <= length l)%nat) by lia.
    rewrite ch_at_nul by lia. destruct (Z.eqb_spec (ch_at l lp2) 0) as [|Hc2]; [done|].
    assert (Hlt2 : (lp2 < length l)%nat).
    { destruct (Nat.lt_ge_cases lp2 (length l)); [done|]. destruct Hc2. unfold ch_at. by apply nth_overflow. }
    rewrite insert_app_l by lia. set (args1 := if n <? max then _ else _).
    pose proof (IH fuel' (<[lp2 := 0]> l) (S lp2) args1 (u16 (n + 1))) as IH'. rewrite length_insert in IH'.
    specialize (IH' ltac:(lia) ltac:(lia) ltac:(lia)). destruct (parse_line_loop fuel' (<[lp2:=0]> l) _ _ _ _) as [[l' a'] n'].
    exact IH'.
  - exact (IH fuel' l (S lp) args n ltac:(lia) ltac:(lia) ltac:(lia)).
Qed.

Lemma string_at_nul l t a : (a <= length l)%nat -> string_at (l ++ 0 :: t) a = string_at l a.
Proof.
  intros Ha. unfold string_at. rewrite drop_app_le by lia. generalize (drop a l). intros s.
  induction s as [|c s IH]; cbn; [done|]. destruct (c =? 0); [done|]. by rewrite IH.
Qed.

(** The words of a line in a buffer. *)
Lemma parse_buffer text t max : nonzero text -> 0 <= max -> Z.of_nat (length (arguments text)) < 65536 ->
  exists line' offs, parse_line (text ++ 0 :: t) max = (line' ++ 0 :: t, offs, Z.of_nat (length (arguments text))) /\
    length line' = length text /\ map (string_at (line' ++ 0 :: t)) offs = take (Z.to_nat max) (arguments text).
Proof.
  intros Ht Hm Hl. destruct (parse_line_correct text max Ht Hm Hl) as (E & En & Ho).
  pose proof (parse_line_loop_nul t max (S (length (text ++ 0 :: t))) (S (length text)) text 0 [] 0 ltac:(lia)
    ltac:(rewrite length_app; cbn; lia) ltac:(lia)) as P.
  fold (parse_line text max) in P. fold (parse_line (text ++ 0 :: t) max) in P. destruct (parse_line text max) as [[line' offs] n].
  destruct P as [P Hlen]. cbn [snd fst] in *. exists line', offs. subst n. split; [exact P|]. split; [exact Hlen|].
  unfold arg_strings in E. rewrite <- E. apply map_ext_in. intros a Ha. apply string_at_nul.
  rewrite Hlen. rewrite Forall_forall in Ho. apply Ho. by apply list_elem_of_In.
Qed.

(** The table: names differ, and a word finds the entry of its first alternative. *)
Lemma names_distinct : NoDup (map sc_name commands).
Proof. apply (bool_decide_eq_true_1 _). vm_compute. reflexivity. Qed.
Lemma names_nonzero : Forall (fun e => nonzero (sc_name e)) commands.
Proof. repeat (constructor; [repeat (constructor; [discriminate|]); constructor|]). constructor. Qed.

Lemma find_command_first word e : nonzero word -> e ∈ commands -> hd [] (split_bar word) = sc_name e -> find_command word = Some e.
Proof.
  intros Hw He Hn. apply list_elem_of_lookup in He as [i Hi]. unfold find_command.
  assert (Hz : forall e', e' ∈ commands -> get_str_index (sc_name e') word = 0 <-> sc_name e' = sc_name e).
  { intros e' He'. rewrite get_str_index_correct; [|pose proof names_nonzero as N; rewrite Forall_forall in N; by apply N|done].
    unfold index_of. rewrite <- Hn. destruct (split_bar word) as [|w ws] eqn:Es; [by apply split_bar_cons in Es|].
    cbn. destruct (decide (w = sc_name e')) as [->|Hne]; [done|]. split; [|congruence]. destruct (list_find _ ws) as [[k x]|]; cbn; lia. }
  rewrite (proj2 (list_find_Some _ commands i e)); [done|]. split; [exact Hi|]. split.
  - apply Hz; [by eapply list_elem_of_lookup_2|done].
  - intros j e' Hj Hlt E. apply Hz in E; [|by eapply list_elem_of_lookup_2].
    assert (i = j) as ->; [|lia]. apply (NoDup_lookup (map sc_name commands) i j (sc_name e) names_distinct); rewrite list_lookup_fmap; [by rewrite Hi|rewrite Hj; cbn; by rewrite E].
Qed.

(** ** A typed line *)

(** Characters that are neither control characters nor Delete. *)
Definition printable (text : list Z) : Prop := Forall (fun b => 32 <= b /\ b <> 127) text.
Lemma printable_nonzero text : printable text -> nonzero text.
Proof. intros Ht. eapply Forall_impl; [exact Ht|]. cbn. lia. Qed.

Lemma tokenize_nonzero fuel : forall s, nonzero s -> Forall nonzero (tokenize fuel s).
Proof.
  induction fuel as [|fuel IH]; intros s Hs; cbn [tokenize]; [constructor|]. destruct Hs as [|c s Hc Hs]; [constructor|].
  destruct (_ && _); [|by apply IH]. set (q := if c =? 34 then (s, [34]) else (c :: s, [32; 9])).
  assert (Hq : nonzero (fst q)) by (unfold q; destruct (c =? 34); [exact Hs|by constructor]). destruct q as [body brk]. cbn [fst] in Hq.
  constructor; [by apply Forall_take|]. apply IH. by apply Forall_drop.
Qed.

Lemma length_tokenize fuel : forall s, (length (tokenize fuel s) <= length s)%nat.
Proof.
  induction fuel as [|fuel IH]; intros s; cbn [tokenize]; [cbn; lia|]. destruct s as [|c s]; [done|].
  destruct (_ && _); [|specialize (IH s); cbn [length]; lia]. destruct (c =? 34); cbn [length].
  - pose proof (IH (drop (S (strpbrk s [34])) s)) as E. rewrite length_drop in E. lia.
  - pose proof (IH (drop (S (strpbrk (c :: s) [32; 9])) (c :: s))) as E. rewrite length_drop in E. cbn [length] in E. lia.
Qed.
Lemma tokenize_bounded fuel : forall s, Forall (fun t => (length t <= length s)%nat) (tokenize fuel s).
Proof.
  induction fuel as [|fuel IH]; intros s; cbn [tokenize]; [constructor|]. destruct s as [|c s]; [constructor|].
  assert (W : forall s', (length s' <= length (c :: s))%nat -> Forall (fun t => (length t <= length (c :: s))%nat) (tokenize fuel s')).
  { intros s' Hs. eapply Forall_impl; [apply IH|]. intros t Ht. cbn beta in *. lia. }
  destruct (_ && _); [|apply W; cbn; lia].
  destruct (c =? 34); (constructor; [rewrite length_take; cbn [length]; lia|apply W; rewrite length_drop; cbn [length]; lia]).
Qed.

Section Lines.
Context {F : Type} `{FloatOps F} `{FloatBits F}.
Context (sincos_tbl : list Z) (stack : F * F) (env : surroundings) (requested : Z -> bool) (dev : devices).
Context (other : command -> list (list Z) -> console (F := F) -> option (console (F := F))) (elsewhere : list Z).
Local Abbreviation run := (run_command sincos_tbl stack env requested dev other).
Local Abbreviation prompt := (shell_prompt sincos_tbl stack env requested dev other elsewhere).
Implicit Types (c : console (F := F)) (h : shell (F := F)).

Lemma newline_printed c : shell_printf VNA_SHELL_NEWLINE [] c = Some (emit VNA_SHELL_NEWLINE c).
Proof. unfold shell_printf, emit. destruct (con_stream c); [|done]. reflexivity. Qed.
Lemma emit_app d d' c : emit d' (emit d c) = emit (d ++ d') c.
Proof. unfold emit. destruct (con_stream c) eqn:E; [|by rewrite E]. unfold put_out. cbn. by rewrite E, <- app_assoc. Qed.
Lemma emit_stream d c : con_stream (emit d c) = con_stream c.
Proof. unfold emit. by destruct (con_stream c) eqn:E. Qed.
Lemma shell_write_emit d c : con_stream c = true -> shell_write d c = Some (emit d c).
Proof. intros E. unfold shell_write, emit. by rewrite E. Qed.

Lemma readLine_text text rest : printable text -> forall pre tl c, con_stream c = true -> (length pre + length text <= 63)%nat -> (length text < length tl)%nat ->
  VNAShell_readLine (text ++ 13 :: rest) (pre ++ tl) (length pre) c =
    Some (true, pre ++ text ++ 0 :: drop (S (length text)) tl, rest, emit (text ++ VNA_SHELL_NEWLINE) c).
Proof.
  induction 1 as [|b text [Hb H127] _ IH]; intros pre tl c Hc Hl Ht.
  - cbn [app VNAShell_readLine Z.eqb Pos.eqb orb]. rewrite newline_printed. cbn [mbind option_bind]. destruct tl as [|x tl]; [cbn in Ht; lia|].
    rewrite insert_at_app. done.
  - destruct tl as [|x tl]; [cbn in Ht; lia|]. cbn [length] in Hl, Ht. cbn [app VNAShell_readLine].
    destruct (Z.eqb_spec b 8); [lia|]. destruct (Z.eqb_spec b 127); [lia|]. destruct (Z.eqb_spec b 13); [lia|].
    destruct (Z.ltb_spec b 32); [lia|]. destruct (Z.leb_spec (VNA_SHELL_MAX_LENGTH - 1) (Z.of_nat (length pre))) as [Hj|]; [unfold VNA_SHELL_MAX_LENGTH in Hj; lia|].
    cbn [orb]. rewrite shell_write_emit by done. cbn [mbind option_bind]. rewrite insert_at_app. replace (pre ++ b :: tl) with ((pre ++ [b]) ++ tl) by (by rewrite <- app_assoc).
    replace (S (length pre)) with (length (pre ++ [b])) by (rewrite length_app; cbn; lia).
    rewrite IH by (rewrite ?emit_stream, ?length_app; cbn; done || lia). rewrite <- !app_assoc. rewrite emit_app. done.
Qed.

(** The words of the line: the table entry and its arguments. *)
Lemma parceLine_finds text t c word args e : nonzero text -> arguments text = word :: args -> (length args <= 4)%nat ->
  e ∈ commands -> hd [] (split_bar word) = sc_name e ->
  exists line' offs, VNAShell_parceLine (text ++ 0 :: t) c = Some (Some e, line', offs, Z.of_nat (S (length args)), c) /\
    length line' = length (text ++ 0 :: t) /\ map (string_at line') offs = word :: args.
Proof.
  intros Ht Ha Hl He Hn. destruct (parse_buffer text t ARGS_COUNT Ht ltac:(cbv; discriminate) ltac:(rewrite Ha; cbn; lia)) as (line' & offs & E & Hlen & Em).
  rewrite Ha in E, Em. rewrite take_ge in Em by (unfold ARGS_COUNT, VNA_SHELL_MAX_ARGUMENTS; cbn [length]; lia).
  exists (line' ++ 0 :: t), offs. split; [|split; [by rewrite !length_app, Hlen|exact Em]]. unfold VNAShell_parceLine. rewrite E. cbn [length].
  destruct (Z.ltb_spec ARGS_COUNT (Z.of_nat (S (length args)))) as [Hc|_]; [unfold ARGS_COUNT, VNA_SHELL_MAX_ARGUMENTS in Hc; lia|].
  destruct (Z.ltb_spec 0 (Z.of_nat (S (length args)))); [|lia]. destruct offs as [|o offs]; [done|]. cbn [nth map] in *. injection Em as Ew Em.
  rewrite Ew. rewrite (find_command_first word e); [done| |exact He|exact Hn].
  pose proof (tokenize_nonzero (S (length text)) text Ht) as Hz. fold (arguments text) in Hz. rewrite Ha in Hz. by apply Forall_cons in Hz as [Hz _].
Qed.

Lemma command_args_words line offs old (args : list (list Z)) word : map (string_at line) offs = word :: args ->
  command_args elsewhere line (new_args Some offs old) (Z.of_nat (S (length args))) = args.
Proof.
  intros Em. destruct offs as [|o offs]; [done|]. cbn [map] in Em. injection Em as _ Em. unfold command_args, new_args. cbn [map app drop].
  replace (Z.to_nat (Z.of_nat (S (length args)) - 1)) with (length args) by lia.
  assert (Hl : length args = length (map Some offs)) by (rewrite length_map, <- Em; by rewrite length_map).
  rewrite drop_0, take_app_length' by done. rewrite map_map. exact Em.
Qed.

(** The console after the echo of a line. *)
Definition echoed (text : list Z) c : console := emit (text ++ VNA_SHELL_NEWLINE) c.

(** Reading and executing a line: the command it names, and the state around it. *)
Lemma prompt_runs (text rest word : list Z) (args : list (list Z)) (e : VNAShellCommand) h :
  con_stream (sh_con h) = true -> printable text -> (length text <= 63)%nat -> length (sh_line h) = Z.to_nat VNA_SHELL_MAX_LENGTH -> sh_function h = None ->
  arguments text = word :: args -> (length args <= 4)%nat -> e ∈ commands -> hd [] (split_bar word) = sc_name e ->
  exists h', prompt (text ++ 13 :: rest) h = (c ← run (sc_function e) args (echoed text (sh_con h)); Some (rest, put_con c h')) /\
    sh_function h' = None /\ length (sh_line h') = Z.to_nat VNA_SHELL_MAX_LENGTH /\
    sh_operation h' = (if bit_test (sc_flags e) CMD_BREAK_SWEEP then bit_set (sh_operation h) OP_CONSOLE else sh_operation h).
Proof.
  intros Hst Hp Hl Hline Hf Ha Hn He Hw. unfold VNA_SHELL_MAX_LENGTH in *. unfold shell_prompt.
  pose proof (readLine_text text rest Hp [] (sh_line h) (sh_con h) Hst Hl ltac:(lia)) as R. cbn [app length] in R. rewrite R. clear R.
  fold (echoed text (sh_con h)). cbn [mbind option_bind]. set (tl := drop (S (length text)) (sh_line h)).
  destruct (parceLine_finds text tl (echoed text (sh_con h)) word args e (printable_nonzero _ Hp) Ha Hn He Hw) as (line' & offs & E & Hlen & Em).
  assert (Hlen' : length line' = 64%nat) by (rewrite Hlen; unfold tl; rewrite length_app; cbn [length]; rewrite length_drop; lia).
  unfold VNAShell_executeLine. cbn [sh_line sh_con put_con put_line]. rewrite E. cbn [mbind option_bind].
  set (old := sh_args _). pose proof (command_args_words line' offs old args word Em) as Ew.
  set (b := bit_test (sc_flags e) CMD_BREAK_SWEEP). destruct (bit_test (sc_flags e) CMD_WAIT_MUTEX && _).
  - cbn [mbind option_bind]. unfold run_shell_function. cbn [sh_function put_function].
    exists (Shell (sh_con h) line' (new_args Some offs old) (Z.of_nat (S (length args))) None (if b then bit_set (sh_operation h) OP_CONSOLE else sh_operation h)).
    split; [|split; [done|split; [exact Hlen'|done]]].
    destruct b; cbn [sh_line sh_con sh_args sh_nargs put_function put_operation put_con put_line put_args]; rewrite Ew; by destruct (run _ _ _).
  - exists (Shell (sh_con h) line' (new_args Some offs old) (Z.of_nat (S (length args))) None (if b then bit_set (sh_operation h) OP_CONSOLE else sh_operation h)).
    split; [|split; [done|split; [exact Hlen'|done]]].
    destruct b; cbn [sh_line sh_con sh_args sh_nargs put_function put_operation put_con put_line put_args]; rewrite Ew; destruct (run _ _ _) as [c|]; try done;
      cbn [mbind option_bind]; unfold run_shell_function; cbn [sh_function put_con put_operation put_line put_args]; rewrite Hf;
      cbn [mbind option_bind]; unfold put_con; cbn; by rewrite Hf.
Qed.

(** C7: A typed line runs the command it names: on a connected console, for any line of up to 63 printable
    characters whose first word is (up to an alternative bar) the name of an entry of
    the table and which has at most four arguments, reading and executing it - and,
    for a command that must wait, the sweep thread taking it - runs exactly the
    function of that entry, once, with the remaining words as arguments, on the
    console that echoed the line; commands that break a sweep request it. *)
Theorem line_runs_command (text rest word : list Z) (args : list (list Z)) (e : VNAShellCommand) h c' :
  con_stream (sh_con h) = true -> printable text -> (length text <= 63)%nat -> length (sh_line h) = Z.to_nat VNA_SHELL_MAX_LENGTH -> sh_function h = None ->
  arguments text = word :: args -> (length args <= 4)%nat -> e ∈ commands -> hd [] (split_bar word) = sc_name e ->
  run (sc_function e) args (echoed text (sh_con h)) = Some c' ->
  exists h', prompt (text ++ 13 :: rest) h = Some (rest, h') /\ sh_con h' = c' /\ sh_function h' = None /\
    length (sh_line h') = Z.to_nat VNA_SHELL_MAX_LENGTH /\
    sh_operation h' = (if bit_test (sc_flags e) CMD_BREAK_SWEEP then bit_set (sh_operation h) OP_CONSOLE else sh_operation h).
Proof.
  intros Hst Hp Hl Hline Hf Ha Hn He Hw Hrun. destruct (prompt_runs text rest word args e h Hst Hp Hl Hline Hf Ha Hn He Hw) as (h' & E & Hs).
  rewrite Hrun in E. exists (put_con c' h'). split; [exact E|]. split; [done|exact Hs].
Qed.

(** ** Scripts and the console *)

(** The same instrument: the output is left out. *)
Definition same_effect c c' : Prop := con_store c = con_store c' /\ con_rig c = con_rig c'.

Lemma printf_effect fmt args c c1 : shell_printf fmt args c = Some c1 -> same_effect c1 c.
Proof.
  unfold shell_printf, emit. destruct (con_stream c) eqn:E; [|by intros [= ->]].
  destruct (chvprintf _ _ _) as [out|]; [|done]. cbn. by intros [= <-].
Qed.
Lemma print_all_effect l : forall c c1, print_all l c = Some c1 -> same_effect c1 c.
Proof.
  induction l as [|[fmt args] l IH]; intros c c1; cbn [print_all]; [by intros [= ->]|].
  destruct (shell_printf fmt args c) as [c2|] eqn:E; [|done]. cbn. intros [E3 E4]%IH. apply printf_effect in E as [E5 E6]. split; congruence.
Qed.
Lemma printf_muted fmt args s m o : shell_printf fmt args (Console s m false o) = Some (Console s m false o).
Proof. done. Qed.
Lemma print_all_muted l s m o : print_all l (Console s m false o) = Some (Console s m false o).
Proof. induction l as [|[fmt args] l IH]; [done|exact IH]. Qed.

(** What a command does to the instrument it also does with the output off. *)
Definition blind (g : console (F := F) -> option (console (F := F))) : Prop := forall (s : store F) m b o o' c1,
  g (Console s m b o) = Some c1 -> exists c2, g (Console s m false o') = Some c2 /\ same_effect c1 c2.

Ltac blind_leaf E :=
  cbv zeta in *; cbn [mbind option_bind put_store upd_con con_store con_rig con_stream con_out put_stream put_rig put_out] in *;
  try match goal with P : shell_printf _ _ _ = None |- _ => exfalso; unfold shell_printf in P; discriminate P end;
  match type of E with
  | shell_printf _ _ _ = Some _ => apply printf_effect in E; eexists; split; [reflexivity|exact E]
  | print_all _ _ = Some _ => apply print_all_effect in E; eexists; split; [apply print_all_muted|exact E]
  | Some _ = Some _ => injection E as <-; eexists; split; [reflexivity|];
      repeat match goal with P : shell_printf _ _ _ = Some _ |- _ => apply printf_effect in P as [? ?] end;
      split; cbn [put_store upd_con con_store con_rig put_stream put_rig put_out] in *; first [reflexivity|congruence]
  | None = Some _ => discriminate E
  end.
Ltac blind_step :=
  match goal with
  | |- context [if ?b then _ else _] => destruct b eqn:?
  | |- context [match ?x with Some _ => _ | None => _ end] => destruct x eqn:?
  | |- context [match ?x with (_, _) => _ end] => destruct x eqn:?
  end.
Ltac blind_start c1 := intros s m b o o' c1.
Tactic Notation "blind_command" reference(f) :=
  let c1 := fresh "c" in let E := fresh "E" in blind_start c1; unfold f, con_vna, con_sampler, mbind, option_bind;
  cbn [put_store upd_con con_store con_rig con_stream con_out put_stream put_rig put_out]; rewrite ?printf_muted; repeat blind_step; intros E; blind_leaf E.

Lemma blind_smooth args : blind (cmd_smooth args).
Proof. blind_command cmd_smooth. Qed.
Lemma blind_offset args : blind (cmd_offset args).
Proof. blind_command cmd_offset. Qed.
Lemma blind_tcxo args : blind (cmd_tcxo args).
Proof. blind_command cmd_tcxo. Qed.
Lemma blind_freq args : blind (cmd_freq args).
Proof. blind_command cmd_freq. Qed.
Lemma blind_power args : blind (cmd_power args).
Proof. blind_command cmd_power. Qed.
Lemma blind_threshold args : blind (cmd_threshold args).
Proof. blind_command cmd_threshold. Qed.
Lemma blind_saveconfig args : blind (cmd_saveconfig args).
Proof. blind_command cmd_saveconfig. Qed.
Lemma blind_clearconfig args : blind (cmd_clearconfig args).
Proof. blind_command cmd_clearconfig. Qed.
Lemma blind_bandwidth args : blind (cmd_bandwidth args).
Proof. blind_command cmd_bandwidth. Qed.
Lemma blind_sweep args : blind (cmd_sweep args).
Proof. blind_command cmd_sweep. Qed.
Lemma blind_save args : blind (cmd_save args).
Proof. blind_command cmd_save. Qed.
Lemma blind_recall args : blind (cmd_recall args).
Proof. blind_command cmd_recall. Qed.
Lemma blind_trace args : blind (cmd_trace args).
Proof. blind_command cmd_trace. Qed.
Lemma blind_edelay args : blind (cmd_edelay args).
Proof. blind_command cmd_edelay. Qed.
Lemma blind_s21offset args : blind (cmd_s21offset args).
Proof. blind_command cmd_s21offset. Qed.
Lemma blind_marker args : blind (cmd_marker args).
Proof. blind_command cmd_marker. Qed.
Lemma blind_vbat_offset args : blind (cmd_vbat_offset args).
Proof. blind_command cmd_vbat_offset. Qed.
Lemma blind_config args : blind (cmd_config args).
Proof. unfold cmd_config, blind. blind_command apply_VNA_mode. Qed.
Lemma blind_pause args : blind (cmd_pause args).
Proof. blind_command cmd_pause. Qed.
Lemma blind_resume args : blind (cmd_resume args).
Proof. blind_command cmd_resume. Qed.

Lemma blind_transform args : blind (cmd_transform args).
Proof.
  unfold cmd_transform. destruct (_ =? _)%nat; [blind_start c1; unfold transform_usage; intros E; blind_leaf E|].
  induction args as [|a args IH]; intros s m b o o' c1; cbn [transform_options]; [intros [= <-]; by eexists|].
  destruct (transform_option _) as [g|]; [|unfold transform_usage; intros E; blind_leaf E]. apply (IH (upd_vna g s) m b o o' c1).
Qed.
Lemma blind_color args : blind (cmd_color args).
Proof.
  blind_start c1. unfold cmd_color, con_vna, mbind, option_bind. cbn [con_store con_stream con_out con_rig put_stream]. blind_step; [|repeat blind_step; intros E; blind_leaf E].
  rewrite printf_muted. destruct (shell_printf _ _ _) as [c|] eqn:E1; [|done]. intros E. apply printf_effect in E1 as [Es Em]. apply print_all_effect in E as [Es2 Em2].
  eexists. split; [apply print_all_muted|]. split; cbn in *; congruence.
Qed.

Lemma blind_measure args : blind (cmd_measure args).
Proof. unfold cmd_measure, blind. blind_command plot_set_measure_mode. Qed.
Lemma blind_msg args : blind (cmd_msg args).
Proof. blind_command cmd_msg. Qed.
Lemma blind_reset args : blind (cmd_reset args).
Proof. blind_start c1. unfold cmd_reset. by destruct (shell_printf _ _ _). Qed.
Lemma blind_vbat args : blind (cmd_vbat dev args).
Proof. blind_command cmd_vbat. Qed.
Lemma blind_usart_cfg args : blind (cmd_usart_cfg args).
Proof. blind_command cmd_usart_cfg. Qed.
Lemma blind_usart args : blind (cmd_usart dev args).
Proof. blind_command cmd_usart. Qed.

(** The commands of the entries that scripts may use. *)
Definition loadable (f : command) : bool := existsb (fun e => bool_decide (sc_function e = f) && bit_test (sc_flags e) CMD_RUN_IN_LOAD) commands.
Lemma loadable_entry e : e ∈ commands -> bit_test (sc_flags e) CMD_RUN_IN_LOAD = true -> loadable (sc_function e) = true.
Proof.
  intros He Hf. apply existsb_exists. exists e. split; [by apply list_elem_of_In|]. by rewrite bool_decide_eq_true_2, Hf.
Qed.
Lemma blind_run f args : loadable f = true -> blind (run f args).
Proof.
  intros Hf. destruct f; first [discriminate Hf|cbn [run_command]]; auto using blind_smooth, blind_offset, blind_tcxo, blind_freq, blind_power, blind_threshold,
    blind_saveconfig, blind_clearconfig, blind_bandwidth, blind_sweep, blind_save, blind_recall, blind_trace, blind_edelay,
    blind_s21offset, blind_marker, blind_vbat_offset, blind_config, blind_pause, blind_resume, blind_transform, blind_color,
    blind_measure, blind_msg, blind_reset, blind_vbat, blind_usart_cfg, blind_usart.
Qed.

(** A script line leaves the instrument as its command does. *)
Lemma executeCMDLine_runs (text tl word : list Z) (args : list (list Z)) (e : VNAShellCommand) h :
  nonzero text -> arguments text = word :: args -> (length args <= 4)%nat -> e ∈ commands -> hd [] (split_bar word) = sc_name e ->
  exists line, VNAShell_executeCMDLine sincos_tbl stack env requested dev other (text ++ 0 :: tl) h =
    if bit_test (sc_flags e) CMD_RUN_IN_LOAD then
      c ← run (sc_function e) args (put_stream false (sh_con h));
      Some (line, put_con (put_stream true c) (put_args (new_args (fun _ => None) (snd (fst (parse_line (text ++ 0 :: tl) ARGS_COUNT))) (sh_args h)) (Z.of_nat (S (length args))) h))
    else Some (line, put_con (put_stream true (sh_con h)) (put_args (new_args (fun _ => None) (snd (fst (parse_line (text ++ 0 :: tl) ARGS_COUNT))) (sh_args h)) (Z.of_nat (S (length args))) h)).
Proof.
  intros Ht Ha Hn He Hw. destruct (parceLine_finds text tl (put_stream false (sh_con h)) word args e Ht Ha Hn He Hw) as (line' & offs & E & _ & Em).
  exists line'. unfold VNAShell_executeCMDLine, script_line. cbn [sh_con put_con]. rewrite E. cbn [mbind option_bind].
  assert (Eo : offs = snd (fst (parse_line (text ++ 0 :: tl) ARGS_COUNT))).
  { unfold VNAShell_parceLine in E. destruct (parse_line _ _) as [[l2 o2] n2]. destruct (_ <? _) in E; [|by injection E].
    destruct (shell_printf _ _ _) in E; discriminate. }
  rewrite <- Eo. destruct offs as [|o offs]; [done|]. cbn [map] in Em. injection Em as _ Em.
  destruct (bit_test (sc_flags e) CMD_RUN_IN_LOAD); [|done]. change (drop 1 (o :: offs)) with offs. rewrite Em. by destruct (run _ _ _).
Qed.

Lemma echoed_console text c : exists o, echoed text c = Console (con_store c) (con_rig c) (con_stream c) o.
Proof. unfold echoed, emit, put_out. destruct c as [s m [] o]; by eexists. Qed.

(** C9: A script does what typing does: for a line of up to 63 printable characters
    that names a command allowed in scripts, if typing it at the prompt of a connected
    console returns (every such command but [reset] can) and leads to the state [h1], a
    line of a script with the same text returns too and leaves the same instrument
    (settings, storage, generator, measured data, sampler, measure panel, serial port);
    only output, line buffer and pending flags differ. Commands not allowed in scripts
    leave the instrument alone. *)
Theorem script_is_console (text rest tl word : list Z) (args : list (list Z)) (e : VNAShellCommand) h h1 :
  con_stream (sh_con h) = true -> printable text -> (length text <= 63)%nat -> length (sh_line h) = Z.to_nat VNA_SHELL_MAX_LENGTH -> sh_function h = None ->
  arguments text = word :: args -> (length args <= 4)%nat -> e ∈ commands -> hd [] (split_bar word) = sc_name e ->
  prompt (text ++ 13 :: rest) h = Some (rest, h1) ->
  exists line h2, VNAShell_executeCMDLine sincos_tbl stack env requested dev other (text ++ 0 :: tl) h = Some (line, h2) /\
    same_effect (sh_con h2) (if bit_test (sc_flags e) CMD_RUN_IN_LOAD then sh_con h1 else sh_con h).
Proof.
  intros Hst Hp Hl Hline Hf Ha Hn He Hw Hh1.
  destruct (executeCMDLine_runs text tl word args e h (printable_nonzero _ Hp) Ha Hn He Hw) as [line ->].
  destruct (bit_test (sc_flags e) CMD_RUN_IN_LOAD) eqn:El; [|by eexists _, _].
  destruct (prompt_runs text rest word args e h Hst Hp Hl Hline Hf Ha Hn He Hw) as (h' & P & _). rewrite Hh1 in P.
  destruct (run (sc_function e) args (echoed text (sh_con h))) as [c1|] eqn:Er; [|done]. injection P as ->.
  destruct (echoed_console text (sh_con h)) as [o Eo]. rewrite Eo in Er.
  destruct (blind_run (sc_function e) args (loadable_entry e He El) _ _ _ _ (con_out (sh_con h)) _ Er) as (c2 & E2 & Es).
  unfold put_stream. rewrite E2. cbn [mbind option_bind]. eexists _, _. split; [done|]. cbn [sh_con put_con put_args]. destruct Es as [Es Em]. by split.
Qed.

(** ** Refused lines *)

Lemma find_command_none word : nonzero word -> hd [] (split_bar word) ∉ map sc_name commands -> find_command word = None.
Proof.
  intros Hw Hn. unfold find_command. destruct (list_find _ commands) as [[i e]|] eqn:E; [|done]. exfalso. apply Hn.
  apply list_find_Some in E as (Hi & E & _). pose proof (list_elem_of_lookup_2 _ _ _ Hi) as He.
  rewrite get_str_index_correct in E; [|pose proof names_nonzero as N; rewrite Forall_forall in N; by apply N|done].
  apply list_elem_of_fmap. exists e. split; [|done]. unfold index_of in E.
  destruct (split_bar word) as [|w ws] eqn:Es; [by apply split_bar_cons in Es|]. cbn in E |- *.
  destruct (decide (w = sc_name e)) as [->|]; [done|]. destruct (list_find _ ws) as [[k x]|]; cbn in E; lia.
Qed.

Definition TOO_MANY : list Z := line_of "too many arguments, max 4".
Lemma too_many_printed c : shell_printf TOO_MANY [] c = Some (emit TOO_MANY c).
Proof. unfold shell_printf, emit. destruct (con_stream c); [|done]. reflexivity. Qed.
Lemma unknown_printed word c : (length word <= 63)%nat -> shell_printf (line_of "%s?") [astr word] c = Some (emit (word ++ line_of "?") c).
Proof.
  intros Hl. unfold shell_printf, emit. destruct (con_stream c); [|done]. unfold chvprintf.
  change (line_of "%s?") with [37; 115; 63; 13; 10]. cbn -[convert put_field Z.lor]. change (Z.lor 0 DEFAULT_PRESCISION) with DEFAULT_PRESCISION.
  unfold convert. cbn -[put_field take Z.to_nat].
  change (bit_test DEFAULT_PRESCISION DEFAULT_PRESCISION) with true. rewrite take_ge by lia. rewrite put_field_0. done.
Qed.

(** C15: A line that cannot be run is reported and changes nothing: on a connected console, for any line of
    up to 63 printable characters whose first word is not empty and names no command,
    or which has more than four arguments, the prompt prints the error (the word with
    a question mark, preceded for too many arguments by their message) and leaves the
    instrument, the pending function and the requests as they were; the next line is
    read. *)
Theorem refused_line_reports (text rest word : list Z) (args : list (list Z)) h :
  con_stream (sh_con h) = true -> printable text -> (length text <= 63)%nat -> length (sh_line h) = Z.to_nat VNA_SHELL_MAX_LENGTH -> sh_function h = None ->
  arguments text = word :: args -> word <> [] -> (4 < length args)%nat \/ hd [] (split_bar word) ∉ map sc_name commands ->
  exists h', prompt (text ++ 13 :: rest) h = Some (rest, h') /\
    sh_con h' = emit ((if (4 <? length args)%nat then TOO_MANY else []) ++ word ++ line_of "?") (echoed text (sh_con h)) /\
    sh_function h' = None /\ sh_operation h' = sh_operation h /\ length (sh_line h') = Z.to_nat VNA_SHELL_MAX_LENGTH.
Proof.
  intros Hst Hp Hl Hline Hf Ha Hw Hbad. unfold VNA_SHELL_MAX_LENGTH in *. unfold shell_prompt.
  pose proof (printable_nonzero _ Hp) as Hz. pose proof (tokenize_nonzero (S (length text)) text Hz) as Hnz. fold (arguments text) in Hnz. rewrite Ha in Hnz.
  pose proof (length_tokenize (S (length text)) text) as Hcount. fold (arguments text) in Hcount. rewrite Ha in Hcount. cbn [length] in Hcount.
  pose proof (readLine_text text rest Hp [] (sh_line h) (sh_con h) Hst Hl ltac:(lia)) as R. cbn [app length] in R. rewrite R. clear R.
  fold (echoed text (sh_con h)). cbn [mbind option_bind]. set (tl := drop (S (length text)) (sh_line h)).
  destruct (parse_buffer text tl ARGS_COUNT Hz ltac:(cbv; discriminate) ltac:(rewrite Ha; cbn [length]; lia)) as (line' & offs & E & Hlen & Em).
  rewrite Ha in E, Em. unfold VNAShell_executeLine, VNAShell_parceLine. cbn [sh_line sh_con put_con put_line]. rewrite E. cbn [length].
  change (Z.to_nat ARGS_COUNT) with 5%nat in Em. change ARGS_COUNT with 5. destruct offs as [|o offs]; [done|]. cbn [map take] in Em. injection Em as Ew _.
  pose proof (tokenize_bounded (S (length text)) text) as Hlw. fold (arguments text) in Hlw. rewrite Ha in Hlw. apply Forall_cons in Hlw as [Hlw _].
  apply Forall_cons in Hnz as [Hnz _].
  assert (Hpeek : (peek word =? 0) = false) by (destruct Hnz; [done|]; by apply Z.eqb_neq).
  replace (5 <? Z.of_nat (S (length args))) with (4 <? length args)%nat by (destruct (Nat.ltb_spec 4 (length args)), (Z.ltb_spec 5 (Z.of_nat (S (length args)))); lia || done).
  destruct (Nat.ltb_spec 4 (length args)) as [Hn|Hn].
  - fold TOO_MANY. rewrite too_many_printed. cbn [mbind option_bind map new_args app nth arg_string sh_line sh_args put_con put_line put_args sh_con].
    rewrite Ew, Hpeek, unknown_printed by lia. rewrite emit_app. cbn [mbind option_bind].
    unfold run_shell_function. cbn [sh_function put_con put_line put_args]. rewrite Hf. eexists. split; [reflexivity|].
    do 3 (split; [done|]). cbn. unfold tl. rewrite length_app. cbn [length]. rewrite length_drop. lia.
  - destruct Hbad as [|Hbad]; [lia|]. destruct (Z.ltb_spec 0 (Z.of_nat (S (length args)))); [|lia]. cbn [nth]. rewrite Ew, find_command_none by done.
    cbn [mbind option_bind map new_args app nth arg_string sh_line sh_args put_con put_line put_args sh_con].
    rewrite Ew, Hpeek, unknown_printed by lia. cbn [mbind option_bind].
    unfold run_shell_function. cbn [sh_function put_con put_line put_args]. rewrite Hf. eexists. split; [reflexivity|].
    do 3 (split; [done|]). cbn. unfold tl. rewrite length_app. cbn [length]. rewrite length_drop. lia.
Qed.

End Lines.

(** ** The sweep command *)

Section SweepCommand.
Context {F : Type} `{FloatOps F} `{FloatBits F}.
Implicit Types (c : console (F := F)).

(** A number as it is typed. *)
Definition dec (n : Z) : list Z := long_to_string_with_divisor n 10 0.

Lemma put_vna_upd (g : vna F -> vna F) c : con_vna (upd_con g c) = g (con_vna c).
Proof. done. Qed.

Lemma sweep_start_stop a b (s : vna F) : FREQUENCY_MIN <= a <= b -> b <= FREQUENCY_MAX ->
  let s' := set_sweep_frequency ST_STOP b (set_sweep_frequency ST_START a s) in
  frequency0 s' = a /\ frequency1 s' = b.
Proof.
  intros Ha Hb s'. set (s1 := set_sweep_frequency ST_START a s) in s'.
  destruct (set_sweep_frequency_range_of ST_START a s ltac:(done) ltac:(done)) as (E0 & _).
  destruct (set_sweep_frequency_range_of ST_STOP b s1 ltac:(done) ltac:(done)) as (D0 & D1 & _).
  fold s1 in E0. fold s' in D0, D1. change (ST_START <? ST_SPAN) with true in E0. change (ST_STOP <? ST_SPAN) with true in D0, D1. cbn beta iota in *.
  assert (C : forall f, FREQUENCY_MIN <= f <= FREQUENCY_MAX -> clamp_freq f = f) by (intros f Hf; unfold clamp_freq; lia).
  rewrite C in E0, D0, D1 by lia. rewrite D0, D1. destruct (switch_stop b s1) as [-> ->], (switch_start a s) as [X _].
  rewrite E0, X. split; [lia|done].
Qed.

Lemma sweep_points_set n (s : vna F) : SWEEP_POINTS_MIN <= n <= SWEEP_POINTS_MAX ->
  let s' := set_sweep_points n s in frequency0 s' = frequency0 s /\ frequency1 s' = frequency1 s /\ sweep_points s' = n.
Proof.
  intros Hn s'. subst s'. unfold set_sweep_points. destruct (Z.ltb_spec SWEEP_POINTS_MAX n); [lia|]. destruct (Z.ltb_spec n SWEEP_POINTS_MIN); [lia|].
  destruct (Z.eqb_spec n (sweep_points s)); [done|]. destruct (update_frequencies_range (upd_props (set__sweep_points n) s)) as (E0 & E1 & E2 & _).
  by rewrite E0, E1, E2.
Qed.

(** One directive, and the text between them. *)
Lemma printf_directive (sep : Z) fuel ch fmt (args : list (parg F)) : In ch [100; 117] ->
  chvprintf_loop sep (S fuel) (37 :: ch :: fmt) args =
    ('(txt, _, args) ← convert sep ch DEFAULT_PRESCISION 0 args; app txt <$> chvprintf_loop sep fuel fmt args).
Proof.
  intros Hc. transitivity ('(txt, state, args) ← convert sep ch (Z.lor 0 DEFAULT_PRESCISION) 0 args; app (put_field state 0 txt) <$> chvprintf_loop sep fuel fmt args).
  - destruct Hc as [<-|[<-|[]]]; reflexivity.
  - change (Z.lor 0 DEFAULT_PRESCISION) with DEFAULT_PRESCISION. destruct (convert _ _ _ _ _) as [[[txt st] args']|]; [|done].
    cbn [mbind option_bind]. by rewrite put_field_0.
Qed.
Lemma printf_text (sep : Z) fuel ch fmt (args : list (parg F)) : (ch =? 37) = false ->
  chvprintf_loop sep (S fuel) (ch :: fmt) args = cons ch <$> chvprintf_loop sep fuel fmt args.
Proof. intros E. cbn [chvprintf_loop]. by rewrite E. Qed.

Lemma range_printed a b n c : 0 <= n < 2 ^ 31 ->
  shell_printf (line_of "%u %u %d") [aint a; aint b; aint n] c = Some (emit (dec a ++ 32 :: dec b ++ 32 :: dec n ++ VNA_SHELL_NEWLINE) c).
Proof.
  intros Hn. unfold shell_printf, emit. destruct (con_stream c); [|done]. unfold chvprintf.
  change (line_of "%u %u %d") with [37; 117; 32; 37; 117; 32; 37; 100; 13; 10]. cbn [length].
  assert (Ed : forall z l sep, convert sep 117 DEFAULT_PRESCISION 0 (aint z :: l) = Some (dec z, DEFAULT_PRESCISION, l)).
  { intros z l sep. unfold convert, dec. cbn [aint Z.eqb Pos.eqb orb]. reflexivity. }
  assert (Es : forall l sep, exists st, convert sep 100 DEFAULT_PRESCISION 0 (aint n :: l) = Some (dec n, st, l)).
  { intros l sep. unfold convert, dec. cbn [aint Z.eqb Pos.eqb orb]. rewrite s32_small by lia. destruct (Z.ltb_spec n 0); [lia|].
    cbn [sign_prefix]. destruct (sign_prefix false DEFAULT_PRESCISION) as [p st] eqn:E. cbv in E. injection E as <- <-. by eexists. }
  rewrite printf_directive, Ed by (cbn; tauto). cbn [mbind option_bind]. rewrite printf_text by done.
  rewrite printf_directive, Ed by (cbn; tauto). cbn [mbind option_bind]. rewrite printf_text by done.
  destruct (Es [] (DIGIT_SEPARATOR (con_vna c))) as [st E]. rewrite printf_directive, E by (cbn; tauto). cbn [mbind option_bind].
  rewrite !printf_text by done. cbn [chvprintf_loop fmap option_fmap option_map app]. by rewrite <- ?app_assoc.
Qed.

(** C16: The sweep command sets what the query then reports: for 0 < start <= stop in
    the instrument's frequency range and a supported number of points, the command
    with the three numbers in decimal sets exactly this start, stop and number of
    points, prints nothing and stores nothing, and the command without arguments then
    prints the same three texts. *)
Theorem sweep_command_reports (a b n : Z) c :
  FREQUENCY_MIN <= a <= b -> b <= FREQUENCY_MAX -> SWEEP_POINTS_MIN <= n <= SWEEP_POINTS_MAX ->
  exists c', cmd_sweep [dec a; dec b; dec n] c = Some c' /\
    frequency0 (con_vna c') = a /\ frequency1 (con_vna c') = b /\ sweep_points (con_vna c') = n /\
    con_out c' = con_out c /\ st_flash (con_store c') = st_flash (con_store c) /\
    cmd_sweep [] c' = Some (emit (dec a ++ 32 :: dec b ++ 32 :: dec n ++ VNA_SHELL_NEWLINE) c').
Proof.
  intros Ha Hb Hn. unfold FREQUENCY_MIN, FREQUENCY_MAX, SWEEP_POINTS_MIN, SWEEP_POINTS_MAX in *.
  unfold cmd_sweep at 1. cbn [length Nat.eqb Nat.ltb Nat.leb andb]. unfold argv. cbn [nth].
  assert (D : forall k, 0 <= k < 4294967296 -> my_atoui (dec k) = k) by (intros k Hk; by apply my_atoui_dec).
  rewrite !D by lia. destruct (Z.eqb_spec a 0); [lia|]. destruct (Z.eqb_spec b 0); [lia|]. destruct (Z.eqb_spec n 0); [lia|].
  eexists. split; [reflexivity|]. rewrite u16_small by lia. rewrite !put_vna_upd.
  set (s := con_vna c). destruct (sweep_start_stop a b s) as [E0 E1]; [unfold FREQUENCY_MIN; lia|unfold FREQUENCY_MAX; lia|].
  set (s1 := set_sweep_frequency ST_STOP b _) in *. destruct (sweep_points_set n s1) as (P0 & P1 & P2); [unfold SWEEP_POINTS_MIN, SWEEP_POINTS_MAX; lia|].
  rewrite P0, P1. do 5 (split; [done|]). unfold cmd_sweep. cbn [length Nat.eqb].
  rewrite !put_vna_upd. fold s. fold s1. change (get_sweep_frequency ST_START ?x) with (frequency0 x). change (get_sweep_frequency ST_STOP ?x) with (frequency1 x).
  rewrite P0, P1, P2, E0, E1. apply range_printed. lia.
Qed.
End SweepCommand.

(** ** The scan command *)

Section ScanCommand.
Context {F : Type} `{FloatOps F} `{FloatBits F}.
Context (sincos_tbl : list Z) (stack : F * F) (env : surroundings) (requested : Z -> bool).
Implicit Types (c : console (F := F)) (s : vna F).

Lemma bit_test_lor a b m : bit_test (Z.lor a b) m = bit_test a m || bit_test b m.
Proof.
  unfold bit_test. rewrite Z.land_lor_distr_l. destruct (Z.eqb_spec (Z.land a m) 0) as [->|Ha].
  - by rewrite Z.lor_0_l.
  - cbn [negb orb]. apply negb_true_iff, Z.eqb_neq. intros E. by apply Z.lor_eq_0_iff in E as [? _].
Qed.

(** The corrections do not change what is measured. *)
Lemma scan_channels_measure base mask a b s m : In m [1; 2; 3] ->
  bit_test (scan_channels base mask a b s) m = bit_test base m.
Proof.
  intros Hm. unfold scan_channels. destruct (_electrical_delay _) as [d0 d1]. unfold bit_set.
  assert (L : forall (t : bool) x w, In w [4; 8; 16; 32; 64; 128; 256; 512; 1024] -> bit_test (if t then Z.lor x w else x) m = bit_test x m).
  { intros [] x w Hw; [|done]. rewrite bit_test_lor. replace (bit_test w m) with false; [by rewrite orb_false_r|].
    symmetry. cbn in Hm, Hw. repeat (destruct Hm as [<-|Hm]; [repeat (destruct Hw as [<-|Hw]; [reflexivity|]); done|]). done. }
  rewrite !L; [done|..]; cbn; tauto.
Qed.

(** The state the sweep runs in. *)
Definition scan_state (a b n : Z) s : vna F :=
  set_frequencies a b n (set_binary false (upd_props (set__sweep_points n) (set_binary true s))).
Definition scan_mask_channels (k a b n : Z) s : Z := scan_channels (Z.land (Z.shiftr k 1) 3) k a b (scan_state a b n s).

Lemma scan_mask_bits k : 0 <= k < 128 ->
  bit_set k SCAN_MASK_BINARY = k + 128 /\ Z.land (Z.shiftr (k + 128) 1) 3 = Z.land (Z.shiftr k 1) 3 /\
  (forall m, In m [1; 2; 4; 8; 16; 32] -> bit_test (k + 128) m = bit_test k m) /\
  (bit_test (Z.land (Z.shiftr k 1) 3) 1 = bit_test k 2 /\ bit_test (Z.land (Z.shiftr k 1) 3) 2 = bit_test k 4 /\ bit_test (Z.land (Z.shiftr k 1) 3) 3 = bit_test k 6).
Proof.
  intros Hk.
  assert (T : forallb (fun k => (bit_set k SCAN_MASK_BINARY =? k + 128) && (Z.land (Z.shiftr (k + 128) 1) 3 =? Z.land (Z.shiftr k 1) 3) &&
    forallb (fun m => Bool.eqb (bit_test (k + 128) m) (bit_test k m)) [1; 2; 4; 8; 16; 32] &&
    Bool.eqb (bit_test (Z.land (Z.shiftr k 1) 3) 1) (bit_test k 2) && Bool.eqb (bit_test (Z.land (Z.shiftr k 1) 3) 2) (bit_test k 4) &&
    Bool.eqb (bit_test (Z.land (Z.shiftr k 1) 3) 3) (bit_test k 6)) (seqZ 0 128) = true) by (vm_compute; reflexivity).
  rewrite forallb_forall in T. specialize (T k). rewrite <- list_elem_of_In, elem_of_seqZ in T. specialize (T ltac:(lia)).
  rewrite !andb_true_iff, !Bool.eqb_true_iff, !Z.eqb_eq in T. destruct T as (((((T1 & T2) & T3) & T4) & T5) & T6).
  repeat (split; [assumption|]). split; [|by repeat split]. intros m Hm. rewrite forallb_forall in T3. by apply Bool.eqb_true_iff, T3.
Qed.
Lemma my_atoui_typed k : 0 <= k < 4294967296 -> my_atoui (dec k) = k.
Proof. apply my_atoui_dec. Qed.

Lemma scan_state_frequency a b n p s : 0 <= a <= b -> b < 2 ^ 32 -> 2 <= n <= SWEEP_POINTS_MAX -> 0 <= p < n ->
  getFrequency p (scan_state a b n s) = ideal_frequency a b (n - 1) p.
Proof. intros Ha Hb Hn Hp. by apply getFrequency_ideal. Qed.

(** A scan without channels sends frequencies and measures nothing. *)
Definition scans (k : Z) : bool := bit_test k (Z.lor SCAN_MASK_OUT_DATA0 SCAN_MASK_OUT_DATA1).
(** What a scan with the mask [k] asks of the instrument and its surroundings: of the
    generator, the terms and the measurements only if it measures. *)
Record scan_hyps (a b n k m : Z) s (G0 G1 : Z -> F * F) (C : Z -> list (F * F)) : Prop := {
  scan_range : lowest_freq m <= a <= b /\ b <= FREQUENCY_MAX;
  scan_points : 2 <= n <= SWEEP_POINTS_MAX;
  scan_mask : 0 <= k < 128;
  scan_ready : scans k = true -> ready m s;
  scan_rows : wf_rows (measured s);
  scan_place : 0 <= p_sweep s;
  scan_terms : scans k = true -> forall p, 0 <= p < n -> cal_terms (scan_mask_channels k a b n s) (scan_state a b n s) p = Some (C p);
  scan_read0 : bit_test k SCAN_MASK_OUT_DATA0 = true -> forall p, 0 <= p < n -> yields sincos_tbl env (_bandwidth (config s)) 0 p (G0 p);
  scan_read1 : bit_test k SCAN_MASK_OUT_DATA1 = true -> forall p, 0 <= p < n -> yields sincos_tbl env (_bandwidth (config s)) 1 p (G1 p) }.

Lemma scan_sweep_hyps a b n k m s G0 G1 C : scan_hyps a b n k m s G0 G1 C -> scans k = true ->
  sweep_hyps sincos_tbl env (scan_mask_channels k a b n s) m (scan_state a b n s) G0 G1 C.
Proof.
  intros [[Ha Hb] Hn Hk Hr _ _ Ht Y0 Y1] Hm. specialize (Hr Hm). specialize (Ht Hm). destruct (scan_mask_bits k Hk) as (_ & _ & _ & B1 & B2 & B3).
  assert (Hl : 0 <= lowest_freq m) by (unfold lowest_freq; repeat case_match; lia).
  split.
  - change (sweep_points (scan_state a b n s)) with n. lia.
  - exact Hr.
  - unfold scan_mask_channels. change (Z.lor SWEEP_CH0_MEASURE SWEEP_CH1_MEASURE) with 3. rewrite scan_channels_measure, B3 by (cbn; tauto). exact Hm.
  - intros p Hp. change (sweep_points (scan_state a b n s)) with n in Hp. unfold FREQUENCY_MAX in *.
    rewrite scan_state_frequency by lia. pose proof (ideal_frequency_bounds a b (n - 1) p). lia.
  - exact Ht.
  - unfold scan_mask_channels. change SWEEP_CH0_MEASURE with 1. rewrite scan_channels_measure, B1 by (cbn; tauto). exact Y0.
  - unfold scan_mask_channels. change SWEEP_CH1_MEASURE with 2. rewrite scan_channels_measure, B2 by (cbn; tauto). exact Y1.
Qed.

Definition scan_sent (a b n k : Z) s (G0 G1 : Z -> F * F) (C : Z -> list (F * F)) : list Z :=
  let s1 := scan_state a b n s in
  let ch := scan_mask_channels k a b n s in
  to_le 2 (k + 128) ++ to_le 2 n ++
  concat (map (fun i => scan_record k (ideal_frequency a b (n - 1) i)
    (value0 stack ch s1 (C i) i (G0 i)) (value1 stack ch s1 (C i) i (G0 i) (G1 i))) (seqZ 0 n)).

Lemma scan_record_same k k' f v0 v1 w0 w1 :
  bit_test k' SCAN_MASK_OUT_FREQ = bit_test k SCAN_MASK_OUT_FREQ -> bit_test k' SCAN_MASK_OUT_DATA0 = bit_test k SCAN_MASK_OUT_DATA0 ->
  bit_test k' SCAN_MASK_OUT_DATA1 = bit_test k SCAN_MASK_OUT_DATA1 ->
  (bit_test k SCAN_MASK_OUT_DATA0 = true -> v0 = w0) -> (bit_test k SCAN_MASK_OUT_DATA1 = true -> v1 = w1) ->
  scan_record k' f v0 v1 = scan_record k f w0 w1.
Proof.
  intros E1 E2 E3 H0' H1'. unfold scan_record. rewrite E1, E2, E3. f_equal.
  destruct (bit_test k SCAN_MASK_OUT_DATA0), (bit_test k SCAN_MASK_OUT_DATA1); rewrite ?H0', ?H1' by done; done.
Qed.

Lemma during_frequency s v i : during s v -> getFrequency i (pause_sweep v) = getFrequency i s.
Proof. intros (g & ms & p & ->). unfold getFrequency. reflexivity. Qed.

(** The state at each step of the command. *)
Lemma con_scan_state a b n c :
  con_vna (upd_con (set_frequencies a b n) (upd_con (set_binary false) (upd_con (upd_props (set__sweep_points n)) (upd_con (set_binary true) c)))) =
  scan_state a b n (con_vna c).
Proof. reflexivity. Qed.
Lemma channels_scan_state k a b n c : 0 <= k < 128 ->
  scan_channels (Z.land (Z.shiftr k 1) 3) (k + 128) a b
    (con_vna (upd_con (set_binary false) (upd_con (upd_props (set__sweep_points n)) (upd_con (set_binary true) c)))) =
  scan_mask_channels k a b n (con_vna c).
Proof.
  intros Hk. destruct (scan_mask_bits k Hk) as (_ & _ & Ek & _). unfold scan_mask_channels, scan_channels.
  rewrite !Ek by (cbn; tauto). reflexivity.
Qed.
Lemma binary_mode_set n c : bit_test (sweep_mode (con_vna (upd_con (upd_props (set__sweep_points n)) (upd_con (set_binary true) c)))) SWEEP_BINARY = true.
Proof.
  change (sweep_mode _) with (bit_set (sweep_mode (con_vna c)) (2 ^ 3)). change SWEEP_BINARY with (2 ^ 3). by rewrite bit_test_set by lia.
Qed.
Lemma scan_done (v : vna F) sm b o c g :
  upd_con pause_sweep (Console (upd_vna (fun _ => v) (con_store (upd_con g c))) sm b o) = Console (upd_vna (fun _ => pause_sweep v) (con_store c)) sm b o.
Proof. reflexivity. Qed.

(** What is sent of the stored readings. *)
Lemma scan_binary_sent a b n k m s G0 G1 C (v : vna F) : scan_hyps a b n k m s G0 G1 C -> during (scan_state a b n s) v ->
  (forall i, 0 <= i < n ->
    (bit_test k SCAN_MASK_OUT_DATA0 = true -> measured_at 0 i v = value0 stack (scan_mask_channels k a b n s) (scan_state a b n s) (C i) i (G0 i)) /\
    (bit_test k SCAN_MASK_OUT_DATA1 = true -> measured_at 1 i v = value1 stack (scan_mask_channels k a b n s) (scan_state a b n s) (C i) i (G0 i) (G1 i))) ->
  scan_binary (k + 128) n (pause_sweep v) = scan_sent a b n k s G0 G1 C.
Proof.
  intros [[Ha Hb] Hn Hk _ _ _ _ _ _] Hd Hm. destruct (scan_mask_bits k Hk) as (_ & _ & Ek & _). unfold SWEEP_POINTS_MAX, FREQUENCY_MAX in *.
  assert (Hl : 600 <= lowest_freq m) by (unfold lowest_freq; repeat case_match; lia).
  unfold scan_binary, scan_sent. do 2 f_equal. apply f_equal, map_ext_in. intros i Hi%list_elem_of_In%elem_of_seqZ.
  rewrite (during_frequency _ _ i Hd), scan_state_frequency by (unfold SWEEP_POINTS_MAX; lia). destruct (Hm i ltac:(lia)) as [M0 M1].
  apply scan_record_same; [apply Ek; cbn; tauto..|exact M0|exact M1].
Qed.

(** The arguments are accepted and the channels swept. *)
Lemma scan_accepts a b n k c : 0 < a <= b -> b < 2 ^ 32 -> 0 < n <= SWEEP_POINTS_MAX -> 0 <= k < 128 ->
  let c2 := upd_con (set_binary false) (upd_con (upd_props (set__sweep_points n)) (upd_con (set_binary true) c)) in
  cmd_scan sincos_tbl stack env requested [dec a; dec b; dec n; dec k] (upd_con (set_binary true) c) =
    (c3 ← (if scans k then con_sweep sincos_tbl stack env requested (scan_mask_channels k a b n (con_vna c)) (upd_con (set_frequencies a b n) c2)
           else Some (upd_con (set_frequencies a b n) c2));
     shell_write (scan_binary (k + 128) n (con_vna (upd_con pause_sweep c3))) (upd_con pause_sweep c3)).
Proof.
  intros Ha Hb Hn Hk. destruct (scan_mask_bits k Hk) as (Em & Eb & Ek & B1 & B2 & B3). unfold SWEEP_POINTS_MAX in *.
  unfold cmd_scan. cbn [length Nat.ltb Nat.leb Nat.eqb orb andb]. unfold argv. cbn [nth]. rewrite !my_atoui_typed by lia.
  rewrite (proj2 (Z.eqb_neq a 0)), (proj2 (Z.eqb_neq b 0)), (proj2 (Z.ltb_ge b a)) by lia. cbn [orb].
  rewrite (u16_small n), (u16_small k), (proj2 (Z.eqb_neq n 0)), (proj2 (Z.ltb_ge SWEEP_POINTS_MAX n)) by (unfold SWEEP_POINTS_MAX; lia). cbn [orb].
  rewrite binary_mode_set, Em, Eb, channels_scan_state by done.
  replace (bit_test (scan_mask_channels k a b n (con_vna c)) (Z.lor SWEEP_CH0_MEASURE SWEEP_CH1_MEASURE)) with (scans k)
    by (unfold scan_mask_channels, scans; change (Z.lor SWEEP_CH0_MEASURE SWEEP_CH1_MEASURE) with 3; rewrite scan_channels_measure, B3 by (cbn; tauto); done).
  rewrite (proj2 (Z.eqb_neq (k + 128) 0)) by lia.
  replace (bit_test (k + 128) SCAN_MASK_BINARY) with true by (rewrite <- Em; change SCAN_MASK_BINARY with (2 ^ 7); by rewrite bit_test_set by lia).
  reflexivity.
Qed.

(** A sweep that is not to be broken off. *)
Lemma full_sweep mask m s G0 G1 C sm : sweep_hyps sincos_tbl env mask m s G0 G1 C -> wf_rows (measured s) -> 0 <= p_sweep s ->
  exists b, sweep sincos_tbl stack env requested false mask (Bench s sm) = Some (true, b) /\
    config (b_vna b) = config s /\ current_props (b_vna b) = current_props s /\ during s (b_vna b) /\
    forall i, 0 <= i < sweep_points s ->
      (bit_test mask SWEEP_CH0_MEASURE = true -> measured_at 0 i (b_vna b) = value0 stack mask s (C i) i (G0 i)) /\
      (bit_test mask SWEEP_CH1_MEASURE = true -> measured_at 1 i (b_vna b) = value1 stack mask s (C i) i (G0 i) (G1 i)).
Proof.
  intros Hs Hw Hp. destruct (sweep_run sincos_tbl stack env requested false mask m s G0 G1 C sm Hs Hw Hp)
    as (q & b & Hq & _ & Hend & E & _ & Ec & Ep & Hd & _ & _ & Hread).
  assert (Eq : q = sweep_points s) by (destruct (Z.lt_ge_cases q (sweep_points s)) as [Hlt|]; [specialize (Hend Hlt); by rewrite andb_false_r in Hend|lia]).
  exists b. split; [by rewrite E, Eq, Z.eqb_refl|]. do 3 (split; [assumption|]).
  intros i Hi. destruct (Hread i Hi) as [R0 R1]. unfold sweep_start in R0, R1. cbn [negb] in R0, R1. rewrite orb_true_r in R0, R1.
  rewrite (proj2 (Z.leb_le 0 i)), (proj2 (Z.ltb_lt i (q + 1))) in R0, R1 by lia. cbn [andb] in R0, R1. rewrite andb_true_r in R0, R1.
  split; intros B; [rewrite B in R0; exact R0|rewrite B in R1; exact R1].
Qed.

Lemma scan_mask_measure k a b n s : 0 <= k < 128 ->
  bit_test (scan_mask_channels k a b n s) SWEEP_CH0_MEASURE = bit_test k SCAN_MASK_OUT_DATA0 /\
  bit_test (scan_mask_channels k a b n s) SWEEP_CH1_MEASURE = bit_test k SCAN_MASK_OUT_DATA1.
Proof.
  intros Hk. destruct (scan_mask_bits k Hk) as (_ & _ & _ & B1 & B2 & _). unfold scan_mask_channels.
  split; rewrite scan_channels_measure by (cbn; tauto); assumption.
Qed.

Lemma scans_bits k : scans k = false -> bit_test k SCAN_MASK_OUT_DATA0 = false /\ bit_test k SCAN_MASK_OUT_DATA1 = false.
Proof.
  unfold scans, bit_test, SCAN_MASK_OUT_DATA0, SCAN_MASK_OUT_DATA1. intros E%negb_false_iff%Z.eqb_eq. rewrite Z.land_lor_distr_r in E.
  apply Z.lor_eq_0_iff in E as [-> ->]. done.
Qed.

(** The sweep of a scan, if there is one. *)
Lemma scan_sweeps a b n k m G0 G1 C c c2 : scan_hyps a b n k m (con_vna c) G0 G1 C -> con_vna c2 = scan_state a b n (con_vna c) ->
  exists v sm', (if scans k then con_sweep sincos_tbl stack env requested (scan_mask_channels k a b n (con_vna c)) c2 else Some c2) =
      Some (Console (upd_vna (fun _ => v) (con_store c2)) sm' (con_stream c2) (con_out c2)) /\
    config v = config (con_vna c) /\ current_props v = set__sweep_points n (current_props (con_vna c)) /\
    scan_binary (k + 128) n (pause_sweep v) = scan_sent a b n k (con_vna c) G0 G1 C.
Proof.
  intros Hs Eg. destruct (scans k) eqn:Em.
  2:{ exists (scan_state a b n (con_vna c)), (con_rig c2). split; [|split; [reflexivity|split; [reflexivity|]]].
      - f_equal. destruct c2 as [st g b2 o]. unfold con_vna in Eg |- *. cbn [con_store] in *. rewrite <- Eg. by destruct st.
      - apply (scan_binary_sent a b n k m (con_vna c) G0 G1 C _ Hs); [exists (gen (scan_state a b n (con_vna c))), (measured (scan_state a b n (con_vna c))), (p_sweep (scan_state a b n (con_vna c))); reflexivity|].
        intros i _. pose proof (scans_bits k Em) as [-> ->]. done. }
  pose proof (scan_sweep_hyps _ _ _ _ _ _ _ _ _ Hs Em) as Hsw. pose proof Hs as [_ _ Hk _ Hw Hp _ _ _].
  unfold con_sweep. rewrite Eg.
  destruct (full_sweep _ m (scan_state a b n (con_vna c)) G0 G1 C (con_sampler c2) Hsw Hw Hp) as (bn & -> & Ec & Ep & Hd & Hread).
  destruct (scan_mask_measure k a b n (con_vna c) Hk) as [B0 B1]. rewrite B0, B1 in Hread.
  exists (b_vna bn), (put_sampler (b_sampler bn) (con_rig c2)). split; [reflexivity|]. split; [exact Ec|]. split; [exact Ep|].
  exact (scan_binary_sent a b n k m (con_vna c) G0 G1 C (b_vna bn) Hs Hd Hread).
Qed.

Lemma scan_ends (v : vna F) fl sm (b : bool) o d :
  let c' := upd_con (set_binary false) (put_out d (upd_con pause_sweep (Console (upd_vna (fun _ => v) fl) sm b o))) in
  con_out c' = o ++ d /\ con_vna c' = set_binary false (pause_sweep v) /\ st_flash (con_store c') = st_flash fl /\
  bit_test (sweep_mode (con_vna c')) SWEEP_ENABLE = false.
Proof.
  intros c'. assert (Ev : con_vna c' = set_binary false (pause_sweep v)) by (destruct b; reflexivity).
  split; [done|]. split; [exact Ev|]. split; [done|]. rewrite Ev.
  change (sweep_mode _) with (bit_clr (bit_clr (sweep_mode v) (2 ^ 0)) (2 ^ 3)). change SWEEP_ENABLE with (2 ^ 0). by rewrite !bit_test_clr by lia.
Qed.

(** C8: A binary scan sends what it measures: for a range the synthesizer covers, 2 to
    401 points and any mask below 128 (the choice of frequencies, channels and
    corrections), on a connected console, [scan_bin start stop points mask] in decimal
    succeeds and sends the mask, the number of points and for every point what the mask
    asks for: its frequency - the ideal one rounded to a hertz - and the corrected
    values of the channels. A mask that asks for a channel needs a ready generator with
    its output on, correction terms for every point, and measurements that arrive; a
    mask that asks for none measures nothing. The configuration and the settings keep
    their values, the number of points apart, the storage is not written, the sweep is
    paused. *)
Theorem scan_bin_sends (a b n k m : Z) (G0 G1 : Z -> F * F) (C : Z -> list (F * F)) c :
  con_stream c = true -> scan_hyps a b n k m (con_vna c) G0 G1 C ->
  exists c', cmd_scan_bin sincos_tbl stack env requested [dec a; dec b; dec n; dec k] c = Some c' /\
    con_out c' = con_out c ++ scan_sent a b n k (con_vna c) G0 G1 C /\
    config (con_vna c') = config (con_vna c) /\ current_props (con_vna c') = set__sweep_points n (current_props (con_vna c)) /\
    st_flash (con_store c') = st_flash (con_store c) /\ bit_test (sweep_mode (con_vna c')) SWEEP_ENABLE = false.
Proof.
  intros Hst Hs. pose proof Hs as [[Ha Hb] Hn Hk _ _ _ _ _ _]. unfold SWEEP_POINTS_MAX, FREQUENCY_MAX in *.
  assert (Hl : 600 <= lowest_freq m) by (unfold lowest_freq; repeat case_match; lia).
  unfold cmd_scan_bin. rewrite scan_accepts by (unfold SWEEP_POINTS_MAX; lia). cbv zeta.
  destruct (scan_sweeps a b n k m G0 G1 C c _ Hs (con_scan_state a b n c)) as (v & sm' & -> & Ec & Ep & Esent). cbn [mbind option_bind].
  unfold shell_write. cbn [upd_con put_store con_stream]. rewrite Hst. cbn [mbind option_bind].
  rewrite <- Esent. eexists. split; [reflexivity|].
  destruct (scan_ends v (con_store (upd_con (set_frequencies a b n) (upd_con (set_binary false) (upd_con (upd_props (set__sweep_points n)) (upd_con (set_binary true) c)))))
    sm' true (con_out c) (scan_binary (k + 128) n (pause_sweep v))) as (Eo & Ev & Ef & Em).
  split; [exact Eo|]. rewrite <- Ec, <- Ep.
  split; [exact (f_equal config Ev)|]. split; [exact (f_equal current_props Ev)|]. split; [exact Ef|exact Em].
Qed.
End ScanCommand.

(** ** Examples *)

Definition demo_rig : rig := Rig (Sampler 0 0 reset_dsp_accumerator) 0 [].
Definition demo_console : console (F := SpecFloat.spec_float) := Console fresh_store demo_rig true [].
Definition demo_devices : devices := Devices 4100 (fun _ _ => []).
Definition demo_shell : shell (F := SpecFloat.spec_float) := Shell demo_console (repeat 0 64) (repeat None 5) 0 None 0.
Definition no_other (f : command) (args : list (list Z)) (c : console (F := SpecFloat.spec_float)) : option console := Some c.
Definition demo_prompt : list Z -> shell -> option (list Z * shell) :=
  shell_prompt [] (f0, f0) (fun _ _ => (0, [])) (fun _ => false) demo_devices no_other [].

Lemma word_printable : printable (cstr "pause").
Proof. repeat (constructor; [split; [discriminate|discriminate]|]). constructor. Qed.
Lemma word_refused : printable (cstr "halt").
Proof. repeat (constructor; [split; [discriminate|discriminate]|]). constructor. Qed.
Lemma pause_listed : entry "pause" Cmd_pause (Z.lor CMD_BREAK_SWEEP (Z.lor CMD_RUN_IN_UI CMD_RUN_IN_LOAD)) ∈ commands.
Proof. apply (list_elem_of_lookup_2 _ 18). reflexivity. Qed.

Lemma line_runs_command_witness : exists h', demo_prompt (cstr "pause" ++ 13 :: []) demo_shell = Some ([], h') /\
  sh_con h' = upd_con pause_sweep (echoed (cstr "pause") demo_console) /\ sh_operation h' = OP_CONSOLE.
Proof.
  destruct (line_runs_command [] (f0, f0) (fun _ _ => (0, [])) (fun _ => false) demo_devices no_other [] (cstr "pause") [] (cstr "pause") [] _ demo_shell
    (upd_con pause_sweep (echoed (cstr "pause") demo_console)) eq_refl word_printable ltac:(cbn; lia) eq_refl eq_refl eq_refl ltac:(cbn; lia) pause_listed eq_refl eq_refl)
    as (h' & E & Ec & _ & _ & Eo). exists h'. split; [exact E|]. split; [exact Ec|exact Eo].
Defined.

Lemma script_is_console_witness : exists line h2,
  VNAShell_executeCMDLine [] (f0, f0) (fun _ _ => (0, [])) (fun _ => false) demo_devices no_other (cstr "pause" ++ 0 :: []) demo_shell = Some (line, h2) /\
  con_store (sh_con h2) = con_store (upd_con pause_sweep demo_console).
Proof.
  destruct (line_runs_command_witness) as (h1 & E1 & Ec & _).
  destruct (script_is_console [] (f0, f0) (fun _ _ => (0, [])) (fun _ => false) demo_devices no_other [] (cstr "pause") [] [] (cstr "pause") [] _ demo_shell h1
    eq_refl word_printable ltac:(cbn; lia) eq_refl eq_refl eq_refl ltac:(cbn; lia) pause_listed eq_refl E1) as (line & h2 & E & Es & _).
  exists line, h2. split; [exact E|]. rewrite Es. change (bit_test _ _) with true. cbn iota. rewrite Ec. reflexivity.
Defined.

Lemma refused_line_reports_witness : exists h', demo_prompt (cstr "halt" ++ 13 :: []) demo_shell = Some ([], h') /\
  con_out (sh_con h') = cstr "halt" ++ VNA_SHELL_NEWLINE ++ cstr "halt?" ++ VNA_SHELL_NEWLINE.
Proof.
  assert (N : hd [] (split_bar (cstr "halt")) ∉ map sc_name commands) by (apply (bool_decide_eq_true_1 _); vm_compute; reflexivity).
  destruct (refused_line_reports [] (f0, f0) (fun _ _ => (0, [])) (fun _ => false) demo_devices no_other [] (cstr "halt") [] (cstr "halt") [] demo_shell
    eq_refl word_refused ltac:(cbn; lia) eq_refl eq_refl eq_refl ltac:(discriminate) (or_intror N)) as (h' & E & Ec & _).
  exists h'. split; [exact E|]. rewrite Ec. reflexivity.
Defined.

Lemma sweep_command_reports_witness : exists c', cmd_sweep [dec 1000000; dec 30000000; dec 101] demo_console = Some c' /\
  frequency0 (con_vna c') = 1000000 /\ cmd_sweep [] c' = Some (emit (cstr "1000000 30000000 101" ++ VNA_SHELL_NEWLINE) c').
Proof.
  destruct (sweep_command_reports 1000000 30000000 101 demo_console ltac:(cbv; split; discriminate) ltac:(cbv; discriminate) ltac:(cbv; split; discriminate))
    as (c' & E & F0 & _ & _ & _ & _ & Q). exists c'. split; [exact E|]. split; [exact F0|]. exact Q.
Defined.

(** An empty line after " pause" reports the word of the line before: [shell_args[0]]
    still points behind the blank (main.c:3293). *)
Lemma empty_line_reports_previous :
  ('(_, h) ← demo_prompt (cstr " pause" ++ [13]) demo_shell; '(_, h) ← demo_prompt [13] h; Some (con_out (sh_con h))) =
  Some (cstr " pause" ++ VNA_SHELL_NEWLINE ++ VNA_SHELL_NEWLINE ++ cstr "pause?" ++ VNA_SHELL_NEWLINE).
Proof. vm_compute. reflexivity. Qed.

(** The console sets the TIFF bit next to the PNG bit (nanovna.h:1019 allows one). *)
Lemma both_formats_set :
  let c := upd_con (upd_config (set__vna_mode (Z.shiftl 1 VNA_MODE_PNG))) demo_console in
  (c' ← cmd_config [cstr "tif"; cstr "1"] c; Some (_vna_mode (config (con_vna c')))) = Some (Z.lor (Z.shiftl 1 VNA_MODE_PNG) (Z.shiftl 1 VNA_MODE_TIFF)).
Proof. vm_compute. reflexivity. Qed.

(** A scan of two points of the steady desk instrument. *)
Definition desk_console : console (F := Qcanon.Qc) := Console (Store desk ∅ 0 []) (Rig (Sampler 0 0 accs_zero) 0 []) true [].
Lemma desk_scan : scan_hyps flat_table (steady 35 (-25)) 1000000 2000000 2 7 0 desk (fun _ => steady_gamma 35 4) (fun _ => steady_gamma (-25) 4) (fun _ => []).
Proof.
  assert (Et : bit_test (scan_mask_channels 7 1000000 2000000 2 desk) SWEEP_APPLY_CALIBRATION = false) by (vm_compute; reflexivity).
  split; [vm_compute; repeat split; discriminate|vm_compute; split; discriminate|lia|intros _; exact desk_ready|exact desk_rows|vm_compute; discriminate| | |].
  - intros _ p _. unfold cal_terms. by rewrite Et.
  - intros _ p _. rewrite desk_bandwidth. apply (steady_yields 35 (-25) 3 0 p); split; lia.
  - intros _ p _. rewrite desk_bandwidth. apply (steady_yields 35 (-25) 3 1 p); split; lia.
Qed.
Lemma desk_sends_start : firstn 8 (scan_sent (f0, f0) 1000000 2000000 2 7 desk (fun _ => steady_gamma 35 4) (fun _ => steady_gamma (-25) 4) (fun _ => [])) =
  [135; 0; 2; 0; 64; 66; 15; 0].
Proof. reflexivity. Qed.

Lemma scan_bin_sends_witness : exists c',
  cmd_scan_bin flat_table (f0, f0) (steady 35 (-25)) (fun _ => true) [dec 1000000; dec 2000000; dec 2; dec 7] desk_console = Some c' /\
  firstn 8 (con_out c') = [135; 0; 2; 0; 64; 66; 15; 0].
Proof.
  destruct (scan_bin_sends flat_table (f0, f0) (steady 35 (-25)) (fun _ => true) 1000000 2000000 2 7 0 _ _ _ desk_console eq_refl desk_scan) as (c' & E & Eo & _).
  exists c'. split; [exact E|]. rewrite Eo. exact desk_sends_start.
Defined.
