(* ===== verification/Keypad.v ===== *)
(** * The on-screen keypad (ui.c)

    The keyboards with their buttons, the edit buffer [kp_buf], key presses
    ([num_keypad_click], [txt_keypad_click], [keypad_click]), touch and lever input,
    and the callbacks that apply a finished input to the instrument.  An access
    outside the buffer is [None].  Drawing is left out.

    A typed number with its unit key arrives at the setter
    ([keypad_enters_frequency]); the buffer is never left by any sequence of keys
    short of a unit key on twelve characters without a period ([keypad_stays_inside]),
    which writes through all memory ([full_buffer_overruns]); every entered date is a
    date ([entered_date_valid]). *)

From S2P Require Import Prelude Num Exact Common Synth Dsp Types Props Sweep.
From Stdlib Require Import Field.

Definition NUMINPUT_LEN : Z := 12.
Definition TXTINPUT_LEN : Z := 18.
Definition KP_BUF_SIZE : nat := 19.

(** Glyph codes of the buttons. *)
Definition KP_9 : Z := 9.
Definition KP_PERIOD : Z := 10.
Definition KP_MINUS : Z := 11.
Definition KP_BS : Z := 12.
Definition KP_k : Z := 13.
Definition KP_M : Z := 14.
Definition KP_G : Z := 15.
Definition KP_m : Z := 16.
Definition KP_u : Z := 17.
Definition KP_n : Z := 18.
Definition KP_p : Z := 19.
Definition KP_X1 : Z := 20.
Definition KP_ENTER : Z := 21.
Definition KP_PERCENT : Z := 22.
Definition KP_EMPTY : Z := 255.
Definition S_ENTER : Z := 22.
Definition S_LARROW : Z := 26.

(** ** Keyboards: position (column, row) and code of every button *)

Record keypads_t := Keypads { kp_text : bool; kp_buttons : list (Z * Z) }.
Definition digit_buttons : list (Z * Z) :=
  [(0x13, KP_PERIOD); (0x03, 0); (0x02, 1); (0x12, 2); (0x22, 3); (0x01, 4); (0x11, 5); (0x21, 6); (0x00, 7); (0x10, 8); (0x20, KP_9)].
Definition keypads_freq : keypads_t :=
  Keypads false (digit_buttons ++ [(0x30, KP_G); (0x31, KP_M); (0x32, KP_k); (0x33, KP_X1); (0x23, KP_BS)]).
Definition keypads_ufloat : keypads_t :=
  Keypads false (digit_buttons ++ [(0x33, KP_ENTER); (0x23, KP_BS); (0x30, KP_EMPTY); (0x31, KP_EMPTY); (0x32, KP_EMPTY)]).
Definition keypads_percent : keypads_t :=
  Keypads false (digit_buttons ++ [(0x33, KP_PERCENT); (0x23, KP_BS); (0x30, KP_EMPTY); (0x31, KP_EMPTY); (0x32, KP_EMPTY)]).
Definition keypads_float : keypads_t :=
  Keypads false (digit_buttons ++ [(0x32, KP_MINUS); (0x33, KP_ENTER); (0x23, KP_BS); (0x30, KP_EMPTY); (0x31, KP_EMPTY)]).
Definition keypads_mfloat : keypads_t :=
  Keypads false (digit_buttons ++ [(0x30, KP_u); (0x31, KP_m); (0x32, KP_MINUS); (0x33, KP_ENTER); (0x23, KP_BS)]).
Definition keypads_mkufloat : keypads_t :=
  Keypads false (digit_buttons ++ [(0x31, KP_m); (0x32, KP_k); (0x33, KP_X1); (0x23, KP_BS); (0x30, KP_EMPTY)]).
Definition keypads_nfloat : keypads_t :=
  Keypads false (digit_buttons ++ [(0x30, KP_u); (0x31, KP_n); (0x32, KP_p); (0x33, KP_MINUS); (0x23, KP_BS)]).
(** One row of letters. *)
Definition text_row (row : Z) (codes : list Z) : list (Z * Z) := imap (fun i c => (Z.shiftl (Z.of_nat i) 4 + row, c)) codes.
Definition keypads_text : keypads_t :=
  Keypads true (text_row 0 (cstr "1234567890") ++ text_row 1 (cstr "QWERTYUIOP") ++ text_row 2 (cstr "ASDFGHJKL_") ++
    text_row 3 (cstr "-ZXCVBNM" ++ [S_LARROW; S_ENTER])).

Inductive keypad_type := KEYPAD_FREQ | KEYPAD_UFLOAT | KEYPAD_PERCENT | KEYPAD_FLOAT | KEYPAD_MFLOAT | KEYPAD_MKUFLOAT | KEYPAD_NFLOAT | KEYPAD_TEXT.
Definition keypad_type_list (t : keypad_type) : keypads_t :=
  match t with
  | KEYPAD_FREQ => keypads_freq | KEYPAD_UFLOAT => keypads_ufloat | KEYPAD_PERCENT => keypads_percent | KEYPAD_FLOAT => keypads_float
  | KEYPAD_MFLOAT => keypads_mfloat | KEYPAD_MKUFLOAT => keypads_mkufloat | KEYPAD_NFLOAT => keypads_nfloat | KEYPAD_TEXT => keypads_text
  end.

(** ** Inputs *)

Inductive keypad_mode :=
  | KM_START | KM_STOP | KM_CENTER | KM_SPAN | KM_CW | KM_STEP | KM_VAR | KM_POINTS | KM_TOP | KM_nTOP | KM_BOTTOM | KM_nBOTTOM
  | KM_SCALE | KM_nSCALE | KM_REFPOS | KM_EDELAY | KM_VAR_DELAY | KM_S21OFFSET | KM_VELOCITY_FACTOR | KM_CABLE_LOSS | KM_ACTUAL_CABLE_LEN
  | KM_XTAL | KM_THRESHOLD | KM_VBAT | KM_MEASURE_R | KM_RTC_DATE | KM_RTC_TIME | KM_RTC_CAL
  | KM_S1P_NAME | KM_S2P_NAME | KM_BMP_NAME | KM_TIF_NAME | KM_PNG_NAME | KM_CAL_NAME | KM_BIN_NAME | KM_FOLDER_NAME
  | KM_TUNE_TARGET | KM_TUNE_CHANGE | KM_CHOKE_TARGET.

(** The keyboard of every input ([keypads_mode_tbl]). *)
Definition keypads_mode_tbl (k : keypad_mode) : keypad_type :=
  match k with
  | KM_START | KM_STOP | KM_CENTER | KM_SPAN | KM_CW | KM_STEP | KM_VAR | KM_XTAL | KM_THRESHOLD | KM_TUNE_TARGET => KEYPAD_FREQ
  | KM_POINTS | KM_SCALE | KM_CABLE_LOSS | KM_VBAT | KM_MEASURE_R | KM_RTC_DATE | KM_RTC_TIME | KM_CHOKE_TARGET => KEYPAD_UFLOAT
  | KM_TOP | KM_BOTTOM | KM_TUNE_CHANGE => KEYPAD_MFLOAT
  | KM_nTOP | KM_nBOTTOM | KM_nSCALE | KM_EDELAY | KM_VAR_DELAY => KEYPAD_NFLOAT
  | KM_REFPOS | KM_S21OFFSET | KM_RTC_CAL => KEYPAD_FLOAT
  | KM_VELOCITY_FACTOR => KEYPAD_PERCENT
  | KM_ACTUAL_CABLE_LEN => KEYPAD_MKUFLOAT
  | KM_S1P_NAME | KM_S2P_NAME | KM_BMP_NAME | KM_TIF_NAME | KM_PNG_NAME | KM_CAL_NAME | KM_BIN_NAME | KM_FOLDER_NAME => KEYPAD_TEXT
  end.
Definition is_clock (k : keypad_mode) : bool := match k with KM_RTC_DATE | KM_RTC_TIME => true | _ => false end.

(** ** The edit buffer *)

Definition kp_write (i : nat) (v : Z) (b : list Z) : option (list Z) := if decide (i < length b)%nat then Some (<[i := v]> b) else None.
(** [strlen(kp_buf)] *)
Fixpoint kp_strlen (b : list Z) : option nat :=
  match b with [] => None | c :: b => if c =? 0 then Some O else S <$> kp_strlen b end.
Fixpoint period_pos (b : list Z) : option nat :=
  match b with [] => None | c :: b => if (c =? 0) || (c =? 46) then Some O else S <$> period_pos b end.

Inductive click := K_CONTINUE | K_DONE | K_CANCEL.

(** [do {...} while (--scale)] on a 16-bit counter: from 0 it runs 65536 times. *)
Definition scale_step (i : nat) (b : list Z) : option (list Z) :=
  v ← b !! (i + 1)%nat; c ← b !! i;
  '(v, b) ← (if (v =? 0) || (c =? 0) then b ← kp_write (i + 2) 0 b; Some (48, b) else Some (v, b));
  c ← b !! i; b ← kp_write (i + 1) c b; kp_write i v b.
Fixpoint scale_loop (n i : nat) (b : list Z) : option (list Z) :=
  match n with
  | O => Some b
  | S n => b ← scale_step i b; scale_loop n (i + 1) b
  end.
Definition apply_scale (c : Z) (b : list Z) : option (list Z) :=
  i ← period_pos b;
  let scale := 3 * (c - KP_k + 1) in
  let scale := if NUMINPUT_LEN <? scale + Z.of_nat i then u16 (NUMINPUT_LEN - Z.of_nat i) else scale in
  scale_loop (Z.to_nat (if scale =? 0 then 65536 else scale)) i b.

(** [for (i = 0; i < NUMINPUT_LEN; i++) kp_buf[i] = kp_buf[i+1]] and back. *)
Definition shift_left (b : list Z) : list Z := for_range 0 NUMINPUT_LEN (fun i b => <[Z.to_nat i := nth (Z.to_nat i + 1) b 0]> b) b.
Definition shift_right (b : list Z) : list Z :=
  for_range 0 NUMINPUT_LEN (fun i b => let i := Z.to_nat (NUMINPUT_LEN - i) in <[i := nth (i - 1) b 0]> b) b.

Definition num_keypad_click (clock : bool) (c : Z) (kp_index : nat) (b : list Z) : option (click * list Z) :=
  if (KP_k <=? c) && (c <=? KP_PERCENT) then
    if (kp_index =? 0)%nat then Some (K_CANCEL, b)
    else if c <=? KP_G then b ← apply_scale c b; Some (K_DONE, b)
    else if (KP_m <=? c) && (c <=? KP_p) then
      b ← kp_write kp_index (nth (Z.to_nat (c - KP_m)) (cstr "munp") 0) b; b ← kp_write (kp_index + 1) 0 b; Some (K_DONE, b)
    else Some (K_DONE, b)
  else
    let maxlength := Z.to_nat (if clock then 6 else NUMINPUT_LEN) in
    if (c =? KP_BS) && (kp_index =? 0)%nat then Some (K_CANCEL, b) else
    '(kp_index, b) ← (
      if c =? KP_BS then Some ((kp_index - 1)%nat, b)
      else if c =? KP_MINUS then
        if peek b =? 45 then Some ((kp_index - 1)%nat, shift_left b)
        else Some (if (kp_index <? maxlength)%nat then S kp_index else kp_index, <[O := 45]> (shift_right b))
      else if (kp_index <? maxlength)%nat then
        if c <=? KP_9 then b ← kp_write kp_index (48 + c) b; Some (S kp_index, b)
        else
          j ← period_pos b;
          if (c =? KP_PERIOD) && (kp_index =? j)%nat && negb clock then b ← kp_write kp_index 46 b; Some (S kp_index, b)
          else Some (kp_index, b)
      else Some (kp_index, b));
    b ← kp_write kp_index 0 b; Some (K_CONTINUE, b).

Definition txt_keypad_click (c : Z) (kp_index : nat) (b : list Z) : option (click * list Z) :=
  if c =? S_ENTER then Some (if (kp_index =? 0)%nat then K_CANCEL else K_DONE, b)
  else if (c =? S_LARROW) && (kp_index =? 0)%nat then Some (K_CANCEL, b)
  else
    '(kp_index, b) ← (
      if c =? S_LARROW then Some ((kp_index - 1)%nat, b)
      else if Z.of_nat kp_index <? TXTINPUT_LEN then b ← kp_write kp_index c b; Some (S kp_index, b)
      else Some (kp_index, b));
    b ← kp_write kp_index 0 b; Some (K_CONTINUE, b).

(** The text in the buffer. *)
Definition kp_string (b : list Z) : list Z := string_at b 0.

(** ** Date and time

    The clock is the eight bytes of its two registers, in memory order; it stands still
    while they are changed. *)
Definition day_limit : Z := 0x3B000BEECC.
Definition bcd_pair (l : list Z) (i : nat) : Z := u8 (Z.lor (Z.shiftl (nth (2 * i) l 0) 4) (nth (2 * i + 1) l 0)).
(** The six digits, missing ones zero. *)
Definition clock_digits (text : list Z) : list Z := take 6 (map (fun c => u8 (c - 48)) text ++ repeat 0 6).
Definition entered_date (text : list Z) : Z * Z * Z :=
  let l := clock_digits text in
  let month := bcd_pair l 1 in
  let month := if month <? 1 then 1 else if 0x12 <? month then 0x12 else month in
  let day_max := 28 + Z.land (Z.shiftr day_limit (Z.shiftl month 1)) 3 in
  let day_max := Z.lor (Z.shiftl (day_max / 10) 4) (day_max mod 10) in
  let day := bcd_pair l 2 in
  let day := if day <? 1 then 1 else if day_max <? day then day_max else day in
  (bcd_pair l 0, month, day).
Definition entered_time (text : list Z) : Z * Z * Z :=
  let l := clock_digits text in
  let lim m v := if m <? v then m else v in
  (lim 0x23 (bcd_pair l 0), lim 0x59 (bcd_pair l 1), lim 0x59 (bcd_pair l 2)).
(** [input_date_time] computes in the edit buffer: the digits, then their pairs in BCD
    over the first three bytes. The buffer and the registers it writes. *)
Definition input_date_time (date : bool) (b time : list Z) : list Z * list Z :=
  let text := kp_string b in
  let '(x, y, z) := if date then entered_date text else entered_time text in
  ([x; y; z] ++ drop 3 (clock_digits text) ++ drop 6 b,
   if date then <[4%nat := z]> (<[5%nat := y]> (<[6%nat := x]> time)) else <[0%nat := z]> (<[1%nat := y]> (<[2%nat := x]> time))).

(** ** Applying the input *)

Section Inputs.
Context {F : Type} `{FloatOps F}.
Implicit Types (s : vna F).

Local Open Scope float_scope.

Definition input_freq (data : Z) (text : list Z) s : vna F := set_sweep_frequency data (my_atoui text) s.
Definition is_swr (type : Z) : bool := bit_test (Z.shiftl 1 type) (Z.lor (Z.shiftl 1 TRC_SWR) (Z.shiftl 1 TRC_SWR_ANT)).

(** The values at the lower and the upper edge of the grid. *)
Definition trace_bottom (t : trace_t F) : F := (f_of_Z 0 - tr_refpos t) * tr_scale t.
Definition trace_top (t : trace_t F) : F := (f_of_Z NGRIDY - tr_refpos t) * tr_scale t.
Definition input_amplitude (data : Z) (text : list Z) s : vna F :=
  let t := _current_trace (current_props s) in
  let tr := trace_at t s in
  let value := my_atof text in
  let value := if is_swr (tr_type tr) then value - f1 else value in
  let top := if (data =? 0)%Z then value else trace_top tr in
  let bot := if (data =? 0)%Z then trace_bottom tr else value in
  let scale := (top - bot) / f_of_Z NGRIDY in
  let ref := if feqb top bot then value else bot / scale in
  set_trace_refpos t (- ref) (set_trace_scale t scale s).
Local Close Scope float_scope.

Definition input_edelay (text : list Z) s : vna F :=
  let t := _current_trace (current_props s) in
  set_electrical_delay (if t =? TRACE_INVALID then 0 else tr_channel (trace_at t s)) (my_atof text) s.

(** What an input does to the instrument; that of the cable, the clock calibration, the
    file names and the workflow panels is the argument. *)
Definition input_value (other : keypad_mode -> list Z -> vna F -> vna F) (k : keypad_mode) (text : list Z) s : vna F :=
  match k with
  | KM_START => input_freq ST_START text s
  | KM_STOP => input_freq ST_STOP text s
  | KM_CENTER => input_freq ST_CENTER text s
  | KM_SPAN => input_freq ST_SPAN text s
  | KM_CW => input_freq ST_CW text s
  | KM_STEP => input_freq ST_STEP text s
  | KM_VAR => input_freq ST_VAR text s
  | KM_POINTS => set_sweep_points (u16 (my_atoui text)) s
  | KM_TOP | KM_nTOP => input_amplitude 0 text s
  | KM_BOTTOM | KM_nBOTTOM => input_amplitude 1 text s
  | KM_SCALE | KM_nSCALE => set_trace_scale (_current_trace (current_props s)) (my_atof text) s
  | KM_REFPOS => set_trace_refpos (_current_trace (current_props s)) (my_atof text) s
  | KM_EDELAY => input_edelay text s
  | KM_VAR_DELAY => upd_props (set__var_delay (my_atof text)) s
  | KM_S21OFFSET => set_s21_offset (my_atof text) s
  | KM_VELOCITY_FACTOR => upd_props (set__velocity_factor (u8 (my_atoui text))) s
  | KM_XTAL => on_synth (si5351_set_tcxo (my_atoui text)) s
  | KM_THRESHOLD => upd_config (set__harmonic_freq_threshold (my_atoui text)) s
  | KM_VBAT => upd_config (set__vbat_offset (u16 (my_atoui text))) s
  | KM_MEASURE_R => upd_config (set__measure_r (my_atof text)) s
  | KM_RTC_DATE | KM_RTC_TIME => s
  | k => other k text s
  end.

(** ** Keys *)

(** The keypad, with the registers of the clock. *)
Record keypad := Keypad { kp_buf : list Z; kp_mode : keypad_mode; kp_selection : Z; kp_open : bool; kp_clock : list Z }.
Definition put_buf (b : list Z) (k : keypad) : keypad := Keypad b (kp_mode k) (kp_selection k) (kp_open k) (kp_clock k).
Definition keypads (k : keypad) : keypads_t := keypad_type_list (keypads_mode_tbl (kp_mode k)).

Definition ui_mode_keypad (mode : keypad_mode) (k : keypad) : keypad :=
  if kp_open k then k else Keypad (<[O := 0]> (kp_buf k)) mode (-1) true (kp_clock k).

Context (other : keypad_mode -> list Z -> vna F -> vna F).
(** [ui_keyboard_cb] with no button. *)
Definition ui_keyboard_cb (k : keypad) s : keypad * vna F :=
  if is_clock (kp_mode k) then
    let '(b, time) := input_date_time (match kp_mode k with KM_RTC_DATE => true | _ => false end) (kp_buf k) (kp_clock k) in
    (Keypad b (kp_mode k) (kp_selection k) (kp_open k) time, s)
  else (k, input_value other (kp_mode k) (kp_string (kp_buf k)) s).
(** [ui_mode_normal] from the keypad. *)
Definition close_keypad (k : keypad) s : keypad * vna F :=
  (Keypad (kp_buf k) (kp_mode k) (kp_selection k) false (kp_clock k), request_to_redraw REDRAW_ALL s).

(** One button; the reopened file browser is left out. *)
Definition keypad_click (key : nat) (k : keypad) s : option (keypad * vna F) :=
  '(_, c) ← kp_buttons (keypads k) !! key;
  index ← kp_strlen (kp_buf k);
  '(result, b) ← (if kp_text (keypads k) then txt_keypad_click c index (kp_buf k)
                  else num_keypad_click (is_clock (kp_mode k)) c index (kp_buf k));
  let k := put_buf b k in
  Some (match result with
        | K_CONTINUE => (k, s)
        | K_DONE => let '(k, s) := ui_keyboard_cb k s in close_keypad k s
        | K_CANCEL => close_keypad k s
        end).

(** Keys pressed one after the other while the keypad is open. *)
Fixpoint press (keys : list nat) (k : keypad) s : option (keypad * vna F) :=
  match keys with
  | [] => Some (k, s)
  | key :: keys => if kp_open k then '(k, s) ← keypad_click key k s; press keys k s else Some (k, s)
  end.

(** ** Touch and lever *)

(** [key_pos]: x, y, width and height of the first button. *)
Definition key_pos (text : bool) : Z * Z * Z * Z := if text then (0, 96, 48, 48) else (0, 0, 120, 72).
Definition button_at (l : list (Z * Z)) (pos : Z) : option nat :=
  '(i, (_, c)) ← list_find (fun e => fst e = pos) l; if c =? KP_EMPTY then None else Some i.
Definition touched_key (touch_x touch_y : Z) (k : keypads_t) : option nat :=
  let '(x0, y0, w, h) := key_pos (kp_text k) in
  if (touch_x <? x0) || (touch_y <? y0) then None
  else button_at (kp_buttons k) (u8 (Z.lor (Z.land ((touch_y - y0) / h) 0x0F) (Z.shiftl ((touch_x - x0) / w) 4))).
Definition ui_keypad_touch (touch_x touch_y : Z) (k : keypad) s : option (keypad * vna F) :=
  match touched_key touch_x touch_y (keypads k) with
  | Some key => keypad_click key (Keypad (kp_buf k) (kp_mode k) (-1) (kp_open k) (kp_clock k)) s
  | None => Some (k, s)
  end.

Definition EVT_UP : Z := 0x10.
Definition EVT_DOWN : Z := 0x20.
(** The code read at [selection]; in front of the first button lie size and type. *)
Definition button_code (k : keypads_t) (selection : Z) : Z :=
  if selection =? -1 then (if kp_text k then 1 else 0) else snd (nth (Z.to_nat selection) (kp_buttons k) (0, KP_EMPTY)).
Fixpoint lever_skip (fuel : nat) (status : Z) (k : keypads_t) (selection : Z) : option Z :=
  match fuel with
  | O => None
  | S fuel =>
      let last := Z.of_nat (length (kp_buttons k)) - 1 in
      let selection := if bit_test status EVT_DOWN then (if selection - 1 <? 0 then last else selection - 1) else selection in
      let selection := if bit_test status EVT_UP then (if last <? selection + 1 then 0 else selection + 1) else selection in
      if button_code k selection =? KP_EMPTY then lever_skip fuel status k selection else Some selection
  end.
(** The repeated turns of a lever that is held. *)
Fixpoint lever_turns (statuses : list Z) (k : keypads_t) (selection : Z) : option Z :=
  match statuses with
  | [] => Some selection
  | st :: statuses => sel ← lever_skip (S (length (kp_buttons k))) st k selection; lever_turns statuses k sel
  end.
Definition ui_keypad_lever (status : Z) (held : list Z) (k : keypad) s : option (keypad * vna F) :=
  if status =? 1 then if 0 <=? kp_selection k then keypad_click (Z.to_nat (kp_selection k)) k s else Some (k, s)
  else sel ← lever_turns (status :: held) (keypads k) (kp_selection k); Some (Keypad (kp_buf k) (kp_mode k) sel (kp_open k) (kp_clock k), s).
End Inputs.

(** ** The buffer as a text *)

Definition holds (b t : list Z) : Prop := length b = KP_BUF_SIZE /\ nonzero t /\ exists r, b = t ++ 0 :: r.

Lemma holds_terminate b n : length b = KP_BUF_SIZE -> (n < KP_BUF_SIZE)%nat -> nonzero (take n b) ->
  kp_write n 0 b = Some (<[n := 0]> b) /\ holds (<[n := 0]> b) (take n b).
Proof.
  intros Hl Hn Hz. split; [unfold kp_write; by rewrite decide_True by lia|]. split; [by rewrite length_insert|]. split; [exact Hz|].
  exists (drop (S n) b). rewrite <- (take_drop n b) at 1. destruct (drop n b) as [|x r] eqn:E.
  { apply (f_equal length) in E. rewrite length_drop in E. cbn in E. lia. }
  replace n with (length (take n b)) at 1 by (rewrite length_take; lia). rewrite insert_at_app. do 2 f_equal.
  rewrite <- Nat.add_1_r, <- drop_drop, E. reflexivity.
Qed.

Lemma holds_strlen b t : holds b t -> kp_strlen b = Some (length t).
Proof.
  intros (_ & Hz & r & ->). induction Hz as [|c t Hc _ IH]; [done|]. cbn [app kp_strlen]. rewrite (proj2 (Z.eqb_neq c 0)) by done. by rewrite IH.
Qed.
Lemma holds_string b t : holds b t -> kp_string b = t.
Proof. intros (_ & Hz & r & ->). unfold kp_string, string_at. rewrite drop_0. by apply until_nul_stop. Qed.
Lemma holds_take b t : holds b t -> take (length t) b = t.
Proof. intros (_ & _ & r & ->). by apply take_app_length. Qed.
Lemma holds_write b t x : holds b t -> (length t < KP_BUF_SIZE)%nat -> kp_write (length t) x b = Some (<[length t := x]> b) /\
  take (S (length t)) (<[length t := x]> b) = t ++ [x] /\ length (<[length t := x]> b) = KP_BUF_SIZE.
Proof.
  intros (Hl & Hz & r & ->) Ht. split; [unfold kp_write; rewrite decide_True by lia; reflexivity|]. rewrite length_insert. split; [|done].
  rewrite insert_at_app. replace (t ++ x :: r) with ((t ++ [x]) ++ r) by (by rewrite <- app_assoc). apply take_app_length'. rewrite length_app. cbn. lia.
Qed.

(** Before the period, and after it if there is one. *)
Fixpoint whole_part (t : list Z) : list Z := match t with [] => [] | c :: t => if c =? 46 then [] else c :: whole_part t end.
Fixpoint fraction_part (t : list Z) : option (list Z) := match t with [] => None | c :: t => if c =? 46 then Some t else fraction_part t end.

Lemma whole_split t : t = whole_part t ++ match fraction_part t with Some f => 46 :: f | None => [] end.
Proof. induction t as [|c t IH]; [done|]. cbn. destruct (Z.eqb_spec c 46) as [->|]; [done|]. cbn. by rewrite <- IH. Qed.
Lemma holds_period b t : holds b t -> period_pos b = Some (length (whole_part t)).
Proof.
  intros (_ & Hz & r & ->). induction Hz as [|c t Hc _ IH]; [done|]. cbn [app period_pos whole_part]. rewrite (proj2 (Z.eqb_neq c 0)) by done.
  cbn [orb]. destruct (c =? 46); [done|]. by rewrite IH.
Qed.
Lemma whole_length t : (length (whole_part t) <= length t)%nat /\ (length (whole_part t) = length t <-> fraction_part t = None).
Proof.
  induction t as [|c t [IH IH']]; [by split|]. cbn. destruct (c =? 46); cbn; [split; [lia|split; [lia|done]]|]. split; [lia|]. rewrite <- IH'. lia.
Qed.

(** ** Unit keys *)

Lemma kp_write_length i v b b' : kp_write i v b = Some b' -> length b' = length b.
Proof. unfold kp_write. destruct (decide _); [|done]. intros [= <-]. apply length_insert. Qed.

Lemma scale_step_bound i b b' : scale_step i b = Some b' -> (i + 1 < length b)%nat /\ length b' = length b.
Proof.
  unfold scale_step. destruct (b !! (i + 1)%nat) as [v|] eqn:E1; [|done]. apply lookup_lt_Some in E1. cbn [mbind option_bind].
  destruct (b !! i) as [c|] eqn:E0; [|done]. cbn [mbind option_bind]. intros E. split; [done|]. revert E.
  assert (L : forall v' b1, length b1 = length b -> (c ← b1 !! i; b ← kp_write (i + 1) c b1; kp_write i v' b) = Some b' -> length b' = length b).
  { intros v' b1 Hl. destruct (b1 !! i) as [c1|]; [|done]. cbn [mbind option_bind]. destruct (kp_write (i + 1) c1 b1) as [b2|] eqn:E2; [|done].
    cbn [mbind option_bind]. intros E3. apply kp_write_length in E2, E3. congruence. }
  destruct ((v =? 0) || (c =? 0)); [|cbn [mbind option_bind]; exact (L v b eq_refl)].
  destruct (kp_write (i + 2) 0 b) as [b2|] eqn:E2; [|done]. apply kp_write_length in E2. cbn [mbind option_bind]. exact (L 48 b2 E2).
Qed.

Lemma scale_loop_bound n : forall i b b', scale_loop n i b = Some b' -> (n = 0 \/ i + n < length b)%nat.
Proof.
  induction n as [|n IH]; intros i b b'; cbn [scale_loop]; [by left|]. destruct (scale_step i b) as [b1|] eqn:E; [|done].
  apply scale_step_bound in E as [E El]. cbn [mbind option_bind]. intros [->|E1]%IH; right; lia.
Qed.

Lemma scale_loop_length n : forall i b b', scale_loop n i b = Some b' -> length b' = length b.
Proof.
  induction n as [|n IH]; intros i b b'; cbn [scale_loop]; [by intros [= ->]|]. destruct (scale_step i b) as [b1|] eqn:E; [|done].
  apply scale_step_bound in E as [_ E]. cbn [mbind option_bind]. intros E1%IH. congruence.
Qed.

(** Reading and writing behind a prefix. *)
Lemma look_behind (a l : list Z) k : (a ++ l) !! (length a + k)%nat = l !! k.
Proof. rewrite lookup_app_r by lia. f_equal. lia. Qed.
Lemma write_behind a l k v : (k < length l)%nat -> kp_write (length a + k) v (a ++ l) = Some (a ++ <[k := v]> l).
Proof.
  intros Hk. unfold kp_write. rewrite decide_True by (rewrite length_app; lia). by rewrite insert_app_r.
Qed.
Lemma look_here (a l : list Z) : (a ++ l) !! length a = l !! 0%nat.
Proof. rewrite <- (look_behind a l 0). f_equal. lia. Qed.
Lemma write_here a x l v : kp_write (length a) v (a ++ x :: l) = Some (a ++ v :: l).
Proof. unfold kp_write. rewrite decide_True by (rewrite length_app; cbn; lia). by rewrite insert_at_app. Qed.

Lemma scale_step_whole a x y r : scale_step (length a) (a ++ 0 :: x :: y :: r) = Some (a ++ 48 :: 0 :: 0 :: r).
Proof.
  unfold scale_step. rewrite look_behind, look_here. cbn [lookup list_lookup mbind option_bind].
  rewrite orb_true_r, write_behind by (cbn; lia). cbn [mbind option_bind insert list_insert]. rewrite look_here. cbn [lookup list_lookup mbind option_bind].
  rewrite write_behind by (cbn; lia). cbn [mbind option_bind insert list_insert]. apply write_here.
Qed.
(** The period moves over a digit, or over a new zero at the end. *)
Lemma scale_step_digit a c r : c <> 0 -> scale_step (length a) (a ++ 46 :: c :: r) = Some (a ++ c :: 46 :: r).
Proof.
  intros Hc. unfold scale_step. rewrite look_behind, look_here. cbn [lookup list_lookup mbind option_bind].
  rewrite (proj2 (Z.eqb_neq c 0)) by done. cbn [Z.eqb Pos.eqb orb mbind option_bind]. rewrite look_here. cbn [lookup list_lookup mbind option_bind].
  rewrite write_behind by (cbn; lia). cbn [mbind option_bind insert list_insert]. apply write_here.
Qed.
Lemma scale_step_end a y r : scale_step (length a) (a ++ 46 :: 0 :: y :: r) = Some (a ++ 48 :: 46 :: 0 :: r).
Proof.
  unfold scale_step. rewrite look_behind, look_here. cbn [lookup list_lookup mbind option_bind Z.eqb Pos.eqb orb].
  rewrite write_behind by (cbn; lia). cbn [mbind option_bind insert list_insert]. rewrite look_here. cbn [lookup list_lookup mbind option_bind].
  rewrite write_behind by (cbn; lia). cbn [mbind option_bind insert list_insert]. apply write_here.
Qed.

Lemma snoc_length (a : list Z) x : (length a + 1)%nat = length (a ++ [x]).
Proof. rewrite length_app. cbn. lia. Qed.
Lemma snoc_app (a : list Z) x l : a ++ x :: l = (a ++ [x]) ++ l.
Proof. by rewrite <- app_assoc. Qed.

(** [n] rounds without a period append zeros; with a period they move it. *)
Lemma scale_loop_whole n : forall a r, (n < length r)%nat ->
  exists r', scale_loop n (length a) (a ++ 0 :: r) = Some (a ++ repeat 48 n ++ 0 :: r').
Proof.
  induction n as [|n IH]; intros a r Hr; cbn [scale_loop repeat]; [by exists r|].
  destruct r as [|x [|y r]]; [cbn in Hr; lia..|]. rewrite scale_step_whole. cbn [mbind option_bind].
  rewrite (snoc_length a 48), (snoc_app a 48 (0 :: 0 :: r)). destruct (IH (a ++ [48]) (0 :: r)) as (r' & ->); [cbn in *; lia|]. exists r'. by rewrite <- app_assoc.
Qed.
Lemma scale_loop_period n : forall a f r, nonzero f -> (n < length f + length r)%nat ->
  exists r', scale_loop n (length a) (a ++ 46 :: f ++ 0 :: r) = Some (a ++ take n (f ++ repeat 48 n) ++ 46 :: drop n f ++ 0 :: r').
Proof.
  induction n as [|n IH]; intros a f r Hf Hr; cbn [scale_loop]; [exists r; cbn; by rewrite drop_0|].
  destruct f as [|c f].
  - destruct r as [|y r]; [cbn in Hr; lia|]. cbn [app]. rewrite scale_step_end. cbn [mbind option_bind].
    rewrite (snoc_length a 48), (snoc_app a 48 (46 :: 0 :: r)). destruct (IH (a ++ [48]) [] r) as (r' & E); [done|cbn in *; lia|]. cbn [app] in E. rewrite E. exists r'.
    rewrite <- app_assoc. cbn [app repeat take drop]. by rewrite drop_nil.
  - apply Forall_cons in Hf as [Hc Hf]. cbn [app]. rewrite scale_step_digit by done. cbn [mbind option_bind].
    rewrite (snoc_length a c), (snoc_app a c (46 :: f ++ 0 :: r)). destruct (IH (a ++ [c]) f r) as (r' & E); [done|cbn in *; lia|]. rewrite E. exists r'.
    rewrite <- app_assoc. cbn [app take drop repeat]. rewrite (repeat_cons n 48), app_assoc. by rewrite (take_app_le (f ++ repeat 48 n) [48] n) by (rewrite length_app, repeat_length; lia).
Qed.

(** ** What a key does to the text *)

Definition scaled (j : Z) (t : list Z) : list Z :=
  let a := whole_part t in
  let n := Z.to_nat (Z.min (3 * j) (NUMINPUT_LEN - Z.of_nat (length a))) in
  match fraction_part t with
  | None => a ++ repeat 48 n
  | Some f => a ++ take n (f ++ repeat 48 n) ++ 46 :: drop n f
  end.
Definition edit (clock : bool) (c : Z) (t : list Z) : click * list Z :=
  let max := Z.to_nat (if clock then 6 else NUMINPUT_LEN) in
  if (KP_k <=? c) && (c <=? KP_PERCENT) then
    if (length t =? 0)%nat then (K_CANCEL, t)
    else (K_DONE, if c <=? KP_G then scaled (c - KP_k + 1) t
                  else if (KP_m <=? c) && (c <=? KP_p) then t ++ [nth (Z.to_nat (c - KP_m)) (cstr "munp") 0] else t)
  else if c =? KP_BS then if (length t =? 0)%nat then (K_CANCEL, t) else (K_CONTINUE, take (length t - 1) t)
  else if c =? KP_MINUS then (K_CONTINUE, if peek t =? 45 then tl t else take max (45 :: t))
  else if (max <=? length t)%nat then (K_CONTINUE, t)
  else if c <=? KP_9 then (K_CONTINUE, t ++ [48 + c])
  else if (c =? KP_PERIOD) && bool_decide (fraction_part t = None) && negb clock then (K_CONTINUE, t ++ [46])
  else (K_CONTINUE, t).

Lemma nonzero_take n (t : list Z) : nonzero t -> nonzero (take n t).
Proof. apply Forall_take. Qed.
Lemma nonzero_repeat n : nonzero (repeat 48 n).
Proof. induction n as [|n IH]; constructor; [done|exact IH]. Qed.
Lemma whole_nonzero t : nonzero t -> nonzero (whole_part t) /\ forall f, fraction_part t = Some f -> nonzero f.
Proof.
  intros Hz. rewrite (whole_split t) in Hz. apply Forall_app in Hz as [Ha Hf]. split; [exact Ha|]. intros f E. rewrite E in Hf. by apply Forall_cons in Hf as [_ Hf].
Qed.

Lemma apply_scale_correct c b t : holds b t -> (length t <= 12)%nat -> (length (whole_part t) < 12)%nat -> KP_k <= c <= KP_G ->
  exists b', apply_scale c b = Some b' /\ holds b' (scaled (c - KP_k + 1) t).
Proof.
  intros Hb Hl Hw Hc. unfold KP_k, KP_G in Hc. unfold apply_scale. rewrite (holds_period b t Hb). cbn [mbind option_bind].
  destruct Hb as (Hlen & Hz & r & Eb). destruct (whole_nonzero t Hz) as [Ha Hf]. unfold scaled, NUMINPUT_LEN in *.
  set (a := whole_part t) in *. set (m := Z.min _ _).
  assert (En : (if 12 <? 3 * (c - KP_k + 1) + Z.of_nat (length a) then u16 (12 - Z.of_nat (length a)) else 3 * (c - KP_k + 1)) = m).
  { subst m. unfold KP_k. destruct (Z.ltb_spec 12 (3 * (c - 13 + 1) + Z.of_nat (length a))); [rewrite u16_small by lia|]; lia. }
  rewrite En. assert (Hm : 1 <= m <= 12) by (subst m; unfold KP_k; lia). rewrite (proj2 (Z.eqb_neq m 0)) by lia.
  set (n := Z.to_nat m).
  assert (Hn : (n + length a <= 12)%nat) by (subst n m; lia). unfold KP_BUF_SIZE in *.
  pose proof (whole_split t) as Et. fold a in Et. destruct (fraction_part t) as [f|] eqn:Ef.
  - rewrite Et, <- app_assoc in Eb. cbn [app] in Eb.
    assert (Lb : length b = (length a + S (length f + S (length r)))%nat) by (rewrite Eb, length_app; cbn; rewrite length_app; cbn; lia).
    destruct (scale_loop_period n a f r (Hf f eq_refl) ltac:(lia)) as (r' & E). rewrite <- Eb in E. rewrite E. eexists. split; [reflexivity|].
    apply scale_loop_length in E. split; [by rewrite E|]. split; [|exists r'; by rewrite <- !app_assoc].
    apply Forall_app. split; [done|]. apply Forall_app. split; [apply Forall_take, Forall_app; split; [by apply Hf|apply nonzero_repeat]|].
    constructor; [done|]. by apply Forall_drop, Hf.
  - rewrite app_nil_r in Et. rewrite Et in Eb. assert (Lb : length b = (length a + S (length r))%nat) by (rewrite Eb, length_app; done).
    destruct (scale_loop_whole n a r ltac:(lia)) as (r' & E). rewrite <- Eb in E. rewrite E. eexists. split; [reflexivity|].
    apply scale_loop_length in E. split; [by rewrite E|]. split; [|exists r'; by rewrite <- !app_assoc].
    apply Forall_app. split; [done|apply nonzero_repeat].
Qed.

(** ** The two shifts *)

Lemma shift_right_eq b : length b = KP_BUF_SIZE -> <[O := 45]> (shift_right b) = 45 :: take 12 b ++ drop 13 b.
Proof. intros Hb. unfold KP_BUF_SIZE in Hb. do 19 (destruct b as [|? b]; [done|]). destruct b; [reflexivity|done]. Qed.
Lemma shift_left_eq b : length b = KP_BUF_SIZE -> shift_left b = take 12 (tl b) ++ drop 12 b.
Proof. intros Hb. unfold KP_BUF_SIZE in Hb. do 19 (destruct b as [|? b]; [done|]). destruct b; [reflexivity|done]. Qed.

Lemma minus_shifts b t max : holds b t -> (length t <= max)%nat -> (max <= 12)%nat -> peek t <> 45 ->
  let n := (if (length t <? max)%nat then S (length t) else length t) in
  n = length (take max (45 :: t)) /\ take n (<[O := 45]> (shift_right b)) = take max (45 :: t) /\ length (<[O := 45]> (shift_right b)) = KP_BUF_SIZE.
Proof.
  intros Hb Hl Hm Hp n. pose proof (holds_take b t Hb) as Et. destruct Hb as (Hlen & Hz & r & Eb). rewrite shift_right_eq by done.
  unfold KP_BUF_SIZE in *. cbn [length]. rewrite length_app, length_take, length_drop, Hlen.
  assert (En : n = Nat.min max (S (length t))) by (subst n; destruct (Nat.ltb_spec (length t) max); lia).
  rewrite length_take. cbn [length]. split; [lia|]. split; [|lia].
  rewrite En. destruct (Nat.min max (S (length t))) as [|k] eqn:Ek; [destruct max; [done|lia]|]. destruct max as [|max]; [lia|].
  cbn [take]. f_equal. rewrite take_app_le by (rewrite length_take; lia). rewrite take_take, Nat.min_l by lia.
  rewrite <- Et, take_take. f_equal. lia.
Qed.

Lemma minus_removed b t : holds b (45 :: t) -> (length t <= 11)%nat ->
  take (length t) (shift_left b) = t /\ length (shift_left b) = KP_BUF_SIZE.
Proof.
  intros Hb Hl. pose proof Hb as (Hlen & Hz & r & Eb). rewrite shift_left_eq by done. unfold KP_BUF_SIZE in *.
  rewrite length_app, length_take, length_drop. assert (Lt : length (tl b) = 18%nat) by (destruct b; [done|cbn in *; lia]). split; [|lia].
  rewrite take_app_le by (rewrite length_take; lia). rewrite take_take, Nat.min_l by lia. rewrite Eb. cbn [tl app]. apply take_app_length.
Qed.

(** Every key does to the buffer what it does to the text. *)
Lemma num_click_edits (clock : bool) (c : Z) b t : holds b t -> (length t <= Z.to_nat (if clock then 6 else 12))%nat -> 0 <= c <= KP_PERCENT ->
  ~ (KP_k <= c <= KP_G /\ length (whole_part t) = 12%nat) ->
  exists b', num_keypad_click clock c (length t) b = Some (fst (edit clock c t), b') /\ holds b' (snd (edit clock c t)) /\
    (fst (edit clock c t) = K_CONTINUE -> (length (snd (edit clock c t)) <= Z.to_nat (if clock then 6 else 12))%nat).
Proof.
  intros Hb Hl Hc Hno. unfold num_keypad_click, edit, NUMINPUT_LEN in *. set (max := Z.to_nat (if clock then 6 else 12)) in *.
  assert (Hm : (max <= 12)%nat) by (subst max; destruct clock; cbn; lia).
  destruct ((KP_k <=? c) && (c <=? KP_PERCENT)) eqn:Eu.
  { destruct (Nat.eqb_spec (length t) 0); [by exists b|]. destruct (Z.leb_spec c KP_G) as [Hg|Hg].
    - apply andb_true_iff in Eu as [Ek%Z.leb_le _]. pose proof (whole_length t) as [Hw _].
      destruct (apply_scale_correct c b t Hb ltac:(lia) ltac:(lia) ltac:(lia)) as (b' & -> & Hb'). by exists b'.
    - destruct ((KP_m <=? c) && (c <=? KP_p)) eqn:Em; [|by exists b].
      destruct (holds_write b t (nth (Z.to_nat (c - KP_m)) (cstr "munp") 0) Hb ltac:(unfold KP_BUF_SIZE; lia)) as (E & Et & Elen). rewrite E. cbn [mbind option_bind].
      set (b1 := <[length t := nth (Z.to_nat (c - KP_m)) (cstr "munp") 0]> b) in *. rewrite Nat.add_1_r.
      destruct (holds_terminate b1 (S (length t)) Elen ltac:(unfold KP_BUF_SIZE; lia)) as [E1 Hh].
      { rewrite Et. destruct Hb as (_ & Hz & _). apply Forall_app. split; [done|]. constructor; [|done].
        apply andb_true_iff in Em as [E3%Z.leb_le E4%Z.leb_le]. unfold KP_m, KP_p in *.
        assert (Hcase : c = 16 \/ c = 17 \/ c = 18 \/ c = 19) by lia. by destruct Hcase as [->|[->|[->| ->]]]. }
      rewrite E1. cbn [mbind option_bind]. eexists. split; [reflexivity|]. rewrite Et in Hh. by split. }
  pose proof Hb as (Hlen & Hz & _).
  assert (T : forall (b1 : list Z) n t1, length b1 = KP_BUF_SIZE -> (n <= 12)%nat -> take n b1 = t1 -> nonzero t1 ->
    exists b', (b' ← kp_write n 0 b1; Some (K_CONTINUE, b')) = Some (K_CONTINUE, b') /\ holds b' t1).
  { intros b1 n t1 L1 Hn <- Hz1. destruct (holds_terminate b1 n L1 ltac:(unfold KP_BUF_SIZE; lia) Hz1) as [-> Hh]. by eexists. }
  destruct (Z.eqb_spec c KP_BS) as [->|Hbs].
  { destruct (Nat.eqb_spec (length t) 0); [by exists b|]. cbn [andb mbind option_bind fst snd].
    destruct (T b (length t - 1)%nat (take (length t - 1) t) Hlen ltac:(lia)) as (b' & -> & Hb').
    - transitivity (take (length t - 1) (take (length t) b)); [rewrite take_take; f_equal; lia|by rewrite (holds_take b t Hb)].
    - by apply nonzero_take.
    - exists b'. split; [done|]. split; [done|]. intros _. rewrite length_take. lia. }
  destruct (Z.eqb_spec c KP_MINUS) as [->|Hmi].
  { cbn [andb mbind option_bind fst snd].
    assert (Ep : peek b = peek t). { destruct Hb as (_ & _ & r & ->). by destruct t. }
    rewrite Ep. destruct (Z.eqb_spec (peek t) 45) as [E45|E45].
    - destruct t as [|x t]; [done|]. cbn in E45. subst x. cbn [tl length] in *. apply Forall_cons in Hz as [_ Hz].
      destruct (minus_removed b t Hb ltac:(lia)) as [Et Els]. cbn [mbind option_bind]. replace (S (length t) - 1)%nat with (length t) by lia.
      destruct (T _ (length t) t Els ltac:(lia) Et Hz) as (b' & -> & Hb'). exists b'. split; [done|]. split; [done|]. intros _. lia.
    - destruct (minus_shifts b t max Hb Hl Hm E45) as (En & Et & Els). cbn [mbind option_bind].
      cbv zeta in En, Et. destruct (T _ (if (length t <? max)%nat then S (length t) else length t) _ Els ltac:(rewrite En, length_take; lia) Et) as (b' & -> & Hb').
      + apply nonzero_take. by constructor.
      + exists b'. split; [done|]. split; [done|]. intros _. rewrite length_take. lia. }
  cbn [andb]. destruct (Nat.leb_spec max (length t)) as [Hfull|Hfull].
  { rewrite (proj2 (Nat.ltb_ge (length t) max)) by lia. cbn [mbind option_bind fst snd].
    destruct (T b (length t) t Hlen ltac:(lia) (holds_take b t Hb) Hz) as (b' & -> & Hb'). exists b'. split; [done|]. by split. }
  rewrite (proj2 (Nat.ltb_lt (length t) max)) by lia.
  assert (W : forall x, x <> 0 -> exists b', ('(n, b1) ← (b1 ← kp_write (length t) x b; Some (S (length t), b1)); b' ← kp_write n 0 b1; Some (K_CONTINUE, b')) = Some (K_CONTINUE, b') /\
    holds b' (t ++ [x])).
  { intros x Hx. destruct (holds_write b t x Hb ltac:(unfold KP_BUF_SIZE; lia)) as (-> & Et & El). cbn [mbind option_bind].
    apply (T _ (S (length t)) _ El ltac:(lia) Et). apply Forall_app. by repeat constructor. }
  assert (Hlast : forall x, (length (t ++ [x]) <= max)%nat) by (intros x; rewrite length_app; cbn; lia).
  destruct (Z.leb_spec c KP_9).
  { destruct (W (48 + c) ltac:(lia)) as (b' & E & Hb'). exists b'. split; [exact E|]. split; [done|]. intros _. apply Hlast. }
  rewrite (holds_period b t Hb). cbn [mbind option_bind].
  assert (Ef : (length t =? length (whole_part t))%nat = bool_decide (fraction_part t = None)).
  { destruct (whole_length t) as [_ Hw]. case_bool_decide as Hd; [apply Nat.eqb_eq; symmetry; by apply Hw|]. apply Nat.eqb_neq. intros E. apply Hd, Hw. done. }
  rewrite Ef. destruct ((c =? KP_PERIOD) && bool_decide (fraction_part t = None) && negb clock).
  { destruct (W 46 ltac:(done)) as (b' & E & Hb'). exists b'. split; [exact E|]. split; [done|]. intros _. apply Hlast. }
  cbn [mbind option_bind fst snd]. destruct (T b (length t) t Hlen ltac:(lia) (holds_take b t Hb) Hz) as (b' & -> & Hb'). exists b'. split; [done|]. split; [done|]. intros _. lia.
Qed.

(** ** Sequences of keys *)

(** The keys as the user sees them; [None] stands for the combination that leaves
    the buffer. *)
Definition overruns (c : Z) (t : list Z) : bool := (KP_k <=? c) && (c <=? KP_G) && (length (whole_part t) =? 12)%nat.
Fixpoint typed (clock : bool) (codes t : list Z) : option (click * list Z) :=
  match codes with
  | [] => Some (K_CONTINUE, t)
  | c :: codes =>
      if overruns c t then None
      else match edit clock c t with (K_CONTINUE, t) => typed clock codes t | rt => Some rt end
  end.

(** The codes of pressed buttons. *)
Definition code_of (l : keypads_t) (key : nat) : Z := snd (nth key (kp_buttons l) (0, KP_EMPTY)).
Definition real_key (l : keypads_t) (key : nat) : Prop := (key < length (kp_buttons l))%nat /\ code_of l key <> KP_EMPTY.

Lemma numeric_codes (t : keypad_type) key : t <> KEYPAD_TEXT -> real_key (keypad_type_list t) key -> 0 <= code_of (keypad_type_list t) key <= KP_PERCENT.
Proof.
  intros Ht [Hk Hc].
  assert (E : forallb (fun e => (snd e =? KP_EMPTY) || ((0 <=? snd e) && (snd e <=? KP_PERCENT))) (kp_buttons (keypad_type_list t)) = true)
    by (destruct t; try done; vm_compute; reflexivity).
  rewrite forallb_forall in E. specialize (E (nth key (kp_buttons (keypad_type_list t)) (0, KP_EMPTY)) (nth_In _ _ Hk)).
  fold (code_of (keypad_type_list t) key) in E. apply orb_true_iff in E as [E%Z.eqb_eq|[E1%Z.leb_le E2%Z.leb_le]%andb_true_iff]; [done|lia].
Qed.
Lemma numeric_keyboard (t : keypad_type) : t <> KEYPAD_TEXT -> kp_text (keypad_type_list t) = false.
Proof. by destruct t. Qed.

Section Keys.
Context {F : Type} `{FloatOps F}.
Context (other : keypad_mode -> list Z -> vna F -> vna F).
Implicit Types (s : vna F) (k : keypad).

(** The instrument after a sequence of keys that gives [r] and the text [t]. *)
Definition outcome (mode : keypad_mode) (r : click) (t : list Z) s : vna F :=
  match r with
  | K_CONTINUE => s
  | K_DONE => request_to_redraw REDRAW_ALL (input_value other mode t s)
  | K_CANCEL => request_to_redraw REDRAW_ALL s
  end.

(** The buffer and the clock: an applied date or time leaves its BCD digits in the
    buffer and goes to the registers; otherwise the buffer holds the text. *)
Definition left_behind (mode : keypad_mode) (r : click) (t clock : list Z) k : Prop :=
  match r, mode with
  | K_DONE, KM_RTC_DATE => exists b, holds b t /\ (kp_buf k, kp_clock k) = input_date_time true b clock
  | K_DONE, KM_RTC_TIME => exists b, holds b t /\ (kp_buf k, kp_clock k) = input_date_time false b clock
  | _, _ => holds (kp_buf k) t /\ kp_clock k = clock
  end.

Lemma press_closed keys k s : kp_open k = false -> press other keys k s = Some (k, s).
Proof. intros E. destruct keys; cbn [press]; by rewrite ?E. Qed.

(** The input applied. *)
Lemma callback_applies k s t : holds (kp_buf k) t ->
  exists k', close_keypad (fst (ui_keyboard_cb other k s)) (snd (ui_keyboard_cb other k s)) = (k', outcome (kp_mode k) K_DONE t s) /\
    left_behind (kp_mode k) K_DONE t (kp_clock k) k' /\ kp_open k' = false.
Proof.
  intros Hb. unfold ui_keyboard_cb, close_keypad. pose proof (holds_string _ _ Hb) as Es. destruct k as [b mode sel open clock]. cbn [kp_buf kp_mode kp_clock kp_selection kp_open] in *.
  destruct (is_clock mode) eqn:Ec.
  - destruct mode; try discriminate Ec; unfold left_behind; destruct (input_date_time _ _ _) as [b' time] eqn:E; cbn [fst snd kp_buf kp_mode kp_clock kp_selection];
      (eexists; split; [reflexivity|]; split; [exists b; by split|done]).
  - cbn [fst snd kp_buf kp_mode kp_clock kp_selection]. rewrite Es. eexists. split; [reflexivity|]. split; [|done].
    destruct mode; first [discriminate Ec|exact (conj Hb eq_refl)].
Qed.
Lemma left_behind_text mode r t clock k : r <> K_DONE -> holds (kp_buf k) t -> kp_clock k = clock -> left_behind mode r t clock k.
Proof. destruct r; by intros. Qed.

Lemma press_types keys : forall k s t r t', keypads_mode_tbl (kp_mode k) <> KEYPAD_TEXT ->
  Forall (real_key (keypads k)) keys -> kp_open k = true -> holds (kp_buf k) t ->
  (length t <= Z.to_nat (if is_clock (kp_mode k) then 6 else 12))%nat ->
  typed (is_clock (kp_mode k)) (map (code_of (keypads k)) keys) t = Some (r, t') ->
  exists k', press other keys k s = Some (k', outcome (kp_mode k) r t' s) /\ left_behind (kp_mode k) r t' (kp_clock k) k' /\
    kp_open k' = match r with K_CONTINUE => true | _ => false end.
Proof.
  induction keys as [|key keys IH]; intros k s t r t' Hm Hk Ho Hb Hl Ht; cbn [map typed] in Ht.
  { injection Ht as <- <-. exists k. split; [reflexivity|]. split; [exact (conj Hb eq_refl)|exact Ho]. }
  apply Forall_cons in Hk as [Hk Hks]. cbn [press]. rewrite Ho. unfold keypad_click.
  pose proof Hk as [Hlen _]. destruct (kp_buttons (keypads k) !! key) as [[pos c]|] eqn:Ek; [|apply lookup_ge_None in Ek; lia].
  assert (Ec : code_of (keypads k) key = c) by (unfold code_of; by rewrite (nth_lookup_Some _ _ _ _ Ek)).
  cbn [mbind option_bind]. rewrite (holds_strlen _ _ Hb). cbn [mbind option_bind]. unfold keypads at 1. rewrite numeric_keyboard by done.
  pose proof (numeric_codes _ key Hm Hk) as Hc. fold (keypads k) in Hc. rewrite Ec in *.
  destruct (overruns c t) eqn:Eo; [done|].
  destruct (num_click_edits (is_clock (kp_mode k)) c (kp_buf k) t Hb Hl Hc) as (b' & -> & Hb' & Hl').
  { intros [Hg Hw]. unfold overruns in Eo. rewrite (proj2 (Z.leb_le KP_k c)), (proj2 (Z.leb_le c KP_G)), Hw in Eo by lia. done. }
  cbn [mbind option_bind]. destruct (edit (is_clock (kp_mode k)) c t) as [[] t1]; cbn [fst snd] in *.
  - apply (IH (put_buf b' k) s t1 r t' Hm Hks Ho Hb' (Hl' eq_refl) Ht).
  - injection Ht as <- <-. destruct (callback_applies (put_buf b' k) s t1 Hb') as (k' & E & Hk' & Ho').
    destruct (ui_keyboard_cb other (put_buf b' k) s) as [k1 s1]. cbn [fst snd] in E. rewrite E, press_closed by exact Ho'. exists k'. by split.
  - injection Ht as <- <-. unfold close_keypad. rewrite press_closed by done. eexists. split; [reflexivity|]. split; [by apply left_behind_text|done].
Qed.

(** C10: The edit buffer refines a text: whatever the buffer holds from earlier inputs,
    for every numeric input and every sequence of its buttons in which no unit key
    k, M, G meets twelve characters without a period, no access leaves the buffer, and
    instrument and keypad end as the text machine says: the input applied once on
    Enter or a unit key, nothing applied when it is cancelled; the buffer holds the
    text typed so far and the clock is left alone, except that an entered date or time
    goes from the text to the clock and leaves its BCD digits in the buffer. *)
Theorem keypad_refines_text (mode : keypad_mode) (b : list Z) (keys : list nat) sel m0 clock s r t :
  keypads_mode_tbl mode <> KEYPAD_TEXT -> length b = KP_BUF_SIZE ->
  Forall (real_key (keypad_type_list (keypads_mode_tbl mode))) keys ->
  typed (is_clock mode) (map (code_of (keypad_type_list (keypads_mode_tbl mode))) keys) [] = Some (r, t) ->
  exists k', press other keys (ui_mode_keypad mode (Keypad b m0 sel false clock)) s = Some (k', outcome mode r t s) /\
    left_behind mode r t clock k' /\ kp_open k' = match r with K_CONTINUE => true | _ => false end.
Proof.
  intros Hm Hb Hk Ht. apply (press_types keys (ui_mode_keypad mode (Keypad b m0 sel false clock)) s [] r t Hm Hk eq_refl); [|cbn; lia|exact Ht].
  split; [cbn [ui_mode_keypad kp_open kp_buf]; by rewrite length_insert|]. split; [constructor|]. cbn [ui_mode_keypad kp_open kp_buf].
  destruct b as [|x b]; [done|]. by exists b.
Qed.
End Keys.

(** ** Typing a frequency *)

(** Digits, then nothing or a period: the number before it, leading zeros allowed. *)
Lemma my_atoui_number a rest : forallb isdigit a = true -> a <> [] -> (rest = [] \/ exists f, rest = 46 :: f) -> dec_value a < 4294967296 ->
  my_atoui (a ++ rest) = dec_value a.
Proof.
  intros Ha Hne Hr Hv. assert (Hd : 10 <= digit_of (peek rest)) by (destruct Hr as [->|[f ->]]; vm_compute; discriminate).
  destruct a as [|c a]; [done|]. pose proof Ha as Ha'. cbn [forallb] in Ha'. apply andb_true_iff in Ha' as [Hc Ha'].
  unfold isdigit in Hc. apply andb_true_iff in Hc as [Hc1%Z.leb_le Hc2%Z.leb_le].
  assert (L : my_atoui_loop 10 ((c :: a) ++ rest) 0 = dec_value (c :: a)) by (by apply my_atoui_loop_digits).
  unfold my_atoui. change (peek ((c :: a) ++ rest)) with c. destruct (Z.eqb_spec c 43); [lia|]. change (peek ((c :: a) ++ rest)) with c.
  destruct (c =? 48); [|exact L].
  assert (Hc1' : ch_at ((c :: a) ++ rest) 1 < 58).
  { unfold ch_at. cbn [app nth]. destruct a as [|d a].
    - destruct Hr as [->|[f ->]]; cbn; lia.
    - cbn [app nth forallb] in *. apply andb_true_iff in Ha' as [Hd' _]. unfold isdigit in Hd'. apply andb_true_iff in Hd' as [_ Hd'%Z.leb_le]. lia. }
  rewrite (proj2 (Z.eqb_neq _ 120)), (proj2 (Z.eqb_neq _ 111)), (proj2 (Z.eqb_neq _ 98)) by lia. exact L.
Qed.

(** The button of a character, and of the unit 10^(3 j). *)
Definition char_key (ch : Z) : nat := if ch =? 46 then O else S (Z.to_nat (ch - 48)).
Definition unit_key (j : nat) : nat := match j with O => 14 | 1 => 13 | 2 => 12 | _ => 11 end%nat.
Definition unit_code (j : nat) : Z := match j with O => KP_X1 | 1 => KP_k | 2 => KP_M | _ => KP_G end%nat.
(** The number [a.f] times 10^(3 j), rounded down. *)
Definition entered (a f : list Z) (j : nat) : Z := dec_value (a ++ take (3 * j) (f ++ repeat 48 (3 * j))).

Lemma digit_key ch : isdigit ch = true -> code_of keypads_freq (char_key ch) = ch - 48 /\ real_key keypads_freq (char_key ch).
Proof.
  intros Hd. apply andb_true_iff in Hd as [H1%Z.leb_le H2%Z.leb_le]. unfold real_key.
  assert (E : forallb (fun ch => (code_of keypads_freq (char_key ch) =? ch - 48) && (char_key ch <? 16)%nat) (seqZ 48 10) = true) by (vm_compute; reflexivity).
  rewrite forallb_forall in E. specialize (E ch). rewrite <- list_elem_of_In, elem_of_seqZ in E. specialize (E ltac:(lia)).
  apply andb_true_iff in E as [E1%Z.eqb_eq E2%Nat.ltb_lt]. split; [done|]. split; [exact E2|]. rewrite E1. unfold KP_EMPTY. lia.
Qed.

Lemma edit_digit d t : 0 <= d <= 9 -> (length t < 12)%nat -> overruns d t = false /\ edit false d t = (K_CONTINUE, t ++ [48 + d]).
Proof.
  intros Hd Hl. unfold overruns, edit, KP_k, KP_G, KP_PERCENT, KP_BS, KP_MINUS, KP_9, NUMINPUT_LEN.
  rewrite (proj2 (Z.leb_gt 13 d)), (proj2 (Z.eqb_neq d 12)), (proj2 (Z.eqb_neq d 11)) by lia. cbn [andb].
  rewrite (proj2 (Nat.leb_gt _ _)) by lia. by rewrite (proj2 (Z.leb_le d 9)) by lia.
Qed.

Lemma typed_digits a : forall t codes, forallb isdigit a = true -> (length t + length a <= 12)%nat ->
  typed false (map (code_of keypads_freq) (map char_key a) ++ codes) t = typed false codes (t ++ a).
Proof.
  induction a as [|ch a IH]; intros t codes Ha Hl; cbn [map app forallb length] in *; [by rewrite app_nil_r|].
  apply andb_true_iff in Ha as [Hc Ha]. destruct (digit_key ch Hc) as [-> _]. cbn [typed].
  apply andb_true_iff in Hc as [H1%Z.leb_le H2%Z.leb_le]. destruct (edit_digit (ch - 48) t ltac:(lia) ltac:(lia)) as [-> ->].
  rewrite IH; [|done|rewrite length_app; cbn; lia]. rewrite <- app_assoc. replace (48 + (ch - 48)) with ch by lia. done.
Qed.

Lemma digits_no_period a l : forallb isdigit a = true -> whole_part (a ++ l) = a ++ whole_part l /\ fraction_part (a ++ l) = fraction_part l.
Proof.
  induction a as [|ch a IH]; [done|]. cbn [forallb app whole_part fraction_part]. intros Hd. apply andb_true_iff in Hd as [Hc Ha].
  unfold isdigit in Hc. destruct (Z.eqb_spec ch 46) as [->|]; [done|]. destruct (IH Ha) as [-> ->]. done.
Qed.

(** The keys of a number: digits, and a period with more digits if there is a fraction. *)
Definition number_text (a : list Z) (f : option (list Z)) : list Z := a ++ match f with Some f => 46 :: f | None => [] end.
Definition fraction (f : option (list Z)) : list Z := match f with Some f => f | None => [] end.

Lemma typed_number a f codes : forallb isdigit a = true -> forallb isdigit (fraction f) = true -> (length (number_text a f) <= 12)%nat ->
  typed false (map (code_of keypads_freq) (map char_key (number_text a f)) ++ codes) [] = typed false codes (number_text a f).
Proof.
  intros Ha Hf Hl. unfold number_text in *. rewrite length_app in Hl. rewrite !map_app, <- app_assoc, typed_digits by (cbn; lia || done). cbn [app].
  destruct f as [f|]; [|cbn; by rewrite app_nil_r]. cbn [map app length fraction] in *. change (code_of keypads_freq (char_key 46)) with KP_PERIOD.
  cbn [typed]. change (overruns KP_PERIOD a) with false. cbn [andb].
  assert (E : edit false KP_PERIOD a = (K_CONTINUE, a ++ [46])).
  { unfold edit, NUMINPUT_LEN. cbn [KP_k KP_PERCENT KP_PERIOD KP_BS KP_MINUS KP_9 Z.leb Z.eqb Z.compare Pos.compare Pos.compare_cont Pos.eqb andb].
    rewrite (proj2 (Nat.leb_gt _ _)) by lia. destruct (digits_no_period a [] Ha) as [_ Ef]. rewrite app_nil_r in Ef. by rewrite Ef. }
  rewrite E, typed_digits by (rewrite ?length_app; cbn; lia || done). by rewrite <- app_assoc.
Qed.

(** The text the unit key leaves starts with the number wanted. *)
Lemma unit_text (a : list Z) (f : option (list Z)) (j : nat) : forallb isdigit a = true -> a <> [] -> forallb isdigit (fraction f) = true ->
  (j <= 3)%nat -> (length a + 3 * j <= 12)%nat -> overruns (unit_code j) (number_text a f) = false /\
  exists t, edit false (unit_code j) (number_text a f) = (K_DONE, t) /\ (entered a (fraction f) j < 4294967296 -> my_atoui t = entered a (fraction f) j).
Proof.
  intros Ha Hne Hf Hj Hl. unfold number_text.
  set (rest := match f with Some f => 46 :: f | None => [] end).
  assert (Ew : whole_part (a ++ rest) = a /\ fraction_part (a ++ rest) = f).
  { destruct (digits_no_period a rest Ha) as [-> ->]. subst rest. destruct f; cbn; by rewrite ?app_nil_r. }
  destruct Ew as [Ew Ef]. assert (H0 : (length (a ++ rest) =? 0)%nat = false) by (destruct a; [done|reflexivity]).
  split.
  { unfold overruns. rewrite Ew. destruct j as [|j]; [reflexivity|]. rewrite (proj2 (Nat.eqb_neq (length a) 12)) by lia. apply andb_false_r. }
  assert (Hr : rest = [] \/ exists f0, rest = 46 :: f0) by (subst rest; destruct f as [f|]; [right; by exists f|by left]).
  destruct j as [|j].
  { exists (a ++ rest). unfold edit. cbn [unit_code]. rewrite H0. split; [reflexivity|]. unfold entered. cbn [Nat.mul take]. rewrite app_nil_r.
    intros Hv. by apply my_atoui_number. }
  exists (scaled (Z.of_nat (S j)) (a ++ rest)). split.
  { unfold edit. rewrite H0. destruct j as [|[|[|j]]]; [reflexivity..|lia]. }
  unfold scaled, NUMINPUT_LEN. rewrite Ew, Ef. replace (Z.to_nat _) with (3 * S j)%nat by lia. set (n := (3 * S j)%nat) in *.
  unfold entered. fold n. intros Hv.
  assert (Hd : forallb isdigit (a ++ take n (fraction f ++ repeat 48 n)) = true).
  { rewrite forallb_app, Ha. cbn [andb]. apply forallb_forall. intros x Hx%list_elem_of_In%elem_of_take. destruct Hx as (i & Hx & _).
    apply list_elem_of_lookup_2, elem_of_app in Hx as [Hx|Hx].
    - rewrite forallb_forall in Hf. apply Hf. by apply list_elem_of_In.
    - apply list_elem_of_In, repeat_spec in Hx. by subst x. }
  destruct f as [f|]; cbn [fraction] in *.
  - rewrite app_assoc. apply my_atoui_number; [done|destruct a; done|right; by eexists|done].
  - cbn [app] in *. rewrite take_ge in Hv, Hd |- * by (rewrite repeat_length; lia).
    rewrite <- (app_nil_r (a ++ repeat 48 n)) at 1. apply my_atoui_number; [done|destruct a; done|by left|done].
Qed.

Section Typing.
Context {F : Type} `{FloatOps F}.
Context (other : keypad_mode -> list Z -> vna F -> vna F).

(** The stimulus inputs. *)
Definition stimulus_of (mode : keypad_mode) : option Z :=
  match mode with
  | KM_START => Some ST_START | KM_STOP => Some ST_STOP | KM_CENTER => Some ST_CENTER | KM_SPAN => Some ST_SPAN
  | KM_CW => Some ST_CW | KM_STEP => Some ST_STEP | KM_VAR => Some ST_VAR | _ => None
  end.

(** A start, stop or CW frequency of the instrument's range is set as it is given. *)
Lemma single_frequency_set type v (s : vna F) : type = ST_START \/ type = ST_STOP \/ type = ST_CW -> FREQUENCY_MIN <= v <= FREQUENCY_MAX ->
  get_sweep_frequency type (set_sweep_frequency type v s) = v.
Proof.
  intros Ht Hv. unfold FREQUENCY_MIN, FREQUENCY_MAX in Hv.
  assert (C : clamp_freq v = v /\ Z.min FREQUENCY_MAX v = v) by (unfold clamp_freq, FREQUENCY_MIN, FREQUENCY_MAX; lia). destruct C as [C1 C2].
  assert (H56 : type <> ST_STEP /\ type <> ST_VAR) by (unfold ST_START, ST_STOP, ST_CW, ST_STEP, ST_VAR in *; lia).
  destruct (set_sweep_frequency_range_of type v s (proj1 H56) (proj2 H56)) as (E0 & E1 & _). set (s' := set_sweep_frequency type v s) in *. clearbody s'.
  destruct Ht as [->|[->| ->]].
  - change (get_sweep_frequency ST_START s') with (frequency0 s'). change (ST_START <? ST_SPAN) with true in E0. cbn match in E0.
    rewrite E0, (proj1 (switch_start _ s)). exact C1.
  - change (get_sweep_frequency ST_STOP s') with (frequency1 s'). change (ST_STOP <? ST_SPAN) with true in E1. cbn match in E1.
    destruct (switch_stop (clamp_freq v) s) as [X _]. rewrite E1, X. exact C1.
  - change (ST_CW <? ST_SPAN) with false in E0, E1. cbn match in E0, E1. rewrite (proj1 (switch_cw _ s)), C2 in E0. rewrite (proj2 (switch_cw _ s)), C2 in E1.
    change (get_sweep_frequency ST_CW s') with (frequency0 s'). exact E0.
Qed.

(** C17: A typed frequency arrives: on the frequency keyboard, the keys of a number
    with an optional period and fraction (at most twelve characters) and a unit key
    x1, k, M or G whose shift fits the twelve digits, the number times the unit, with
    fractions of a hertz dropped, below 2^32, pressed after opening the keypad for
    START, STOP, CENTER, SPAN, CW, STEP or JOG STEP, call the setter of that stimulus
    once with the number times the unit and close the keypad, whatever the buffer held
    before; for START, STOP and CW in the instrument's range this stimulus then is the
    number itself. *)
Theorem keypad_enters_frequency (mode : keypad_mode) (type : Z) (a : list Z) (f : option (list Z)) (j : nat) (b : list Z) sel m0 clock (s : vna F) :
  stimulus_of mode = Some type -> length b = KP_BUF_SIZE ->
  forallb isdigit a = true -> a <> [] -> forallb isdigit (fraction f) = true -> (length (number_text a f) <= 12)%nat ->
  (j <= 3)%nat -> (length a + 3 * j <= 12)%nat -> entered a (fraction f) j < 4294967296 ->
  let v := entered a (fraction f) j in
  let s' := set_sweep_frequency type v s in
  exists k', press other (map char_key (number_text a f) ++ [unit_key j]) (ui_mode_keypad mode (Keypad b m0 sel false clock)) s =
      Some (k', request_to_redraw REDRAW_ALL s') /\ kp_open k' = false /\
    (type = ST_START \/ type = ST_STOP \/ type = ST_CW -> FREQUENCY_MIN <= v <= FREQUENCY_MAX -> get_sweep_frequency type s' = v).
Proof.
  intros Hm Hb Ha Hne Hf Hl Hj Hs Hv v s'. destruct (unit_text a f j Ha Hne Hf Hj Hs) as (Eo & t & Et & Ev). specialize (Ev Hv).
  assert (Hk : keypads_mode_tbl mode = KEYPAD_FREQ /\ is_clock mode = false) by (by destruct mode). destruct Hk as [Hk Hclock].
  assert (Ek : typed (is_clock mode) (map (code_of keypads_freq) (map char_key (number_text a f) ++ [unit_key j])) [] = Some (K_DONE, t)).
  { rewrite Hclock, map_app, typed_number by done. replace (map (code_of keypads_freq) [unit_key j]) with [unit_code j] by (by destruct j as [|[|[|j]]]).
    cbn [typed]. by rewrite Eo, Et. }
  set (k := ui_mode_keypad mode (Keypad b m0 sel false clock)).
  destruct (press_types other (map char_key (number_text a f) ++ [unit_key j]) k s [] K_DONE t) as (k' & E & _ & Eopen).
  - cbn [kp_mode k ui_mode_keypad kp_open]. by rewrite Hk.
  - unfold keypads. cbn [kp_mode k ui_mode_keypad kp_open]. rewrite Hk. cbn [keypad_type_list]. apply Forall_app. split.
    + apply Forall_forall. intros x Hx%list_elem_of_In%in_map_iff. destruct Hx as (ch & <- & Hch%list_elem_of_In).
      unfold number_text in Hch. apply elem_of_app in Hch as [Hch|Hch].
      * apply digit_key. rewrite forallb_forall in Ha. apply Ha. by apply list_elem_of_In.
      * destruct f as [f|]; [|by apply elem_of_nil in Hch]. apply elem_of_cons in Hch as [->|Hch]; [split; [cbn; lia|discriminate]|].
        apply digit_key. rewrite forallb_forall in Hf. apply Hf. by apply list_elem_of_In.
    + constructor; [|done]. destruct j as [|[|[|j]]]; (split; [cbn; lia|discriminate]).
  - done.
  - split; [cbn; by rewrite length_insert|]. split; [constructor|]. cbn. destruct b as [|x b]; [done|]. by exists b.
  - cbn. lia.
  - unfold keypads. cbn [kp_mode k ui_mode_keypad kp_open]. rewrite Hk. exact Ek.
  - exists k'. split; [|split; [exact Eopen|apply single_frequency_set]]. rewrite E. cbn [kp_mode k ui_mode_keypad kp_open outcome].
    subst s' v. rewrite <- Ev. destruct mode; first [discriminate Hm|injection Hm as <-; reflexivity].
Qed.
End Typing.

(** ** The combination that leaves the buffer *)

(** Twelve characters without a period: the counter of k, M and G starts at zero and
    runs 65536 times (ui.c:3858). *)
Lemma full_buffer_overruns (clock : bool) c b t : holds b t -> length t = 12%nat -> fraction_part t = None -> KP_k <= c <= KP_G ->
  num_keypad_click clock c (length t) b = None.
Proof.
  intros Hb Hl Hf Hc. unfold num_keypad_click. unfold KP_k, KP_G in Hc. rewrite Hl.
  rewrite (proj2 (Z.leb_le KP_k c)), (proj2 (Z.leb_le c KP_PERCENT)), (proj2 (Z.leb_le c KP_G)) by (unfold KP_k, KP_PERCENT, KP_G; lia). cbn [andb Nat.eqb].
  unfold apply_scale. rewrite (holds_period b t Hb), (proj2 (proj2 (whole_length t)) Hf), Hl. cbn [mbind option_bind].
  change (Z.of_nat 12) with NUMINPUT_LEN. rewrite (proj2 (Z.ltb_lt NUMINPUT_LEN _)) by (unfold NUMINPUT_LEN, KP_k; lia).
  rewrite Z.sub_diag. change (u16 0 =? 0) with true. destruct (scale_loop _ _ _) as [b'|] eqn:E; [|done].
  apply scale_loop_bound in E. destruct Hb as (Hlen & _). unfold KP_BUF_SIZE in Hlen. lia.
Qed.

(** ** Dates *)

Definition of_bcd (v : Z) : Z := 10 * Z.shiftr v 4 + Z.land v 15.
Definition bcd (v : Z) : bool := (0 <=? v) && (Z.shiftr v 4 <=? 9) && (Z.land v 15 <=? 9).
Definition to_bcd (v : Z) : Z := v / 10 * 16 + v mod 10.
(** The days of a month, 28 for February. *)
Definition month_days (m : Z) : Z := nth (Z.to_nat (m - 1)) [31; 28; 31; 30; 31; 30; 31; 31; 30; 31; 30; 31] 0.

Definition date_ok (y m d : Z) : bool :=
  bcd y && bcd m && bcd d && (1 <=? of_bcd m) && (of_bcd m <=? 12) && (1 <=? of_bcd d) && (of_bcd d <=? month_days (of_bcd m)).
Definition limited_date (y m d : Z) : Z * Z * Z :=
  let month := if m <? 1 then 1 else if 0x12 <? m then 0x12 else m in
  let day_max := 28 + Z.land (Z.shiftr day_limit (Z.shiftl month 1)) 3 in
  let day_max := Z.lor (Z.shiftl (day_max / 10) 4) (day_max mod 10) in
  (y, month, if d <? 1 then 1 else if day_max <? d then day_max else d).

(** Every pair of entered pairs of digits, by computation. *)
Definition pairs100 : list Z := map to_bcd (seqZ 0 100).
Lemma limited_date_ok m d : In m pairs100 -> In d pairs100 ->
  let '(_, m', d') := limited_date 0 m d in date_ok 0 m' d' = true /\ (date_ok 0 m d = true -> m' = m /\ d' = d).
Proof.
  intros Hm Hd.
  assert (T : forallb (fun m => forallb (fun d => let '(_, m', d') := limited_date 0 m d in
    date_ok 0 m' d' && (negb (date_ok 0 m d) || ((m' =? m) && (d' =? d)))) pairs100) pairs100 = true) by (vm_compute; reflexivity).
  rewrite forallb_forall in T. specialize (T m Hm). rewrite forallb_forall in T. specialize (T d Hd).
  destruct (limited_date 0 m d) as [[y' m'] d']. apply andb_true_iff in T as [T1 T2]. split; [exact T1|]. intros E. rewrite E in T2. cbn [negb orb] in T2.
  apply andb_true_iff in T2 as [E1%Z.eqb_eq E2%Z.eqb_eq]. done.
Qed.

Lemma clock_digit_range text n : Forall (fun c => 48 <= c <= 57) text -> 0 <= nth n (clock_digits text) 0 <= 9.
Proof.
  intros Ht. unfold clock_digits.
  assert (A : Forall (fun v => 0 <= v <= 9) (map (fun c => u8 (c - 48)) text ++ repeat 0 6)).
  { apply Forall_app. split; [|repeat constructor; lia]. apply Forall_map. eapply Forall_impl; [exact Ht|]. intros c Hc. cbn in Hc |- *. unfold u8. rewrite Z.mod_small; lia. }
  apply (Forall_take _ 6%nat) in A. set (l := take 6 _) in *. clearbody l. destruct (Nat.lt_ge_cases n (length l)) as [Hn|Hn].
  - rewrite Forall_forall in A. apply A. apply list_elem_of_In, nth_In, Hn.
  - rewrite nth_overflow by done. lia.
Qed.
Lemma bcd_pair_range text i : Forall (fun c => 48 <= c <= 57) text ->
  bcd_pair (clock_digits text) i = to_bcd (10 * nth (2 * i) (clock_digits text) 0 + nth (2 * i + 1) (clock_digits text) 0) /\ In (bcd_pair (clock_digits text) i) pairs100.
Proof.
  intros Ht. pose proof (clock_digit_range text (2 * i) Ht) as H1. pose proof (clock_digit_range text (2 * i + 1) Ht) as H2.
  unfold bcd_pair. set (x := nth (2 * i) _ 0) in *. set (y := nth (2 * i + 1) _ 0) in *. clearbody x y.
  assert (T : forallb (fun x => forallb (fun y => u8 (Z.lor (Z.shiftl x 4) y) =? to_bcd (10 * x + y)) (seqZ 0 10)) (seqZ 0 10) = true) by (vm_compute; reflexivity).
  rewrite forallb_forall in T. specialize (T x ltac:(apply list_elem_of_In, elem_of_seqZ; lia)). rewrite forallb_forall in T.
  specialize (T y ltac:(apply list_elem_of_In, elem_of_seqZ; lia)). apply Z.eqb_eq in T. rewrite T. split; [done|].
  apply in_map, list_elem_of_In, elem_of_seqZ. lia.
Qed.

(** C37: Every entered date is a date: for any digits typed (missing ones count as
    zero) the year, month and day given to the clock are two-digit BCD numbers, the
    month 1 to 12 and the day 1 to the last day of that month (28 in February); and a
    day that is one already is stored unchanged. *)
Theorem entered_date_valid (text : list Z) : Forall (fun c => 48 <= c <= 57) text ->
  let l := clock_digits text in
  let '(y, m, d) := entered_date text in
  date_ok y m d = true /\ y = bcd_pair l 0 /\ (date_ok 0 (bcd_pair l 1) (bcd_pair l 2) = true -> m = bcd_pair l 1 /\ d = bcd_pair l 2).
Proof.
  intros Ht l. destruct (bcd_pair_range text 0 Ht) as [E0 H0], (bcd_pair_range text 1 Ht) as [_ H1], (bcd_pair_range text 2 Ht) as [_ H2].
  fold l in E0, H0, H1, H2. pose proof (limited_date_ok _ _ H1 H2) as L. unfold entered_date. fold l. unfold limited_date in L. cbv zeta in *.
  set (m := if bcd_pair l 1 <? 1 then _ else _) in *. destruct L as [L1 L2]. split; [|by split].
  unfold date_ok in *. rewrite !andb_true_iff in L1 |- *. split; [|tauto]. split; [|tauto]. split; [|tauto]. split; [|tauto]. split; [|tauto]. split; [|tauto].
  apply in_map_iff in H0 as (v & <- & Hv%list_elem_of_In%elem_of_seqZ).
  assert (T : forallb (fun v => bcd (to_bcd v)) (seqZ 0 100) = true) by (vm_compute; reflexivity). rewrite forallb_forall in T. apply T. apply list_elem_of_In, elem_of_seqZ. lia.
Qed.
Lemma entered_date_valid_witness : let '(y, m, d) := entered_date (cstr "269931") in date_ok y m d = true /\ (y, m, d) = (0x26, 0x12, 0x31).
Proof.
  assert (Ht : Forall (fun c => 48 <= c <= 57) (cstr "269931")) by (repeat (constructor; [cbv; split; discriminate|]); constructor).
  destruct (entered_date_valid (cstr "269931") Ht) as [E _]. split; [exact E|reflexivity].
Defined.

(** The limit of February is 28 in every year (ui.c:3598): 29 February 2028 is stored
    as the 28th. *)
Lemma leap_day_refused : entered_date (cstr "280229") = (0x28, 0x02, 0x28).
Proof. reflexivity. Qed.

(** ** Touch *)

(** The rectangle of a button. *)
Definition in_button (text : bool) (pos x y : Z) : Prop :=
  let '(x0, y0, w, h) := key_pos text in
  x0 + Z.shiftr pos 4 * w <= x < x0 + (Z.shiftr pos 4 + 1) * w /\ y0 + Z.land pos 15 * h <= y < y0 + (Z.land pos 15 + 1) * h.

Lemma buttons_found (t : keypad_type) i pos c : kp_buttons (keypad_type_list t) !! i = Some (pos, c) -> c <> KP_EMPTY ->
  0 <= Z.shiftr pos 4 < 16 /\ 0 <= Z.land pos 15 < 16 /\
  button_at (kp_buttons (keypad_type_list t)) (u8 (Z.lor (Z.land (Z.land pos 15) 0x0F) (Z.shiftl (Z.shiftr pos 4) 4))) = Some i.
Proof.
  intros Hi Hc.
  assert (T : forallb (fun i => match kp_buttons (keypad_type_list t) !! i with
    | Some (pos, c) => (c =? KP_EMPTY) || ((0 <=? Z.shiftr pos 4) && (Z.shiftr pos 4 <? 16) && (0 <=? Z.land pos 15) && (Z.land pos 15 <? 16) &&
        match button_at (kp_buttons (keypad_type_list t)) (u8 (Z.lor (Z.land (Z.land pos 15) 0x0F) (Z.shiftl (Z.shiftr pos 4) 4))) with Some j => (j =? i)%nat | None => false end)
    | None => true end) (seq 0 40) = true) by (destruct t; vm_compute; reflexivity).
  rewrite forallb_forall in T. assert (Hlt : (i < 40)%nat) by (apply lookup_lt_Some in Hi; destruct t; cbn in Hi; lia).
  specialize (T i ltac:(apply in_seq; lia)). rewrite Hi in T. rewrite (proj2 (Z.eqb_neq c KP_EMPTY)) in T by done. cbn [orb] in T.
  rewrite !andb_true_iff in T. destruct T as ((((T1 & T2) & T3) & T4) & T5). apply Z.leb_le in T1, T3. apply Z.ltb_lt in T2, T4.
  split; [lia|]. split; [lia|]. destruct (button_at _ _) as [j|]; [|done]. apply Nat.eqb_eq in T5. by subst j.
Qed.

Lemma touched_key_finds (t : keypad_type) i pos c x y : kp_buttons (keypad_type_list t) !! i = Some (pos, c) -> c <> KP_EMPTY ->
  in_button (kp_text (keypad_type_list t)) pos x y -> touched_key x y (keypad_type_list t) = Some i.
Proof.
  intros Hi Hc. destruct (buttons_found t i pos c Hi Hc) as (Hcol & Hrow & Hf). unfold touched_key, in_button.
  set (col := Z.shiftr pos 4) in *. set (row := Z.land pos 15) in *. clearbody col row.
  assert (K : forall x0 y0 w h, 0 < w -> 0 < h -> x0 + col * w <= x < x0 + (col + 1) * w -> y0 + row * h <= y < y0 + (row + 1) * h ->
    (x <? x0) || (y <? y0) = false /\ (x - x0) / w = col /\ (y - y0) / h = row).
  { intros x0 y0 w h Hw Hh Hx Hy. rewrite (proj2 (Z.ltb_ge x x0)), (proj2 (Z.ltb_ge y y0)) by nia. split; [done|].
    split; symmetry; [apply Z.div_unique_pos with (x - x0 - w * col)|apply Z.div_unique_pos with (y - y0 - h * row)]; nia. }
  destruct (kp_text _); cbn [key_pos]; intros [Hx Hy].
  - destruct (K 0 96 48 48) as (-> & -> & ->); [lia..|]. exact Hf.
  - destruct (K 0 0 120 72) as (-> & -> & ->); [lia..|]. exact Hf.
Qed.

(** ** The edges of the grid *)

Section Amplitude.
Context {F : Type} `{EA : ExactArith F}.
Add Field amplitude_field : (ea_field (F := F)).
Local Open Scope float_scope.

Lemma exact_eqb (a b : F) : feqb a b = false -> a <> b.
Proof. intros E Eab. apply ea_feqb in Eab. congruence. Qed.

Lemma trace_at_alter t (g : trace_t F -> trace_t F) (s : vna F) : (0 <= t < Z.of_nat (length (_trace (current_props s))))%Z ->
  trace_at t (upd_trace t g s) = g (trace_at t s).
Proof.
  intros Ht. unfold trace_at, upd_trace. cbn. rewrite !nth_lookup, list_lookup_alter. case_decide; [|done].
  destruct (_trace (current_props s) !! Z.to_nat t) as [x|] eqn:E; [done|]. apply lookup_ge_None in E. lia.
Qed.
Lemma trace_at_redraw t m (s : vna F) : trace_at t (request_to_redraw m s) = trace_at t s.
Proof. done. Qed.

(** A setter that skips an equal value still leaves the value. *)
Lemma scale_refpos_set t sc rp (s : vna F) : (0 <= t < Z.of_nat (length (_trace (current_props s))))%Z ->
  let tr := trace_at t (set_trace_refpos t rp (set_trace_scale t sc s)) in tr_scale tr = sc /\ tr_refpos tr = rp.
Proof.
  intros Ht. cbv zeta. set (s1 := set_trace_scale t sc s).
  assert (E1 : tr_scale (trace_at t s1) = sc /\ (0 <= t < Z.of_nat (length (_trace (current_props s1))))%Z).
  { subst s1. unfold set_trace_scale. destruct (feqb _ sc) eqn:E; [by apply ea_feqb in E|]. rewrite trace_at_redraw, trace_at_alter by done.
    split; [done|]. cbn. by rewrite length_alter. }
  destruct E1 as [E1 Ht1]. unfold set_trace_refpos. destruct (feqb _ rp) eqn:E; [apply ea_feqb in E; done|]. rewrite trace_at_redraw, trace_at_alter by done. done.
Qed.

(** C38: Entering the top or the bottom of the active trace moves that edge only: in
    exact arithmetic, after a value other than the opposite edge is entered, the value
    shown for that edge is the one entered (for SWR traces one is added in the label
    and subtracted in the input) and the opposite edge keeps its value. *)
Theorem amplitude_moves_edge (data : Z) (text : list Z) (s : vna F) :
  let t := _current_trace (current_props s) in
  let value := if is_swr (tr_type (trace_at t s)) then my_atof text - f1 else my_atof text in
  (0 <= t < Z.of_nat (length (_trace (current_props s))))%Z ->
  value <> (if (data =? 0)%Z then trace_bottom (trace_at t s) else trace_top (trace_at t s)) ->
  let tr := trace_at t (input_amplitude data text s) in
  trace_top tr = (if (data =? 0)%Z then value else trace_top (trace_at t s)) /\
  trace_bottom tr = (if (data =? 0)%Z then trace_bottom (trace_at t s) else value).
Proof.
  intros t value Ht Hv. unfold input_amplitude. fold t. fold value. set (top := if (data =? 0)%Z then value else _). set (bot := if (data =? 0)%Z then _ else value).
  assert (Hne : top <> bot) by (subst top bot; destruct (data =? 0)%Z; congruence).
  destruct (feqb top bot) eqn:E; [by apply ea_feqb in E|].
  assert (Hg : f_of_Z NGRIDY <> (f0 : F)) by (by apply of_Z_neq). set (g := f_of_Z NGRIDY) in *.
  set (sc := (top - bot) / g). assert (Hsc : sc <> f0).
  { subst sc. intros E0. apply Hne. transitivity ((top - bot) / g * g + bot); [by field|]. rewrite E0. ring. }
  destruct (scale_refpos_set t sc (- (bot / sc)) s Ht) as [E1 E2]. unfold trace_top, trace_bottom. rewrite E1, E2. fold g.
  assert (E0 : f_of_Z 0 = (f0 : F)).
  { transitivity (f_of_Z 0 + f_of_Z 0 - f_of_Z 0 : F); [ring|]. pose proof (ea_of_Z_add (F := F) 0 0) as E0. change (0 + 0)%Z with 0%Z in E0. rewrite <- E0. ring. }
  rewrite E0. split.
  - transitivity (g * sc + bot); [by field|]. subst sc. by field.
  - by field.
Qed.
End Amplitude.

(** ** Examples *)

Definition old_buffer : list Z := repeat 55 KP_BUF_SIZE.
Definition old_clock : list Z := repeat 0 8.
Lemma keypad_refines_text_witness : exists k', press (fun _ _ s => s) [2; 1; 2; 11]%nat (ui_mode_keypad KM_POINTS (Keypad old_buffer KM_START (-1) false old_clock)) boot =
  Some (k', request_to_redraw REDRAW_ALL (set_sweep_points 101 boot)) /\ kp_string (kp_buf k') = cstr "101".
Proof.
  destruct (keypad_refines_text (fun _ _ s => s) KM_POINTS old_buffer [2; 1; 2; 11]%nat (-1) KM_START old_clock boot K_DONE (cstr "101")) as (k' & E & Hb & _).
  - discriminate.
  - reflexivity.
  - repeat (constructor; [split; [cbn; lia|discriminate]|]). constructor.
  - reflexivity.
  - exists k'. split; [exact E|]. exact (holds_string _ _ (proj1 Hb)).
Defined.

Lemma keypad_enters_frequency_witness : exists k',
  press (fun _ _ s => s) (map char_key (cstr "1.5") ++ [unit_key 2]) (ui_mode_keypad KM_STOP (Keypad old_buffer KM_START (-1) false old_clock)) boot =
    Some (k', request_to_redraw REDRAW_ALL (set_sweep_frequency ST_STOP 1500000 boot)) /\ kp_open k' = false /\
    get_sweep_frequency ST_STOP (set_sweep_frequency ST_STOP 1500000 boot) = 1500000.
Proof.
  destruct (keypad_enters_frequency (fun _ _ s => s) KM_STOP ST_STOP (cstr "1") (Some (cstr "5")) 2 old_buffer (-1) KM_START old_clock boot
    eq_refl eq_refl eq_refl ltac:(discriminate) eq_refl ltac:(cbn; lia) ltac:(lia) ltac:(cbn; lia) eq_refl) as (k' & E & Eo & Ev).
  change (entered (cstr "1") (fraction (Some (cstr "5"))) 2) with 1500000 in E, Ev.
  exists k'. split; [exact E|]. split; [exact Eo|]. refine (Ev (or_intror (or_introl eq_refl)) (conj _ _)); discriminate.
Defined.

Lemma boot_traces : length (_trace (current_props boot)) = 4%nat /\ _current_trace (current_props boot) = 0.
Proof. split; vm_compute; reflexivity. Qed.
Lemma amplitude_moves_edge_witness : trace_top (trace_at 0 (input_amplitude 0 (cstr "10") boot)) = (my_atof (cstr "10") : Qcanon.Qc).
Proof.
  destruct boot_traces as [El Et].
  destruct (amplitude_moves_edge 0 (cstr "10") boot) as [E _].
  - rewrite Et, El. lia.
  - apply exact_eqb. vm_compute. reflexivity.
  - rewrite Et in E. assert (Es : is_swr (tr_type (trace_at 0 boot)) = false) by (vm_compute; reflexivity). rewrite Es in E. exact E.
Defined.
