(* ===== verification/Values.v ===== *)
(** * Values of the traces (plot.c, vna_modules/vna_coax.c)

    The functions that turn a measured reflection or transmission coefficient
    into what a trace or a marker shows: magnitude, phase, impedance,
    admittance, component values, quality factor, group delay, and the loss of
    the feed line for the standing wave ratio at the antenna. *)

From S2P Require Import Prelude Num Cplx Exact VnaMath Types Props Sweep Process.
From Stdlib Require Import Field Qcanon.
Local Open Scope Z_scope.

(** ** The feed line: matched loss of a cable *)

Definition COAX_FREQS : Z := 7.
Definition COAX_TYPES : Z := 5.
Definition coax_freq_10khz : list Z := [180; 360; 710; 1420; 2120; 2840; 5010].
Definition coax_loss_100m : list (list Z) :=
  [ [52; 75; 105; 151; 184; 213; 285];
    [82; 121; 180; 246; 328; 394; 525];
    [161; 223; 328; 459; 558; 623; 820];
    [184; 269; 394; 558; 656; 787; 1050];
    [361; 492; 689; 1017; 1247; 1444; 1936] ].

Definition znth (i : Z) (l : list Z) : Z := nth (Z.to_nat i) l 0.

Section Values.
Context {F : Type} `{FloatOps F} `{!FloatBits F}.
Local Open Scope float_scope.

(** [while (f > coax_freq_10khz[i]) i++;] from [i]; the caller has checked that
    [f] is below the last entry. *)
Fixpoint coax_row (fuel : nat) (f : F) (i : Z) : Z :=
  match fuel with
  | O => i
  | S n => if fgt f (f_of_Z (znth i coax_freq_10khz)) then coax_row n f (i + 1) else i
  end.

Definition coax_loss_db (type : Z) (f_hz len_m : F) : F :=
  if (type =? 0)%Z || (COAX_TYPES <? type)%Z || fle len_m f0 || fle f_hz f0 then f0 else
  let row := nth (Z.to_nat (type - 1)) coax_loss_100m [] in
  let f := f_hz * f_lit 1 (-4) in
  let loss :=
    if fle f (f_of_Z (znth 0 coax_freq_10khz)) then
      f_of_Z (znth 0 row) * vna_sqrtf (f / f_of_Z (znth 0 coax_freq_10khz))
    else if fge f (f_of_Z (znth (COAX_FREQS - 1) coax_freq_10khz)) then
      f_of_Z (znth (COAX_FREQS - 1) row) * vna_sqrtf (f / f_of_Z (znth (COAX_FREQS - 1) coax_freq_10khz))
    else
      let i := coax_row 7 f 1 in
      let s0 := vna_sqrtf (f_of_Z (znth (i - 1) coax_freq_10khz)) in
      let s1 := vna_sqrtf (f_of_Z (znth i coax_freq_10khz)) in
      let k := (vna_sqrtf f - s0) / (s1 - s0) in
      f_of_Z (znth (i - 1) row) + f_of_Z (znth i row - znth (i - 1) row) * k in
  loss * f_lit 1 (-2) * len_m * f_lit 1 (-2).

(** The settings of the feed line: [cable_type], [real_cable_len],
    [cable_loss_db]. *)
Record cable_t := Cable { cable_type : Z; real_cable_len : F; cable_loss_db : F }.

Definition cable_type_next (c : cable_t) : cable_t :=
  let t := u8 (cable_type c + 1) in
  Cable (if (COAX_TYPES <? t)%Z then 0 else t) (real_cable_len c) (cable_loss_db c).
Definition get_cable_loss_at (c : cable_t) (f : Z) : F :=
  if negb (cable_type c =? 0)%Z then coax_loss_db (cable_type c) (f_of_Z f) (real_cable_len c) else cable_loss_db c.
Definition SWR_ANT_UNSET (c : cable_t) : bool :=
  if negb (cable_type c =? 0)%Z then feqb (real_cable_len c) f0 else feqb (cable_loss_db c) f0.

(** ** Values of one point: [v] is (re, im) *)

Definition PORT_Z : F := f_of_Z 50.
Definition INFINITY : F := f1 / f0.

Definition get_l (re im : F) : F := re * re + im * im.
Definition get_w (s : vna F) (i : Z) : F := f_of_Z 2 * VNA_PI * f_of_Z (getFrequency i s).
Definition get_s11_r (re im z : F) : F := vna_fabsf (f_of_Z 2 * z * re / get_l re im - z).
Definition get_s21_r (re im z : F) : F := f1 * z * re / get_l re im - z.
Definition get_s11_x (re im z : F) : F := f_of_Z (-2) * z * im / get_l re im.
Definition get_s21_x (re im z : F) : F := f_of_Z (-1) * z * im / get_l re im.

Definition linear (v : F * F) : F := vna_sqrtf (get_l (fst v) (snd v)).
Definition logmag (v : F * F) : F := vna_log10f_x_10 (get_l (fst v) (snd v)).
Definition phase (v : F * F) : F := vna_atan2f_deg (snd v) (fst v).

Definition groupdelay (v w : F * F) (deltaf : Z) : F :=
  let r := fst w * fst v + snd w * snd v in
  let i := fst w * snd v - snd w * fst v in
  vna_atan2f_deg i r / (f_of_Z 360 * f_of_Z deltaf).

Definition real (v : F * F) : F := fst v.
Definition imag (v : F * F) : F := snd v.

Definition swr_of (x : F) : F := if fgt x (f_lit 99 (-2)) then INFINITY else (f1 + x) / (f1 - x).
Definition swr (v : F * F) : F := swr_of (linear v).
(** [logf(10.0f) / 10.0f] *)
Definition LN10_10 : F := f_lit 230258509299404568 (-17) / f_of_Z 10.
Definition swr_ant (c : cable_t) (s : vna F) (i : Z) (v : F * F) : F :=
  swr_of (linear v * vna_expf (get_cable_loss_at c (getFrequency i s) * LN10_10)).

Definition resistance (v : F * F) : F := get_s11_r (f1 - fst v) (- snd v) PORT_Z.
Definition reactance (v : F * F) : F := get_s11_x (f1 - fst v) (- snd v) PORT_Z.
Definition mod_z (v : F * F) : F :=
  PORT_Z * vna_sqrtf (get_l (f1 + fst v) (snd v) / get_l (f1 - fst v) (snd v)).
Definition phase_z (v : F * F) : F :=
  let r := f1 - get_l (fst v) (snd v) in
  let x := f_of_Z 2 * snd v in
  vna_atan2f_deg x r.
Definition series_c (s : vna F) (i : Z) (v : F * F) : F := f_of_Z (-1) / (get_w s i * reactance v).
Definition series_l (s : vna F) (i : Z) (v : F * F) : F := reactance v / get_w s i.
Definition qualityfactor (v : F * F) : F :=
  let r := f1 - get_l (fst v) (snd v) in
  let x := f_of_Z 2 * snd v in
  vna_fabsf (x / r).
Definition conductance (v : F * F) : F := get_s11_r (f1 + fst v) (snd v) (f1 / PORT_Z).
Definition susceptance (v : F * F) : F := get_s11_x (f1 + fst v) (snd v) (f1 / PORT_Z).
Definition parallel_r (v : F * F) : F := f1 / conductance v.
Definition parallel_x (v : F * F) : F := f_of_Z (-1) / susceptance v.
Definition parallel_c (s : vna F) (i : Z) (v : F * F) : F := susceptance v / get_w s i.
Definition parallel_l (s : vna F) (i : Z) (v : F * F) : F := parallel_x v / get_w s i.
Definition mod_y (v : F * F) : F := f1 / mod_z v.

Definition s21shunt_r (v : F * F) : F := get_s21_r (f1 - fst v) (- snd v) (f_lit 5 (-1) * PORT_Z).
Definition s21shunt_x (v : F * F) : F := get_s21_x (f1 - fst v) (- snd v) (f_lit 5 (-1) * PORT_Z).
Definition s21shunt_z (v : F * F) : F :=
  f_lit 5 (-1) * PORT_Z * vna_sqrtf (get_l (fst v) (snd v) / get_l (f1 - fst v) (snd v)).
Definition s21series_r (v : F * F) : F := get_s21_r (fst v) (snd v) (f_of_Z 2 * PORT_Z).
Definition s21series_x (v : F * F) : F := get_s21_x (fst v) (snd v) (f_of_Z 2 * PORT_Z).
Definition s21series_z (v : F * F) : F :=
  f_of_Z 2 * PORT_Z * vna_sqrtf (get_l (f1 - fst v) (snd v) / get_l (fst v) (snd v)).
Definition s21_qualityfactor (v : F * F) : F := vna_fabsf (snd v / (fst v - get_l (fst v) (snd v))).

(** Group delay over the neighbours of a point; at the ends of the sweep over the
    point itself and one neighbour.  As in the code the point is given twice: its
    index [i], which chooses the neighbours, and the position [p] of [v] in the
    array.  With a single sweep point the step is a division by zero, which the
    processor makes 0. *)
Definition groupdelay_bottom (i : Z) : Z := if (i =? 0)%Z then 0%Z else (-1)%Z.
Definition groupdelay_top (s : vna F) (i : Z) : Z := if (i =? sweep_points s - 1)%Z then 0%Z else 1%Z.
Definition groupdelay_deltaf (s : vna F) (i : Z) : Z :=
  (get_sweep_frequency ST_SPAN s / u32 ((sweep_points s - 1) / (groupdelay_top s i - groupdelay_bottom i)))%Z.
Definition groupdelay_from_array (s : vna F) (i : Z) (row : list (F * F)) (p : Z) : F :=
  groupdelay (point_at row (p + groupdelay_bottom i)) (point_at row (p + groupdelay_top s i))
    (groupdelay_deltaf s i).

(** ** The value of a trace *)

(** [trace_info_list[type].get_value_cb], called with an index and a position in
    the array; the Smith and polar charts have none. *)
Definition value_cb := Z -> list (F * F) -> Z -> F.
Definition cb_point (f : F * F -> F) : option value_cb := Some (fun _ row p => f (point_at row p)).
Definition cb_freq (f : Z -> F * F -> F) : option value_cb := Some (fun i row p => f i (point_at row p)).
Definition get_value_cb (c : cable_t) (s : vna F) (type : Z) : option value_cb :=
  nth (Z.to_nat type)
    [ cb_point logmag; cb_point phase; Some (groupdelay_from_array s); None; None; cb_point linear; cb_point swr;
      cb_point real; cb_point imag; cb_point resistance; cb_point reactance; cb_point mod_z; cb_point phase_z;
      cb_point conductance; cb_point susceptance; cb_point mod_y; cb_point parallel_r; cb_point parallel_x;
      cb_freq (series_c s); cb_freq (series_l s); cb_freq (parallel_c s); cb_freq (parallel_l s);
      cb_point qualityfactor; cb_point s21series_r; cb_point s21series_x; cb_point s21series_z;
      cb_point s21shunt_r; cb_point s21shunt_x; cb_point s21shunt_z; cb_point s21_qualityfactor;
      cb_freq (swr_ant c s) ] None.

Definition trace_is_blank (c : cable_t) (t : Z) (s : vna F) : bool :=
  (tr_type (trace_at t s) =? TRC_SWR_ANT)%Z && SWR_ANT_UNSET c.

(** The number [trace_print_value_string] shows for a trace with a value
    callback, [index_ref] negative for an absolute value. *)
Definition trace_value (c : cable_t) (t index index_ref : Z) (s : vna F) : option F :=
  let type := tr_type (trace_at t s) in
  if (MAX_TRACE_TYPE <=? type)%Z then None else
  if trace_is_blank c t s then None else
  let array := nth (Z.to_nat (tr_channel (trace_at t s))) (measured s) [] in
  match get_value_cb c s type with
  | None => None
  | Some cb =>
      let v := cb index array index in
      Some (if (0 <=? index_ref)%Z && negb (f_isinf v) then v - cb index array index_ref else v)
  end.

Definition time_of_index (s : vna F) (idx : Z) : F :=
  f_of_Z (idx * (sweep_points s - 1)) / (f_of_Z FFT_SIZE * f_of_Z (get_sweep_frequency ST_SPAN s)).
Definition SPEED_OF_LIGHT : F := f_of_Z 299792458.
Definition distance_of_index (s : vna F) (idx : Z) : F :=
  f_of_Z (_velocity_factor (current_props s)) * (SPEED_OF_LIGHT / f_of_Z 200) * time_of_index s idx.
End Values.
Arguments cable_t : clear implicits.

(** ** The row of the cable table *)

Section Rows.
Context {F : Type} `{FloatOps F} `{!FloatBits F}.

Lemma coax_row_spec (f : F) fuel : forall i,
  i <= 6 -> 6 - i < Z.of_nat fuel -> fgt f (f_of_Z (znth 6 coax_freq_10khz)) = false ->
  let r := coax_row fuel f i in
  i <= r <= 6 /\ fgt f (f_of_Z (znth r coax_freq_10khz)) = false /\
  (i < r -> fgt f (f_of_Z (znth (r - 1) coax_freq_10khz)) = true).
Proof.
  induction fuel as [|n IH]; intros i Hi Hf H6; [lia|]. cbn [coax_row].
  destruct (fgt f (f_of_Z (znth i coax_freq_10khz))) eqn:E; [|cbn zeta; repeat split; [lia|lia|exact E|lia]].
  assert (i <> 6) by (intros ->; congruence).
  destruct (IH (i + 1)) as (B & C & D); [lia|lia|exact H6|]. cbn zeta. repeat split; [lia|lia|exact C|].
  intros _. destruct (decide (coax_row n f (i + 1) = i + 1)) as [->|]; [by replace (i + 1 - 1) with i by lia|apply D; lia].
Qed.

(** The table look-up stays inside the table, whatever the frequency (not a
    number included), and the two rows it reads enclose the frequency. *)
Lemma coax_row_bounds (f : F) :
  fge f (f_of_Z (znth (COAX_FREQS - 1) coax_freq_10khz)) = false ->
  let i := coax_row 7 f 1 in
  1 <= i <= 6 /\ fgt f (f_of_Z (znth i coax_freq_10khz)) = false /\
  (1 < i -> fgt f (f_of_Z (znth (i - 1) coax_freq_10khz)) = true).
Proof.
  intros E. apply orb_false_iff in E as [E _]. apply coax_row_spec; [lia|lia|exact E].
Qed.

Lemma cable_type_next_range (c : cable_t F) : 0 <= cable_type c <= COAX_TYPES ->
  0 <= cable_type (cable_type_next c) <= COAX_TYPES.
Proof.
  intros Hc. unfold cable_type_next, COAX_TYPES in *. cbn [cable_type]. rewrite u8_small by lia.
  destruct (Z.ltb_spec 5 (cable_type c + 1)); lia.
Qed.

(** Between two points of an inner neighbourhood there are [2 span / (n - 1)]
    hertz; the code divides the span by the integer quotient [(n - 1) / 2], which
    for an even number of points is too small by one half. *)
Lemma groupdelay_deltaf_even (s : vna F) i :
  0 < i < sweep_points s - 1 -> sweep_points s < 65536 -> Z.even (sweep_points s) = true ->
  groupdelay_deltaf s i = get_sweep_frequency ST_SPAN s / ((sweep_points s - 2) / 2).
Proof.
  intros Hi Hs Ev. unfold groupdelay_deltaf, groupdelay_top, groupdelay_bottom.
  apply Z.even_spec in Ev as [k Ek]. destruct (Z.eqb_spec i (sweep_points s - 1)), (Z.eqb_spec i 0); try lia.
  rewrite Ek in *. f_equal. unfold u32. rewrite Z.mod_small; lia.
Qed.
End Rows.

(** The delta of a series capacitance trace evaluates the reference point at the
    frequency of the active marker: equal reflections give the delta zero at any
    two frequencies. *)
Lemma delta_takes_active_frequency {F} `{EA : ExactArith F} `{!FloatBits F} (c : cable_t F) (s : vna F) t i j :
  tr_type (trace_at t s) = 18 -> 0 <= j ->
  let row := nth (Z.to_nat (tr_channel (trace_at t s))) (measured s) [] in
  point_at row i = point_at row j -> f_isinf (series_c s i (point_at row i)) = false ->
  trace_value c t i j s = Some f0.
Proof.
  intros Ht Hj row Ep Hv. unfold trace_value, trace_is_blank. rewrite Ht. cbn [Z.leb Z.compare MAX_TRACE_TYPE].
  change (18 =? TRC_SWR_ANT) with false. cbn [andb]. fold row.
  change (get_value_cb c s 18) with (Some (fun i (row : list (F * F)) p => series_c s i (point_at row p))).
  cbn iota beta zeta. rewrite Hv, <- Ep. destruct (Z.leb_spec 0 j); [|lia]. cbn [andb negb]. f_equal.
  destruct (ea_field (F := F)) as [[] _ _ _]. set (v := series_c s i (point_at row i)). by rewrite Rsub_def, Ropp_def.
Qed.

(** ** The values in exact arithmetic *)

Section Exact.
Context {F : Type} `{EA : ExactArith F} `{!FloatBits F}.
Add Field values_field : (ea_field (F := F)).
Local Open Scope float_scope.

Lemma PORT_Z_neq : (PORT_Z : F) <> f0.
Proof. by apply of_Z_neq. Qed.

(** [c y0 / w] written as the code's pair: both extraction formulas give [w] back. *)
Lemma extract_inverse (c z a b : F) : c * z <> f0 -> get_l a b <> f0 ->
  let k := c * z / get_l a b in
  c * z * (k * a) / get_l (k * a) (- (k * b)) = a /\ - c * z * (- (k * b)) / get_l (k * a) (- (k * b)) = b.
Proof.
  intros Hz Hl k. assert (Hk : get_l (k * a) (- (k * b)) = c * z * (c * z) / get_l a b).
  { subst k. unfold get_l in *. field. exact Hl. }
  rewrite Hk. subst k. assert (c <> f0 /\ z <> f0) as [Hc Hz'] by (split; intros ->; apply Hz; ring).
  split; field; auto.
Qed.

(** What the analyser sees of an impedance [z]: terminating the port, in series
    between the ports, and across the line; [y0], [z0] real. *)
Definition creal (x : F) : F * F := (x, f0).
Definition s11_of (z0 : F) (z : F * F) : F * F := cdiv (csub z (creal z0)) (cadd z (creal z0)).
Definition s21_series_of (z0 : F) (z : F * F) : F * F :=
  cdiv (creal ((f1 + f1) * z0)) (cadd z (creal ((f1 + f1) * z0))).
Definition s21_shunt_of (z0 : F) (z : F * F) : F * F :=
  cdiv (cmul (creal (f1 + f1)) z) (cadd (cmul (creal (f1 + f1)) z) (creal z0)).

Add Field values_complex : (cplx_field (F := F)).

Lemma cnorm_nonzero (w : F * F) : w <> c0 -> cnorm w <> f0.
Proof. intros Hw E. apply Hw, cnorm_zero, E. Qed.

Lemma cdiv_creal (c : F) (w : F * F) : w <> c0 ->
  cdiv (creal c) w = (c / cnorm w * fst w, - (c / cnorm w * snd w)).
Proof.
  intros Hw. pose proof (cnorm_nonzero _ Hw). unfold cdiv, creal. cbn [fst snd]. f_equal; field; auto.
Qed.

Lemma extract (c z : F) (w : F * F) : c * z <> f0 -> w <> c0 ->
  let v := cdiv (creal (c * z)) w in
  c * z * fst v / get_l (fst v) (snd v) = fst w /\ - c * z * snd v / get_l (fst v) (snd v) = snd w.
Proof.
  intros Hz Hw v. subst v. rewrite cdiv_creal by exact Hw. cbn [fst snd].
  apply (extract_inverse c z (fst w) (snd w) Hz). exact (cnorm_nonzero _ Hw).
Qed.

Lemma creal_neq (x : F) : x <> f0 -> creal x <> c0.
Proof. intros Hx E. injection E as E. auto. Qed.
Lemma creal_mul (a b : F) : creal (a * b) = cmul (creal a) (creal b).
Proof. unfold creal, cmul. cbn [fst snd]. f_equal; ring. Qed.
Lemma creal_div (a b : F) : b <> f0 -> creal (a / b) = cdiv (creal a) (creal b).
Proof.
  intros Hb. pose proof (creal_neq _ Hb).
  transitivity (cdiv (cmul (creal (a / b)) (creal b)) (creal b)); [by field|].
  rewrite <- creal_mul. f_equal. f_equal. by field.
Qed.
Lemma creal_two : creal (f1 + f1) = cadd c1 (c1 : F * F).
Proof. unfold creal, cadd, c1. cbn [fst snd]. f_equal; ring. Qed.

Lemma cadd_c1 (v : F * F) : cadd c1 v = (f1 + fst v, snd v).
Proof. unfold cadd, c1. cbn [fst snd]. f_equal; ring. Qed.
Lemma csub_c1 (v : F * F) : csub c1 v = (f1 - fst v, - snd v).
Proof. unfold csub, c1. cbn [fst snd]. f_equal; ring. Qed.

Lemma s11_values (z : F * F) : cadd z (creal PORT_Z) <> c0 ->
  resistance (s11_of PORT_Z z) = vna_fabsf (fst z) /\ reactance (s11_of PORT_Z z) = snd z.
Proof.
  intros Hw. pose proof PORT_Z_neq. pose proof two_neq.
  assert (E : csub c1 (s11_of PORT_Z z) = cdiv (creal ((f1 + f1) * PORT_Z)) (cadd z (creal PORT_Z))).
  { rewrite creal_mul, creal_two. unfold s11_of. field. exact Hw. }
  destruct (extract (f1 + f1) PORT_Z _ (mul_neq _ _ two_neq PORT_Z_neq) Hw) as [Ea Eb].
  rewrite <- E in Ea, Eb. rewrite csub_c1 in Ea, Eb. cbn [fst snd] in Ea, Eb.
  unfold resistance, reactance, get_s11_r, get_s11_x. rewrite of_Z_2, of_Z_m2.
  rewrite Ea, Eb. cbn [fst snd cadd creal]. split; [f_equal|]; ring.
Qed.

Lemma cadd_comm (a b : F * F) : cadd a b = cadd b a.
Proof. ring. Qed.

Lemma s11_admittance (z : F * F) : cadd z (creal PORT_Z) <> c0 -> z <> c0 ->
  conductance (s11_of PORT_Z z) = vna_fabsf (fst (cinv z)) /\ susceptance (s11_of PORT_Z z) = snd (cinv z).
Proof.
  intros Hw Hz. pose proof PORT_Z_neq as Hp. pose proof two_neq.
  set (y0 := f1 / PORT_Z : F).
  assert (Hy0 : y0 <> f0).
  { intros E. apply ea_f0_f1. transitivity (y0 * PORT_Z); [rewrite E; ring|subst y0; field; exact Hp]. }
  pose proof (creal_div f1 _ Hp) as Ey. change (creal f1) with (c1 : F * F) in Ey. fold y0 in Ey.
  assert (Hw' : cadd (cinv z) (creal y0) <> c0).
  { intros E. apply Hw. rewrite Ey in E. transitivity (cmul (cmul z (creal PORT_Z)) (cadd (cinv z) (cdiv c1 (creal PORT_Z)))).
    - field. split; [|exact Hz]. apply creal_neq, Hp.
    - rewrite E. ring. }
  assert (E : cadd c1 (s11_of PORT_Z z) = cdiv (creal ((f1 + f1) * y0)) (cadd (cinv z) (creal y0))).
  { rewrite creal_mul, creal_two, Ey. unfold s11_of. field. 
    rewrite cadd_comm in Hw. auto using creal_neq. }
  destruct (extract (f1 + f1) y0 _ (mul_neq _ _ two_neq Hy0) Hw') as [Ea Eb].
  rewrite <- E in Ea, Eb. rewrite cadd_c1 in Ea, Eb. cbn [fst snd] in Ea, Eb.
  unfold conductance, susceptance, get_s11_r, get_s11_x. fold y0. rewrite of_Z_2, of_Z_m2, Ea, Eb.
  cbn [fst snd cadd creal]. split; [f_equal|]; ring.
Qed.

Lemma s21_extract (z0 : F) (z v : F * F) : z0 <> f0 -> cadd z (creal z0) <> c0 ->
  v = cdiv (creal z0) (cadd z (creal z0)) ->
  get_s21_r (fst v) (snd v) z0 = fst z /\ get_s21_x (fst v) (snd v) z0 = snd z.
Proof.
  intros Hz Hw ->. destruct (extract f1 z0 (cadd z (creal z0))) as [Ea Eb]; [|exact Hw|].
  { intros E. apply Hz. transitivity (f1 * z0); [ring|exact E]. }
  replace (f1 * z0) with z0 in Ea, Eb by ring. unfold get_s21_r, get_s21_x.
  rewrite of_Z_m1. replace (f1 * z0) with z0 by ring.
  rewrite Ea, Eb. cbn [fst snd cadd creal]. split; ring.
Qed.

Lemma shunt_divider (t p z : F * F) : t <> c0 -> cadd z (cdiv p t) <> c0 ->
  csub c1 (cdiv (cmul t z) (cadd (cmul t z) p)) = cdiv (cdiv p t) (cadd z (cdiv p t)).
Proof.
  intros Ht Hw.
  assert (Hw' : cadd (cmul t z) p <> c0).
  { intros E. apply Hw. transitivity (cdiv (cadd (cmul t z) p) t); [by field|]. rewrite E. by field. }
  field. split; [exact Ht|]. replace (cmul z t) with (cmul t z) by ring. exact Hw'.
Qed.

Lemma s21_values (z : F * F) :
  (cadd z (creal (f_of_Z 2 * PORT_Z)) <> c0 ->
   s21series_r (s21_series_of PORT_Z z) = fst z /\ s21series_x (s21_series_of PORT_Z z) = snd z) /\
  (cadd z (creal (PORT_Z / f_of_Z 2)) <> c0 ->
   s21shunt_r (s21_shunt_of PORT_Z z) = fst z /\ s21shunt_x (s21_shunt_of PORT_Z z) = snd z).
Proof.
  pose proof PORT_Z_neq as Hp. pose proof two_neq as H2.
  unfold s21series_r, s21series_x. rewrite of_Z_2. split; intros Hw.
  - apply s21_extract; [by apply mul_neq|exact Hw|reflexivity].
  - assert (E : f_lit 5 (-1) * PORT_Z = PORT_Z / (f1 + f1) :> F) by (rewrite lit_half; field; exact H2).
    pose proof (s21_extract (PORT_Z / (f1 + f1)) z (csub c1 (s21_shunt_of PORT_Z z))) as L.
    rewrite csub_c1 in L. cbn [fst snd] in L. unfold s21shunt_r, s21shunt_x. rewrite E. apply L; [|exact Hw|].
    + intros E0. apply Hp. transitivity (PORT_Z / (f1 + f1) * (f1 + f1)); [by field|rewrite E0; ring].
    + pose proof (creal_neq _ H2). rewrite creal_div in * by exact H2. rewrite <- csub_c1. by apply shunt_divider.
Qed.

(** C20: What the analyser shows is the impedance it sees, in exact arithmetic:
    the reflection of a termination [z] reads as its resistance (magnitude) and
    reactance and, for [z] not a short, as the conductance (magnitude) and
    susceptance of 1/z; the transmission through a series impedance, and past a
    shunt impedance, reads as that impedance in the S21 modes. *)
Theorem values_read_impedance (z : F * F) :
  cadd z (creal PORT_Z) <> c0 -> cadd z (creal (f_of_Z 2 * PORT_Z)) <> c0 -> cadd z (creal (PORT_Z / f_of_Z 2)) <> c0 ->
  let r := s11_of PORT_Z z in let t := s21_series_of PORT_Z z in let u := s21_shunt_of PORT_Z z in
  (resistance r, reactance r) = (vna_fabsf (fst z), snd z) /\
  (z <> c0 -> (conductance r, susceptance r) = (vna_fabsf (fst (cinv z)), snd (cinv z))) /\
  (s21series_r t, s21series_x t) = z /\ (s21shunt_r u, s21shunt_x u) = z.
Proof.
  intros H1 H2 H3. cbv zeta. destruct (s11_values z H1) as [-> ->]. destruct (s21_values z) as [A B].
  destruct (A H2) as [-> ->], (B H3) as [-> ->]. rewrite <- surjective_pairing. repeat split.
  intros Hz. by destruct (s11_admittance z H1 Hz) as [-> ->].
Qed.
End Exact.

Lemma values_read_impedance_witness :
  resistance (s11_of (PORT_Z : Qc) (Qc_of_Z 75, Qc_of_Z 100)) = Qc_of_Z 75 /\
  s21series_x (s21_series_of (PORT_Z : Qc) (Qc_of_Z 75, Qc_of_Z 100)) = Qc_of_Z 100.
Proof.
  destruct (values_read_impedance (F := Qc) (Qc_of_Z 75, Qc_of_Z 100)) as (A & _ & C & _);
    [intros E; injection E as _ E; vm_compute in E; discriminate..|].
  split; [|exact (f_equal snd C)].
  transitivity (vna_fabsf (Qc_of_Z 75)); [exact (f_equal fst A)|]. apply Qc_is_canon. vm_compute. reflexivity.
Defined.
