(* ===== verification/Search.v ===== *)
(** * Searches along a trace (plot.c, measure.c)

    The marker searches of the plot (extremum, next extremum, zero), the pick-up
    of the nearest point, and the interpolating searches of the measure panels:
    level crossing, peak, value at a frequency between the sweep points. *)

From S2P Require Import Prelude Num VnaMath Exact Types Props Sweep Values.
From Stdlib Require Import Field SpecFloat Qcanon.
Local Open Scope Z_scope.

(** ** Marker searches (plot.c) *)

Definition MARKER_SEARCH_MAX : Z := 0.
Definition MARKER_SEARCH_MIN : Z := 1.
Definition MARKER_SEARCH_ZERO : Z := 2.
Definition MARKER_PICKUP_DISTANCE : Z := 30.

(** A plotted trace: the (x, y) of every point, y growing downwards. *)
Definition index_at (index : list (Z * Z)) (i : Z) : Z * Z := nth (Z.to_nat i) index (0, 0).
Definition _greater (x y : Z) : bool := y <? x.
Definition _lesser (x y : Z) : bool := x <? y.

(** The first point whose value no other point beats. *)
Definition extreme_index (compare : Z -> Z -> bool) (n : Z) (index : list (Z * Z)) : Z :=
  snd (for_range 1 n (fun i '(value, found) =>
    if compare value (snd (index_at index i)) then (snd (index_at index i), i) else (value, found))
    (snd (index_at index 0), 0)).

(** [for (i = from + dir; i >= 0 && i < sweep_points; i += dir)] up to the first
    point that beats its predecessor. *)
Fixpoint descend (compare : Z -> Z -> bool) (fuel : nat) (n dir i value : Z) (index : list (Z * Z)) : Z * Z :=
  match fuel with
  | O => (i, value)
  | S k =>
      if negb ((0 <=? i) && (i <? n)) then (i, value) else
      if compare value (snd (index_at index i)) then (i, value)
      else descend compare k n dir (i + dir) (snd (index_at index i)) index
  end.
(** The second loop: on to the last point before the trace turns back. *)
Fixpoint climb (compare : Z -> Z -> bool) (fuel : nat) (n dir i value found : Z) (index : list (Z * Z)) : Z :=
  match fuel with
  | O => found
  | S k =>
      if negb ((0 <=? i) && (i <? n)) then found else
      if compare (snd (index_at index i)) value then found
      else climb compare k n dir (i + dir) (snd (index_at index i)) i index
  end.

Section Marker.
Context {F : Type} `{FloatOps F} `{!FloatBits F}.
Implicit Types (s : vna F) (c : cable_t F).

Definition current_trace s : Z := _current_trace (current_props s).
Definition active_marker s : Z := _active_marker (current_props s).
Definition search_compare s : Z -> Z -> bool :=
  if _marker_search_mode (config s) =? MARKER_SEARCH_MIN then _lesser else _greater.
Definition trace_array s : list (F * F) :=
  nth (Z.to_nat (tr_channel (trace_at (current_trace s) s))) (measured s) [].

(** The point whose value is nearest to zero; infinite values are skipped. *)
Definition zero_index (n : Z) (cb : value_cb) (array : list (F * F)) : Z :=
  snd (for_range 0 n (fun i '(best, found) =>
    let v := cb i array i in
    if f_isinf v then (best, found) else
    let v := vna_fabsf v in
    if flt v best then (v, i) else (best, found)) (f_lit 1 30, 0)).

Definition marker_search c (trace_index : list (list (Z * Z))) s : vna F :=
  if (current_trace s =? TRACE_INVALID) || (active_marker s =? MARKER_INVALID) then s else
  if _marker_search_mode (config s) =? MARKER_SEARCH_ZERO then
    match get_value_cb c s (tr_type (trace_at (current_trace s) s)) with
    | None => s
    | Some cb => set_marker_index (active_marker s) (zero_index (sweep_points s) cb (trace_array s)) s
    end
  else
    let index := nth (Z.to_nat (current_trace s)) trace_index [] in
    set_marker_index (active_marker s) (extreme_index (search_compare s) (sweep_points s) index) s.

(** The next zero crossing; the fuel is the number of points. *)
Fixpoint crossing_index (fuel : nat) (n dir i : Z) (prev : F) (cb : value_cb) (array : list (F * F)) : option Z :=
  match fuel with
  | O => None
  | S k =>
      if negb ((0 <=? i) && (i <? n)) then None else
      let v := cb i array i in
      if negb (f_isinf v) && negb (f_isinf prev) && negb (Bool.eqb (flt prev f0) (flt v f0)) then
        Some (if fle (vna_fabsf v) (vna_fabsf prev) then i else i - dir)
      else crossing_index k n dir (i + dir) v cb array
  end.

Definition marker_search_dir c (trace_index : list (list (Z * Z))) (from dir : Z) s : vna F :=
  if (current_trace s =? TRACE_INVALID) || (active_marker s =? MARKER_INVALID) then s else
  let n := sweep_points s in
  let fuel := Z.to_nat n in
  if _marker_search_mode (config s) =? MARKER_SEARCH_ZERO then
    match get_value_cb c s (tr_type (trace_at (current_trace s) s)) with
    | None => s
    | Some cb =>
        match crossing_index fuel n dir (from + dir) (cb from (trace_array s) from) cb (trace_array s) with
        | None => s
        | Some i => set_marker_index (active_marker s) i s
        end
    end
  else
    let index := nth (Z.to_nat (current_trace s)) trace_index [] in
    let '(i, value) := descend (search_compare s) fuel n dir (from + dir) (snd (index_at index from)) index in
    let found := climb (search_compare s) fuel n dir i value (-1) index in
    if found <? 0 then s else set_marker_index (active_marker s) found s.

Definition distance_to_index (index : list (Z * Z)) (idx x y : Z) : Z :=
  let x := s16 (x - fst (index_at index idx)) in
  let y := s16 (y - snd (index_at index idx)) in
  x * x + y * y.
Definition search_nearest_index (x y : Z) (index : list (Z * Z)) (n : Z) : Z :=
  fst (for_range 0 n (fun i '(min_i, min_d) =>
    let d := distance_to_index index i x y in
    if min_d <=? d then (min_i, min_d) else (i, d)) (-1, MARKER_PICKUP_DISTANCE * MARKER_PICKUP_DISTANCE)).
End Marker.

(** ** Searches of the measure panels (measure.c) *)

Section Measured.
Context {F : Type} `{FloatOps F} `{!FloatBits F}.
Implicit Types (s : vna F).
Local Open Scope float_scope.

Definition match_quadratic_equation (a b c : F) : F * F :=
  let a_x_2 := f_of_Z 2 * a in
  let d := (b * b) - (f_of_Z 2 * a_x_2 * c) in
  if d <? f0 then (f0, f0) else
  let sd := vna_sqrtf d in
  ((- b + sd) / a_x_2, (- b - sd) / a_x_2).

Definition parabolic_interpolation (y1 y2 y3 x : F) : F :=
  let a := f_lit 5 (-1) * (y1 + y3) - y2 in
  let b := f_lit 5 (-1) * (y3 - y1) in
  a * x * x + b * x + y2.
Definition linear_interpolation (y1 y2 x : F) : F := y1 + (y2 - y1) * x.

Definition MEASURE_SEARCH_LEFT : Z := -1.
Definition MEASURE_SEARCH_RIGHT : Z := 1.

(** [for (; x < sweep_points; x += mode)]; [x] is a [uint16_t], so a search to
    the left leaves the range through 65535.  Returns x, y1, y2, y3. *)
Fixpoint search_level (fuel : nat) (n mode : Z) (get : Z -> F) (y : F) (result : bool) (x : Z) (y1 y2 y3 : F) :
    Z * F * F * F :=
  match fuel with
  | O => (x, y1, y2, y3)
  | S k =>
      if (n <=? x)%Z then (x, y1, y2, y3) else
      let y3 := get x in
      if negb (Bool.eqb result (fgt y3 y)) then (x, y1, y2, y3)
      else search_level k n mode get y result (u16 (x + mode)) y2 y3 y3
  end.

(** The interpolated position between the point before the crossing and the
    next one in the direction of the search, in sweep steps. *)
Definition level_offset (mode : Z) (y y1 y2 y3 : F) : F :=
  let a := f_lit 5 (-1) * (y1 + y3) - y2 in
  let b := f_lit 5 (-1) * (y3 - y1) in
  let c := y2 - y in
  let r := match_quadratic_equation a b c in
  let res := if fgt (fst r) f0 && (fst r <? f1) then fst r else snd r in
  if (mode <? 0)%Z then - res else res.

(** Returns the frequency (0 when there is no crossing), the index before the
    crossing, and the state with the marker moved there. *)
Definition measure_search_value (idx : Z) (y : F) (get : Z -> F) (mode marker_idx : Z) s : F * Z * vna F :=
  let y0 := get idx in
  let n := sweep_points s in
  let '(x, y1, y2, y3) := search_level (Z.to_nat (n + 1)) n mode get y (fgt y0 y) idx y0 y0 y0 in
  if (n <=? x)%Z then (f0, idx, s) else
  let x := u16 (x - mode) in
  let s := set_marker_index marker_idx x s in
  (f_of_Z (getFrequency x s) + f_of_Z (getFrequencyStep s) * level_offset mode y y1 y2 y3, x, s).

Definition MEASURE_SEARCH_MIN : bool := false.
Definition MEASURE_SEARCH_MAX : bool := true.
Definition _greaterf (x y : F) : bool := fgt x y.
Definition _lesserf (x y : F) : bool := flt x y.

Definition peak_index (n : Z) (compare : F -> F -> bool) (get : Z -> F) : F * Z :=
  for_range 1 n (fun i '(y2, x) => if compare (get i) y2 then (get i, i) else (y2, x)) (get 0%Z, 0%Z).

(** Returns the value of the peak and [*xp], unchanged at the ends of the sweep. *)
Definition search_peak_value (xp : Z) (get : Z -> F) (mode : bool) s : F * Z :=
  let '(y2, x) := peak_index (sweep_points s) (if mode then _greaterf else _lesserf) get in
  if (x <? 1)%Z || (sweep_points s - 1 <=? x)%Z then (y2, xp) else
  let y1 := get (x - 1)%Z in
  let y3 := get (x + 1)%Z in
  if feqb y1 y3 then (y2, x) else
  let a := f_of_Z 8 * (y1 - f_of_Z 2 * y2 + y3) in
  let b := y3 - y1 in
  (y2 - b * b / a, x).

(** The point before [f] and the position [k1] between it and the next. *)
Definition locate_frequency (f : Z) s : option (Z * F) :=
  (if (f <? frequency0 s) || (frequency1 s <? f) then None else
   let _points := sweep_points s - 1 in
   let span := u32 (frequency1 s - frequency0 s) in
   let idx := u32 (u64 (u32 (f - frequency0 s) * _points) / span) in
   if _points - 2 <? u32 (idx - 1) then None else
   let v := u64 (u64 (span * idx) + _points / 2) in
   let src_f0 := u32 (frequency0 s + v / _points) in
   let src_f1 := u32 (frequency0 s + u64 (v + span) / _points) in
   let delta := u32 (src_f1 - src_f0) in
   Some (idx, if delta =? 0 then f0 else (f_of_Z (u32 (f - src_f0)) / f_of_Z delta)%F))%Z.

Definition measure_get_value (ch f : Z) s : option (F * F) :=
  match locate_frequency f s with
  | None => None
  | Some (idx, k1) =>
      let row := nth (Z.to_nat ch) (measured s) [] in
      let p i := point_at row i in
      Some (parabolic_interpolation (fst (p (idx - 1)%Z)) (fst (p idx)) (fst (p (idx + 1)%Z)) k1,
            parabolic_interpolation (snd (p (idx - 1)%Z)) (snd (p idx)) (snd (p (idx + 1)%Z)) k1)
  end.
End Measured.

(** ** Extrema *)

Lemma extreme_index_spec compare n index :
  1 <= n -> (forall a, compare a a = false) ->
  (forall a b c, compare b a = false -> compare b c = true -> compare a c = true) ->
  (forall a b c, compare a b = true -> compare b c = true -> compare a c = true) ->
  let y j := snd (index_at index j) in
  let k := extreme_index compare n index in
  0 <= k < n /\ (forall j, 0 <= j < n -> compare (y k) (y j) = false) /\
  (forall j, 0 <= j < k -> compare (y j) (y k) = true).
Proof.
  intros Hn Hirr Hneg Htr y k. subst k. unfold extreme_index.
  destruct (for_range_best (fun a b => compare b a) y n Hn Hirr) as (k & E & Hk & Hall & Hfst); [eauto|].
  cbv beta delta [y] in E. rewrite E. cbn [snd]. eauto.
Qed.

(** The better of two screen positions, as the search mode has it. *)
Definition beats {F} (s : vna F) (y1 y2 : Z) : Prop :=
  if decide (_marker_search_mode (config s) = MARKER_SEARCH_MIN) then y2 < y1 else y1 < y2.

(** The search for the extremum puts the active marker, with its frequency, on
    a point of the sweep no other point lies above on the screen (below, in the
    minimum mode), and on the first such point. *)
Theorem marker_search_extremum {F} `{FloatOps F} `{!FloatBits F} (c : cable_t F) (ti : list (list (Z * Z))) (s : vna F) :
  _marker_search_mode (config s) <> MARKER_SEARCH_ZERO -> current_trace s <> TRACE_INVALID ->
  0 <= active_marker s < Z.of_nat (length (markers s)) -> 1 <= sweep_points s < 65536 ->
  let index := nth (Z.to_nat (current_trace s)) ti [] in
  let y j := snd (index_at index j) in
  exists k mk, markers (marker_search c ti s) !! Z.to_nat (active_marker s) = Some mk /\
    mk_index mk = k /\ mk_frequency mk = getFrequency k s /\ 0 <= k < sweep_points s /\
    (forall j, 0 <= j < sweep_points s -> ~ beats s (y j) (y k)) /\ (forall j, 0 <= j < k -> beats s (y k) (y j)).
Proof.
  intros Hmode Htr Hm Hn index y. unfold marker_search.
  destruct (Z.eqb_spec (current_trace s) TRACE_INVALID); [done|].
  destruct (Z.eqb_spec (active_marker s) MARKER_INVALID); [unfold MARKER_INVALID in *; lia|].
  destruct (Z.eqb_spec (_marker_search_mode (config s)) MARKER_SEARCH_ZERO); [done|]. cbn [orb]. fold index.
  set (k := extreme_index (search_compare s) (sweep_points s) index).
  assert (Hcmp : forall a b, search_compare s a b = true <-> beats s b a).
  { intros a b. unfold search_compare, beats, _lesser, _greater.
    destruct (Z.eqb_spec (_marker_search_mode (config s)) MARKER_SEARCH_MIN); case_decide; try done; lia. }
  destruct (extreme_index_spec (search_compare s) (sweep_points s) index) as (Hk & Hall & Hfst).
  { lia. }
  { intros a. apply not_true_is_false. rewrite Hcmp. unfold beats. case_decide; lia. }
  { intros a b c0 Hn1 Hc. apply not_true_iff_false in Hn1. rewrite Hcmp in *. unfold beats in *. case_decide; lia. }
  { intros a b c0. rewrite !Hcmp. unfold beats. case_decide; lia. }
  fold k in Hk, Hall, Hfst. destruct (set_marker_index_spec (active_marker s) k s Hm) as [_ ->].
  destruct (lookup_lt_is_Some_2 (markers s) (Z.to_nat (active_marker s)) ltac:(lia)) as [mk Hmk].
  exists k. eexists. rewrite list_lookup_alter, decide_True, Hmk by done. cbn [fmap option_map option_fmap].
  rewrite u32_small by lia. destruct (Z.leb_spec (sweep_points s) k); [lia|]. split; [reflexivity|].
  cbn [mk_index mk_frequency]. repeat split; [lia|lia| |].
  - intros j Hj Hb. apply Hcmp in Hb. pose proof (Hall j Hj). unfold y in Hb. congruence.
  - intros j Hj. apply Hcmp, Hfst, Hj.
Qed.

(** Markers at the default positions, a falling trace: the lowest point is the last. *)
Definition searching : vna Qc :=
  upd_config (set__marker_search_mode MARKER_SEARCH_MIN)
    (upd_props (fun p => set__sweep_points 5 (set__current_trace 0 (set__active_marker 0
      (set__markers [Marker true 0 0 0; Marker false 0 0 0] p)))) power_on).
Lemma marker_search_extremum_witness : exists k mk,
  markers (marker_search (Cable 0 f0 f0) [[(10, 40); (20, 70); (30, 90); (40, 20); (50, 90)]] searching) !! 0%nat = Some mk /\
  mk_index mk = k /\ mk_frequency mk = getFrequency k searching.
Proof.
  destruct (marker_search_extremum (Cable 0 f0 f0) [[(10, 40); (20, 70); (30, 90); (40, 20); (50, 90)]] searching) as (k & mk & A & B & C & _);
    [vm_compute; discriminate|vm_compute; discriminate|vm_compute; split; [discriminate|reflexivity]|
     vm_compute; split; [discriminate|reflexivity]|].
  exists k, mk. auto.
Defined.

(** ** Level crossings *)

Section Crossing.
Context {F : Type} `{FloatOps F} `{!FloatBits F}.

(** [j] is met by a search from [x]: in the sweep, and not behind [x]. *)
Definition ahead (n mode x j : Z) : Prop := 0 <= j < n /\ 0 <= mode * (j - x).

Lemma search_level_spec (n mode : Z) (get : Z -> F) (y : F) (result : bool) fuel : forall x y1 y2 y3,
  mode = 1 \/ mode = -1 -> n < 65536 -> 0 <= x < n -> (if mode =? 1 then n - x else x + 1) < Z.of_nat fuel ->
  let '(x', y1', y2', y3') := search_level fuel n mode get y result x y1 y2 y3 in
  (n <= x' /\ forall j, ahead n mode x j -> fgt (get j) y = result) \/
  (ahead n mode x x' /\ (forall j, ahead n mode x j -> 0 < mode * (x' - j) -> fgt (get j) y = result) /\
   fgt (get x') y = negb result /\ y3' = get x' /\
   if decide (x' = x) then y1' = y1 /\ y2' = y2
   else y2' = get (x' - mode) /\ y1' = if decide (x' = x + mode) then y2 else get (x' - 2 * mode)).
Proof.
  induction fuel as [|k IH]; intros x y1 y2 y3 Hm Hn Hx Hf; [destruct (_ =? _); lia|].
  cbn [search_level]. destruct (Z.leb_spec n x) as [|_]; [lia|].
  assert (Hself : forall j, ahead n mode x j -> j = x \/ ahead n mode (x + mode) j) by (unfold ahead; intros j Hj; lia).
  destruct (Bool.eqb result (fgt (get x) y)) eqn:E; cbn [negb].
  2: { right. split; [unfold ahead; lia|]. split; [unfold ahead; intros j Hj; lia|].
       apply eqb_false_iff in E. split; [by destruct result, (fgt (get x) y)|]. split; [done|]. by rewrite decide_True. }
  apply eqb_prop in E.
  destruct (decide (0 <= x + mode < n)) as [Hin|Hout].
  - rewrite u16_small by lia. specialize (IH (x + mode) y2 (get x) (get x) Hm Hn Hin).
    destruct (search_level k n mode get y result (x + mode) y2 (get x) (get x)) as [[[x' y1'] y2'] y3'].
    destruct IH as [[Ha Hb]|(Ha & Hb & Hc & Hd & He)]; [destruct (Z.eqb_spec mode 1); lia|left|right].
    + split; [exact Ha|]. intros j Hj. by destruct (Hself j Hj) as [->|]; [|apply Hb].
    + split; [unfold ahead in *; lia|]. split; [|split; [done|split; [done|]]].
      * intros j Hj Hlt. by destruct (Hself j Hj) as [->|]; [|apply Hb].
      * rewrite (decide_False (P := x' = x)) by (unfold ahead in *; lia). case_decide as E1.
        -- destruct He as [-> ->]. split; [f_equal; lia|done].
        -- destruct He as [-> ->]. split; [done|]. case_decide; [f_equal; lia|done].
  - assert (Hbig : n <= u16 (x + mode)) by (unfold u16; destruct Hm as [-> | ->]; lia).
    destruct k as [|k]; cbn [search_level]; [|destruct (Z.leb_spec n (u16 (x + mode))) as [_|]; [|lia]];
      (left; split; [exact Hbig|intros j Hj; destruct (Hself j Hj) as [->|Hj']; [done|unfold ahead in *; lia]]).
Qed.

(** C34: A search for a level, to the right or to the left, ends.  Either every
    point from the start to the end of the sweep is on the same side of the level,
    and nothing changes; or it stops at the last point [k] before the first one on
    the other side, moves the marker there, and the frequency is that of [k]
    displaced, in sweep steps, by the offset computed from the samples at
    [k - mode] (the start itself when [k] is the start), [k] and [k + mode]. *)
Theorem measure_search_value_brackets (idx : Z) (y : F) (get : Z -> F) (mode m : Z) (s : vna F) :
  mode = MEASURE_SEARCH_RIGHT \/ mode = MEASURE_SEARCH_LEFT -> 0 <= idx < sweep_points s -> sweep_points s < 65536 ->
  let n := sweep_points s in let side j := fgt (get j) y in
  let '(f, k, s') := measure_search_value idx y get mode m s in
  (f = f0 /\ k = idx /\ s' = s /\ forall j, ahead n mode idx j -> side j = side idx) \/
  (ahead n mode idx k /\ 0 <= k + mode < n /\ (forall j, ahead n mode idx j -> 0 <= mode * (k - j) -> side j = side idx) /\
   side (k + mode) = negb (side idx) /\ s' = set_marker_index m k s /\
   let before := if decide (k = idx) then idx else k - mode in
   f = fadd (f_of_Z (getFrequency k s'))
         (fmul (f_of_Z (getFrequencyStep s')) (level_offset mode y (get before) (get k) (get (k + mode))))).
Proof.
  intros Hm Hi Hn n side. unfold measure_search_value. fold (side idx) n.
  unfold MEASURE_SEARCH_LEFT, MEASURE_SEARCH_RIGHT in Hm.
  pose proof (search_level_spec n mode get y (side idx) (Z.to_nat (n + 1)) idx (get idx) (get idx) (get idx)
    Hm Hn Hi ltac:(destruct (_ =? _); lia)) as L.
  destruct (search_level _ _ _ _ _ _ _ _ _ _) as [[[x y1] y2] y3].
  destruct L as [[Hx Hall]|(Hx & Hall & Hside & -> & Hy)].
  { destruct (Z.leb_spec n x); [|lia]. left. auto. }
  assert (Hne : x <> idx) by (intros ->; fold (side idx) in Hside; by destruct (side idx)).
  destruct (Z.leb_spec n x); [unfold ahead in *; lia|]. rewrite decide_False in Hy by exact Hne.
  destruct Hy as [-> ->]. unfold ahead in Hx. rewrite u16_small by lia. right.
  assert (Hk : x - mode + mode = x) by lia. rewrite Hk.
  split; [unfold ahead; lia|]. split; [lia|]. split; [intros j Hj Hlt; apply Hall; [exact Hj|lia]|].
  split; [exact Hside|]. split; [done|]. cbv zeta.
  assert (E : (if decide (x = idx + mode) then get idx else get (x - 2 * mode)) =
    get (if decide (x - mode = idx) then idx else x - mode - mode)) by (repeat case_decide; f_equal; lia).
  by rewrite E.
Qed.
End Crossing.

(** The crossing of the level 1/2 by the samples 4, 3, 2, 1, 0. *)
Definition falling (i : Z) : Qc := Qc_of_Z (4 - i).
Definition five_points : vna Qc := upd_props (set__sweep_points 5) power_on.

Lemma measure_search_value_brackets_witness :
  let '(_, k, _) := measure_search_value 0 (f_lit 5 (-1)) falling 1 MARKER_INVALID five_points in
  0 <= k + 1 < 5 /\ fgt (falling (k + 1)) (f_lit 5 (-1)) = false.
Proof.
  pose proof (measure_search_value_brackets 0 (f_lit 5 (-1)) falling 1 MARKER_INVALID five_points
    (or_introl eq_refl) ltac:(cbn; lia) ltac:(cbn; lia)) as L.
  destruct (measure_search_value _ _ _ _ _ _) as [[f k] s'].
  destruct L as [(_ & _ & _ & L)|(_ & A & _ & B & _)]; [|split; [exact A|rewrite B; vm_compute; reflexivity]].
  specialize (L 4 ltac:(unfold ahead; cbn; lia)). vm_compute in L. discriminate.
Defined.

(** ** Peaks *)

Lemma peak_index_spec {F} `{FloatOps F} `{!FloatOrder F} (mode : bool) (n : Z) (get : Z -> F) : 1 <= n ->
  let compare := if mode then _greaterf else _lesserf in
  exists x, peak_index n compare get = (get x, x) /\ 0 <= x < n /\
    forall j, 0 <= j < n -> compare (get j) (get x) = false.
Proof.
  intros Hn compare. unfold peak_index.
  destruct (for_range_best compare get n Hn) as (k & E & Hk & Hall & _).
  - intros a. unfold compare, _greaterf, _lesserf, fgt. destruct mode; apply flt_irrefl.
  - intros a b c. unfold compare, _greaterf, _lesserf, fgt. destruct mode; [intros ? ?|]; eapply flt_trans; eauto.
  - rewrite E. eauto.
Qed.

(** ** Quadratic equations and parabolas, in exact arithmetic *)

Section Quadratic.
Context {F : Type} `{EA : ExactArith F} `{!FloatBits F}.
Add Field search_field : (ea_field (F := F)).
Local Open Scope float_scope.

Definition discriminant (a b c : F) : F := (b * b) - (f_of_Z 2 * (f_of_Z 2 * a) * c).

(** With the square root of the discriminant exact, both values are roots. *)
Lemma match_quadratic_roots (a b c : F) : a <> f0 -> flt (discriminant a b c) f0 = false ->
  let sd := vna_sqrtf (discriminant a b c) in sd * sd = discriminant a b c ->
  let '(x0, x1) := match_quadratic_equation a b c in
  a * x0 * x0 + b * x0 + c = f0 /\ a * x1 * x1 + b * x1 + c = f0.
Proof.
  intros Ha Hd sd Hsd. subst sd. unfold match_quadratic_equation. fold (discriminant a b c). rewrite Hd.
  set (sd := vna_sqrtf (discriminant a b c)) in *. clearbody sd.
  unfold discriminant in *. rewrite of_Z_2 in *. pose proof two_neq (F := F) as H2. pose proof (mul_neq _ _ H2 H2) as H4.
  assert (E : b * b = sd * sd + (f1 + f1) * ((f1 + f1) * a) * c) by (rewrite Hsd; ring).
  split.
  - transitivity ((sd * sd - b * b + (f1 + f1) * ((f1 + f1) * a) * c) / ((f1 + f1) * (f1 + f1) * a)); [field; repeat split; assumption|].
    rewrite E. field; repeat split; assumption.
  - transitivity ((sd * sd - b * b + (f1 + f1) * ((f1 + f1) * a) * c) / ((f1 + f1) * (f1 + f1) * a)); [field; repeat split; assumption|].
    rewrite E. field; repeat split; assumption.
Qed.

(** Three samples of a parabola at -1, 0, 1 determine it. *)
Lemma parabola_through (a b c x : F) :
  parabolic_interpolation (a - b + c) c (a + b + c) x = a * x * x + b * x + c.
Proof.
  unfold parabolic_interpolation. rewrite lit_half. field. apply two_neq.
Qed.

(** A parabola sampled along the sweep. *)
Definition quad (a b c : F) (i : F) : F := a * i * i + b * i + c.

Lemma parabola_along (a b c : F) (i : Z) (x : F) :
  parabolic_interpolation (quad a b c (f_of_Z (i - 1))) (quad a b c (f_of_Z i)) (quad a b c (f_of_Z (i + 1))) x =
  quad a b c (f_of_Z i + x).
Proof.
  unfold Z.sub. rewrite !ea_of_Z_add. change (- (1))%Z with (-1)%Z. rewrite of_Z_m1. fold (f1 : F). unfold quad.
  set (i' := f_of_Z i). pose proof (parabola_through a (f_of_Z 2 * a * i' + b) (a * i' * i' + b * i' + c) x) as P.
  rewrite of_Z_2 in P. transitivity (parabolic_interpolation
    (a - ((f1 + f1) * a * i' + b) + (a * i' * i' + b * i' + c)) (a * i' * i' + b * i' + c)
    (a + ((f1 + f1) * a * i' + b) + (a * i' * i' + b * i' + c)) x); [f_equal; ring|]. rewrite P. ring.
Qed.
End Quadratic.

(** ** Between the sweep points *)

(** The index found for a frequency, the point before and the point after. *)
Lemma locate_frequency_spec {F} `{FloatOps F} (f : Z) (s : vna F) :
  0 <= frequency0 s < frequency1 s -> frequency1 s < 2 ^ 32 -> 3 <= sweep_points s <= SWEEP_POINTS_MAX ->
  0 <= f < 2 ^ 32 ->
  let n := sweep_points s - 1 in
  let idx := (f - frequency0 s) * n / (frequency1 s - frequency0 s) in
  let p0 := ideal_frequency (frequency0 s) (frequency1 s) n idx in
  let p1 := ideal_frequency (frequency0 s) (frequency1 s) n (idx + 1) in
  match locate_frequency f s with
  | None => f < frequency0 s \/ frequency1 s < f \/ idx = 0 \/ n <= idx
  | Some (i, k1) => i = idx /\ 1 <= idx <= n - 1 /\ p0 <= f <= p1 /\
      k1 = if decide (p0 = p1) then f0 else fdiv (f_of_Z (f - p0)) (f_of_Z (p1 - p0))
  end.
Proof.
  intros H0 H1 Hn Hf n idx p0 p1. unfold SWEEP_POINTS_MAX in Hn. unfold locate_frequency.
  destruct (Z.ltb_spec f (frequency0 s)), (Z.ltb_spec (frequency1 s) f); cbn [orb]; try tauto.
  fold n. set (span := frequency1 s - frequency0 s) in *. set (g := f - frequency0 s) in *.
  assert (Hg : 0 <= g <= span) by (subst g span; lia). assert (Hsp : 0 < span < 2 ^ 32) by (subst span; lia).
  rewrite (u32_small span), (u32_small g) by lia. rewrite (u64_small (g * n)) by nia.
  assert (Hi : 0 <= idx <= n).
  { subst idx. split; [apply Z.div_pos; nia|]. apply Z.div_le_upper_bound; nia. }
  fold idx. rewrite (u32_small idx) by lia.
  destruct (Z.eqb_spec idx 0) as [E0|].
  { rewrite E0. change (u32 (0 - 1)) with 4294967295. destruct (Z.ltb_spec (n - 2) 4294967295); [tauto|lia]. }
  rewrite (u32_small (idx - 1)) by lia. destruct (Z.ltb_spec (n - 2) (idx - 1)); [right; right; lia|].
  rewrite (u64_small (span * idx)), (u64_small (span * idx + _)), (u64_small (_ + span)) by nia.
  replace (span * idx + n / 2 + span) with (span * (idx + 1) + n / 2) by lia.
  pose proof (ideal_frequency_bounds (frequency0 s) (frequency1 s) n idx ltac:(lia) ltac:(lia) ltac:(lia)) as B0.
  pose proof (ideal_frequency_bounds (frequency0 s) (frequency1 s) n (idx + 1) ltac:(lia) ltac:(lia) ltac:(lia)) as B1.
  unfold ideal_frequency in B0, B1, p0, p1. fold span in B0, B1, p0, p1. fold p0 in B0. fold p1 in B1.
  fold p0 p1. rewrite (u32_small p0), (u32_small p1) by lia.
  assert (Hle : p0 <= f <= p1).
  { subst p0 p1. pose proof (Z.div_mod (g * n) span ltac:(lia)) as Ed. pose proof (Z.mod_pos_bound (g * n) span ltac:(lia)) as Em.
    fold idx in Ed. replace f with (frequency0 s + g) by (subst g; lia). split.
    - apply Z.add_le_mono_l. enough ((span * idx + n / 2) / n < g + 1) by lia. apply Z.div_lt_upper_bound; [lia|]. nia.
    - apply Z.add_le_mono_l. apply Z.div_le_lower_bound; [lia|]. nia. }
  rewrite (u32_small (p1 - p0)), (u32_small (f - p0)) by lia.
  split; [done|]. split; [lia|]. split; [exact Hle|].
  destruct (Z.eqb_spec (p1 - p0) 0); case_decide; try done; lia.
Qed.

(** The index tells on which side of the sweep the frequency is. *)
Lemma index_inside {F} (f : Z) (s : vna F) n : 0 <= frequency0 s < frequency1 s ->
  let idx := (f - frequency0 s) * n / (frequency1 s - frequency0 s) in
  (0 < n -> 1 <= idx <= n - 1 -> frequency0 s <= f < frequency1 s) /\ (0 < n -> n <= idx -> frequency1 s <= f).
Proof.
  intros H0 idx. set (w := frequency1 s - frequency0 s) in *. assert (Hw : 0 < w) by (subst w; lia).
  pose proof (Z.div_mod ((f - frequency0 s) * n) w ltac:(lia)) as E. pose proof (Z.mod_pos_bound ((f - frequency0 s) * n) w Hw) as Hm.
  fold idx in E. set (r := _ mod w) in *. clearbody r idx. subst w. split; intros Hn Hi; nia.
Qed.

(** C36: The value at a frequency between the sweep points, for a start below the stop:
    outside the sweep, in its first interval and at its stop frequency there is
    none; everywhere else there is one, only swept points are read for it, the
    frequency lies between two neighbouring points (no difference wraps), and when
    the samples lie along a parabola the value is that of the parabola itself, in
    exact arithmetic. *)
Theorem measure_get_value_exact {F} `{EA : ExactArith F} `{!FloatBits F} (ch f : Z) (s : vna F) (a b c a' b' c' : F) :
  0 <= frequency0 s < frequency1 s -> frequency1 s < 2 ^ 32 -> 3 <= sweep_points s <= SWEEP_POINTS_MAX ->
  0 <= f < 2 ^ 32 ->
  (forall i, 0 <= i < sweep_points s ->
     point_at (nth (Z.to_nat ch) (measured s) []) i = (quad a b c (f_of_Z i), quad a' b' c' (f_of_Z i))) ->
  let n := sweep_points s - 1 in
  let idx := (f - frequency0 s) * n / (frequency1 s - frequency0 s) in
  let p0 := ideal_frequency (frequency0 s) (frequency1 s) n idx in
  let p1 := ideal_frequency (frequency0 s) (frequency1 s) n (idx + 1) in
  match measure_get_value ch f s with
  | None => f < frequency0 s \/ frequency1 s <= f \/ idx = 0
  | Some v => frequency0 s <= f < frequency1 s /\ 1 <= idx <= n - 1 /\ p0 <= f <= p1 /\
      let k1 := if decide (p0 = p1) then f0 else fdiv (f_of_Z (f - p0)) (f_of_Z (p1 - p0)) in
      v = (quad a b c (fadd (f_of_Z idx) k1), quad a' b' c' (fadd (f_of_Z idx) k1))
  end.
Proof.
  intros H0 H1 Hn Hf Hrow n idx p0 p1. unfold measure_get_value.
  pose proof (locate_frequency_spec f s H0 H1 Hn Hf) as L. cbv zeta in L. fold n idx p0 p1 in L.
  destruct (index_inside f s n H0) as [Hin Hout]. fold idx in Hin, Hout.
  destruct (locate_frequency f s) as [[i k1]|]; [|destruct L as [?|[?|[?|?]]]; auto; [lia|]; right; left; apply Hout; subst n; lia]. destruct L as (-> & Hi & Hp & ->).
  split; [apply Hin; subst n; lia|]. split; [exact Hi|]. split; [exact Hp|]. cbv zeta. rewrite !Hrow by (subst n; lia). cbn [fst snd].
  by rewrite !parabola_along.
Qed.

Definition four_steps : vna Qc :=
  upd_props (fun p => set__sweep_points 5 (set__frequency0 1000 (set__frequency1 5000 p)))
    (set_measured [map (fun i => (Qc_of_Z (i * i), Qc_of_Z i)) (seqZ 0 5)] power_on).

Lemma four_steps_row i : 0 <= i < sweep_points four_steps ->
  point_at (nth (Z.to_nat 0) (measured four_steps) []) i =
  (quad (Qc_of_Z 1) (Qc_of_Z 0) (Qc_of_Z 0) (f_of_Z i), quad (Qc_of_Z 0) (Qc_of_Z 1) (Qc_of_Z 0) (f_of_Z i)).
Proof.
  intros Hi. change (sweep_points four_steps) with 5 in Hi.
  assert (i = 0 \/ i = 1 \/ i = 2 \/ i = 3 \/ i = 4) as E by lia.
  destruct E as [->|[->|[->|[->| ->]]]]; vm_compute; reflexivity.
Qed.

Lemma measure_get_value_exact_witness :
  measure_get_value 0 2500 four_steps = Some (Qcdiv (Qc_of_Z 9) (Qc_of_Z 4), Qcdiv (Qc_of_Z 3) (Qc_of_Z 2)).
Proof.
  pose proof (measure_get_value_exact 0 2500 four_steps _ _ _ _ _ _
    ltac:(cbn; lia) ltac:(cbn; lia) ltac:(cbn; unfold SWEEP_POINTS_MAX; lia) ltac:(lia) four_steps_row) as L.
  cbv zeta in L. destruct (measure_get_value 0 2500 four_steps) as [v|]; [destruct L as (_ & _ & _ & ->)|].
  - vm_compute. reflexivity.
  - exfalso. revert L. change (frequency0 four_steps) with 1000. change (frequency1 four_steps) with 5000.
    change (sweep_points four_steps) with 5. lia.
Defined.

(** Three equidistant samples make the quadratic degenerate: at 3, 1, -1 and the
    level 0 the first root is infinite, the second is not a number, and this is
    what the search returns as offset. *)
Example collinear_samples_fail :
  level_offset (F := spec_float) 1 f0 (f_of_Z 3) (f_of_Z 1) (f_of_Z (-1)) = S754_nan.
Proof. vm_compute. reflexivity. Qed.
