(* ===== verification/Match.v ===== *)
(** * Fitting and matching (measure.c)

    The regressions through the sweep, and the L-networks that match the measured
    impedance to the port. *)

From S2P Require Import Prelude Num Cplx Exact VnaMath Types Props Sweep Values Search.
From Stdlib Require Import Field Qcanon.
Local Open Scope Z_scope.

Section Match.
Context {F : Type} `{FloatOps F} `{!FloatBits F}.
Local Open Scope float_scope.

(** ** Regressions *)

(** One turn of the loop: the sums of x, y, x^2, xy, x^2 y, x^3, x^4. *)
Record sums_t := Sums { s_x : F; s_y : F; s_xx : F; s_xy : F; s_xxy : F; s_xxx : F; s_xxxx : F }.
Definition add_sums (getx gety : Z -> F) (i : Z) (s : sums_t) : sums_t :=
  let _x := getx i in let _y := gety i in
  let _xx := _x * _x in let _xy := _x * _y in
  Sums (s_x s + _x) (s_y s + _y) (s_xx s + _xx) (s_xy s + _xy) (s_xxy s + _x * _xy) (s_xxx s + _x * _xx)
    (s_xxxx s + _xx * _xx).
Definition sums (N : Z) (getx gety : Z -> F) : sums_t :=
  for_range 0 N (add_sums getx gety) (Sums f0 f0 f0 f0 f0 f0 f0).

(** The coefficients a, b, c of a + b x + c x^2. *)
Definition parabolic_regression (N : Z) (getx gety : Z -> F) : F * F * F :=
  let s := sums N getx gety in
  let N := f_of_Z N in
  let xm := s_x s / N in let ym := s_y s / N in let xxm := s_xx s / N in
  let xxxx := s_xxxx s - s_xx s * xxm in
  let xxx := s_xxx s - s_xx s * xm in let xxy := s_xxy s - s_xx s * ym in
  let xx := s_xx s - s_x s * xm in let xy := s_xy s - s_x s * ym in
  let c := (xx * xxy - xxx * xy) / (xxxx * xx - xxx * xxx) in
  let b := (xxxx * xy - xxx * xxy) / (xxxx * xx - xxx * xxx) in
  (ym - b * xm - c * xxm, b, c).

Definition linear_regression (N : Z) (getx gety : Z -> F) : F * F :=
  let s := sums N getx gety in
  let N := f_of_Z N in
  let xm := s_x s / N in let ym := s_y s / N in
  let b := (s_xy s - s_x s * ym) / (s_xx s - s_x s * xm) in
  (ym - b * xm, b).

(** ** L/C matching *)

(** Reactances: parallel to the source, in series, parallel to the load; 0 where
    the element is absent. *)
Record t_lc_match := Lc_match { xps : F; xs : F; xpl : F }.

Definition lc_match_calc_hi (R0 RL XL : F) : t_lc_match * t_lc_match :=
  let a := R0 - RL in
  let b := f_of_Z 2 * XL * R0 in
  let c := R0 * (XL * XL + RL * RL) in
  let '(xp0, xp1) := match_quadratic_equation a b c in
  let element xp :=
    let XL1 := XL + xp in
    Lc_match f0 (xp * xp * XL1 / (RL * RL + XL1 * XL1) - xp) xp in
  (element xp0, element xp1).

Definition lc_match_calc_lo (R0 RL XL : F) : t_lc_match * t_lc_match :=
  let b := f_of_Z 2 * XL in
  let c := RL * RL + XL * XL - R0 * RL in
  let '(xs0, xs1) := match_quadratic_equation f1 b c in
  let element xs :=
    let XL1 := XL + xs in
    let RL1 := RL - R0 in
    Lc_match (- R0 * R0 * XL1 / (RL1 * RL1 + XL1 * XL1)) xs f0 in
  (element xs0, element xs1).

(** The result is -1, or the number of solutions with the solutions. *)
Definition lc_match_of (R0 RL XL vswr : F) : Z * list t_lc_match :=
  if fle RL (f_lit 5 (-1)) then ((-1)%Z, []) else
  let q_factor := XL / RL in
  if fle vswr (f_lit 11 (-1)) || fge q_factor (f_of_Z 100) then (0%Z, []) else
  if fgt (RL * f_lit 11 (-1)) R0 && flt RL (R0 * f_lit 11 (-1)) then (1%Z, [Lc_match f0 (- XL) f0]) else
  let hi := if fge RL R0 || fgt (RL * RL + XL * XL) (R0 * RL) then
      let '(m0, m1) := lc_match_calc_hi R0 RL XL in [m0; m1] else [] in
  if fge RL R0 then (2%Z, hi) else
  let '(m0, m1) := lc_match_calc_lo R0 RL XL in
  (Z.of_nat (length hi) + 2, hi ++ [m0; m1])%Z.

Definition lc_match_calc (index : Z) (s : vna F) : Z * list t_lc_match :=
  let coeff := point_at (nth 0 (measured s) []) index in
  lc_match_of PORT_Z (resistance coeff) (reactance coeff) (swr coeff).

(** [lc_match_array]: frequency, reference and solutions. *)
Record lc_match_array_t := Lc_match_array { lc_Hz : Z; lc_R0 : F; lc_matches : list t_lc_match; lc_num_matches : Z }.
Definition prepare_lc_match (s : vna F) (m : lc_match_array_t) : lc_match_array_t :=
  let freq := get_marker_frequency (active_marker s) s in
  if (freq =? 0)%Z then m else
  let '(n, l) := lc_match_calc (mk_index (marker_at (active_marker s) s)) s in
  Lc_match_array freq PORT_Z l n.
End Match.
Arguments sums_t : clear implicits.
Arguments t_lc_match : clear implicits.
Arguments lc_match_array_t : clear implicits.

(** ** The regression recovers a parabola *)

Section Regression.
Context {F : Type} `{EA : ExactArith F} `{!FloatBits F}.
Add Field match_field : (ea_field (F := F)).
Local Open Scope float_scope.

(** The determinant of the normal equations, reduced by the first row. *)
Definition normal_det (N : F) (s : sums_t F) : F :=
  (s_xxxx s - s_xx s * (s_xx s / N)) * (s_xx s - s_x s * (s_x s / N))
  - (s_xxx s - s_xx s * (s_x s / N)) * (s_xxx s - s_xx s * (s_x s / N)).

Lemma sums_parabola (N : Z) (getx gety : Z -> F) (a b c : F) : (0 <= N)%Z ->
  (forall i, (0 <= i < N)%Z -> gety i = a + b * getx i + c * (getx i * getx i)) ->
  let s := sums N getx gety in
  s_y s = a * f_of_Z N + b * s_x s + c * s_xx s /\
  s_xy s = a * s_x s + b * s_xx s + c * s_xxx s /\
  s_xxy s = a * s_xx s + b * s_xxx s + c * s_xxxx s.
Proof.
  intros HN Hy. unfold sums.
  apply (for_range_ind (fun i s =>
    s_y s = a * f_of_Z i + b * s_x s + c * s_xx s /\ s_xy s = a * s_x s + b * s_xx s + c * s_xxx s /\
    s_xxy s = a * s_xx s + b * s_xxx s + c * s_xxxx s)); [exact HN| |].
  - cbn. fold (f0 : F). repeat split; ring.
  - intros i s Hi (E5 & E6 & E7). unfold add_sums. cbn.
    rewrite E5, E6, E7, Hy, ea_of_Z_add by exact Hi. fold (f1 : F). repeat split; ring.
Qed.

(** The parabolic regression is exact: samples that lie on a parabola give its
    coefficients back (in exact arithmetic), for any abscissas whose normal
    equations are regular. *)
Theorem parabolic_regression_exact (N : Z) (getx gety : Z -> F) (a b c : F) :
  (0 < N)%Z -> normal_det (f_of_Z N) (sums N getx gety) <> f0 ->
  (forall i, (0 <= i < N)%Z -> gety i = a + b * getx i + c * (getx i * getx i)) ->
  parabolic_regression N getx gety = (a, b, c).
Proof.
  intros HN Hdet Hy. assert (HN' : f_of_Z N <> (f0 : F)) by (apply of_Z_neq; lia).
  destruct (sums_parabola N getx gety a b c ltac:(lia) Hy) as (E1 & E2 & E3).
  unfold parabolic_regression. unfold normal_det in Hdet. rewrite E1, E2, E3.
  clear -HN' Hdet EA. destruct (sums N getx gety) as [x _y xx _xy _xxy xxx xxxx]. cbn [s_x s_y s_xx s_xy s_xxy s_xxx s_xxxx] in *.
  clear _y _xy _xxy. set (n := f_of_Z N : F) in *. clearbody n.
  set (p := xx - x * (x / n)) in *. set (q := xxx - xx * (x / n)) in *. set (r := xxxx - xx * (xx / n)) in *.
  replace (a * x + b * xx + c * xxx - x * ((a * n + b * x + c * xx) / n)) with (b * p + c * q) by (subst p q; field; exact HN').
  replace (a * xx + b * xxx + c * xxxx - xx * ((a * n + b * x + c * xx) / n)) with (b * q + c * r) by (subst q r; field; exact HN').
  replace ((p * (b * q + c * r) - q * (b * p + c * q)) / (r * p - q * q)) with c by (field; exact Hdet).
  replace ((r * (b * p + c * q) - q * (b * q + c * r)) / (r * p - q * q)) with b by (field; exact Hdet).
  f_equal. f_equal. field. exact HN'.
Qed.
End Regression.

Lemma parabolic_regression_exact_witness :
  parabolic_regression 4 Qc_of_Z (fun i => Qc_of_Z (2 + 3 * i + i * i)) = (Qc_of_Z 2, Qc_of_Z 3, Qc_of_Z 1).
Proof.
  apply parabolic_regression_exact; [lia|intros E; vm_compute in E; discriminate|].
  intros i Hi. assert (i = 0 \/ i = 1 \/ i = 2 \/ i = 3) as E by lia.
  destruct E as [->|[->|[->| ->]]]; apply Qc_is_canon; vm_compute; reflexivity.
Defined.

(** ** The networks match *)

Section Network.
Context {F : Type} `{EO : ExactOrder F} `{!FloatBits F}.
Add Field network_field : (ea_field (F := F)).
Local Open Scope float_scope.

(** An impedance with a reactance in parallel, in series; 0 is an absent element. *)
Definition with_parallel (x : F) (z : F * F) : F * F :=
  if feqb x f0 then z else cdiv (cmul z (f0, x)) (cadd z (f0, x)).
Definition with_series (x : F) (z : F * F) : F * F := cadd z (f0, x).
(** What the source sees. *)
Definition network (m : t_lc_match F) (z : F * F) : F * F :=
  with_parallel (xps m) (with_series (xs m) (with_parallel (xpl m) z)).

Lemma with_parallel_value (x : F) (z : F * F) : x <> f0 -> fst z <> f0 ->
  let d := fst z * fst z + (snd z + x) * (snd z + x) in
  with_parallel x z = (fst z * (x * x) / d, x * (fst z * fst z + snd z * (snd z + x)) / d) /\ d <> f0.
Proof.
  intros Hx Hz d. assert (Hd : d <> f0) by (intros E; apply ea_sumsq in E as [E _]; auto).
  split; [|exact Hd]. unfold with_parallel. destruct (feqb x f0) eqn:E; [by apply ea_feqb in E|].
  subst d. unfold cdiv, cmul, cadd, cnorm. cbn [fst snd].
  assert (Hd' : (fst z + f0) * (fst z + f0) + (snd z + x) * (snd z + x) <> f0)
    by (replace (fst z + f0) with (fst z) by ring; exact Hd).
  f_equal; field; repeat split; assumption.
Qed.

Lemma hi_matches (R0 RL XL xp : F) : R0 <> f0 -> RL <> f0 ->
  (R0 - RL) * xp * xp + f_of_Z 2 * XL * R0 * xp + R0 * (XL * XL + RL * RL) = f0 ->
  network (Lc_match f0 (xp * xp * (XL + xp) / (RL * RL + (XL + xp) * (XL + xp)) - xp) xp) (RL, XL) = (R0, f0).
Proof.
  intros HR0 HRL E. rewrite of_Z_2 in E.
  assert (Hxp : xp <> f0).
  { intros ->. assert (E0 : R0 * (XL * XL + RL * RL) = f0) by (rewrite <- E; ring).
    apply ea_mul_zero in E0 as [E0|E0]; [done|]. apply ea_sumsq in E0 as [_ E0]. done. }
  destruct (with_parallel_value xp (RL, XL) Hxp HRL) as [Ev Hd]. cbn [fst snd] in Ev, Hd.
  unfold network. cbn [xps xs xpl]. rewrite Ev.
  unfold with_parallel. rewrite (proj2 (ea_feqb (f0 : F) f0) eq_refl). unfold with_series, cadd. cbn [fst snd].
  assert (Er : RL * (xp * xp) = R0 * (RL * RL + (XL + xp) * (XL + xp))).
  { transitivity (RL * (xp * xp) + ((R0 - RL) * xp * xp + (f1 + f1) * XL * R0 * xp + R0 * (XL * XL + RL * RL)));
      [rewrite E; ring|ring]. }
  rewrite Er. f_equal; field; exact Hd.
Qed.

Lemma lo_matches (R0 RL XL xs : F) : R0 <> f0 -> RL <> f0 -> R0 <> RL ->
  f1 * xs * xs + f_of_Z 2 * XL * xs + (RL * RL + XL * XL - R0 * RL) = f0 ->
  network (Lc_match (- R0 * R0 * (XL + xs) / ((RL - R0) * (RL - R0) + (XL + xs) * (XL + xs))) xs f0) (RL, XL) = (R0, f0).
Proof.
  intros HR0 HRL Hne E. rewrite of_Z_2 in E. set (X1 := XL + xs).
  set (u := R0 - RL). assert (Hu : u <> f0).
  { intros E0. apply Hne. transitivity (u + RL); [subst u; ring|]. rewrite E0. ring. }
  assert (EX : X1 * X1 = RL * u).
  { transitivity (X1 * X1 - (f1 * xs * xs + (f1 + f1) * XL * xs + (RL * RL + XL * XL - R0 * RL))); [rewrite E; ring|].
    subst X1 u. ring. }
  assert (ER : R0 = u + RL) by (subst u; ring).
  assert (Ex : - R0 * R0 * X1 / ((RL - R0) * (RL - R0) + X1 * X1) = - R0 * X1 / u).
  { replace ((RL - R0) * (RL - R0) + X1 * X1) with (R0 * u) by (rewrite EX, ER; ring). field. auto. }
  rewrite Ex. clear Ex. set (x := - R0 * X1 / u).
  assert (HX1 : X1 <> f0) by (intros E0; apply (mul_neq RL u HRL Hu); rewrite <- EX, E0; ring).
  assert (Hx : x <> f0).
  { intros E0. apply (mul_neq R0 X1 HR0 HX1). transitivity (- (x * u)); [subst x; field; exact Hu|rewrite E0; ring]. }
  destruct (with_parallel_value x (RL, X1) Hx HRL) as [Ev Hd]. cbn [fst snd] in Ev, Hd.
  assert (Exx : x * x = R0 * R0 * RL / u).
  { transitivity (R0 * R0 * (X1 * X1) / (u * u)); [subst x; field; exact Hu|]. rewrite EX. field. exact Hu. }
  assert (Es : X1 * (X1 + x) = - (RL * RL)).
  { transitivity (X1 * X1 - R0 * (X1 * X1) / u); [subst x; field; exact Hu|]. rewrite EX, ER. field. exact Hu. }
  assert (Ed : RL * RL + (X1 + x) * (X1 + x) = RL * RL * R0 / u).
  { transitivity (RL * RL + X1 * (X1 + x) + (X1 * x + x * x)); [ring|]. rewrite Es, Exx.
    replace (X1 * x) with (- R0 * (X1 * X1) / u) by (subst x; field; exact Hu). rewrite EX, ER. field. exact Hu. }
  unfold network. cbn [Match.xps Match.xs xpl]. unfold with_parallel at 2. rewrite (proj2 (ea_feqb (f0 : F) f0) eq_refl).
  unfold with_series, cadd. cbn [fst snd]. replace (RL + f0) with RL by ring. fold X1. rewrite Ev, Ed, Exx, Es.
  f_equal; field; auto.
Qed.

(** ** The solutions of lc_match_calc *)

Definition exact_root (d : F) : Prop := flt d f0 = false -> vna_sqrtf d * vna_sqrtf d = d.
Definition disc_hi (R0 RL XL : F) : F := discriminant (R0 - RL) (f_of_Z 2 * XL * R0) (R0 * (XL * XL + RL * RL)).
Definition disc_lo (R0 RL XL : F) : F := discriminant f1 (f_of_Z 2 * XL) (RL * RL + XL * XL - R0 * RL).

Lemma pos_four : pos ((f1 + f1) * (f1 + f1) : F).
Proof. apply pos_mul; apply pos_add; apply pos_one. Qed.

Lemma disc_hi_nonneg (R0 RL XL : F) : pos R0 -> pos RL ->
  fge RL R0 || fgt (RL * RL + XL * XL) (R0 * RL) = true -> flt (disc_hi R0 RL XL) f0 = false.
Proof.
  intros HR0 HRL Hg. unfold disc_hi, discriminant. rewrite of_Z_2.
  replace (_ - _) with ((f1 + f1) * (f1 + f1) * (R0 * RL) * (RL * RL + XL * XL - R0 * RL)) by ring.
  apply nonneg_mul; [apply pos_nonneg, pos_mul; [apply pos_four|by apply pos_mul]|].
  apply orb_true_iff in Hg as [Hg|Hg]; [|apply pos_nonneg; exact (proj1 (flt_sub _ _) Hg)].
  replace (RL * RL + XL * XL - R0 * RL) with (RL * (RL - R0) + XL * XL) by ring.
  assert (H1 : nonneg (RL * (RL - R0))).
  { apply nonneg_mul; [by apply pos_nonneg|]. apply (proj1 (flt_sub_false _ _)). apply orb_true_iff in Hg as [Hg|Hg].
    - apply flt_asym. exact Hg.
    - apply ea_feqb in Hg as ->. apply flt_irrefl. }
  destruct (nonneg_cases _ H1) as [->|H2]; [|apply pos_nonneg, pos_add_nonneg; [done|apply nonneg_square]].
  replace (f0 + XL * XL) with (XL * XL) by ring. apply nonneg_square.
Qed.

Lemma disc_lo_nonneg (R0 RL XL : F) : pos RL -> flt RL R0 = true -> flt (disc_lo R0 RL XL) f0 = false.
Proof.
  intros HRL Hlt. unfold disc_lo, discriminant. rewrite of_Z_2.
  replace (_ - _) with ((f1 + f1) * (f1 + f1) * (RL * (R0 - RL))) by ring.
  apply pos_nonneg, pos_mul; [apply pos_four|]. apply pos_mul; [done|]. exact (proj1 (flt_sub _ _) Hlt).
Qed.

Lemma near_lit : pos (f_lit 11 (-1) - f1 : F).
Proof.
  rewrite (lit_div 11 1 ltac:(lia)). change (10 ^ 1)%Z with 10%Z.
  assert (H10 : f_of_Z 10 <> (f0 : F)) by (apply of_Z_neq; lia).
  replace (f_of_Z 11 / f_of_Z 10 - f1 : F) with (f1 / f_of_Z 10 : F); [apply pos_div; by apply pos_of_Z|].
  change 11%Z with (10 + 1)%Z. rewrite ea_of_Z_add. fold (f1 : F). field. exact H10.
Qed.

(** The series reactance alone is tried first, so later branches have [RL <> R0]. *)
Lemma guard_distinct (R0 RL : F) : pos R0 ->
  fgt (RL * f_lit 11 (-1)) R0 && flt RL (R0 * f_lit 11 (-1)) = false -> RL <> R0.
Proof.
  intros HR0 Hg ->. assert (E : flt R0 (R0 * f_lit 11 (-1)) = true).
  { apply flt_sub. replace (R0 * f_lit 11 (-1) - R0) with (R0 * (f_lit 11 (-1) - f1)) by ring.
    apply pos_mul; [done|]. apply near_lit. }
  unfold fgt in Hg. rewrite E in Hg. discriminate.
Qed.

Lemma hi_pair_matches (R0 RL XL : F) (m : t_lc_match F) : R0 <> f0 -> RL <> f0 -> RL <> R0 ->
  flt (disc_hi R0 RL XL) f0 = false -> exact_root (disc_hi R0 RL XL) ->
  let '(m0, m1) := lc_match_calc_hi R0 RL XL in m = m0 \/ m = m1 -> network m (RL, XL) = (R0, f0).
Proof.
  intros HR0 HRL Hne Hd Hr. unfold lc_match_calc_hi.
  pose proof (match_quadratic_roots (R0 - RL) (f_of_Z 2 * XL * R0) (R0 * (XL * XL + RL * RL))) as L.
  destruct (match_quadratic_equation _ _ _) as [x0 x1].
  destruct L as [L0 L1]; [|exact Hd|exact (Hr Hd)|].
  { intros E. apply Hne. transitivity (RL + (R0 - RL)); [rewrite E; ring|ring]. }
  intros [->| ->]; by apply hi_matches.
Qed.

Lemma lo_pair_matches (R0 RL XL : F) (m : t_lc_match F) : R0 <> f0 -> RL <> f0 -> RL <> R0 ->
  flt (disc_lo R0 RL XL) f0 = false -> exact_root (disc_lo R0 RL XL) ->
  let '(m0, m1) := lc_match_calc_lo R0 RL XL in m = m0 \/ m = m1 -> network m (RL, XL) = (R0, f0).
Proof.
  intros HR0 HRL Hne Hd Hr. unfold lc_match_calc_lo.
  pose proof (match_quadratic_roots f1 (f_of_Z 2 * XL) (RL * RL + XL * XL - R0 * RL)) as L.
  destruct (match_quadratic_equation _ _ _) as [x0 x1].
  destruct L as [L0 L1]; [|exact Hd|exact (Hr Hd)|].
  { intros E. symmetry in E. by apply ea_f0_f1. }
  intros [->| ->]; apply lo_matches; auto.
Qed.

(** C11: L/C matching: with the square roots exact, every solution given for a load
    that needs a network (two or four of them) makes the source see the reference
    resistance exactly; the single solution given for a resistance within ten per
    cent of the reference cancels the reactance; and -1 or 0 comes with no
    solution. *)
Theorem lc_match_matches (R0 RL XL vswr : F) :
  pos R0 -> exact_root (disc_hi R0 RL XL) -> exact_root (disc_lo R0 RL XL) ->
  let '(n, l) := lc_match_of R0 RL XL vswr in
  (n = (-1)%Z /\ l = [] \/ n = Z.of_nat (length l)) /\
  forall m, In m l -> network m (RL, XL) = (if (n =? 1)%Z then RL else R0, f0).
Proof.
  intros HR0 Hhi Hlo. unfold lc_match_of. pose proof (pos_neq _ HR0) as HR0'.
  destruct (fle RL (f_lit 5 (-1))) eqn:E5; [cbn; tauto|].
  destruct (fle vswr _ || fge _ _); [cbn; tauto|].
  assert (HRL : pos RL).
  { apply orb_false_iff in E5 as [E5 _]. unfold pos. destruct (flt f0 RL) eqn:E; [done|]. rewrite <- E5.
    apply (flt_lt_false _ _ _ E). exact (pos_lit 5 1 ltac:(lia) ltac:(lia)). }
  pose proof (pos_neq _ HRL) as HRL'.
  destruct (fgt (RL * _) R0 && _) eqn:En.
  { cbn. split; [tauto|]. intros m [<-|[]]. unfold network, with_series, with_parallel, cadd. cbn [xps xs xpl fst snd].
    rewrite (proj2 (ea_feqb (f0 : F) f0) eq_refl). cbn [fst snd]. f_equal; ring. }
  pose proof (guard_distinct R0 RL HR0 En) as Hne.
  pose proof (fun m => hi_pair_matches R0 RL XL m HR0' HRL' Hne) as Ph.
  pose proof (fun m => lo_pair_matches R0 RL XL m HR0' HRL' Hne) as Pl.
  destruct (lc_match_calc_hi R0 RL XL) as [h0 h1], (lc_match_calc_lo R0 RL XL) as [l0 l1].
  assert (Hh : fge RL R0 || fgt (RL * RL + XL * XL) (R0 * RL) = true ->
    forall m, m = h0 \/ m = h1 -> network m (RL, XL) = (R0, f0)).
  { intros Eg m Hm. by apply Ph; [apply disc_hi_nonneg|..]. }
  destruct (fge RL R0) eqn:Ege.
  { cbn. split; [tauto|]. intros m Hm. apply Hh; [done|intuition congruence]. }
  assert (Hlt : flt RL R0 = true).
  { apply orb_false_iff in Ege as [Ege _]. destruct (flt RL R0) eqn:E; [done|]. by destruct Hne; apply eo_total. }
  assert (Hl : forall m, m = l0 \/ m = l1 -> network m (RL, XL) = (R0, f0)).
  { intros m Hm. by apply Pl; [apply disc_lo_nonneg|..]. }
  destruct (fgt (RL * RL + XL * XL) (R0 * RL)) eqn:Eg; cbn [orb app length]; (split; [tauto|]); intros m Hm.
  - destruct Hm as [<-|[<-|Hm]]; [apply Hh; tauto..|]. apply Hl. cbn in Hm. intuition congruence.
  - apply Hl. cbn in Hm. intuition congruence.
Qed.
End Network.

(** 25 + j75 ohm: four networks, two with the shunt element at the load and two
    with it at the source. *)
Lemma lc_match_matches_witness :
  let '(n, l) := lc_match_of (PORT_Z : Qc) (Qc_of_Z 25) (Qc_of_Z 75) (Qc_of_Z 6) in
  n = 4 /\ forall m, In m l -> network m (Qc_of_Z 25, Qc_of_Z 75) = (PORT_Z, f0).
Proof.
  pose proof (lc_match_matches (PORT_Z : Qc) (Qc_of_Z 25) (Qc_of_Z 75) (Qc_of_Z 6)) as L.
  assert (En : fst (lc_match_of (PORT_Z : Qc) (Qc_of_Z 25) (Qc_of_Z 75) (Qc_of_Z 6)) = 4) by (vm_compute; reflexivity).
  destruct (lc_match_of _ _ _ _) as [n l]. cbn [fst] in En. subst n. split; [done|].
  apply L; [vm_compute; reflexivity|intros _; apply Qc_is_canon; vm_compute; reflexivity..].
Defined.
