(* ===== verification/SwrBw.v ===== *)
(** * Bandwidth and Q of a standing wave ratio dip (vna_modules/vna_swr_bw.c)

    The dip nearest to a starting point, or the global minimum; the first
    crossings of the 2:1 and 3:1 levels on both sides; the quality factor. *)

From S2P Require Import Prelude Num Cplx Exact VnaMath Types Props Sweep Values Search.
From Stdlib Require Import Field SpecFloat Qcanon.
Local Open Scope Z_scope.

Definition SWR_BW_LEVELS : Z := 2.
Definition SWR_BW_LOOKAHEAD : Z := 6.

Section SwrBw.
Context {F : Type} `{FloatOps F} `{!FloatBits F}.
Implicit Types (get freq r_at : Z -> F).

Definition swr_bw_level (i : Z) : F := if i =? 0 then f_of_Z 2 else f_of_Z 3.

Record swr_bw_result_t := Swr_bw_result {
  bw_idx : Z; bw_f0 : F; bw_swr0 : F; bw_f_lo : list F; bw_f_hi : list F; bw_q : F }.

(** The lowest sample around [idx], of those strictly lower than it. *)
Definition dip_step get (n idx : Z) : Z :=
  snd (for_range (- SWR_BW_LOOKAHEAD) (SWR_BW_LOOKAHEAD + 1) (fun d '(v, best) =>
    if d =? 0 then (v, best) else
    let j := idx + d in
    if (j <? 0) || (n <=? j) then (v, best) else
    if flt (get j) v then (get j, j) else (v, best)) (get idx, idx)).

(** [for (;;)]: None when the fuel does not suffice, which never happens. *)
Fixpoint find_dip_loop (fuel : nat) get (n idx : Z) : option Z :=
  match fuel with
  | O => None
  | S k => let best := dip_step get n idx in
           if best =? idx then Some idx else find_dip_loop k get n best
  end.
Definition swr_bw_find_dip get (n idx : Z) : Z :=
  if n <? 2 then 0 else
  let idx := if n - 1 <? idx then n - 1 else idx in
  match find_dip_loop (Z.to_nat n) get n idx with Some i => i | None => idx end.

Definition swr_bw_global_min get (n : Z) : Z :=
  snd (for_range 1 n (fun i '(vbest, best) => if flt (get i) vbest then (get i, i) else (vbest, best)) (get 0, 0)).

(** The walk to the first sample at or above the level: the index before it and
    the two samples. *)
Fixpoint cross_walk (fuel : nat) get (n idx dir : Z) (level v0 : F) : option (Z * F * F) :=
  match fuel with
  | O => None
  | S k =>
      if (if dir <? 0 then idx =? 0 else n - 1 <=? idx) then None else
      let next := u16 (idx + dir) in
      let v1 := get next in
      if fge v1 level then Some (idx, v0, v1) else cross_walk k get n next dir level v1
  end.

Local Open Scope float_scope.

Definition swr_bw_cross get freq (n idx dir : Z) (level : F) : F :=
  let v0 := get idx in
  if fge v0 level then f0 else
  match cross_walk (Z.to_nat n) get n idx dir level v0 with
  | None => f0
  | Some (idx, v0, v1) =>
      let k := if feqb v1 v0 then f0 else (level - v0) / (v1 - v0) in
      freq idx + (freq (u16 (idx + dir)) - freq idx) * k
  end.

Definition swr_bw_q (f_0 bw s r z0 : F) : F :=
  if fle bw f0 || fle r f0 then f0 else
  let g := (s - f1) / (s + f1) in let g2 := g * g in
  let x2 := (g2 * (r + z0) * (r + z0) - (r - z0) * (r - z0)) / (f1 - g2) in
  if fle x2 f0 then f0 else
  f_0 * vna_sqrtf x2 / (r * bw).

(** The first level with both crossings decides frequency and Q. *)
Fixpoint bracketed_level (levels : list Z) (f_lo f_hi : list F) (r0 z0 : F) (res : F * F) : F * F :=
  match levels with
  | [] => res
  | i :: rest =>
      let lo := nth (Z.to_nat i) f_lo f0 in let hi := nth (Z.to_nat i) f_hi f0 in
      if fneqb lo f0 && fneqb hi f0 then
        let f_0 := vna_sqrtf (lo * hi) in (f_0, swr_bw_q f_0 (hi - lo) (swr_bw_level i) r0 z0)
      else bracketed_level rest f_lo f_hi r0 z0 res
  end.

Definition swr_bw_analyse get freq r_at (n start : Z) (z0 : F) : swr_bw_result_t :=
  if (n <? 3)%Z then Swr_bw_result 0 f0 f0 [f0; f0] [f0; f0] f0 else
  let x := if (start <? 0)%Z then swr_bw_global_min get n else swr_bw_find_dip get n (u16 start) in
  let r0 := r_at x in
  let f_lo := map (fun i => swr_bw_cross get freq n x (-1) (swr_bw_level i)) (seqZ 0 SWR_BW_LEVELS) in
  let f_hi := map (fun i => swr_bw_cross get freq n x 1 (swr_bw_level i)) (seqZ 0 SWR_BW_LEVELS) in
  let '(f_0, q) := bracketed_level (seqZ 0 SWR_BW_LEVELS) f_lo f_hi r0 z0 (freq x, f0) in
  Swr_bw_result x f_0 (get x) f_lo f_hi q.

(** The panel (measure.c): values from the measured reflection. *)
Definition s11_at (s : vna F) (i : Z) : F * F := point_at (nth 0 (measured s) []) i.
Definition s11_bw_swr (s : vna F) (i : Z) : F := swr (s11_at s i).
Definition s11_bw_freq (s : vna F) (i : Z) : F := f_of_Z (getFrequency i s).
Definition s11_bw_r (s : vna F) (i : Z) : F := resistance (s11_at s i).

Definition prepare_s11_swr_bw (s : vna F) (update_mask : bool) (old : swr_bw_result_t) : swr_bw_result_t :=
  if negb update_mask then old else
  let start := if negb (active_marker s =? MARKER_INVALID)%Z then mk_index (marker_at (active_marker s) s) else (-1)%Z in
  swr_bw_analyse (s11_bw_swr s) (s11_bw_freq s) (s11_bw_r s) (sweep_points s) start PORT_Z.
End SwrBw.
Arguments swr_bw_result_t : clear implicits.

(** ** The walk to the dip ends in a local minimum *)

Section Dip.
Context {F : Type} `{FO : FloatOrder F} `{!FloatBits F}.
Variable (get : Z -> F) (n : Z).

Lemma dip_step_spec idx : 0 <= idx < n ->
  let best := dip_step get n idx in
  0 <= best < n /\ (best = idx \/ flt (get best) (get idx) = true) /\
  forall j, 0 <= j < n -> Z.abs (j - idx) <= SWR_BW_LOOKAHEAD -> flt (get j) (get best) = false.
Proof.
  intros Hi. unfold dip_step.
  set (P d (st : F * Z) := fst st = get (snd st) /\ 0 <= snd st < n /\
    (snd st = idx \/ flt (get (snd st)) (get idx) = true) /\ flt (get idx) (get (snd st)) = false /\
    forall j, 0 <= j < n -> - SWR_BW_LOOKAHEAD <= j - idx < d -> flt (get j) (get (snd st)) = false).
  match goal with |- context [for_range ?lo ?hi ?b ?z] => assert (L : P hi (for_range lo hi b z)) end.
  { apply (for_range_ind P); [done| |].
    - unfold P. cbn [fst snd]. repeat split; [lia|lia|by left|apply flt_irrefl|lia].
    - intros d [v best] Hd (E & Hb & Hlt & Hself & Hall). cbn [fst snd] in *. subst v.
      destruct (Z.eqb_spec d 0) as [->|Hd0].
      { unfold P. cbn [fst snd]. repeat split; [lia|lia|exact Hlt|exact Hself|]. intros j Hj Hjd.
        destruct (decide (j = idx)) as [->|]; [exact Hself|apply Hall; lia]. }
      destruct (Z.ltb_spec (idx + d) 0) as [Hn0|Hn0], (Z.leb_spec n (idx + d)) as [Hn1|Hn1]; cbn [orb]; try
        (unfold P; cbn [fst snd]; repeat split; [lia|lia|exact Hlt|exact Hself|intros j Hj Hjd; apply Hall; lia]).
      destruct (flt (get (idx + d)) (get best)) eqn:Ev; unfold P; cbn [fst snd].
      + assert (Hl : flt (get (idx + d)) (get idx) = true) by (destruct Hlt as [->|Hlt]; [exact Ev|by apply flt_trans with (get best)]).
        repeat split; [lia|lia|by right|by apply flt_asym|]. intros j Hj Hjd.
        destruct (decide (j = idx + d)) as [->|]; [apply flt_irrefl|].
        apply not_true_is_false. intros Hc. pose proof (flt_trans _ _ _ Hc Ev) as Hx. rewrite Hall in Hx by lia. discriminate.
      + repeat split; [lia|lia|exact Hlt|exact Hself|]. intros j Hj Hjd.
        destruct (decide (j = idx + d)) as [->|]; [exact Ev|apply Hall; lia]. }
  destruct L as (_ & Hb & Hlt & _ & Hall). split; [exact Hb|]. split; [exact Hlt|].
  intros j Hj Hd. apply Hall; [exact Hj|]. unfold SWR_BW_LOOKAHEAD in *. lia.
Qed.

(** The samples lower than the one at [idx]. *)
Definition lower (idx : Z) : list Z := filter (fun j => flt (get j) (get idx) = true) (seqZ 0 n).

Lemma lower_decreases idx best : 0 <= best < n -> flt (get best) (get idx) = true ->
  (length (lower best) < length (lower idx))%nat.
Proof.
  intros Hb Hlt. unfold lower at 1.
  rewrite <- (list_filter_filter_l _ (fun j => flt (get j) (get idx) = true)); [|intros j Hj; by apply flt_trans with (get best)].
  fold (lower idx). apply length_filter_lt with best; [|by rewrite flt_irrefl].
  apply list_elem_of_filter. split; [exact Hlt|]. apply elem_of_seqZ. lia.
Qed.

Lemma lower_fewer idx : 0 <= idx < n -> (length (lower idx) < Z.to_nat n)%nat.
Proof.
  intros Hi. rewrite <- (length_seqZ 0 n). apply length_filter_lt with idx; [apply elem_of_seqZ; lia|by rewrite flt_irrefl].
Qed.

Lemma find_dip_loop_spec fuel : forall idx, 0 <= idx < n -> (length (lower idx) < fuel)%nat ->
  exists k, find_dip_loop fuel get n idx = Some k /\ 0 <= k < n /\ (k = idx \/ flt (get k) (get idx) = true) /\
    forall j, 0 <= j < n -> Z.abs (j - k) <= SWR_BW_LOOKAHEAD -> flt (get j) (get k) = false.
Proof.
  induction fuel as [|m IH]; intros idx Hi Hf; [lia|]. cbn [find_dip_loop].
  destruct (dip_step_spec idx Hi) as (Hb & Hlt & Hall). destruct (Z.eqb_spec (dip_step get n idx) idx) as [E|E].
  - exists idx. rewrite E in Hall. eauto.
  - destruct Hlt as [|Hlt]; [done|]. pose proof (lower_decreases idx _ Hb Hlt).
    destruct (IH (dip_step get n idx) Hb ltac:(lia)) as (k & -> & Hk & Hle & Hmin). exists k.
    split; [done|]. split; [done|]. split; [|done]. right.
    destruct Hle as [->|Hle]; [done|by apply flt_trans with (get (dip_step get n idx))].
Qed.
End Dip.

(** The walk to the dip ends, for every sampled curve (not-a-number samples
    included), within as many moves as there are samples; it ends on a sample of
    the sweep that no sample within the look-ahead lies below, and which is the
    starting sample or lies below it. *)
Theorem find_dip_terminates {F} `{FO : FloatOrder F} (get : Z -> F) (n idx : Z) :
  2 <= n -> 0 <= idx ->
  let start := Z.min idx (n - 1) in
  exists k, find_dip_loop (Z.to_nat n) get n start = Some k /\ swr_bw_find_dip get n idx = k /\
    0 <= k < n /\ (k = start \/ flt (get k) (get start) = true) /\
    forall j, 0 <= j < n -> Z.abs (j - k) <= SWR_BW_LOOKAHEAD -> flt (get j) (get k) = false.
Proof.
  intros Hn Hi start. assert (Hs : 0 <= start < n) by (subst start; lia).
  destruct (find_dip_loop_spec get n (Z.to_nat n) start Hs (lower_fewer get n start Hs)) as (k & E & R).
  exists k. split; [exact E|]. split; [|exact R]. unfold swr_bw_find_dip.
  destruct (Z.ltb_spec n 2); [lia|]. replace (if n - 1 <? idx then n - 1 else idx) with start.
  - by rewrite E.
  - subst start. destruct (Z.ltb_spec (n - 1) idx); lia.
Qed.

Definition dips (i : Z) : spec_float := f_of_Z (nth (Z.to_nat i) [9; 8; 7; 5; 6; 4; 8; 9; 3; 7] 0).

Lemma find_dip_terminates_witness : swr_bw_find_dip dips 10 1 = 8.
Proof.
  destruct (find_dip_terminates dips 10 1 ltac:(lia) ltac:(lia)) as (k & E & -> & _). revert E. vm_compute. congruence.
Defined.

(** ** The crossings of a level *)

Section Cross.
Context {F : Type} `{EO : ExactOrder F} `{!FloatBits F}.
Add Field swr_field : (ea_field (F := F)).
Variables (get freq : Z -> F) (n dir : Z) (level : F).
Hypothesis dir_unit : dir = 1 \/ dir = -1.
Hypothesis n_small : n < 65536.

Lemma cross_walk_spec fuel : forall idx, 0 <= idx < n -> (if dir =? 1 then n - idx else idx + 1) <= Z.of_nat fuel ->
  fge (get idx) level = false ->
  match cross_walk fuel get n idx dir level (get idx) with
  | None => forall j, ahead n dir idx j -> fge (get j) level = false
  | Some (k, v0, v1) => ahead n dir idx k /\ 0 <= k + dir < n /\ v0 = get k /\ v1 = get (k + dir) /\
      (forall j, ahead n dir idx j -> 0 <= dir * (k - j) -> fge (get j) level = false) /\ fge (get (k + dir)) level = true
  end.
Proof.
  induction fuel as [|m IH]; intros idx Hi Hf Hlow; [destruct (_ =? _); lia|]. cbn [cross_walk].
  assert (Hself : forall j, ahead n dir idx j -> j = idx \/ ahead n dir (idx + dir) j) by (unfold ahead; intros j Hj; lia).
  destruct (if dir <? 0 then idx =? 0 else n - 1 <=? idx) eqn:Eend.
  { assert (Hout : ~ 0 <= idx + dir < n) by (destruct (Z.ltb_spec dir 0); lia).
    intros j Hj. destruct (Hself j Hj) as [->|Hj']; [done|unfold ahead in *; lia]. }
  assert (Hin : 0 <= idx + dir < n) by (destruct (Z.ltb_spec dir 0); lia).
  rewrite u16_small by lia. destruct (fge (get (idx + dir)) level) eqn:Ev.
  { split; [unfold ahead; lia|]. split; [lia|]. split; [done|]. split; [done|]. split; [|done].
    intros j Hj Hd. destruct (Hself j Hj) as [->|Hj']; [done|unfold ahead in *; lia]. }
  specialize (IH (idx + dir) Hin ltac:(destruct (Z.eqb_spec dir 1); lia) Ev).
  destruct (cross_walk m get n (idx + dir) dir level (get (idx + dir))) as [[[k v0] v1]|].
  - destruct IH as (Ha & Hk & -> & -> & Hall & Hup). split; [unfold ahead in *; lia|]. split; [lia|].
    split; [done|]. split; [done|]. split; [|done]. intros j Hj Hd. destruct (Hself j Hj) as [->|Hj']; [done|by apply Hall].
  - intros j Hj. by destruct (Hself j Hj) as [->|Hj']; [|apply IH].
Qed.

Local Open Scope float_scope.

Lemma fge_false (a b : F) : fge a b = false -> flt a b = true.
Proof.
  intros E. apply orb_false_iff in E as [E1 E2]. destruct (flt a b) eqn:E; [done|].
  rewrite (eo_total a b E E1) in E2. by rewrite (proj2 (ea_feqb b b) eq_refl) in E2.
Qed.
Lemma fge_true (a b : F) : fge a b = true -> flt a b = false.
Proof.
  intros E. apply orb_true_iff in E as [E|E]; [by apply flt_asym|]. apply ea_feqb in E as ->. apply flt_irrefl.
Qed.

(** Linear interpolation between a sample below the level and one at or above. *)
Lemma interpolation_factor (v0 v1 : F) : fge v0 level = false -> fge v1 level = true ->
  let t := if feqb v1 v0 then f0 else (level - v0) / (v1 - v0) in
  v0 + (v1 - v0) * t = level /\ pos t /\ nonneg (f1 - t).
Proof.
  intros Hb%fge_false Ha%fge_true t.
  assert (Hp : pos (v1 - v0)).
  { replace (v1 - v0) with ((level - v0) + (v1 - level)) by ring.
    apply pos_add_nonneg; [exact (proj1 (flt_sub _ _) Hb)|exact (proj1 (flt_sub_false _ _) Ha)]. }
  pose proof (pos_neq _ Hp) as Hne. subst t.
  destruct (feqb v1 v0) eqn:E; [apply ea_feqb in E as ->; destruct Hne; ring|].
  split; [field; exact Hne|]. split; [apply pos_div; [exact (proj1 (flt_sub _ _) Hb)|exact Hp]|].
  replace (f1 - (level - v0) / (v1 - v0)) with ((v1 - level) * (f1 / (v1 - v0))) by (field; exact Hne).
  apply nonneg_mul; [exact (proj1 (flt_sub_false _ _) Ha)|by apply pos_nonneg, pos_inv].
Qed.

Lemma swr_bw_cross_spec (idx : Z) : (0 <= idx < n)%Z ->
  let r := swr_bw_cross get freq n idx dir level in
  (r = f0 /\ (fge (get idx) level = true \/ forall j, ahead n dir idx j -> fge (get j) level = false)) \/
  exists k t, ahead n dir idx k /\ (0 <= k + dir < n)%Z /\
    (forall j, ahead n dir idx j -> (0 <= dir * (k - j))%Z -> fge (get j) level = false) /\
    fge (get (k + dir)%Z) level = true /\
    r = freq k + (freq (k + dir)%Z - freq k) * t /\ get k + (get (k + dir)%Z - get k) * t = level /\
    pos t /\ nonneg (f1 - t).
Proof.
  intros Hi. unfold swr_bw_cross. destruct (fge (get idx) level) eqn:E; [left; auto|].
  pose proof (cross_walk_spec (Z.to_nat n) idx Hi ltac:(destruct (_ =? _); lia) E) as L.
  destruct (cross_walk _ _ _ _ _ _ _) as [[[k v0] v1]|]; [right|left; auto].
  destruct L as (Ha & Hk & -> & -> & Hall & Hup). unfold ahead in *. rewrite u16_small by lia.
  assert (Hk0 : fge (get k) level = false) by (apply Hall; lia).
  destruct (interpolation_factor _ _ Hk0 Hup) as (A & B & C).
  eexists k, _. repeat (split; [first [exact Hup|exact Hall|exact A|reflexivity|lia]|]). auto.
Qed.

(** ** The quality factor of a series resonance *)

Lemma swr_bw_q_spec (f_lo f_hi f_0 q s r z0 : F) :
  pos r -> pos f_0 -> pos (f_hi - f_lo) -> pos q -> pos s -> s + f1 <> f0 -> f_lo * f_hi = f_0 * f_0 ->
  let X := r * q * (f_hi / f_0 - f_0 / f_hi) in let g := (s - f1) / (s + f1) in
  (r - z0) * (r - z0) + X * X = g * g * ((r + z0) * (r + z0) + X * X) ->
  vna_sqrtf (X * X) = X -> swr_bw_q f_0 (f_hi - f_lo) s r z0 = q.
Proof.
  intros Hr Hf Hbw Hq Hs Hs1 Egm X g Eg Hroot. unfold swr_bw_q.
  assert (Hle : forall a : F, pos a -> fle a f0 = false).
  { intros a Ha. apply orb_false_iff. split; [by apply flt_asym|]. apply not_true_is_false. intros E.
    apply ea_feqb in E. by apply (pos_neq a). }
  rewrite (Hle _ Hr), (Hle _ Hbw). cbn [orb]. fold g.
  pose proof (pos_neq _ Hf) as Hf'. pose proof (pos_neq _ Hbw) as Hbw'. pose proof (pos_neq _ Hr) as Hr'.
  assert (Hhi : f_hi <> f0).
  { intros E. apply (mul_neq f_0 f_0 Hf' Hf'). rewrite <- Egm, E. ring. }
  assert (EX : X = r * q * ((f_hi - f_lo) / f_0)).
  { unfold X. f_equal. replace (f_0 / f_hi) with (f_0 * f_0 / (f_0 * f_hi)) by (field; auto). rewrite <- Egm. field. auto. }
  assert (HX : pos X) by (rewrite EX; apply pos_mul; [by apply pos_mul|by apply pos_div]).
  assert (Hg : f1 - g * g <> f0).
  { intros E. apply (mul_neq ((f1 + f1) * (f1 + f1)) s (mul_neq _ _ two_neq two_neq) (pos_neq _ Hs)).
    transitivity ((f1 - g * g) * ((s + f1) * (s + f1))); [unfold g; field; exact Hs1|rewrite E; ring]. }
  assert (Ex2 : (g * g * (r + z0) * (r + z0) - (r - z0) * (r - z0)) / (f1 - g * g) = X * X).
  { transitivity ((g * g * ((r + z0) * (r + z0) + X * X) - (r - z0) * (r - z0) - g * g * (X * X)) / (f1 - g * g)); [field; exact Hg|].
    rewrite <- Eg. field. exact Hg. }
  rewrite Ex2, (Hle _ (pos_mul _ _ HX HX)), Hroot, EX. field. auto.
Qed.
End Cross.

(** The quality factor is exact for a series resonant circuit: with resistance
    [r], quality factor [q] and resonance [f_0], measured against any reference
    [z0], the edges [f_lo], [f_hi] (symmetric about [f_0]) at which the standing
    wave ratio is [s] give [q] back, in exact arithmetic with the square root
    exact. *)
Theorem swr_bw_q_exact {F} `{EO : ExactOrder F} `{!FloatBits F} (f_lo f_hi f_0 q s r z0 : F) :
  pos r -> pos f_0 -> pos (fsub f_hi f_lo) -> pos q -> pos s -> fadd s f1 <> f0 -> fmul f_lo f_hi = fmul f_0 f_0 ->
  let X := fmul (fmul r q) (fsub (fdiv f_hi f_0) (fdiv f_0 f_hi)) in
  let g := fdiv (fsub s f1) (fadd s f1) in
  fadd (fmul (fsub r z0) (fsub r z0)) (fmul X X) =
    fmul (fmul g g) (fadd (fmul (fadd r z0) (fadd r z0)) (fmul X X)) ->
  vna_sqrtf (fmul X X) = X -> swr_bw_q f_0 (fsub f_hi f_lo) s r z0 = q.
Proof. apply swr_bw_q_spec. Qed.

(** 40 ohm against 50 ohm, 9 to 16 MHz at the level 2:1. *)
Lemma swr_bw_q_exact_witness :
  swr_bw_q (Qc_of_Z 12000000) (fsub (Qc_of_Z 16000000) (Qc_of_Z 9000000)) (Qc_of_Z 2) (Qc_of_Z 40) (Qc_of_Z 50) =
  fdiv (Qc_of_Z 9) (Qc_of_Z 7).
Proof.
  apply swr_bw_q_exact; try (vm_compute; reflexivity); [intros E; vm_compute in E; discriminate|..];
    apply Qc_is_canon; vm_compute; reflexivity.
Defined.

(** The edge of a band: no crossing is reported (0) when the start is not below
    the level or no sample up to the end of the sweep reaches it; otherwise the
    edge lies between the last sample before the first one at or above the level
    and that one, where the line through the two samples takes the level. *)
Theorem swr_bw_cross_correct {F} `{EO : ExactOrder F} (get freq : Z -> F) (n dir : Z) (level : F) (idx : Z) :
  dir = 1 \/ dir = -1 -> n < 65536 -> 0 <= idx < n ->
  let r := swr_bw_cross get freq n idx dir level in
  (r = f0 /\ (fge (get idx) level = true \/ forall j, ahead n dir idx j -> fge (get j) level = false)) \/
  exists k t, ahead n dir idx k /\ 0 <= k + dir < n /\
    (forall j, ahead n dir idx j -> 0 <= dir * (k - j) -> fge (get j) level = false) /\
    fge (get (k + dir)) level = true /\
    r = fadd (freq k) (fmul (fsub (freq (k + dir)) (freq k)) t) /\
    fadd (get k) (fmul (fsub (get (k + dir)) (get k)) t) = level /\ pos t /\ nonneg (fsub f1 t).
Proof. intros Hd Hn Hi. by apply swr_bw_cross_spec. Qed.

Definition valley (i : Z) : Qc := Qc_of_Z (1 + Z.abs (i - 2)).

Lemma swr_bw_cross_correct_witness :
  exists k t, ahead 5 1 2 k /\ swr_bw_cross valley Qc_of_Z 5 2 1 (fdiv (Qc_of_Z 3) (Qc_of_Z 2)) =
    fadd (Qc_of_Z k) (fmul (fsub (Qc_of_Z (k + 1)) (Qc_of_Z k)) t) /\ pos t.
Proof.
  destruct (swr_bw_cross_correct valley Qc_of_Z 5 1 (fdiv (Qc_of_Z 3) (Qc_of_Z 2)) 2 ltac:(lia) ltac:(lia) ltac:(lia))
    as [[E _]|(k & t & A & _ & _ & _ & B & _ & C & _)]; [vm_compute in E; discriminate|eauto].
Defined.
