(* ===== verification/Tune.v ===== *)
(** * Tuning an antenna (vna_modules/vna_workflow_math.c, measure.c)

    The element length assumed for an antenna, the change that moves its
    resonance to the target, and the sweep proposed for a target. *)

From S2P Require Import Prelude Num Cplx Exact Synth Types Props Sweep.
From Stdlib Require Import Field Qcanon.
Local Open Scope Z_scope.

Definition TUNE_ANT_UNKNOWN : Z := 0.
Definition TUNE_ANT_DIPOLE : Z := 1.
Definition TUNE_ANT_VERTICAL : Z := 2.
Definition TUNE_ANT_EFHW : Z := 3.

Section Length.
Context {F : Type} `{FloatOps F}.
Local Open Scope float_scope.

Definition FT_TO_M : F := f_lit 3048 (-4).

Definition tune_assumed_len_m (type : Z) (f_hz : F) : F :=
  let f_mhz := f_hz * f_lit 1 (-6) in
  if fle f_mhz f0 then f0 else
  if (type =? TUNE_ANT_DIPOLE)%Z || (type =? TUNE_ANT_EFHW)%Z then f_of_Z 468 / f_mhz * FT_TO_M
  else if (type =? TUNE_ANT_VERTICAL)%Z then f_of_Z 234 / f_mhz * FT_TO_M
  else f0.
Definition tune_per_leg (type : Z) : bool := (type =? TUNE_ANT_DIPOLE)%Z.

(** Positive: the element is too short. *)
Definition tune_delta_len_m (type : Z) (f0_hz target_hz : F) : F :=
  let L := tune_assumed_len_m type target_hz in
  if feqb L f0 || fle f0_hz f0 then f0 else L * (f0_hz - target_hz) / f0_hz.
Definition tune_sensitivity_hz_per_m (f0_before f0_after change_m : F) : F :=
  if feqb change_m f0 then f0 else (f0_after - f0_before) / change_m.
Definition tune_fullsize_hz_per_m (f_hz : F) : F :=
  let f_mhz := f_hz * f_lit 1 (-6) in f_mhz * f_mhz * f_of_Z 14020.
Definition tune_need_m (df k : F) : F := - df / k.
End Length.

Definition tune_target_in_cal (target cal0 cal1 : Z) : bool :=
  (cal0 <? cal1) && (cal0 <=? target) && (target <=? cal1).

(** Whether the sweep [cur0, cur1] is to be replaced, and the proposal. *)
Definition tune_span_for_target (target cal0 cal1 cur0 cur1 : Z) : bool * (Z * Z) :=
  if target =? 0 then (false, (0, 0)) else
  let s := u32 (target - target / 10) in
  let e := u32 (target + target / 20) in
  let '(s, e) := if tune_target_in_cal target cal0 cal1
                 then (if s <? cal0 then cal0 else s, if cal1 <? e then cal1 else e) else (s, e) in
  ((target <? cur0) || (cur1 <? target) || (u32 (e - s) <? u32 (cur1 - cur0)), (s, e)).

Section Apply.
Context {F : Type} `{FloatOps F}.

Definition TUNE_CALIBRATED (s : vna F) : bool :=
  bit_test (cal_status s) (CALSTAT_ES + CALSTAT_ER + CALSTAT_ET + CALSTAT_OPEN + CALSTAT_SHORT + CALSTAT_THRU
    + CALSTAT_LOAD + CALSTAT_ISOLN).

Definition tune_apply_target_span (tune_target_hz : Z) (s : vna F) : vna F :=
  let cal := TUNE_CALIBRATED s in
  let p := current_props s in
  let '(replace, (start, stop)) := tune_span_for_target tune_target_hz
    (if cal then _cal_frequency0 p else 0) (if cal then _cal_frequency1 p else 0) (frequency0 s) (frequency1 s) in
  if replace then set_sweep_frequency ST_START start (set_sweep_frequency ST_STOP stop s) else s.
End Apply.

(** ** The sweep for a target *)

Lemma span_for_target_spec target cal0 cal1 cur0 cur1 : 0 < target -> target + target / 20 < 2 ^ 32 ->
  0 <= cur0 <= cur1 -> cur1 < 2 ^ 32 ->
  let '(replace, (s, e)) := tune_span_for_target target cal0 cal1 cur0 cur1 in
  s <= target <= e /\ target - target / 10 <= s /\ e <= target + target / 20 /\
  (cal0 <= target <= cal1 -> cal0 < cal1 -> cal0 <= s /\ e <= cal1) /\
  (replace = false -> cur0 <= target <= cur1 /\ cur1 - cur0 <= e - s).
Proof.
  intros Ht He Hc H1. unfold tune_span_for_target, tune_target_in_cal.
  destruct (Z.eqb_spec target 0); [lia|]. rewrite !(u32_small (target - _)), !(u32_small (target + _)) by lia.
  destruct (Z.ltb_spec cal0 cal1), (Z.leb_spec cal0 target), (Z.leb_spec target cal1); cbn [andb];
    repeat match goal with |- context [if Z.ltb ?a ?b then _ else _] => destruct (Z.ltb_spec a b) end;
    rewrite !u32_small by lia; (repeat split; try lia); intros Hr; lia.
Qed.

(** C33: Setting a target brackets it: afterwards the target lies inside the sweep,
    the sweep is not wider than from 10 per cent below to 5 per cent above the
    target, and a new sweep stays inside the calibrated range when the target is
    in it. *)
Theorem tune_brackets_target {F} `{FloatOps F} (target : Z) (s : vna F) :
  in_range s -> FREQUENCY_MIN <= target <= FREQUENCY_MAX ->
  let s' := tune_apply_target_span target s in
  let p := current_props s in
  frequency0 s' <= target <= frequency1 s' /\
  frequency1 s' - frequency0 s' <= target / 10 + target / 20 /\
  (frequency0 s' = frequency0 s /\ frequency1 s' = frequency1 s \/
   (TUNE_CALIBRATED s = true -> FREQUENCY_MIN <= _cal_frequency0 p <= target -> target <= _cal_frequency1 p ->
    _cal_frequency0 p < _cal_frequency1 p -> _cal_frequency0 p <= frequency0 s' /\ frequency1 s' <= _cal_frequency1 p)).
Proof.
  intros Hr Ht s' p. subst s'. unfold tune_apply_target_span. fold p.
  set (cal0 := if TUNE_CALIBRATED s then _cal_frequency0 p else 0). set (cal1 := if TUNE_CALIBRATED s then _cal_frequency1 p else 0).
  unfold in_range, FREQUENCY_MIN, FREQUENCY_MAX in *.
  pose proof (span_for_target_spec target cal0 cal1 (frequency0 s) (frequency1 s)) as L.
  destruct (tune_span_for_target _ _ _ _ _) as [replace [a e]].
  destruct L as (Hb & Ha & He & Hcal & Hkeep); [lia..|].
  destruct replace; [|split; [lia|split; [lia|by left]]].
  destruct (set_sweep_frequency_range_of ST_STOP e s ltac:(done) ltac:(done)) as (E0 & E1 & _).
  destruct (set_sweep_frequency_range_of ST_START a (set_sweep_frequency ST_STOP e s) ltac:(done) ltac:(done)) as (E2 & E3 & _).
  rewrite E2, E3. cbv match in E0, E1. change (ST_STOP <? ST_SPAN) with true in *. change (ST_START <? ST_SPAN) with true in *.
  cbv match in *. destruct (switch_start (clamp_freq a) (set_sweep_frequency ST_STOP e s)) as [-> ->].
  rewrite E1. destruct (switch_stop (clamp_freq e) s) as [-> _]. unfold clamp_freq, FREQUENCY_MIN, FREQUENCY_MAX in *.
  split; [lia|]. split; [lia|]. right. intros Hcb H0 H1 H2. subst cal0 cal1. rewrite Hcb in Hcal.
  destruct (Hcal ltac:(lia) ltac:(lia)). lia.
Qed.

Lemma tune_brackets_target_witness :
  frequency0 (tune_apply_target_span 7100000 boot) <= 7100000 <= frequency1 (tune_apply_target_span 7100000 boot).
Proof.
  destruct (tune_brackets_target 7100000 boot (proj1 boot_range)) as (A & B & _);
    [unfold FREQUENCY_MIN, FREQUENCY_MAX; lia|exact A].
Defined.

(** ** The length to add *)

Section Delta.
Context {F : Type} `{EO : ExactOrder F}.
Add Field tune_field : (ea_field (F := F)).
Local Open Scope float_scope.

Lemma fle_pos (a : F) : pos a -> fle a f0 = false.
Proof.
  intros Ha. apply orb_false_iff. split; [by apply flt_asym|]. apply not_true_is_false. intros E.
  apply ea_feqb in E. by apply (pos_neq a).
Qed.

(** The length to add is the difference of the lengths assumed for the target
    and for the frequency the element resonates at now; a negative length is to be
    removed. *)
Theorem tune_delta_is_difference (type : Z) (f_now target : F) : pos f_now -> pos target ->
  tune_assumed_len_m type f_now + tune_delta_len_m type f_now target = tune_assumed_len_m type target.
Proof.
  intros Hn Ht. unfold tune_delta_len_m. rewrite (fle_pos _ Hn), orb_false_r.
  assert (Hm : pos (f_lit 1 (-6) : F)) by exact (pos_lit 1 6 ltac:(lia) ltac:(lia)).
  unfold tune_assumed_len_m. rewrite !fle_pos by (by apply pos_mul).
  pose proof (pos_neq _ Hn). pose proof (pos_neq _ Ht). pose proof (pos_neq _ Hm).
  destruct ((type =? TUNE_ANT_DIPOLE)%Z || (type =? TUNE_ANT_EFHW)%Z); [|destruct (type =? TUNE_ANT_VERTICAL)%Z].
  3: { rewrite (proj2 (ea_feqb (f0 : F) f0) eq_refl). ring. }
  all: match goal with |- context [feqb ?L f0] => destruct (feqb L f0) eqn:E end; [exfalso|field; auto].
  all: apply ea_feqb in E; revert E; unfold FT_TO_M.
  all: match goal with |- ?L = f0 -> False => assert (P : pos L); [|by apply pos_neq] end.
  all: apply pos_mul; [apply pos_div; [by apply pos_of_Z|by apply pos_mul]|exact (pos_lit 3048 4 ltac:(lia) ltac:(lia))].
Qed.
End Delta.

(** A dipole at 7.2 MHz, to be moved to 7.1 MHz. *)
Lemma tune_delta_is_difference_witness :
  fadd (tune_assumed_len_m TUNE_ANT_DIPOLE (Qc_of_Z 7200000)) (tune_delta_len_m TUNE_ANT_DIPOLE (Qc_of_Z 7200000) (Qc_of_Z 7100000)) =
  tune_assumed_len_m TUNE_ANT_DIPOLE (Qc_of_Z 7100000).
Proof. apply tune_delta_is_difference; vm_compute; reflexivity. Defined.
