(* ===== verification/Choke.v ===== *)
(** * Common mode choke arithmetic (vna_modules/vna_choke.c)

    The series impedance from the transmission through the fixture, the removal
    of the fixture in admittance, the limits of the fixture, the verdict, and the
    searches over the sweep. *)

From S2P Require Import Prelude Num Cplx Exact Hambands VnaMath Types Props Sweep Values.
From Stdlib Require Import Field SpecFloat Qcanon.
Local Open Scope Z_scope.

Definition CHOKE_POOR : Z := 0.
Definition CHOKE_WEAK : Z := 1.
Definition CHOKE_MARGINAL : Z := 2.
Definition CHOKE_GOOD : Z := 3.
Definition CHOKE_MEETS : Z := 4.
Definition CHOKE_HIGHPWR : Z := 5.
Definition CHOKE_JIG : Z := 6.

Section Choke.
Context {F : Type} `{FloatOps F} `{!FloatBits F}.
Local Open Scope float_scope.

Definition CHOKE_OPEN : F := f_lit 1 9.

Definition choke_zser (s21 : F * F) (z0 : F) : F * F :=
  let d := fst s21 * fst s21 + snd s21 * snd s21 in
  if d <? f_lit 1 (-12) then (CHOKE_OPEN, f0) else
  let ir := fst s21 / d in let ii := - snd s21 / d in
  (f_of_Z 2 * z0 * (ir - f1), f_of_Z 2 * z0 * ii).

Definition choke_z2y (z : F * F) : F * F :=
  let d := fst z * fst z + snd z * snd z in
  if d <? f_lit 1 (-12) then (f_lit 1 12, f0) else (fst z / d, - snd z / d).

Definition choke_deembed (zm zf : F * F) : F * F :=
  let ym := choke_z2y zm in let yf := choke_z2y zf in
  let g := fst ym - fst yf in let b := snd ym - snd yf in
  let d := g * g + b * b in
  if d <? f_lit 1 (-24) then (CHOKE_OPEN, f0) else (g / d, - b / d).

Definition choke_rs_ceiling (zf : F * F) : F :=
  let bf := vna_fabsf (snd (choke_z2y zf)) in
  if bf <? f_lit 1 (-12) then CHOKE_OPEN else f1 / (f_of_Z 2 * bf).

Definition CHOKE_NULL_REPEAT : F := f_lit 5 (-2).
Definition choke_rs_ceiling_deembed (zf : F * F) : F :=
  let c := choke_rs_ceiling zf in
  if fge c CHOKE_OPEN then CHOKE_OPEN else c / CHOKE_NULL_REPEAT.

Definition choke_verdict (rs target ceiling : F) : Z :=
  if (rs <? f0) || fge rs ceiling then CHOKE_JIG
  else if rs <? f_of_Z 500 then CHOKE_POOR
  else if rs <? f_of_Z 1000 then CHOKE_WEAK
  else if rs <? f_of_Z 2000 then CHOKE_MARGINAL
  else if rs <? target then CHOKE_GOOD
  else if rs <? f_of_Z 2 * target then CHOKE_MEETS
  else CHOKE_HIGHPWR.

Definition rungs : list Z := [160; 80; 60; 40; 30; 20; 17; 15; 12; 10; 6; 4; 2]%Z.
Definition choke_rung_m (f_hz : F) : Z :=
  let lambda := f_of_Z 300000000 / f_hz in
  snd (fold_left (fun '(best, out) rung =>
    let ratio := if fgt lambda (f_of_Z rung) then lambda / f_of_Z rung else f_of_Z rung / lambda in
    if ratio <? best then (ratio, rung) else (best, out)) rungs (f_lit 1 9, 160%Z)).

(** [found] as an option: the index and value of the minimum so far. *)
Definition choke_band_min (get_r get_f : Z -> F) (n : Z) (f_lo f_hi : F) : option Z :=
  option_map snd (for_range 0 n (fun i found =>
    let f := get_f i in
    if (f <? f_lo) || fgt f f_hi then found else
    let r := get_r i in
    match found with
    | Some (best, _) => if r <? best then Some (r, i) else found
    | None => Some (r, i)
    end) None).

Definition choke_zpeak (get_r get_x : Z -> F) (n : Z) : option (F * Z) :=
  for_range 1 (n - 1) (fun i found =>
    let x0 := get_x (i - 1)%Z in let x1 := get_x (i + 1)%Z in
    if negb (fgt x0 f0 && (x1 <? f0)) then found else
    let r := get_r i in let x := get_x i in
    let z := vna_sqrtf (r * r + x * x) in
    match found with
    | Some (zmag, _) => if fgt z zmag then Some (z, i) else found
    | None => Some (z, i)
    end) None.
End Choke.

(** ** The band labels *)

(** The label of every band from 160 m up, region by region: the standard name,
    except that all the bands above 2 m (1.25 m to 23 cm) are labelled 2 m. *)
Definition band_label (b : ham_band_t) : Z :=
  choke_rung_m (F := spec_float) (fmul (f_lit 5 (-1)) (fadd (f_of_Z (band_start b)) (f_of_Z (band_end b)))).
Definition labelled (b : ham_band_t) : bool := negb (band_end b <? 1500000).

Lemma band_labels_r1 : map band_label (filter (fun b => labelled b = true) ham_bands_iaru_r1) =
  [160; 80; 60; 40; 30; 20; 17; 15; 12; 10; 6; 4; 2; 2; 2].
Proof. vm_compute. reflexivity. Qed.
Lemma band_labels_r2 : map band_label (filter (fun b => labelled b = true) ham_bands_iaru_r2) =
  [160; 80; 60; 40; 30; 20; 17; 15; 12; 10; 6; 2; 2; 2; 2; 2].
Proof. vm_compute. reflexivity. Qed.

(** ** De-embedding is exact *)

Section Deembed.
Context {F : Type} `{EA : ExactArith F} `{!FloatBits F}.
Add Field choke_field : (ea_field (F := F)).
Add Field choke_complex : (cplx_field (F := F)).
Local Open Scope float_scope.

(** The guards of the routines: the magnitude squared is not below the limit. *)
Definition above (limit : F) (z : F * F) : Prop := flt (cnorm z) limit = false /\ z <> c0.

Lemma choke_z2y_value (z : F * F) : above (f_lit 1 (-12)) z -> choke_z2y z = cinv z.
Proof.
  intros [Hg Hz]. unfold choke_z2y. fold (cnorm z). rewrite Hg. pose proof (cnorm_nonzero z Hz).
  unfold cinv, cdiv, c1. cbn [fst snd]. f_equal; field; assumption.
Qed.

Lemma choke_zser_value (s21 : F * F) (z0 : F) : above (f_lit 1 (-12)) s21 ->
  choke_zser s21 z0 = cmul (creal (f_of_Z 2 * z0)) (csub (cinv s21) c1).
Proof.
  intros [Hg Hz]. unfold choke_zser. fold (cnorm s21). rewrite Hg. pose proof (cnorm_nonzero s21 Hz).
  unfold cinv, cdiv, csub, cmul, creal, c1. cbn [fst snd]. f_equal; field; assumption.
Qed.

Lemma choke_series (z : F * F) (z0 : F) : z0 <> f0 -> cadd z (creal ((f1 + f1) * z0)) <> c0 ->
  above (f_lit 1 (-12)) (s21_series_of z0 z) -> choke_zser (s21_series_of z0 z) z0 = z.
Proof.
  intros Hz0 Hw Ha. rewrite choke_zser_value by exact Ha. rewrite of_Z_2. unfold s21_series_of.
  pose proof (creal_neq _ (mul_neq _ _ two_neq Hz0)) as Hp.
  set (p := creal ((f1 + f1) * z0)) in *. field. auto.
Qed.

(** Two impedances in parallel. *)
Definition cparallel (a b : F * F) : F * F := cdiv (cmul a b) (cadd a b).

Lemma choke_deembed_value (zd zf : F * F) : zd <> c0 -> zf <> c0 -> cadd zd zf <> c0 ->
  above (f_lit 1 (-12)) (cparallel zd zf) -> above (f_lit 1 (-12)) zf -> above (f_lit 1 (-24)) (cinv zd) ->
  choke_deembed (cparallel zd zf) zf = zd.
Proof.
  intros Hd Hf Hs Hm Hf' [Hg Hy]. unfold choke_deembed. rewrite !choke_z2y_value by assumption.
  assert (E : csub (cinv (cparallel zd zf)) (cinv zf) = cinv zd) by (unfold cparallel; field; auto).
  change (_ - fst (cinv zf)) with (fst (csub (cinv (cparallel zd zf)) (cinv zf))).
  change (_ - snd (cinv zf)) with (snd (csub (cinv (cparallel zd zf)) (cinv zf))).
  rewrite E. fold (cnorm (cinv zd)). rewrite Hg. pose proof (cnorm_nonzero _ Hy) as Hn.
  transitivity (cinv (cinv zd)).
  - set (w := cinv zd) in *. unfold cinv, cdiv, c1. cbn [fst snd]. f_equal; field; exact Hn.
  - field. split; [exact Hd|]. apply (creal_neq f1). intros E1. symmetry in E1. by apply ea_f0_f1 in E1.
Qed.

(** C25: A choke measured through the fixture reads as itself: with the fixture
    alone stored, and the fixture and the choke [zd] in parallel measured, both in
    series between the ports, the de-embedded series impedance is [zd] (exact
    arithmetic, no guard of the routines taken). *)
Theorem choke_deembeds (z0 : F) (zd zf : F * F) : z0 <> f0 -> zd <> c0 -> cadd zd zf <> c0 ->
  cadd zf (creal ((f1 + f1) * z0)) <> c0 -> cadd (cparallel zd zf) (creal ((f1 + f1) * z0)) <> c0 ->
  above (f_lit 1 (-12)) (s21_series_of z0 zf) -> above (f_lit 1 (-12)) (s21_series_of z0 (cparallel zd zf)) ->
  above (f_lit 1 (-12)) (cparallel zd zf) -> above (f_lit 1 (-12)) zf -> above (f_lit 1 (-24)) (cinv zd) ->
  choke_deembed (choke_zser (s21_series_of z0 (cparallel zd zf)) z0) (choke_zser (s21_series_of z0 zf) z0) = zd.
Proof.
  intros Hz0 Hd Hs Hwf Hwm Ha1 Ha2 Ha3 Ha4 Ha5. rewrite !choke_series by assumption.
  apply choke_deembed_value; try assumption. apply Ha4.
Qed.
End Deembed.

(** 3000 + j4000 ohm in a fixture of -j20000 ohm. *)
Lemma choke_deembeds_witness :
  let zd := (Qc_of_Z 3000, Qc_of_Z 4000) in let zf := (Qc_of_Z 0, Qc_of_Z (-20000)) in
  choke_deembed (choke_zser (s21_series_of PORT_Z (cparallel zd zf)) PORT_Z) (choke_zser (s21_series_of PORT_Z zf) PORT_Z) = zd.
Proof.
  cbv zeta. apply choke_deembeds; try split; try (vm_compute; reflexivity); intros E; vm_compute in E; discriminate.
Defined.
