(* ===== verification/Workref.v ===== *)
(** * The stored reference and fixture sweeps (vna_modules/vna_workref.c, measure.c, plot.c)

    One block holds a reference sweep (reflection, or the de-embedded series
    impedance of the choke panel), another the open fixture.  A header records the
    state of the instrument; a block counts as valid only while the instrument is
    in that state.  Requests from the user interface are carried out later, by
    [measure_prepare]. *)

From S2P Require Import Prelude Num VnaMath Types Props Sweep Values Choke.
From Stdlib Require Import Qcanon.
Local Open Scope Z_scope.

Definition WREF_HAS_S21 : Z := 1.

Inductive wref_state_t := WREF_NONE | WREF_STALE_POINTS | WREF_STALE_SPAN | WREF_STALE_CAL | WREF_STALE_PROC | WREF_OK.

Record wref_hdr_t (F : Type) := Wref_hdr {
  wh_magic : Z; wh_start : Z; wh_stop : Z; wh_points : Z; wh_cal_status : Z; wh_edelay : F * F; wh_s21_offset : F;
  wh_smooth : Z; wh_flags : Z; wh_lastsaveid : Z; wh_stamp : Z }.
Arguments Wref_hdr {F}.
Arguments wh_magic {F}.
Arguments wh_start {F}.
Arguments wh_stop {F}.
Arguments wh_points {F}.
Arguments wh_cal_status {F}.
Arguments wh_edelay {F}.
Arguments wh_s21_offset {F}.
Arguments wh_smooth {F}.
Arguments wh_flags {F}.
Arguments wh_lastsaveid {F}.
Arguments wh_stamp {F}.

Record workref_t (F : Type) := Workref {
  wref_hdr : wref_hdr_t F; wref_s11 : list (F * F); wfix_hdr : wref_hdr_t F; wfix_s21 : list (F * F);
  wref_repeat_gamma : F; wref_store_pending : bool; wref_store_kind : Z; wfix_store_pending : bool;
  wref_fill_z_cb : bool }.
Arguments Workref {F}.
Arguments wref_hdr {F}.
Arguments wref_s11 {F}.
Arguments wfix_hdr {F}.
Arguments wfix_s21 {F}.
Arguments wref_repeat_gamma {F}.
Arguments wref_store_pending {F}.
Arguments wref_store_kind {F}.
Arguments wfix_store_pending {F}.
Arguments wref_fill_z_cb {F}.

Section Workref.
Context {F : Type} `{FloatOps F} `{!FloatBits F}.
(** The addresses of the two headers, from the linker. *)
Variables (wref_addr wfix_addr : Z).
Implicit Types (s : vna F) (w : workref_t F) (h : wref_hdr_t F).

Definition WREF_MAGIC : Z := Z.lxor 0x57524546 wref_addr.
Definition WFIX_MAGIC : Z := Z.lxor 0x57464958 wfix_addr.

Definition WREF_IN_TDR s : bool := Z.land (props_mode s) DOMAIN_MODE =? DOMAIN_TIME.
Definition WREF_FILE_VIEW s : bool := bit_test (sweep_mode s) SWEEP_FILE_VIEW.

(** Everything but the magic word. *)
Definition wref_hdr_fill (stamp : Z) s (magic flags : Z) : wref_hdr_t F :=
  let p := current_props s in
  Wref_hdr magic (getFrequency 0 s) (getFrequency (sweep_points s - 1) s) (sweep_points s) (cal_status s)
    (_electrical_delay p) (_s21_offset p) (smooth_factor s) flags (lastsaveid s) stamp.

Definition wref_hdr_state h (magic : Z) s : wref_state_t :=
  let p := current_props s in
  if negb (wh_magic h =? magic) then WREF_NONE
  else if negb (wh_points h =? sweep_points s) then WREF_STALE_POINTS
  else if negb (wh_start h =? getFrequency 0 s) || negb (wh_stop h =? getFrequency (sweep_points s - 1) s) then WREF_STALE_SPAN
  else if negb (wh_cal_status h =? cal_status s) || negb (wh_lastsaveid h =? lastsaveid s) then WREF_STALE_CAL
  else if fneqb (fst (wh_edelay h)) (fst (_electrical_delay p)) || fneqb (snd (wh_edelay h)) (snd (_electrical_delay p))
          || fneqb (wh_s21_offset h) (_s21_offset p) || negb (wh_smooth h =? smooth_factor s) then WREF_STALE_PROC
  else WREF_OK.

Definition set_magic (m : Z) h : wref_hdr_t F :=
  Wref_hdr m (wh_start h) (wh_stop h) (wh_points h) (wh_cal_status h) (wh_edelay h) (wh_s21_offset h) (wh_smooth h)
    (wh_flags h) (wh_lastsaveid h) (wh_stamp h).
Definition with_ref h (rows : list (F * F)) (g : F) w : workref_t F :=
  Workref h rows (wfix_hdr w) (wfix_s21 w) g (wref_store_pending w) (wref_store_kind w) (wfix_store_pending w) (wref_fill_z_cb w).
Definition with_fix h (rows : list (F * F)) w : workref_t F :=
  Workref (wref_hdr w) (wref_s11 w) h rows (wref_repeat_gamma w) (wref_store_pending w) (wref_store_kind w)
    (wfix_store_pending w) (wref_fill_z_cb w).
Definition with_pending (ref : bool) (kind : Z) (fix_ : bool) w : workref_t F :=
  Workref (wref_hdr w) (wref_s11 w) (wfix_hdr w) (wfix_s21 w) (wref_repeat_gamma w) ref kind fix_ (wref_fill_z_cb w).
Definition with_cb w : workref_t F :=
  Workref (wref_hdr w) (wref_s11 w) (wfix_hdr w) (wfix_s21 w) (wref_repeat_gamma w) (wref_store_pending w) (wref_store_kind w)
    (wfix_store_pending w) true.

(** [memcpy] of the first [n] points. *)
Definition copy_points (n : Z) (src dst : list (F * F)) : list (F * F) := take (Z.to_nat n) src ++ drop (Z.to_nat n) dst.
Definition channel (ch : nat) s : list (F * F) := nth ch (measured s) [].

Definition wref_clear w : workref_t F := with_ref (set_magic 0 (wref_hdr w)) (wref_s11 w) f0 w.

Definition wref_can_store s : bool := negb (WREF_IN_TDR s) && negb (WREF_FILE_VIEW s).

Definition wref_store (stamp : Z) s w : bool * workref_t F :=
  if WREF_IN_TDR s || WREF_FILE_VIEW s then (false, w) else
  (true, with_ref (wref_hdr_fill stamp s WREF_MAGIC 0) (copy_points (sweep_points s) (channel 0 s) (wref_s11 w)) f0 w).

Definition wref_store_request w : workref_t F := with_pending true 0 (wfix_store_pending w) w.
Definition wref_store_request_kind (flags : Z) w : workref_t F := with_pending true flags (wfix_store_pending w) w.

Definition wref_state s w : wref_state_t := wref_hdr_state (wref_hdr w) WREF_MAGIC s.
Definition wref_stamp w : Z := if wh_magic (wref_hdr w) =? WREF_MAGIC then wh_stamp (wref_hdr w) else 0.

Definition wfix_store (stamp : Z) s w : bool * workref_t F :=
  if WREF_IN_TDR s || WREF_FILE_VIEW s then (false, w) else
  (true, with_fix (wref_hdr_fill stamp s WFIX_MAGIC 0) (copy_points (sweep_points s) (channel 1 s) (wfix_s21 w)) w).
Definition wfix_clear w : workref_t F := with_fix (set_magic 0 (wfix_hdr w)) (wfix_s21 w) w.
Definition wfix_store_request w : workref_t F := with_pending (wref_store_pending w) (wref_store_kind w) true w.
Definition wfix_store_consume (stamp : Z) s w : bool * workref_t F :=
  if negb (wfix_store_pending w) then (false, w)
  else wfix_store stamp s (with_pending (wref_store_pending w) (wref_store_kind w) false w).
Definition wfix_state s w : wref_state_t := wref_hdr_state (wfix_hdr w) WFIX_MAGIC s.
Definition wfix_s21_at w (i : Z) : F * F := point_at (wfix_s21 w) i.

(** The de-embedded series impedance at a point (measure.c), and the fill of the
    reference block with it. *)
Definition choke_z_at s w (i : Z) : F * F :=
  choke_deembed (choke_zser (point_at (channel 1 s) i) PORT_Z) (choke_zser (wfix_s21_at w i) PORT_Z).
Definition choke_wref_fill_z s w : list (F * F) :=
  for_range 0 (sweep_points s) (fun i rows => put_point i (choke_z_at s w i) rows) (wref_s11 w).

Definition wref_store_z (stamp : Z) s w : bool * workref_t F :=
  if WREF_IN_TDR s || WREF_FILE_VIEW s then (false, w)
  else match wfix_state s w with
       | WREF_OK =>
           if negb (wref_fill_z_cb w) then (false, w) else
           (true, with_ref (wref_hdr_fill stamp s WREF_MAGIC WREF_HAS_S21) (choke_wref_fill_z s w) f0 w)
       | _ => (false, w)
       end.

Definition wref_store_consume (stamp : Z) s w : bool * workref_t F :=
  if negb (wref_store_pending w) then (false, w) else
  let w := with_pending false (wref_store_kind w) (wfix_store_pending w) w in
  if bit_test (wref_store_kind w) WREF_HAS_S21 then wref_store_z stamp s w else wref_store stamp s w.

Definition wref_z_r w (i : Z) : F := fst (point_at (wref_s11 w) i).

Definition wref_state_z s w : wref_state_t :=
  match wref_state s w with
  | WREF_NONE => WREF_NONE
  | st => if negb (bit_test (wh_flags (wref_hdr w)) WREF_HAS_S21) then WREF_NONE
          else match wfix_state s w with WREF_OK => st | _ => WREF_NONE end
  end.
Definition wref_state_s11 s w : wref_state_t :=
  match wref_state s w with
  | WREF_NONE => WREF_NONE
  | st => if bit_test (wh_flags (wref_hdr w)) WREF_HAS_S21 then WREF_NONE else st
  end.

Definition wref_repeat_measure s w : workref_t F :=
  let g0 := with_ref (wref_hdr w) (wref_s11 w) f0 w in
  if WREF_IN_TDR s then g0 else
  match wref_state_s11 s w with
  | WREF_OK =>
      let g := for_range 0 (sweep_points s) (fun i g =>
        let a := point_at (channel 0 s) i in let b := point_at (wref_s11 w) i in
        let dr := fsub (fst a) (fst b) in let di := fsub (snd a) (snd b) in
        let d := fadd (fmul dr dr) (fmul di di) in
        if fgt d g then d else g) f0 in
      with_ref (wref_hdr w) (wref_s11 w) (vna_sqrtf g) w
  | _ => g0
  end.

(** The part of [measure_prepare] that consumes the requests, the fixture first;
    the results tell which stores happened. *)
Definition consume_requests (stamp : Z) s w : bool * bool * workref_t F :=
  let '(fixed, w) := wfix_store_consume stamp s w in
  let '(stored, w) := wref_store_consume stamp s w in
  (fixed, stored, w).

(** The section memory cleared at every boot. *)
Definition blank_hdr : wref_hdr_t F := Wref_hdr 0 0 0 0 0 (f0, f0) f0 0 0 0 0.
Definition workref_boot (s11 s21 : list (F * F)) : workref_t F := Workref blank_hdr s11 blank_hdr s21 f0 false 0 false false.

(** ** Histories

    [run s w ref fix]: the instrument is in state [s] and the module in state [w]
    after any sequence of events; [ref] is the instrument state at the store the
    reflection block was filled by, if it was the last to fill it, [fix] that of
    the fixture block (both only exist for the statement). *)
Inductive run : vna F -> workref_t F -> option (vna F) -> option (vna F) -> Prop :=
  | run_boot s (s11 s21 : list (F * F)) : run s (workref_boot s11 s21) None None
  | run_instrument s s' w r f : run s w r f -> run s' w r f
  | run_request s w r f : run s w r f -> run s (wref_store_request w) r f
  | run_request_kind s w r f flags : run s w r f -> run s (wref_store_request_kind flags w) r f
  | run_fix_request s w r f : run s w r f -> run s (wfix_store_request w) r f
  | run_clear s w r f : run s w r f -> run s (wref_clear w) None f
  | run_fix_clear s w r f : run s w r f -> run s (wfix_clear w) r None
  | run_repeat s w r f : run s w r f -> run s (wref_repeat_measure s w) r f
  | run_panel s w r f : run s w r f -> run s (with_cb w) r f
  | run_prepare s w r f stamp fixed stored w' : run s w r f -> consume_requests stamp s w = (fixed, stored, w') ->
      run s w' (if stored then (if bit_test (wref_store_kind w) WREF_HAS_S21 then None else Some s) else r)
        (if fixed then Some s else f).
End Workref.

(** ** What a valid block holds *)

Section Valid.
Context {F : Type} `{FloatOps F} `{!FloatBits F}.
Variables (wref_addr wfix_addr : Z).
Implicit Types (s : vna F) (w : workref_t F) (h : wref_hdr_t F).

(** The block was filled in state [s0] from channel [ch]. *)
Definition filled (magic : Z) (ch : nat) h (rows : list (F * F)) s0 : Prop :=
  WREF_IN_TDR s0 = false /\ WREF_FILE_VIEW s0 = false /\ (exists stamp, h = wref_hdr_fill stamp s0 magic 0) /\
  exists old, rows = copy_points (sweep_points s0) (channel ch s0) old.

(** The two states agree in everything a header compares. *)
Definition same_setup s0 s : Prop :=
  sweep_points s0 = sweep_points s /\ getFrequency 0 s0 = getFrequency 0 s /\
  getFrequency (sweep_points s - 1) s0 = getFrequency (sweep_points s - 1) s /\
  cal_status s0 = cal_status s /\ lastsaveid s0 = lastsaveid s /\ smooth_factor s0 = smooth_factor s /\
  let p0 := current_props s0 in let p := current_props s in
  feqb (fst (_electrical_delay p0)) (fst (_electrical_delay p)) = true /\
  feqb (snd (_electrical_delay p0)) (snd (_electrical_delay p)) = true /\ feqb (_s21_offset p0) (_s21_offset p) = true.

Lemma hdr_state_ok stamp s0 magic flags s : wref_hdr_state (wref_hdr_fill stamp s0 magic flags) magic s = WREF_OK ->
  same_setup s0 s.
Proof.
  unfold wref_hdr_state, wref_hdr_fill. cbn [wh_magic wh_points wh_start wh_stop wh_cal_status wh_lastsaveid wh_edelay
    wh_s21_offset wh_smooth wh_flags wh_stamp]. rewrite Z.eqb_refl. cbn [negb].
  unfold fneqb. intros E. repeat case_match; try discriminate.
  repeat match goal with Hb : _ || _ = false |- _ => apply orb_false_iff in Hb as [? ?] end.
  repeat match goal with Hb : negb _ = false |- _ => apply negb_false_iff in Hb end.
  repeat match goal with Hb : (_ =? _) = true |- _ => apply Z.eqb_eq in Hb end.
  unfold same_setup. cbv zeta. assert (Ep : sweep_points s0 = sweep_points s) by assumption. rewrite <- Ep at 2.
  repeat split; first [assumption|congruence].
Qed.

Lemma hdr_state_magic h magic s : wref_hdr_state h magic s = WREF_OK -> wh_magic h = magic.
Proof. unfold wref_hdr_state. destruct (Z.eqb_spec (wh_magic h) magic); [done|discriminate]. Qed.

(** ** The invariant *)

Definition block_ok (magic : Z) (ch : nat) h (rows : list (F * F)) (g : option (vna F)) : Prop :=
  wh_magic h = magic -> bit_test (wh_flags h) WREF_HAS_S21 = false ->
  exists s0, g = Some s0 /\ filled magic ch h rows s0.

Definition history_ok w (r f : option (vna F)) : Prop :=
  block_ok (WREF_MAGIC wref_addr) 0 (wref_hdr w) (wref_s11 w) r /\
  block_ok (WFIX_MAGIC wfix_addr) 1 (wfix_hdr w) (wfix_s21 w) f /\ wh_flags (wfix_hdr w) = 0.

Lemma consume_ok stamp s w r f : history_ok w r f ->
  let '(fixed, stored, w') := consume_requests wref_addr wfix_addr stamp s w in
  history_ok w' (if stored then (if bit_test (wref_store_kind w) WREF_HAS_S21 then None else Some s) else r)
    (if fixed then Some s else f).
Proof.
  intros (R & X & X0). unfold consume_requests, wfix_store_consume, wfix_store.
  set (q := (if negb (wfix_store_pending w) then _ else _)).
  assert (Hq : let '(fixed, w1) := q in history_ok w1 r (if fixed then Some s else f) /\
    wref_store_kind w1 = wref_store_kind w /\ wref_store_pending w1 = wref_store_pending w).
  { subst q. destruct (wfix_store_pending w); cbn [negb]; [|by repeat split].
    destruct (WREF_IN_TDR s) eqn:Et; [by repeat split|]. destruct (WREF_FILE_VIEW s) eqn:Ef; [by repeat split|].
    cbn [orb]. split; [|by split]. split; [exact R|]. split; [|done]. intros _ _. exists s. split; [done|].
    split; [done|]. split; [done|]. split; [by exists stamp|by eexists]. }
  destruct q as [fixed w1]. destruct Hq as ((R1 & X1 & X2) & Ek & Ep). unfold wref_store_consume. rewrite Ep.
  destruct (wref_store_pending w); cbn [negb]; [|by split].
  cbn [wref_store_kind with_pending]. rewrite Ek. destruct (bit_test (wref_store_kind w) WREF_HAS_S21) eqn:Eb.
  - unfold wref_store_z. destruct (WREF_IN_TDR s || WREF_FILE_VIEW s); [by split|].
    destruct (wfix_state _ _ _); try by split. destruct (wref_fill_z_cb _); [|by split]. cbn [negb].
    split; [|by split]. intros _ Hfl. discriminate.
  - unfold wref_store. destruct (WREF_IN_TDR s) eqn:Et; [by split|]. destruct (WREF_FILE_VIEW s) eqn:Ef; [by split|]. cbn [orb].
    split; [|by split]. intros _ _. exists s. split; [done|]. split; [done|]. split; [done|]. split; [by exists stamp|by eexists].
Qed.

Lemma run_history s w r f : WREF_MAGIC wref_addr <> 0 -> WFIX_MAGIC wfix_addr <> 0 ->
  run wref_addr wfix_addr s w r f -> history_ok w r f.
Proof.
  intros Hr Hf. induction 1 as [| | | | |s w r f _ IH|s w r f _ IH|s w r f _ IH| |s w r f stamp fixed stored w' _ IH E].
  - split; [|split; [|done]]; intros E; cbn in E; congruence.
  - done.
  - done.
  - done.
  - done.
  - destruct IH as (_ & X). split; [|exact X]. intros E. cbn in E. congruence.
  - destruct IH as (R & _ & X0). split; [exact R|]. split; [|exact X0]. intros E. cbn in E. congruence.
  - unfold wref_repeat_measure. destruct (WREF_IN_TDR s); [exact IH|]. destruct (wref_state_s11 _ _ _); exact IH.
  - done.
  - pose proof (consume_ok stamp s w r f IH) as L. by rewrite E in L.
Qed.

Lemma copy_points_at n (src dst : list (F * F)) i : 0 <= i < n -> n <= Z.of_nat (length src) ->
  point_at (copy_points n src dst) i = point_at src i.
Proof.
  intros Hi Hn. unfold point_at, copy_points. rewrite app_nth1 by (rewrite length_take; lia).
  rewrite nth_firstn. destruct (Nat.ltb_spec (Z.to_nat i) (Z.to_nat n)); [done|lia].
Qed.
End Valid.

(** C12: A reference is never compared with a sweep it does not fit: after any
    history of button presses, changes of the instrument and deferred stores, when
    the module says the reflection reference (the fixture) is valid, its points are
    those measured on the first (second) channel when it was stored, outside the
    time domain and the file view, with the same number of points, end frequencies,
    calibration, delays, offset and smoothing as now. *)
Theorem reference_fits {F} `{FloatOps F} `{!FloatBits F} (wref_addr wfix_addr : Z) (s : vna F) (w : workref_t F) r f :
  0x10000000 <= wref_addr < 0x10002000 -> 0x10000000 <= wfix_addr < 0x10002000 ->
  run wref_addr wfix_addr s w r f ->
  let holds ch rows s0 := WREF_IN_TDR s0 = false /\ WREF_FILE_VIEW s0 = false /\ same_setup s0 s /\
    (sweep_points s <= Z.of_nat (length (channel ch s0)) ->
     forall i, 0 <= i < sweep_points s -> point_at rows i = point_at (channel ch s0) i) in
  (wref_state_s11 wref_addr s w = WREF_OK -> exists s0, r = Some s0 /\ holds 0%nat (wref_s11 w) s0) /\
  (wfix_state wfix_addr s w = WREF_OK -> exists s0, f = Some s0 /\ holds 1%nat (wfix_s21 w) s0).
Proof.
  intros Hra Hfa Hrun holds.
  assert (Hmr : WREF_MAGIC wref_addr <> 0) by (unfold WREF_MAGIC, WFIX_MAGIC; intros E%Z.lxor_eq; lia).
  assert (Hmf : WFIX_MAGIC wfix_addr <> 0) by (unfold WREF_MAGIC, WFIX_MAGIC; intros E%Z.lxor_eq; lia).
  destruct (run_history wref_addr wfix_addr s w r f Hmr Hmf Hrun) as (R & X & X0).
  assert (Hholds : forall magic ch h rows s0, filled magic ch h rows s0 -> wref_hdr_state h magic s = WREF_OK -> holds ch rows s0).
  { intros magic ch h rows s0 (Ht & Hv & (stamp & ->) & (old & ->)) Hok. pose proof (hdr_state_ok _ _ _ _ _ Hok) as Hs.
    split; [done|]. split; [done|]. split; [done|]. destruct Hs as (En & _). rewrite En. intros Hlen i Hi. by apply copy_points_at. }
  split.
  - unfold wref_state_s11, wref_state. intros E.
    assert (Hok : wref_hdr_state (wref_hdr w) (WREF_MAGIC wref_addr) s = WREF_OK) by (repeat case_match; congruence).
    rewrite Hok in E. destruct (bit_test _ _) eqn:Eb; [discriminate|].
    destruct (R (hdr_state_magic _ _ _ Hok) Eb) as (s0 & -> & Hfill). eauto.
  - unfold wfix_state. intros Hok. destruct (X (hdr_state_magic _ _ _ Hok)) as (s0 & -> & Hfill); [by rewrite X0|]. eauto.
Qed.

Definition asked : workref_t Qc := wref_store_request (workref_boot (repeat (f0, f0) 401) []).
Definition taken : workref_t Qc := snd (consume_requests 0x10000000 0x10000024 7 boot asked).

Lemma reference_fits_witness :
  wref_state_s11 0x10000000 boot taken = WREF_OK /\ exists s0 : vna Qc, Some boot = Some s0 /\ same_setup s0 boot.
Proof.
  assert (Hok : wref_state_s11 0x10000000 boot taken = WREF_OK) by (vm_compute; reflexivity).
  split; [exact Hok|].
  destruct (reference_fits 0x10000000 0x10000024 boot taken (Some boot) None ltac:(lia) ltac:(lia)) as [L _].
  { refine (run_prepare _ _ boot asked None None 7 false true taken (run_request _ _ _ _ _ _ (run_boot _ _ _ _ _)) _).
    vm_compute. reflexivity. }
  destruct (L Hok) as (s0 & E & _ & _ & Hs & _). eauto.
Defined.
