(* ===== verification/Panels.v ===== *)
(** * The measure panels (measure.c, plot.c)

    What every panel computes from the sweep: resonators and crystals in S21,
    filters, cables, resonances, the tuning panel and the choke panel, and the
    dispatch that recomputes the panel on display. *)

From S2P Require Import Prelude Num Cplx Exact Hambands VnaMath Types Props Sweep Measure Process Values Search Match SwrBw Tune Choke Workref.
From Stdlib Require Import SpecFloat Qcanon.
Local Open Scope Z_scope.

Section Panels.
Context {F : Type} `{FloatOps F} `{!FloatBits F}.
Implicit Types (s : vna F).
Local Open Scope float_scope.

(** Conversion of a float to [freq_t]: saturating, a not-a-number gives 0. *)
Definition freq_of_float (x : F) : Z := Z.max 0 (Z.min 4294967295 (f_trunc x)).
Definition TWO_PI : F := f_of_Z 2 * VNA_PI.

(** ** Resonators in S21 *)

Definition s21_at s (i : Z) : F * F := point_at (channel 1 s) i.
Definition s21pow2 s (i : Z) : F := get_l (fst (s21_at s i)) (snd (s21_at s i)).
Definition s21tan s (i : Z) : F := snd (s21_at s i) / fst (s21_at s i).
Definition s21logmag s (i : Z) : F := logmag (s21_at s i).

Inductive series_header := LC_SHUNT | LC_SERIES | XTAL_SERIES.
Record s21_analysis_t := S21_analysis {
  sa_header : series_header; sa_freq : Z; sa_freq1 : Z; sa_df : Z; sa_l : F; sa_c : F; sa_c1 : F; sa_r : F; sa_q : F }.
Definition with_header h (m : s21_analysis_t) :=
  S21_analysis h (sa_freq m) (sa_freq1 m) (sa_df m) (sa_l m) (sa_c m) (sa_c1 m) (sa_r m) (sa_q m).
Definition with_r r (m : s21_analysis_t) :=
  S21_analysis (sa_header m) (sa_freq m) (sa_freq1 m) (sa_df m) (sa_l m) (sa_c m) (sa_c1 m) r (sa_q m).

Definition measure_r s : F := _measure_r (config s).

Definition analysis_lcshunt (st : vna F * s21_analysis_t) : vna F * s21_analysis_t :=
  let '(s, m) := st in
  let m := with_header LC_SHUNT m in
  let '(ypeak, xp) := search_peak_value 0 (s21pow2 s) MEASURE_SEARCH_MIN s in
  let att := vna_sqrtf ypeak in
  let r := measure_r s * att / (f_of_Z 2 * (f1 - att)) in
  let m := with_r r m in
  if r <? f0 then (s, m) else
  let s := set_marker_index 0 xp s in
  let tan45 := measure_r s / (measure_r s + f_of_Z 4 * r) in
  let '(fl, _, s) := measure_search_value xp (- tan45) (s21tan s) MEASURE_SEARCH_LEFT 1 s in
  if feqb fl f0 then (s, m) else
  let '(fh, _, s) := measure_search_value xp tan45 (s21tan s) MEASURE_SEARCH_RIGHT 2 s in
  if feqb fh f0 then (s, m) else
  let bw := fh - fl in
  let fpeak := vna_sqrtf (fh * fl) in
  (s, S21_analysis (sa_header m) (freq_of_float fpeak) (sa_freq1 m) (sa_df m)
        (r / (TWO_PI * bw)) (bw / (TWO_PI * fpeak * fpeak * r)) (sa_c1 m) r (fpeak / bw)).

Definition analysis_lcseries (st : vna F * s21_analysis_t) : vna F * s21_analysis_t :=
  let '(s, m) := st in
  let m := with_header LC_SERIES m in
  let '(ypeak, xp) := search_peak_value 0 (s21pow2 s) MEASURE_SEARCH_MAX s in
  if (xp =? 0)%Z then (s, m) else
  let r := f_of_Z 2 * measure_r s * (f1 / vna_sqrtf ypeak - f1) in
  let m := with_r r m in
  if r <? f0 then (s, m) else
  let s := set_marker_index 0 xp s in
  let '(fl, _, s) := measure_search_value xp f1 (s21tan s) MEASURE_SEARCH_LEFT 1 s in
  if feqb fl f0 then (s, m) else
  let '(fh, _, s) := measure_search_value xp (- f1) (s21tan s) MEASURE_SEARCH_RIGHT 2 s in
  if feqb fh f0 then (s, m) else
  let bw := fh - fl in
  let fpeak := vna_sqrtf (fh * fl) in
  let reff := f_of_Z 2 * measure_r s + r in
  let l := reff / (TWO_PI * bw) in
  (s, S21_analysis (sa_header m) (freq_of_float fpeak) (sa_freq1 m) (sa_df m)
        l (bw / (TWO_PI * fpeak * fpeak * reff)) (sa_c1 m) r (TWO_PI * fpeak * l / r)).

Definition analysis_xtalseries (st : vna F * s21_analysis_t) : vna F * s21_analysis_t :=
  let '(s, m) := analysis_lcseries st in
  let m := with_header XTAL_SERIES m in
  let '(_, xp) := search_peak_value 0 (s21pow2 s) MEASURE_SEARCH_MIN s in
  if (xp =? 0)%Z then (s, m) else
  let s := set_marker_index 3 xp s in
  let freq1 := getFrequency xp s in
  if (freq1 <? sa_freq m)%Z then (s, m) else
  let df := u32 (freq1 - sa_freq m) in
  (s, S21_analysis (sa_header m) (sa_freq m) freq1 df (sa_l m) (sa_c m)
        (sa_c m * f_of_Z (sa_freq m) / (f_of_Z 2 * f_of_Z df)) (sa_r m) (sa_q m)).

Definition reset_series (m : s21_analysis_t) :=
  S21_analysis (sa_header m) 0 0 (sa_df m) (sa_l m) (sa_c m) (sa_c1 m) (sa_r m) (sa_q m).
Definition prepare_series (type : series_header) (st : vna F * s21_analysis_t) : vna F * s21_analysis_t :=
  let st := (fst st, reset_series (snd st)) in
  match type with
  | LC_SHUNT => analysis_lcshunt st
  | LC_SERIES => analysis_lcseries st
  | XTAL_SERIES => analysis_xtalseries st
  end.

(** ** Filters *)

Definition filter_att (i : Z) : F := f_of_Z (znth i [3; 6; 10; 20]%Z).
Record s21_pass := S21_pass { ps_f : list F; ps_decade : F; ps_octave : F }.
Record s21_filter_measure_t := S21_filter {
  fl_fmax : F; fl_vmax : F; fl_lo_pass : s21_pass; fl_hi_pass : s21_pass;
  fl_center : F; fl_bw_3dB : F; fl_bw_6dB : F; fl_q : F }.

(** [idx] moves along from level to level. *)
Definition find_filter_pass (max : F) (idx mode : Z) s : s21_pass * vna F :=
  let '(fs, _, s) := for_range 0 4 (fun i '(fs, idx, s) =>
    let m := if (i =? 0)%Z then (if (mode =? MEASURE_SEARCH_LEFT)%Z then 1%Z else 2%Z) else MARKER_INVALID in
    let '(f, idx, s) := measure_search_value idx (max - filter_att i) (s21logmag s) mode m s in
    (fs ++ [f], idx, s)) ([], idx, s) in
  let f10 := nth 2 fs f0 in let f20 := nth 3 fs f0 in
  if fneqb f10 f0 && fneqb f20 f0 then
    let k := vna_fabsf (vna_logf f20 - vna_logf f10) in
    (S21_pass fs (f_of_Z 10 * LN10 / k) (f_of_Z 10 * LN2 / k), s)
  else (S21_pass fs f0 f0, s).

Definition S21_MEASURE_FILTER_THRESHOLD : F := f_of_Z (-50).

Definition prepare_filter (st : vna F * s21_filter_measure_t) : vna F * s21_filter_measure_t :=
  let '(s, m) := st in
  let '(vmax, xp) := search_peak_value 0 (s21logmag s) MEASURE_SEARCH_MAX s in
  if negb (fge vmax S21_MEASURE_FILTER_THRESHOLD) then
    (s, S21_filter (fl_fmax m) vmax (fl_lo_pass m) (fl_hi_pass m) (fl_center m) (fl_bw_3dB m) (fl_bw_6dB m) (fl_q m))
  else
  let s := set_marker_index 0 xp s in
  let fmax := f_of_Z (getFrequency xp s) in
  let '(hi, s) := find_filter_pass vmax xp MEASURE_SEARCH_LEFT s in
  let '(lo, s) := find_filter_pass vmax xp MEASURE_SEARCH_RIGHT s in
  let at_dB p i := nth i (ps_f p) f0 in
  let center := at_dB lo 0%nat * at_dB hi 0%nat in
  if fneqb center f0 then
    let bw3 := at_dB lo 0%nat - at_dB hi 0%nat in
    let c := vna_sqrtf center in
    (s, S21_filter fmax vmax lo hi c bw3 (at_dB lo 1%nat - at_dB hi 1%nat) (c / bw3))
  else (s, S21_filter fmax vmax lo hi center (fl_bw_3dB m) (fl_bw_6dB m) (fl_q m)).

(** ** Cables *)

Definition MEASURE_UPD_SWEEP : Z := 1.
Definition MEASURE_UPD_FREQ : Z := 2.
Definition MEASURE_UPD_ALL : Z := 3.

Record s11_cable_measure_t := S11_cable {
  ca_freq : F; ca_R : F; ca_len : F; ca_mloss : F; ca_vf : F; ca_a : F; ca_b : F; ca_c : F }.
Definition s11imag s (i : Z) : F := snd (s11_at s i).
Definition s11loss s (i : Z) : F := f_lit (-5) (-1) * logmag (s11_at s i).
Definition s11index s (i : Z) : F := vna_sqrtf (f_of_Z (getFrequency i s) * f_lit 1 (-9)).

Definition prepare_s11_cable (cable : cable_t F) (update_mask : Z) (st : vna F * s11_cable_measure_t) :
    vna F * s11_cable_measure_t :=
  let '(s, m) := st in
  let m :=
    if negb (bit_test update_mask MEASURE_UPD_SWEEP) then m else
    let f1' := freq_of_float (fst (fst (measure_search_value 0 f0 (s11imag s) MEASURE_SEARCH_RIGHT MARKER_INVALID s))) in
    let '(r, len, vf) :=
      if (f1' =? 0)%Z then (f0, f0, f0) else
      let electric_lengh := SPEED_OF_LIGHT / f_of_Z 400 / f_of_Z f1' in
      let real := real_cable_len cable in
      let '(len, vf) := if fneqb real f0 then (real, real / electric_lengh)
                        else (f_of_Z (_velocity_factor (current_props s)) * electric_lengh, f0) in
      (match measure_get_value 0 (f1' / 2)%Z s with
       | Some data => vna_fabsf (reactance data)
       | None => f0
       end, len, vf) in
    let '(a, b, c) := parabolic_regression (sweep_points s) (s11index s) (s11loss s) in
    S11_cable (ca_freq m) r len (ca_mloss m) vf a b c in
  if bit_test update_mask MEASURE_UPD_ALL && negb (active_marker s =? MARKER_INVALID)%Z then
    let freq := f_of_Z (getFrequency (mk_index (marker_at (active_marker s) s)) s) in
    let f := freq * f_lit 1 (-9) in
    (s, S11_cable freq (ca_R m) (ca_len m) (ca_a m + ca_b m * vna_sqrtf f + ca_c m * f) (ca_vf m) (ca_a m) (ca_b m) (ca_c m))
  else (s, m).

(** ** Resonances *)

Definition MEASURE_RESONANCE_COUNT : Z := 6.
Record s11_resonance_measure_t := S11_resonance {
  re_data : list (Z * F * F); re_ref : wref_state_t; re_ref_f0 : F }.
Definition s11_resonance_value s (i : Z) : F := snd (s11_at s i).
Definition s11_resonance_min s (i : Z) : F := vna_fabsf (reactance (s11_at s i)).
Definition wref_x_value (w : workref_t F) (i : Z) : F := snd (point_at (wref_s11 w) i).

Definition wref_first_x0_freq wref_addr s (w : workref_t F) : F :=
  match wref_state_s11 wref_addr s w with
  | WREF_OK => fst (fst (measure_search_value 0 f0 (wref_x_value w) MEASURE_SEARCH_RIGHT MARKER_INVALID s))
  | _ => f0
  end.

Definition add_resonance_value (f : Z) s : option (Z * F * F) :=
  option_map (fun data => (f, resistance data, reactance data)) (measure_get_value 0 f s).

(** The list found so far; None when the fuel does not suffice. *)
Fixpoint resonance_loop (fuel : nat) s (x : Z) (found : list (Z * F * F)) : option (list (Z * F * F)) :=
  match fuel with
  | O => None
  | S k =>
      if (Z.min MEASURE_RESONANCE_COUNT MARKERS_MAX <=? Z.of_nat (length found))%Z then Some found else
      let '(v, x, _) := measure_search_value x f0 (s11_resonance_value s) MEASURE_SEARCH_RIGHT MARKER_INVALID s in
      let f := freq_of_float v in
      if (f =? 0)%Z then Some found else
      let found := match add_resonance_value f s with Some d => found ++ [d] | None => found end in
      resonance_loop k s (u16 (x + 1)) found
  end.

Definition prepare_s11_resonance wref_addr (w : workref_t F) (update_mask : Z) s (m : s11_resonance_measure_t) :
    s11_resonance_measure_t :=
  if negb (bit_test update_mask MEASURE_UPD_SWEEP) then m else
  let found := match resonance_loop (Z.to_nat (sweep_points s + 1)) s 0 [] with Some l => l | None => [] end in
  let found :=
    if negb (length found =? 0)%nat then found else
    let '(_, x) := search_peak_value 0 (s11_resonance_min s) MEASURE_SEARCH_MIN s in
    if (x =? 0)%Z then found else
    match add_resonance_value (getFrequency x s) s with Some d => [d] | None => [] end in
  S11_resonance found (wref_state_s11 wref_addr s w) (wref_first_x0_freq wref_addr s w).
End Panels.
Arguments s21_analysis_t : clear implicits.
Arguments s21_pass : clear implicits.
Arguments s21_filter_measure_t : clear implicits.
Arguments s11_cable_measure_t : clear implicits.
Arguments s11_resonance_measure_t : clear implicits.

(** ** The resonance search ends *)

Lemma search_right_index {F} `{FloatOps F} `{!FloatBits F} (idx : Z) (y : F) (get : Z -> F) (m : Z) (s : vna F) :
  0 <= idx -> sweep_points s < 65536 ->
  let '(f, x, _) := measure_search_value idx y get MEASURE_SEARCH_RIGHT m s in
  f = f0 \/ idx <= x < sweep_points s.
Proof.
  intros Hi Hn. unfold measure_search_value, MEASURE_SEARCH_RIGHT. destruct (decide (idx < sweep_points s)) as [Hlt|Hge].
  - pose proof (search_level_spec (sweep_points s) 1 get y (fgt (get idx) y) (Z.to_nat (sweep_points s + 1)) idx
      (get idx) (get idx) (get idx) (or_introl eq_refl) Hn ltac:(lia) ltac:(cbn; lia)) as L.
    destruct (search_level _ _ _ _ _ _ _ _ _ _) as [[[x y1] y2] y3].
    destruct L as [[Hx _]|(Hx & _ & Hside & _)]; [destruct (Z.leb_spec (sweep_points s) x); [by left|lia]|].
    assert (x <> idx) by (intros ->; by destruct (fgt (get idx) y)).
    destruct (Z.leb_spec (sweep_points s) x); [by left|]. unfold ahead in Hx. rewrite u16_small by lia. right. lia.
  - apply Z.nlt_ge in Hge. destruct (Z.to_nat (sweep_points s + 1)); cbn [search_level];
      rewrite !(proj2 (Z.leb_le (sweep_points s) idx)) by lia; by left.
Qed.

Lemma resonance_loop_spec fuel : forall (s : vna spec_float) x found,
  0 <= x <= sweep_points s -> sweep_points s < 65536 -> sweep_points s - x < Z.of_nat fuel ->
  Z.of_nat (length found) <= MEASURE_RESONANCE_COUNT ->
  exists l, resonance_loop fuel s x found = Some l /\ Z.of_nat (length l) <= MEASURE_RESONANCE_COUNT.
Proof.
  induction fuel as [|k IH]; intros s x found Hx Hn Hf Hl; [lia|]. cbn [resonance_loop].
  change (Z.min MEASURE_RESONANCE_COUNT MARKERS_MAX) with 6. unfold MEASURE_RESONANCE_COUNT in *.
  destruct (Z.leb_spec 6 (Z.of_nat (length found))); [eauto|].
  pose proof (search_right_index x f0 (s11_resonance_value s) MARKER_INVALID s ltac:(lia) Hn) as L.
  destruct (measure_search_value _ _ _ _ _ _) as [[v x'] s']. destruct L as [->|Hx'].
  - change (freq_of_float (f0 : spec_float)) with 0. cbn. eauto.
  - destruct (freq_of_float v =? 0); [eauto|]. rewrite u16_small by lia. apply IH; [lia|exact Hn|lia|].
    destruct (add_resonance_value _ _); [rewrite length_app; cbn|]; lia.
Qed.

(** The search for the resonances ends, on any measured data (floats, with
    not-a-number samples included): one search per sweep point suffices, and it
    lists at most six resonances. *)
Theorem resonances_terminate (wref_addr : Z) (w : workref_t spec_float) (s : vna spec_float) (m : s11_resonance_measure_t spec_float) :
  0 <= sweep_points s < 65536 ->
  (exists l, resonance_loop (Z.to_nat (sweep_points s + 1)) s 0 [] = Some l) /\
  Z.of_nat (length (re_data (prepare_s11_resonance wref_addr w MEASURE_UPD_ALL s m))) <= MEASURE_RESONANCE_COUNT.
Proof.
  intros Hn.
  destruct (resonance_loop_spec (Z.to_nat (sweep_points s + 1)) s 0 []) as (l & E & Hl); [lia..|cbn; unfold MEASURE_RESONANCE_COUNT; lia|].
  split; [eauto|]. unfold prepare_s11_resonance. change (bit_test MEASURE_UPD_ALL MEASURE_UPD_SWEEP) with true. cbn [negb].
  rewrite E. unfold re_data. unfold MEASURE_RESONANCE_COUNT in *.
  destruct (length l =? 0)%nat eqn:El; cbn [negb]; [|exact Hl].
  destruct (search_peak_value _ _ _ _) as [y x]. destruct (x =? 0); [exact Hl|].
  destruct (add_resonance_value _ _); cbn; lia.
Qed.

(** Eleven points, the imaginary part of the reflection crossing zero twice. *)
Definition waves : vna spec_float :=
  update_frequencies (upd_props (fun p => set__sweep_points 11 (set__frequency0 1000000 (set__frequency1 2000000 p)))
    (set_measured [map (fun y => (f0, f_lit y (-2))) [10; 40; 50; 20; -20; -45; -40; -10; 10; 30; 50]] power_on)).

Lemma resonances_terminate_witness :
  Z.of_nat (length (re_data (prepare_s11_resonance 0 (workref_boot [] []) MEASURE_UPD_ALL waves (S11_resonance [] WREF_NONE f0)))) <= 6.
Proof. apply resonances_terminate. vm_compute. by split. Defined.
Example waves_resonances :
  map (fun d => fst (fst d)) (re_data (prepare_s11_resonance 0 (workref_boot [] []) MEASURE_UPD_ALL waves (S11_resonance [] WREF_NONE f0))) = [1353112; 1743844].
Proof. vm_compute. reflexivity. Qed.

(** A straight line through zero: the degenerate quadratic of
    [collinear_samples_fail] gives no frequency, and the crossing is missed. *)
Definition straight : vna spec_float :=
  update_frequencies (upd_props (fun p => set__sweep_points 11 (set__frequency0 1000000 (set__frequency1 2000000 p)))
    (set_measured [map (fun y => (f0, fdiv (f_of_Z y) (f_of_Z 128))) [70; 50; 30; 10; -10; -30; -50; -70; -72; -74; -75]] power_on)).
Example straight_crossing_missed : resonance_loop 12 straight 0 [] = Some [].
Proof. vm_compute. reflexivity. Qed.

(** ** The workflow panels and the dispatch *)

Section Workflow.
Context {F : Type} `{FloatOps F} `{!FloatBits F}.
Variables (wref_addr wfix_addr : Z).
Implicit Types (s : vna F) (w : workref_t F).
Local Open Scope float_scope.

Record tune_measure_t := Tune_measure {
  tu_f_swrmin : F; tu_f_x0 : F; tu_r : F; tu_swr : F; tu_swr_at_target : F; tu_bw2 : F; tu_ref_f0 : F;
  tu_ref : wref_state_t; tu_bw_ok : bool; tu_has_dip : bool; tu_have_swr_at_target : bool; tu_target_in_cal : bool }.

Definition wref_swr_value w (i : Z) : F := swr (point_at (wref_s11 w) i).
Definition wref_r_value w (i : Z) : F := resistance (point_at (wref_s11 w) i).

Definition prepare_tune (tune_target_hz : Z) w (update_mask : Z) s (m : tune_measure_t) : tune_measure_t :=
  if negb (bit_test update_mask MEASURE_UPD_ALL) then m else
  let n := sweep_points s in
  let p := current_props s in
  let bw := swr_bw_analyse (s11_bw_swr s) (s11_bw_freq s) (s11_bw_r s) n (-1) PORT_Z in
  let lo := nth 0 (bw_f_lo bw) f0 in let hi := nth 0 (bw_f_hi bw) f0 in
  let bw2 := if fneqb lo f0 && fneqb hi f0 then hi - lo else f0 in
  let step := if (1 <? n)%Z then f_of_Z (u32 (getFrequency (n - 1) s - getFrequency 0 s)) / f_of_Z (n - 1) else f0 in
  let x0 := fst (fst (measure_search_value 0 f0 (s11_resonance_value s) MEASURE_SEARCH_RIGHT MARKER_INVALID s)) in
  let at_target := if negb (tune_target_hz =? 0)%Z then measure_get_value 0 tune_target_hz s else None in
  let ref := wref_state_s11 wref_addr s w in
  Tune_measure (bw_f0 bw) x0 (if (bw_idx bw <? n)%Z then resistance (s11_at s (bw_idx bw)) else f0) (bw_swr0 bw)
    (match at_target with Some d => swr d | None => f0 end) bw2
    (match ref with
     | WREF_OK => bw_f0 (swr_bw_analyse (wref_swr_value w) (s11_bw_freq s) (wref_r_value w) n (-1) PORT_Z)
     | _ => f0
     end)
    ref (fgt step f0 && fge bw2 (f_of_Z 5 * step))
    ((0 <? bw_idx bw)%Z && (bw_idx bw + 1 <? n)%Z && flt (bw_swr0 bw) (f_of_Z 5))
    (match at_target with Some _ => true | None => false end)
    (negb (TUNE_CALIBRATED s) || tune_target_in_cal tune_target_hz (_cal_frequency0 p) (_cal_frequency1 p)).

Definition CHOKE_ROWS_MAX : Z := 10.
Definition CHOKE_BAND_MIN_POINTS : Z := 3.
Definition NO_ROW : Z := 255.

Record choke_row := Choke_row { cr_r : F; cr_x : F; cr_idx : Z; cr_rung : Z; cr_verdict : Z }.
Record choke_measure_t := Choke_measure {
  ck_rows : list choke_row; ck_worst : Z; ck_fix : wref_state_t; ck_more : Z; ck_zpeak_idx : Z; ck_zpeak : F;
  ck_ref_r : F; ck_ceil_w : F; ck_lim_w : F; ck_ref_state : wref_state_t;
  (* the edges of the worst band, local to prepare_choke *)
  ck_w_lo : F; ck_w_hi : F }.

Definition choke_get_r s w (i : Z) : F := fst (choke_z_at s w i).
Definition choke_get_x s w (i : Z) : F := snd (choke_z_at s w i).
Definition choke_get_f s (i : Z) : F := f_of_Z (getFrequency i s).
Definition choke_fix_z_at w (i : Z) : F * F := choke_zser (wfix_s21_at w i) PORT_Z.
Definition choke_points_in s (f_lo f_hi : F) : Z :=
  for_range 0 (sweep_points s) (fun i n =>
    let f := choke_get_f s i in if fge f f_lo && fle f f_hi then u16 (n + 1) else n) 0%Z.

(** One band of the table; [None] stops the loop ([break]). *)
Definition choke_band s w (target : F) (b : ham_band_t) (m : choke_measure_t) : choke_measure_t * bool :=
  let f_lo := f_of_Z (band_start b) in let f_hi := f_of_Z (band_end b) in
  let more v := Choke_measure (ck_rows m) (ck_worst m) (ck_fix m) (Z.lor (ck_more m) v) (ck_zpeak_idx m) (ck_zpeak m)
    (ck_ref_r m) (ck_ceil_w m) (ck_lim_w m) (ck_ref_state m) (ck_w_lo m) (ck_w_hi m) in
  if (band_end b <? 1500000)%Z then (m, true) else
  let np := choke_points_in s f_lo f_hi in
  if (np =? 0)%Z then (m, true)
  else if (np <? CHOKE_BAND_MIN_POINTS)%Z then (more 2%Z, true)
  else if (Z.of_nat (length (ck_rows m)) =? CHOKE_ROWS_MAX)%Z then (more 1%Z, false)
  else match choke_band_min (choke_get_r s w) (choke_get_f s) (sweep_points s) f_lo f_hi with
  | None => (m, true)
  | Some i =>
      let k := Z.of_nat (length (ck_rows m)) in
      let z := choke_z_at s w i in
      let zf := choke_fix_z_at w i in
      let craw := choke_rs_ceiling zf in let clim := choke_rs_ceiling_deembed zf in
      let verdict := choke_verdict (fst z) target clim in
      let jig := (verdict =? CHOKE_JIG)%Z in
      let row := Choke_row (if jig then craw else fst z) (snd z) i (choke_rung_m (f_lit 5 (-1) * (f_lo + f_hi))) verdict in
      let rows := ck_rows m ++ [row] in
      let worst_r := match nth_error (ck_rows m) (Z.to_nat (ck_worst m)) with Some r => cr_r r | None => f0 end in
      if negb jig && ((ck_worst m =? NO_ROW)%Z || (fst z <? worst_r)) then
        (Choke_measure rows k (ck_fix m) (ck_more m) (ck_zpeak_idx m) (ck_zpeak m) (ck_ref_r m) craw clim (ck_ref_state m) f_lo f_hi, true)
      else
        (Choke_measure rows (ck_worst m) (ck_fix m) (ck_more m) (ck_zpeak_idx m) (ck_zpeak m) (ck_ref_r m) (ck_ceil_w m)
           (ck_lim_w m) (ck_ref_state m) (ck_w_lo m) (ck_w_hi m), true)
  end.

Fixpoint choke_bands s w (target : F) (bands : list ham_band_t) (m : choke_measure_t) : choke_measure_t :=
  match bands with
  | [] => m
  | b :: rest => let '(m, continue) := choke_band s w target b m in if continue then choke_bands s w target rest m else m
  end.

(** The fields a first pass resets; the other ones keep their values. *)
Definition choke_reset (fix_ : wref_state_t) (m : choke_measure_t) : choke_measure_t :=
  Choke_measure [] NO_ROW fix_ 0 (ck_zpeak_idx m) f0 f0 (ck_ceil_w m) (ck_lim_w m) WREF_NONE f0 f0.

Definition prepare_choke (target : F) s w (m : choke_measure_t) : workref_t F * choke_measure_t :=
  let w := with_cb w in
  let fix_ := wfix_state wfix_addr s w in
  let m := choke_reset fix_ m in
  match fix_ with
  | WREF_OK =>
      if negb (bit_test (cal_status s) CALSTAT_ET) then (w, m) else
      let bands := match ham_bands_get (_ham_region (config s)) with Some (Some (l, _)) => l | _ => [] end in
      let m := choke_bands s w target bands m in
      let '(zpeak, zpeak_idx) := match choke_zpeak (choke_get_r s w) (choke_get_x s w) (sweep_points s) with
        | Some (zm, zi) => (zm, zi) | None => (ck_zpeak m, ck_zpeak_idx m) end in
      let ref := wref_state_z wref_addr wfix_addr s w in
      let '(ref_state, ref_r) :=
        match ref with
        | WREF_OK =>
            if (ck_worst m =? NO_ROW)%Z then (ref, f0) else
            match choke_band_min (wref_z_r w) (choke_get_f s) (sweep_points s) (ck_w_lo m) (ck_w_hi m) with
            | Some ri => (ref, wref_z_r w ri)
            | None => (WREF_NONE, f0)
            end
        | _ => (ref, f0)
        end in
      (w, Choke_measure (ck_rows m) (ck_worst m) (ck_fix m) (ck_more m) zpeak_idx zpeak ref_r (ck_ceil_w m) (ck_lim_w m)
            ref_state (ck_w_lo m) (ck_w_hi m))
  | _ => (w, m)
  end.

(** The memory of the panels and the variables of the workflow.  The code keeps
    one block for all panels and recomputes a panel when it is selected; here
    every panel has its own. *)
Record panels_t := Panels {
  pn_lc : lc_match_array_t F; pn_series : s21_analysis_t F; pn_filter : s21_filter_measure_t F;
  pn_cable : s11_cable_measure_t F; pn_resonance : s11_resonance_measure_t F; pn_swr_bw : swr_bw_result_t F;
  pn_tune : tune_measure_t; pn_choke : choke_measure_t }.
Record workflow_t := Workflow {
  wk_data_update : Z; wk_tune_target_hz : Z; wk_tune_change_m : F; wk_choke_target_ohm : F; wk_cable : cable_t F;
  wk_ref : workref_t F; wk_panels : panels_t }.

(** The column [update] of the table [measure]. *)
Definition measure_update (mode : Z) : Z := znth mode [0; 3; 1; 1; 1; 1; 3; 3; 3; 3; 1]%Z.
Definition measure_enable s : bool :=
  negb (MEASURE_END <=? _measure (current_props s))%Z && negb (Z.land (props_mode s) DOMAIN_MODE =? DOMAIN_TIME)%Z.

Definition with_panels (p : panels_t) (k : workflow_t) : workflow_t :=
  Workflow (wk_data_update k) (wk_tune_target_hz k) (wk_tune_change_m k) (wk_choke_target_ohm k) (wk_cable k) (wk_ref k) p.

(** The callback of the panel on display. *)
Definition run_panel (mode : Z) s (k : workflow_t) : vna F * workflow_t :=
  let p := wk_panels k in let u := wk_data_update k in
  let series h := let '(s, m) := prepare_series h (s, pn_series p) in
    (s, with_panels (Panels (pn_lc p) m (pn_filter p) (pn_cable p) (pn_resonance p) (pn_swr_bw p) (pn_tune p) (pn_choke p)) k) in
  match Z.to_nat mode with
  | 1%nat => (s, with_panels (Panels (prepare_lc_match s (pn_lc p)) (pn_series p) (pn_filter p) (pn_cable p) (pn_resonance p)
               (pn_swr_bw p) (pn_tune p) (pn_choke p)) k)
  | 2%nat => series LC_SHUNT
  | 3%nat => series LC_SERIES
  | 4%nat => series XTAL_SERIES
  | 5%nat => let '(s, m) := prepare_filter (s, pn_filter p) in
    (s, with_panels (Panels (pn_lc p) (pn_series p) m (pn_cable p) (pn_resonance p) (pn_swr_bw p) (pn_tune p) (pn_choke p)) k)
  | 6%nat => let '(s, m) := prepare_s11_cable (wk_cable k) u (s, pn_cable p) in
    (s, with_panels (Panels (pn_lc p) (pn_series p) (pn_filter p) m (pn_resonance p) (pn_swr_bw p) (pn_tune p) (pn_choke p)) k)
  | 7%nat => (s, with_panels (Panels (pn_lc p) (pn_series p) (pn_filter p) (pn_cable p)
               (prepare_s11_resonance wref_addr (wk_ref k) u s (pn_resonance p)) (pn_swr_bw p) (pn_tune p) (pn_choke p)) k)
  | 8%nat => (s, with_panels (Panels (pn_lc p) (pn_series p) (pn_filter p) (pn_cable p) (pn_resonance p)
               (prepare_s11_swr_bw s (bit_test u MEASURE_UPD_ALL) (pn_swr_bw p)) (pn_tune p) (pn_choke p)) k)
  | 9%nat => (s, with_panels (Panels (pn_lc p) (pn_series p) (pn_filter p) (pn_cable p) (pn_resonance p) (pn_swr_bw p)
               (prepare_tune (wk_tune_target_hz k) (wk_ref k) u s (pn_tune p)) (pn_choke p)) k)
  | 10%nat => let '(w, m) := prepare_choke (wk_choke_target_ohm k) s (wk_ref k) (pn_choke p) in
    (s, Workflow u (wk_tune_target_hz k) (wk_tune_change_m k) (wk_choke_target_ohm k) (wk_cable k) w
          (Panels (pn_lc p) (pn_series p) (pn_filter p) (pn_cable p) (pn_resonance p) (pn_swr_bw p) (pn_tune p) m))
  | _ => (s, k)
  end.

Definition measure_prepare (stamp : Z) s (k : workflow_t) : vna F * workflow_t :=
  let '(fixed, stored, w) := consume_requests wref_addr wfix_addr stamp s (wk_ref k) in
  let u := if fixed || stored then bit_set (wk_data_update k) MEASURE_UPD_SWEEP else wk_data_update k in
  let k := Workflow u (wk_tune_target_hz k) (if stored then f0 else wk_tune_change_m k) (wk_choke_target_ohm k) (wk_cable k)
    w (wk_panels k) in
  if negb (measure_enable s) then (s, k) else
  let mode := _measure (current_props s) in
  let '(s, k) := if bit_test u (measure_update mode) then run_panel mode s k else (s, k) in
  (s, Workflow 0 (wk_tune_target_hz k) (wk_tune_change_m k) (wk_choke_target_ohm k) (wk_cable k) (wk_ref k) (wk_panels k)).
End Workflow.
Arguments tune_measure_t : clear implicits.
Arguments choke_row : clear implicits.
Arguments choke_measure_t : clear implicits.
Arguments panels_t : clear implicits.
Arguments workflow_t : clear implicits.

(** ** The summary of the choke panel *)

Section ChokeSummary.
Context {F : Type} `{FO : FloatOrder F} `{!FloatBits F}.
Variables (s : vna F) (w : workref_t F) (target : F).

Definition judged (r : choke_row F) : Prop := cr_verdict r <> CHOKE_JIG.

(** The rows fit the table, and [ck_worst] is the row of the lowest judged
    resistance, or 255 when no row is judged. *)
Definition worst_lowest (m : choke_measure_t F) : Prop :=
  Z.of_nat (length (ck_rows m)) <= CHOKE_ROWS_MAX /\
  ((ck_worst m = NO_ROW /\ forall r, In r (ck_rows m) -> ~ judged r) \/
   exists k r0, ck_worst m = Z.of_nat k /\ nth_error (ck_rows m) k = Some r0 /\ judged r0 /\
     forall r, In r (ck_rows m) -> judged r -> flt (cr_r r) (cr_r r0) = false).

Lemma choke_band_worst (b : ham_band_t) (m : choke_measure_t F) : worst_lowest m -> worst_lowest (fst (choke_band s w target b m)).
Proof.
  intros (Hl & Hw). unfold choke_band.
  destruct (band_end b <? 1500000); [by split|]. destruct (_ =? 0); [by split|]. destruct (_ <? CHOKE_BAND_MIN_POINTS); [by split|].
  destruct (Z.eqb_spec (Z.of_nat (length (ck_rows m))) CHOKE_ROWS_MAX) as [|Hne]; [by split|].
  destruct (choke_band_min _ _ _ _ _) as [i|]; [|by split].
  set (z := choke_z_at s w i). set (zf := choke_fix_z_at w i).
  set (v := choke_verdict (fst z) target (choke_rs_ceiling_deembed zf)).
  set (row := Choke_row _ _ _ _ _).
  assert (Hj : judged row <-> (v =? CHOKE_JIG) = false) by (unfold judged; cbn; by rewrite Z.eqb_neq).
  assert (Hlen : Z.of_nat (length (ck_rows m ++ [row])) <= CHOKE_ROWS_MAX) by (rewrite length_app; cbn; lia).
  destruct (v =? CHOKE_JIG) eqn:Ev; cbn [negb andb].
  - assert (Hnj : ~ judged row) by (rewrite Hj; congruence). cbn [fst]. split; [exact Hlen|]. cbn [ck_worst ck_rows].
    destruct Hw as [[Hw Hall]|(k & r0 & Hk & Hn & Hj0 & Hall)]; [left|right].
    + split; [exact Hw|]. intros r [Hr|[<-|[]]]%in_app_iff; [by apply Hall|exact Hnj].
    + exists k, r0. split; [exact Hk|]. split; [rewrite nth_error_app1; [exact Hn|apply nth_error_Some; congruence]|].
      split; [exact Hj0|]. intros r [Hr|[<-|[]]]%in_app_iff Hjr; [by apply Hall|done].
  - assert (Hjr : judged row) by by apply Hj.
    assert (Er : cr_r row = fst z) by done.
    destruct Hw as [[Hw Hall]|(k & r0 & Hk & Hn & Hj0 & Hall)].
    + rewrite Hw. cbn [orb NO_ROW Z.eqb Pos.eqb fst]. split; [exact Hlen|]. right. exists (length (ck_rows m)), row.
      cbn [ck_worst ck_rows]. split; [done|]. split; [by rewrite nth_error_app2, Nat.sub_diag by lia|]. split; [exact Hjr|].
      intros r [Hr|[<-|[]]]%in_app_iff Hjr'; [by destruct (Hall r Hr)|apply flt_irrefl].
    + rewrite Hk, Nat2Z.id, Hn. assert (k < length (ck_rows m))%nat by (apply nth_error_Some; congruence).
      destruct (Z.eqb_spec (Z.of_nat k) NO_ROW) as [E|_]; [unfold NO_ROW, CHOKE_ROWS_MAX in *; lia|]. cbn [orb].
      destruct (flt (fst z) (cr_r r0)) eqn:Elt; cbn [fst]; (split; [exact Hlen|]); right; cbn [ck_worst ck_rows].
      * exists (length (ck_rows m)), row. split; [done|]. split; [by rewrite nth_error_app2, Nat.sub_diag by lia|]. split; [exact Hjr|].
        intros r [Hr|[<-|[]]]%in_app_iff Hjr'; [|apply flt_irrefl]. apply not_true_is_false. intros Hc.
        pose proof (flt_trans _ _ _ Hc Elt) as Hx. rewrite Hall in Hx by done. discriminate.
      * exists k, r0. split; [done|]. split; [rewrite nth_error_app1; [exact Hn|done]|]. split; [exact Hj0|].
        intros r [Hr|[<-|[]]]%in_app_iff Hjr'; [by apply Hall|exact Elt].
Qed.

Lemma choke_bands_worst bands : forall m, worst_lowest m -> worst_lowest (choke_bands s w target bands m).
Proof.
  induction bands as [|b rest IH]; intros m Hm; [exact Hm|]. cbn [choke_bands].
  pose proof (choke_band_worst b m Hm) as Hb. destruct (choke_band s w target b m) as [m' c]. destruct c; [by apply IH|exact Hb].
Qed.
End ChokeSummary.

(** The choke panel lists at most ten bands, and its summary names the listed
    band with the lowest judged resistance: no band whose verdict is not JIG has a
    lower one, and there is no summary exactly when every listed band is JIG. *)
Theorem choke_worst_is_lowest {F} `{FO : FloatOrder F} `{!FloatBits F} (wref_addr wfix_addr : Z) (target : F) (s : vna F)
    (w : workref_t F) (m : choke_measure_t F) :
  worst_lowest (snd (prepare_choke wref_addr wfix_addr target s w m)).
Proof.
  assert (H0 : forall fix_, worst_lowest (choke_reset fix_ m)) by (intros fix_; split; [done|left; split; [done|intros r []]]).
  unfold prepare_choke. set (st := wfix_state wfix_addr s (with_cb w)). destruct st; try exact (H0 _).
  destruct (negb _); [exact (H0 _)|].
  set (bands := match ham_bands_get _ with Some (Some (l, _)) => l | _ => [] end).
  pose proof (choke_bands_worst s (with_cb w) target bands (choke_reset WREF_OK m) (H0 _)) as Hw.
  set (m' := choke_bands _ _ _ _ _) in *. clearbody m'.
  destruct (match choke_zpeak _ _ _ with Some _ => _ | None => _ end) as [zp zi].
  match goal with |- context [let '(_, _) := ?x in _] => destruct x as [st' rr] end. exact Hw.
Qed.

Lemma choke_worst_is_lowest_witness :
  worst_lowest (snd (prepare_choke 0 0 (f_of_Z 500) waves (workref_boot [] []) (choke_reset WREF_NONE
    (Choke_measure [] 0 WREF_NONE 0 0 f0 f0 f0 f0 WREF_NONE f0 f0)))).
Proof. apply choke_worst_is_lowest. Defined.
